(* ===== verification/_CoqProject ===== *)
-Q . S2P
Prelude.v
GoStrings.v
GoUrl.v
Base64.v
Sha.v
Json.v
JsonText.v
GoFloat.v
Model.v
Store.v
GoNet.v
Crypto.v
Compliance.v
Policy.v
Protocol.v
Xray.v
Usage.v
Enrollment.v
Control.v
Agent.v
Server.v
Config.v
Mfa.v
Billing.v
Pg.v
Hub.v
Vault.v
Web.v
Session.v
Wallet.v
Lifecycle.v
Pki.v
Feed.v
Notify.v
Admin.v
Devices.v
Gate.v
Settings.v
Commands.v
Dial.v
Schema.v
App.v
