(* ===== verification/Prelude.v ===== *)
(** * RiseVPN: a verification development

    RiseVPN is a VPN service in two Go programs.  The _node agent_
    (src/cmd/risevpn-node, src/internal) runs beside the two data planes of a
    node: it admits devices and destinations for the Hysteria server over a local
    HTTP interface, keeps the users of an Xray server in step with its database,
    meters traffic, and takes commands from the _control plane_
    (src/internal/controlplane) over a WebSocket, in the messages of
    src/protocol/v2.  The control plane owns users, subscriptions and wallets,
    enrolls the nodes, serves the links of the devices and signs the quota leases
    and compliance feeds that the agent checks.

    This library models both programs as executable functions over explicit state,
    translated function by function with the names of the source, and proves what
    makes them correct, alone and together.

    ** Files and the code they model

    The language and its libraries:
    - [Prelude]: Go errors and results; programs with state ([prog]), the
      relation between the states before and after a program ([keeps],
      [preserves], [same]), access to a part of a larger state ([Part], [on]);
      iteration over a Go map in an unspecified order ([MapOrder], [range]);
      64-bit integers ([in_int64], [wrap64]); instants ([time], nanoseconds).
    - [GoStrings], [GoUrl], [Base64], [Sha], [Json], [JsonText], [GoFloat],
      [GoNet]: what the source uses of [strings], [strconv], [net/url],
      [encoding/base64], SHA-256, SHA-1 and HMAC, [encoding/json] (scanning of
      texts, decoding into structs, printing, RFC 3339 times, float64 numbers with
      exact rounding), IP addresses and prefixes.
    - [Crypto]: the interface of Ed25519, with its laws.

    The node agent:
    - [Model]: src/internal/model and src/internal/security.
    - [Store]: src/internal/store.  The SQLite file is a record of tables
      ([tables]); the driver may fail at any statement ([sqlite] carries a list
      of outcomes still to come), and a transaction that fails leaves the tables
      as they were.   [Schema]: opening the file and bringing the tables of an
      earlier release up to date.
    - [Compliance]: src/internal/compliance.   [Policy]: src/internal/policy.
    - [Protocol]: src/protocol/v2.
    - [Xray]: src/internal/xray and src/internal/vless.  The gRPC interface of the
      Xray process is the class [XrayApi]; [XrayLaws] says what its calls do to
      the set of users.
    - [Usage]: src/internal/usage, over the class [TrafficApi] for the HTTP
      interface of the Hysteria server.
    - [Enrollment]: src/internal/enrollment, over the classes [X509] and
      [UrlParser].
    - [Control]: src/internal/control.  The objects the client is given are the
      record [Provisioner] and a list of kickers; [ProvisionerSpec] is what they
      promise, and the theorems on the client are proved against it.
      [Dial]: the TLS configuration and the opening of a connection.
    - [Agent]: the wiring of src/cmd/risevpn-node/main.go [serve]; the Xray
      manager and the collector are proved to keep the promises that [Control]
      asks for.   [Commands]: the command line, the start of [serve] and the
      commands of the operator.
    - [Server]: the handlers of src/internal/server as functions from a request
      body to a response.
    - [Config]: src/internal/config.

    The control plane (src/internal/controlplane):
    - [Pg]: the PostgreSQL tables of migrations/ with their constraints; a
      statement may fail, or take effect while its reply is lost, and a failed
      statement aborts its transaction ([in_transaction], [transact]).
    - [Billing]: the arithmetic of billing.go and provisioning.go.
    - [Hub]: nodehub.go (usage intake, acknowledgements, delivery,
      resynchronisation), provisioning.go, the quota renewal of workers.go.
      [Gate]: the connections of nodehub.go (admission, replacement, messages,
      departure) as steps of the hub ([gate_step]).
    - [Pki]: pki.go and [rotateCertificates]; a node enrolled through it is one of
      [Enrollment].   [Feed]: [refreshCompliance]; its feeds are those of
      [Compliance].   [Notify]: [deliverNotifications].
      [Lifecycle]: [subscriptionLifecycle].
    - [Vault]: crypto.go.   [Mfa]: the one-time codes of mfa.go.
    - [Web], [Session]: requests and replies, sessions, roles, terms, login,
      logout, the second factor and the rate limiter, over PostgreSQL and Redis.
    - [Wallet], [Admin], [Devices]: credits, adjustments and plan changes;
      account states, roles and queued commands; devices, their links and the
      subscription document.
    - [Settings], [App]: config.go, the migrations of database.go, the key set of
      telegram_oidc.go; the construction of the application, the embedded pages
      and the list of a user's devices.

    ** What the theorems show

    - Access at the node (C1, C3, C10, C30, C40): who is admitted and which
      destinations are allowed, as an equivalence with the stored device, its plan
      and its overrides; both data planes apply the same rule; a revoked device
      stays out through any sequence of frames, collections and reconciliations
      that does not update that device; requests that can not be decided are
      refused.
    - Access at the control plane (C4, C7, C21, C35, C36): whose requests reach the
      handlers of the administration, who is logged in and who is served a
      configuration, whatever fails; the team keeps an owner; a blocked account
      loses its sessions and devices.
    - Trust between the programs (C9, C11-C16, C22, C31, C38): enrollment from the
      printed bundle to the stored certificate, admission by certificate and its
      rotation, feeds and leases are stored only when signed by the pinned keys,
      from the list of domains to the rules of the data plane, the identity of a
      node never changes.
    - Accounting (C2, C8, C17-C20, C23, C27, C28, C33, C34, C37, C39): balances are
      the running totals of the ledger, renewal, grace and suspension take effect
      as a whole, trials and credits happen once, traffic is conserved on 64-bit
      counters and counted once although reports are repeated, leases stay within
      what is left, proration is exact and in range, plan limits hold.
    - State and progress (C5, C6, C24-C26, C29, C32): the invariants of the
      databases are kept by every message and operation under failures,
      reconciliation makes the users of Xray those the database wants, the newest
      connection of a node is the one in use, commands are delivered in order,
      notifications end up sent or given up, migrations run once and in order.
    - Further theorems that are not in these lists end the files: the limits of
      duplicate suppression ([Control.redelivery_window]), of logout
      ([Session.logout_is_final]) and of the rate limiter
      ([Session.rateLimit_bound]), the settings ([Settings.LoadConfig_spec]),
      files of earlier releases ([Schema.migration_completes]), the certificate
      that is used after a rotation ([Dial.rotated_certificate_used]), the outcome
      of a start ([App.NewApp_outcome]) and others.

    ** Parameters

    Code that is not part of the repository is an argument: [UnicodeTables] and
    [UpperTables] (case mapping above ASCII), [Float64Format] (the text of a JSON
    number), [Ed25519], [Aead] (AES-GCM), [X509], [X509Issuing], [TlsKit],
    [UrlParser], [Idna] (domain names), [UuidSha1], [XrayApi], [TrafficApi],
    [PgUuid] (the spellings of a uuid), [PgServer] (which statements the server
    accepts), [LoadColumn] (LEAST on a double), [RowOrder] and [NoticeOrder] (the
    order of rows with equal keys), [MapOrder], the check of an inet text, the
    exchange and verification of the login provider, and the effect of a migration
    script.  Their laws are the fields of classes; each has an instance that
    satisfies them ([plain_unicode], [plain_upper], [plain_floats], [toy_ed25519],
    [toy_aead], [toy_x509], [toy_issuing], [toy_tls], [toy_url], [plain_idna],
    [toy_uuid], [toy_xray_api], [toy_traffic_api], [toy_uuid_type], [capped_load],
    [created_order], [scheduled_order], [sorted_order]), used by the witnesses.
    Clock readings, random bytes and the outcomes of files and sockets are
    arguments of the functions that take them.

    ** Bounds and fuel

    Column values are 64-bit integers and a statement that would exceed them
    fails, as SQLite's integer column read back into [int64] does; the theorems
    that need a sum to stay in range say so.  Recursion with fuel: the scanner of
    [JsonText] (twice the length of the text and one more, enough by
    [parse_fuel]), the blocks of a padded message in [Sha] (the length of the
    message), trimming in [GoStrings] (the length of the string, each round removes
    a byte), the groups of an IPv6 address in [GoNet] (each round fills two of
    sixteen bytes), string escaping in [Json] (the length of the string)
    and the trailing zeros of a fraction (its nine digits), and decimal printing in [GoStrings], where the fuel is proved to be
    enough by the round trip [ParseInt_FormatInt].  All other recursion is
    structural.

    ** Not modelled

    - Listening, routing tables, response headers, shutdown and signals: input and
      output of the libraries.  A WebSocket is the sequence of messages it carries.
    - Ticker loops ([Run] of the Xray manager, the collector and the client,
      [workerLoop], [complianceLoop]): represented by arbitrary sequences of the
      steps they run, which is what the theorems quantify over.
    - The listings [me], [plans], [subscription] and [network] and those of the
      administration (overview, statistics, users, team, alerts, audit, ledger):
      they read columns, names and creation times that no decision of the program
      depends on and change nothing.
    - The deletions of [enforceRetention]: one statement per table by age.
    - [loadAverage] and the numbers of processors and goroutines of a heartbeat:
      the control plane receives them as numbers ([Gate]).
    - The commands risevpn-control and risevpn-keygen and the test double
      risevpn-mock-controller; the embedded assets and the web frontend in web/.

    ** This file

    Shared vocabulary: errors, programs, map iteration, integers, time. *)

From stdpp Require Import base gmap strings list fin_maps sorting.
From Stdlib Require Import ZArith Lia.

#[global] Open Scope Z_scope.

(** ** Go errors and results

    A Go function that returns [(T, error)] is modelled by [result T].  The
    message texts of [errors.New] and [fmt.Errorf] are kept; an error that a
    library produces carries only its origin. *)

Inductive sql_error :=
  | SqlFault            (* the driver reports a failure of the statement *)
  | SqlConstraint       (* a UNIQUE or CHECK constraint is violated *)
  | SqlNoRows           (* sql.ErrNoRows *)
  | SqlScan.            (* the column value does not fit the Go variable *)

Inductive error :=
  | Msg (text : string)
  | Wrap (text : string) (cause : error)
  | Join (first second : error)
  | SqlErr (kind : sql_error)
  | LibErr (package : string).

#[export] Instance sql_error_eq_dec : EqDecision sql_error.
Proof. solve_decision. Defined.
#[export] Instance error_eq_dec : EqDecision error.
Proof. solve_decision. Defined.

(** [err.Error()]; the texts of library errors are named by their origin. *)
Fixpoint error_text (e : error) : string :=
  match e with
  | Msg text => text
  | Wrap text cause => text +:+ ": " +:+ error_text cause
  | Join a b => error_text a +:+ String (Ascii.ascii_of_nat 10) "" +:+ error_text b
  | SqlErr SqlNoRows => "sql: no rows in result set"
  | SqlErr _ => "sqlite"
  | LibErr package => package
  end.

Inductive result (A : Type) :=
  | Ok (a : A)
  | Err (e : error).
Arguments Ok {A} a.
Arguments Err {A} e.

Definition is_ok {A} (r : result A) : bool :=
  match r with Ok _ => true | Err _ => false end.

Definition result_map {A B} (f : A -> B) (r : result A) : result B :=
  match r with Ok a => Ok (f a) | Err e => Err e end.

Definition wrap_error {A} (text : string) (r : result A) : result A :=
  match r with Ok a => Ok a | Err e => Err (Wrap text e) end.

(** ** State-passing programs

    Stateful Go code over a state [W] is a function that returns its result
    together with the state it leaves.  An error does not undo the effects
    that happened before it; only a transaction does (see [Store]). *)

Definition prog (W A : Type) : Type := W -> result A * W.

Definition ret {W A} (a : A) : prog W A := fun w => (Ok a, w).
Definition fail {W A} (e : error) : prog W A := fun w => (Err e, w).
Definition bind {W A B} (m : prog W A) (k : A -> prog W B) : prog W B :=
  fun w => match m w with
           | (Ok a, w') => k a w'
           | (Err e, w') => (Err e, w')
           end.

(** [try m] runs [m] and hands its outcome to the caller as a value: the form
    of [x, err := m()] when the code inspects or ignores [err]. *)
Definition try {W A} (m : prog W A) : prog W (result A) :=
  fun w => let (r, w') := m w in (Ok r, w').

(** [lift r] returns the pure result [r]. *)
Definition lift {W A} (r : result A) : prog W A := fun w => (r, w).

Declare Scope go_scope.
Delimit Scope go_scope with go.
Notation "'let*' x := m 'in' k" := (bind m (fun x => k))
  (at level 10, x pattern, m at level 100, k at level 200) : go_scope.
Notation "m ;;; k" := (bind m (fun _ => k))
  (at level 100, k at level 200, right associativity) : go_scope.
#[global] Open Scope go_scope.

(** [for_each f l] is a Go [for range] loop whose body may return early with an
    error. *)
Fixpoint for_each {W A} (f : A -> prog W unit) (l : list A) : prog W unit :=
  match l with
  | [] => ret tt
  | x :: l' => f x ;;; for_each f l'
  end.

Lemma bind_ok {W A B} (m : prog W A) (k : A -> prog W B) w a w' :
  m w = (Ok a, w') -> bind m k w = k a w'.
Proof. intros H. unfold bind. by rewrite H. Qed.

Lemma bind_err {W A B} (m : prog W A) (k : A -> prog W B) w e w' :
  m w = (Err e, w') -> bind m k w = (Err e, w').
Proof. intros H. unfold bind. by rewrite H. Qed.

(** ** Frame reasoning

    [keeps R m] says that running [m] relates the states before and after by
    [R], whatever the outcome.  With [R] a preorder the fact composes. *)

Definition keeps {W A} (R : relation W) (m : prog W A) : Prop :=
  forall w, R w (m w).2.

Section Keeps.
Context {W : Type} (R : relation W) `{!PreOrder R}.

Lemma keeps_ret {A} (a : A) : keeps R (ret a).
Proof. intros w. reflexivity. Qed.
Lemma keeps_fail {A} (e : error) : keeps R (@fail W A e).
Proof. intros w. reflexivity. Qed.
Lemma keeps_lift {A} (r : result A) : keeps R (lift r).
Proof. intros w. reflexivity. Qed.
Lemma keeps_bind {A B} (m : prog W A) (k : A -> prog W B) :
  keeps R m -> (forall a, keeps R (k a)) -> keeps R (bind m k).
Proof.
  intros Hm Hk w. unfold bind. pose proof (Hm w) as H1.
  destruct (m w) as [[a|e] w'] eqn:E; simpl in *; [|done].
  etransitivity; [done|]. apply Hk.
Qed.
Lemma keeps_try {A} (m : prog W A) : keeps R m -> keeps R (try m).
Proof. intros Hm w. unfold try. specialize (Hm w). by destruct (m w). Qed.
Lemma keeps_if {A} (b : bool) (m1 m2 : prog W A) :
  keeps R m1 -> keeps R m2 -> keeps R (if b then m1 else m2).
Proof. by destruct b. Qed.
Lemma keeps_for_each {A} (f : A -> prog W unit) l :
  (forall a, keeps R (f a)) -> keeps R (for_each f l).
Proof.
  intros Hf. induction l as [|x l IH]; simpl; [apply keeps_ret|].
  apply keeps_bind; auto.
Qed.
End Keeps.

Lemma keeps_for_each_elem {W A} (R : relation W) `{!PreOrder R} (f : A -> prog W unit) l :
  (forall a, a ∈ l -> keeps R (f a)) -> keeps R (for_each f l).
Proof.
  induction l as [|x l IH]; intros Hf; simpl; [apply keeps_ret; apply _|].
  apply keeps_bind; [apply _|apply Hf; left|]. intros _. apply IH. intros a Ha. apply Hf. by right.
Qed.

(** A loop that came to its end has run its body for every element. *)
Lemma for_each_done {W A} (R : relation W) `{!PreOrder R} (f : A -> prog W unit) l w w' x :
  (forall a, a ∈ l -> keeps R (f a)) -> for_each f l w = (Ok tt, w') -> x ∈ l ->
  exists w1 w2, f x w1 = (Ok tt, w2) /\ R w2 w'.
Proof.
  revert w. induction l as [|y l IH]; intros w Hf Hrun Hx; [by apply elem_of_nil in Hx|].
  simpl in Hrun. unfold bind in Hrun. destruct (f y w) as [[[]|e] w1] eqn:E; [|done].
  apply elem_of_cons in Hx as [->|Hx].
  - exists w, w1. split; [done|]. pose proof (keeps_for_each_elem R f l (fun a Ha => Hf a (list_elem_of_further _ _ _ Ha)) w1) as H.
    by rewrite Hrun in H.
  - apply (IH w1); [intros a Ha; apply Hf; by right|done|done].
Qed.

(** A loop whose body never fails while an invariant holds comes to its end. *)
Lemma for_each_total {W A} (P : W -> Prop) (f : A -> prog W unit) l :
  (forall x w, x ∈ l -> P w -> exists w', f x w = (Ok tt, w') /\ P w') ->
  forall w, P w -> exists w', for_each f l w = (Ok tt, w') /\ P w'.
Proof.
  induction l as [|x l IH]; intros Hf w Hw; [by exists w|]. simpl. unfold bind.
  destruct (Hf x w ltac:(left) Hw) as (w1 & -> & Hw1). apply IH; [|done]. intros y w2 Hy. apply Hf. by right.
Qed.

(** An invariant, as a relation: it holds after if it held before. *)
Definition preserves {W} (I : W -> Prop) : relation W := fun w w' => I w -> I w'.
#[export] Instance preserves_preorder {W} (I : W -> Prop) : PreOrder (preserves I).
Proof. split; [intros w H; done|intros x y z H1 H2 H; auto]. Qed.

(** A view of the state that does not change. *)
Definition same {W V} (v : W -> V) : relation W := fun w w' => v w' = v w.
#[export] Instance same_preorder {W V} (v : W -> V) : PreOrder (same v).
Proof. split; [intros w; reflexivity|intros x y z H1 H2; unfold same in *; congruence]. Qed.

(** ** Components of a larger state

    [Part S W]: a state [W] has a part of type [S]; [on m] runs a program on
    that part. *)

Class Part (S W : Type) := {
  part : W -> S;
  with_part : S -> W -> W;
  part_with : forall s w, part (with_part s w) = s;
  with_part_id : forall w, with_part (part w) w = w }.

Definition on {S W A} `{Part S W} (m : prog S A) : prog W A := fun w =>
  let (r, s) := m (part w) in (r, with_part s w).

(** A relation on the part, seen on the whole. *)
Definition on_part {S W} `{Part S W} (R : relation S) : relation W :=
  fun w w' => R (part w) (part w').
#[export] Instance on_part_preorder {S W} `{Part S W} (R : relation S) `{!PreOrder R} :
  PreOrder (on_part R : relation W).
Proof.
  split; [intros w; unfold on_part; reflexivity|].
  intros x y z H1 H2. unfold on_part in *. by etransitivity.
Qed.

Lemma keeps_on {S W A} `{Part S W} (R : relation S) (m : prog S A) :
  keeps R m -> keeps (on_part R) (on m : prog W A).
Proof.
  intros Hm w. unfold on, on_part. specialize (Hm (part w)).
  destruct (m (part w)) as [r s]; simpl in *. by rewrite part_with.
Qed.

Lemma on_cases {S W A} `{Part S W} (m : prog S A) (w w' : W) r :
  on m w = (r, w') -> exists s, m (part w) = (r, s) /\ w' = with_part s w.
Proof. unfold on. destruct (m (part w)) as [r0 s]. intros [= <- <-]. eauto. Qed.

(** Every program is a part of itself. *)
#[export] Instance part_self {W} : Part W W | 10 := 
  {| part w := w; with_part s _ := s; part_with _ _ := eq_refl; with_part_id _ := eq_refl |}.

(** Go's [range] over a map visits the entries in an unspecified order. *)
Class MapOrder := {
  range : forall {A}, gmap string A -> list (string * A);
  range_perm : forall A (m : gmap string A), range m ≡ₚ map_to_list m }.

Definition sorted_order : MapOrder := {| range A m := map_to_list m; range_perm A m := reflexivity _ |}.

Lemma elem_of_range `{MapOrder} {A} (m : gmap string A) k v :
  (k, v) ∈ range m <-> m !! k = Some v.
Proof. rewrite range_perm. apply elem_of_map_to_list. Qed.
Lemma range_keys `{MapOrder} {A} (m : gmap string A) k : k ∈ (range m).*1 <-> is_Some (m !! k).
Proof.
  rewrite list_elem_of_fmap. split.
  - intros ([k' v] & -> & Hk). apply elem_of_range in Hk. eauto.
  - intros [v Hv]. exists (k, v). split; [done|]. by apply elem_of_range.
Qed.
Lemma NoDup_range `{MapOrder} {A} (m : gmap string A) : NoDup (range m).*1.
Proof. rewrite range_perm. apply NoDup_fst_map_to_list. Qed.

Create HintDb risevpn discriminated.
Create Rewrite HintDb risevpn_rw.
#[export] Hint Resolve keeps_ret keeps_fail keeps_lift keeps_bind keeps_try
  keeps_if keeps_for_each keeps_on : risevpn.
#[export] Hint Extern 1 (PreOrder _) => apply _ : risevpn.

(** [keep] proves a [keeps] goal by following the structure of the program. *)
Ltac keep :=
  repeat first
    [ apply keeps_ret; [apply _]
    | apply keeps_fail; [apply _]
    | apply keeps_lift; [apply _]
    | apply keeps_try
    | progress eauto 2 with risevpn nocore
    | apply keeps_bind; [apply _| |intros ?]
    | apply keeps_for_each; [apply _|intros ?]
    | match goal with
      | |- keeps _ (match ?x with _ => _ end) => destruct x eqn:?
      | |- keeps _ (let (_, _) := ?x in _) => destruct x eqn:?
      end ].

(** ** Machine integers

    [int64] (and [int] on the 64-bit targets the agent is built for) is [Z]
    with an explicit wrap-around. *)

Definition int64_min : Z := - 2 ^ 63.
Definition int64_max : Z := 2 ^ 63 - 1.
Definition in_int64 (z : Z) : bool := (int64_min <=? z) && (z <=? int64_max).
Definition wrap64 (z : Z) : Z := (z + 2 ^ 63) mod 2 ^ 64 - 2 ^ 63.

Definition add64 (a b : Z) : Z := wrap64 (a + b).
Definition sub64 (a b : Z) : Z := wrap64 (a - b).
Definition mul64 (a b : Z) : Z := wrap64 (a * b).
(** Go's integer division truncates toward zero. *)
Definition quot64 (a b : Z) : Z := wrap64 (Z.quot a b).

Lemma in_int64_spec z : in_int64 z = true <-> int64_min <= z <= int64_max.
Proof. unfold in_int64. lia. Qed.

Lemma wrap64_id z : in_int64 z = true -> wrap64 z = z.
Proof.
  rewrite in_int64_spec. unfold wrap64, int64_min, int64_max. intros H.
  rewrite Z.mod_small; lia.
Qed.

Lemma wrap64_range z : in_int64 (wrap64 z) = true.
Proof.
  apply in_int64_spec. unfold wrap64, int64_min, int64_max.
  pose proof (Z.mod_pos_bound (z + 2 ^ 63) (2 ^ 64)). lia.
Qed.

#[export] Hint Resolve wrap64_range : risevpn.

(** ** time.Time and time.Duration

    An instant is its number of nanoseconds since the Unix epoch, in UTC; the
    location and the monotonic clock reading are not represented.  A duration
    is an int64 number of nanoseconds. *)

Abbreviation time := Z (only parsing).
Definition second : Z := 1000000000.
Definition minute : Z := 60 * second.
Definition hour : Z := 60 * minute.

(** [t.After(u)] *)
Definition After (t u : time) : bool := u <? t.
(** [t.Unix()]: the second that contains [t]. *)
Definition Unix (t : time) : Z := t / second.
(** [time.Unix(s, 0)] *)
Definition FromUnix (s : Z) : time := s * second.
(** [t.Add(d)] *)
Definition TimeAdd (t : time) (d : Z) : time := t + d.
(** [t.Sub(u)] saturates at the limits of [time.Duration]. *)
Definition TimeSub (t u : time) : Z := Z.max int64_min (Z.min int64_max (t - u)).
(** [time.Time{}] is January 1, year 1. *)
Definition zero_time : time := FromUnix (-62135596800).

Lemma After_spec t u : After t u = true <-> u < t.
Proof. unfold After. lia. Qed.

Lemma Unix_FromUnix s : Unix (FromUnix s) = s.
Proof. unfold Unix, FromUnix. rewrite Z.div_mul; [done|]. unfold second. lia. Qed.

(** Storing an instant as seconds rounds it down, by less than a second. *)
Lemma FromUnix_Unix t : t - second < FromUnix (Unix t) <= t.
Proof.
  unfold Unix, FromUnix, second.
  pose proof (Z.div_mod t 1000000000). pose proof (Z.mod_pos_bound t 1000000000). lia.
Qed.

(** ** Shared tactics *)

Ltac go_simpl :=
  unfold bind, ret, fail, try, lift in *; simpl in *.

(** Case analysis on the innermost match of a hypothesis. *)
Ltac case_in H :=
  match type of H with
  | context [match ?x with _ => _ end] =>
      lazymatch x with
      | context [match _ with _ => _ end] => fail
      | _ => destruct x eqn:?
      end
  end.

(** Follow every branch of a program's definition in a hypothesis. *)
Ltac go_cases H := repeat (case_in H; simplify_eq/=).

Lemma bool_not_true b : b <> true <-> b = false.
Proof. by destruct b. Qed.

(** Two tests that agree on the elements of a list select the same ones. *)
Lemma filter_agree {A} (f g : A -> bool) (l : list A) :
  (forall x, x ∈ l -> f x = g x) -> filter (fun x => f x = true) l = filter (fun x => g x = true) l.
Proof.
  induction l as [|x l IH]; intros Hfg; [done|]. rewrite !filter_cons.
  rewrite IH by (intros; apply Hfg; by constructor).
  specialize (Hfg x (list_elem_of_here _ _)). by destruct (f x), (g x).
Qed.

Lemma NoDup_fmap_filter {A B} (f : A -> B) (P : A -> Prop) `{!forall x, Decision (P x)} (l : list A) :
  NoDup (f <$> l) -> NoDup (f <$> filter P l).
Proof.
  induction l as [|x l IH]; intros Hnd; [constructor|].
  apply NoDup_cons in Hnd as [Hni Hnd]. rewrite filter_cons. case_decide; [|auto].
  apply NoDup_cons. split; [|auto]. intros Hx. apply Hni.
  apply list_elem_of_fmap in Hx as (y & Hy & Hin). apply list_elem_of_filter in Hin as [_ Hin].
  apply list_elem_of_fmap. eauto.
Qed.

Lemma filter_all {A} (P : A -> Prop) `{!forall x, Decision (P x)} (l : list A) :
  (forall x, x ∈ l -> P x) -> filter P l = l.
Proof.
  induction l as [|x l IH]; intros Hl; [done|].
  rewrite filter_cons_True by (apply Hl; constructor). f_equal. apply IH. intros y Hy. apply Hl. by constructor.
Qed.
