(* ===== verification/GoStrings.v ===== *)
(** * The Go string functions the program uses

    A Go string is a sequence of bytes; it is modelled by [string], whose
    characters are the 256 bytes.  [\[\]byte] values are modelled by the same
    type.  The functions follow the documented behaviour of the packages
    [strings], [strconv], [bytes] and [net] of Go. *)

From S2P Require Import Prelude.
From stdpp Require Import base strings list.
From Stdlib Require Import ZArith Lia Ascii String.
Open Scope Z_scope.

#[global] Arguments String.append !_ _ / : simpl nomatch.

(** ** Bytes *)

Definition byte_val (c : ascii) : Z := Z.of_N (N_of_ascii c).
Definition byte_of (z : Z) : ascii := ascii_of_N (Z.to_N z).

Lemma byte_val_range c : 0 <= byte_val c < 256.
Proof. unfold byte_val. pose proof (N_ascii_bounded c). lia. Qed.
Lemma byte_of_val c : byte_of (byte_val c) = c.
Proof. unfold byte_of, byte_val. rewrite N2Z.id. apply ascii_N_embedding. Qed.
Lemma byte_val_of z : 0 <= z < 256 -> byte_val (byte_of z) = z.
Proof. intros H. unfold byte_of, byte_val. rewrite N_ascii_embedding; lia. Qed.
#[export] Hint Resolve byte_val_range : risevpn.

(** ** Slices *)

Fixpoint sdrop (n : nat) (s : string) : string :=
  match n, s with
  | S n', String _ s' => sdrop n' s'
  | _, _ => s
  end.
Fixpoint stake (n : nat) (s : string) : string :=
  match n, s with
  | S n', String c s' => String c (stake n' s')
  | _, _ => ""
  end.

(** ** Prefixes, suffixes and substrings *)

Fixpoint HasPrefix (s p : string) : bool :=
  match p, s with
  | "", _ => true
  | String a p', String b s' => Ascii.eqb a b && HasPrefix s' p'
  | _, _ => false
  end.
Definition TrimPrefix (s p : string) : string :=
  if HasPrefix s p then sdrop (String.length p) s else s.

Definition HasSuffix (s p : string) : bool :=
  (String.length p <=? String.length s)%nat
  && String.eqb (sdrop (String.length s - String.length p) s) p.
Definition TrimSuffix (s p : string) : string :=
  if HasSuffix s p then stake (String.length s - String.length p) s else s.

Fixpoint Contains (s sub : string) : bool :=
  HasPrefix s sub || match s with "" => false | String _ s' => Contains s' sub end.

Fixpoint contains_byte (s : string) (c : ascii) : bool :=
  match s with "" => false | String a s' => Ascii.eqb a c || contains_byte s' c end.
(** [strings.ContainsAny] for a set of ASCII characters. *)
Fixpoint ContainsAny (s chars : string) : bool :=
  match s with "" => false | String a s' => contains_byte chars a || ContainsAny s' chars end.

Fixpoint IndexByte (s : string) (c : ascii) : option nat :=
  match s with
  | "" => None
  | String a s' => if Ascii.eqb a c then Some 0%nat else S <$> IndexByte s' c
  end.
Fixpoint LastIndexByte (s : string) (c : ascii) : option nat :=
  match s with
  | "" => None
  | String a s' =>
      match LastIndexByte s' c with
      | Some i => Some (S i)
      | None => if Ascii.eqb a c then Some 0%nat else None
      end
  end.

(** ** strings.TrimSpace

    The white space of [unicode.IsSpace], as UTF-8 encodings. *)

Definition spaces : list string :=
  (fun bs => string_of_list_ascii (byte_of <$> bs)) <$>
  ([[9]; [10]; [11]; [12]; [13]; [32]; [194; 133]; [194; 160]; [225; 154; 128]]
   ++ ((fun z => [226; 128; 128 + Z.of_nat z]) <$> seq 0 11)
   ++ [[226; 128; 168]; [226; 128; 169]; [226; 128; 175]; [226; 129; 159]; [227; 128; 128]]).

Fixpoint trim_left (fuel : nat) (s : string) : string :=
  match fuel with
  | O => s
  | S fuel' =>
      match list_find (fun w => HasPrefix s w = true) spaces with
      | Some (_, w) => trim_left fuel' (TrimPrefix s w)
      | None => s
      end
  end.
Fixpoint trim_right (fuel : nat) (s : string) : string :=
  match fuel with
  | O => s
  | S fuel' =>
      match list_find (fun w => HasSuffix s w = true) spaces with
      | Some (_, w) => trim_right fuel' (TrimSuffix s w)
      | None => s
      end
  end.
(** Each round removes at least one byte, so the length is enough fuel. *)
Definition TrimSpace (s : string) : string :=
  let l := trim_left (String.length s) s in trim_right (String.length l) l.

(** ** strings.ToLower

    ASCII strings take the fast path of the library; the Unicode tables for
    other strings are a parameter. *)

Class UnicodeTables := { lower_nonascii : string -> string }.

Fixpoint is_ascii (s : string) : bool :=
  match s with "" => true | String a s' => (byte_val a <? 128) && is_ascii s' end.
Definition lower_byte (a : ascii) : ascii :=
  let z := byte_val a in if (65 <=? z) && (z <=? 90) then byte_of (z + 32) else a.
Fixpoint map_bytes (f : ascii -> ascii) (s : string) : string :=
  match s with "" => "" | String a s' => String (f a) (map_bytes f s') end.
Definition ToLower `{UnicodeTables} (s : string) : string :=
  if is_ascii s then map_bytes lower_byte s else lower_nonascii s.

(** ** strconv *)

Definition digit_val (a : ascii) : option Z :=
  let z := byte_val a in if (48 <=? z) && (z <=? 57) then Some (z - 48) else None.

Definition uint64_max : Z := 2 ^ 64 - 1.

(** [ParseUint(s, 10, 64)]: [None] is a syntax error; a value too large stops
    the scan and saturates. *)
Fixpoint parse_uint (s : string) (n : Z) : option Z :=
  match s with
  | "" => Some n
  | String a s' =>
      match digit_val a with
      | None => None
      | Some d =>
          let n' := n * 10 + d in
          if uint64_max <? n' then Some uint64_max else parse_uint s' n'
      end
  end.

(** [ParseInt(s, 10, 64)] returns a value and whether [err == nil]: 0 after a
    syntax error, the nearest int64 after a range error. *)
Definition parse_magnitude (neg : bool) (digits : string) : Z * bool :=
  if String.eqb digits "" then (0, false) else
  match parse_uint digits 0 with
  | None => (0, false)
  | Some un =>
      if negb neg && (2 ^ 63 <=? un) then (int64_max, false)
      else if neg && (2 ^ 63 <? un) then (int64_min, false)
      else (if neg then - un else un, true)
  end.
Definition ParseInt (s : string) : Z * bool :=
  match s with
  | String "-" s' => parse_magnitude true s'
  | String "+" s' => parse_magnitude false s'
  | _ => parse_magnitude false s
  end.
(** [int] has 64 bits on the supported targets, so [Atoi] agrees with it. *)
Definition Atoi (s : string) : Z * bool := ParseInt s.

Fixpoint format_uint (fuel : nat) (n : Z) (acc : string) : string :=
  match fuel with
  | O => acc
  | S fuel' =>
      let acc' := String (byte_of (48 + n mod 10)) acc in
      if n <? 10 then acc' else format_uint fuel' (n / 10) acc'
  end.
(** [FormatInt(z, 10)]: twenty digits are enough for every 64-bit value. *)
Definition FormatInt (z : Z) : string :=
  if z <? 0 then String "-" (format_uint 20 (- z) "") else format_uint 20 z "".

(** ** net.SplitHostPort

    [None] stands for every error; the callers only test for one. *)
Definition SplitHostPort (hostport : string) : option (string * string) :=
  match LastIndexByte hostport ":" with
  | None => None
  | Some i =>
      let port := sdrop (S i) hostport in
      match hostport with
      | String "[" _ =>
          match IndexByte hostport "]" with
          | None => None
          | Some e =>
              if negb (S e =? i)%nat then None
              else if contains_byte (sdrop 1 hostport) "[" || contains_byte (sdrop (S e) hostport) "]"
              then None
              else Some (stake (e - 1) (sdrop 1 hostport), port)
          end
      | _ =>
          let host := stake i hostport in
          if contains_byte host ":" || contains_byte hostport "[" || contains_byte hostport "]"
          then None else Some (host, port)
      end
  end.

(** ** Lemmas *)

Lemma sapp_assoc (a b c : string) : ((a ++ b) ++ c = a ++ (b ++ c))%string.
Proof. induction a; simpl; congruence. Qed.
Lemma sapp_nil_r (a : string) : (a ++ "" = a)%string.
Proof. induction a; simpl; congruence. Qed.
Lemma sapp_inj_l (p a b : string) : (p ++ a = p ++ b)%string -> a = b.
Proof. induction p; simpl; intros H; [done|]. injection H. auto. Qed.
Lemma length_sapp (a b : string) :
  String.length (a ++ b) = (String.length a + String.length b)%nat.
Proof. induction a; simpl; auto. Qed.
Lemma stake_sdrop n s : (stake n s ++ sdrop n s = s)%string.
Proof. revert s. induction n; intros []; simpl; auto. f_equal. auto. Qed.
Lemma sdrop_app (a b : string) : sdrop (String.length a) (a ++ b) = b.
Proof. by induction a. Qed.
Lemma stake_app (a b : string) : stake (String.length a) (a ++ b) = a.
Proof. induction a; simpl; congruence. Qed.

Lemma HasPrefix_spec s p : HasPrefix s p = true <-> exists r, s = (p ++ r)%string.
Proof.
  revert s. induction p as [|a p IH]; intros s; simpl.
  - destruct s; split; eauto.
  - destruct s as [|b s]; simpl; [split; [done|by intros [? ?]]|].
    rewrite andb_true_iff, IH, Ascii.eqb_eq. split.
    + intros [-> [r ->]]. eauto.
    + intros [r H]. injection H as -> ->. eauto.
Qed.

Lemma HasPrefix_app p r : HasPrefix (p ++ r) p = true.
Proof. apply HasPrefix_spec. eauto. Qed.

Lemma TrimPrefix_app p r : TrimPrefix (p ++ r) p = r.
Proof. unfold TrimPrefix. by rewrite HasPrefix_app, sdrop_app. Qed.

Lemma HasSuffix_spec s p : HasSuffix s p = true <-> exists r, s = (r ++ p)%string.
Proof.
  unfold HasSuffix. rewrite andb_true_iff, Nat.leb_le, String.eqb_eq. split.
  - intros [Hle H]. exists (stake (String.length s - String.length p) s).
    rewrite <- H at 2. by rewrite stake_sdrop.
  - intros [r ->]. rewrite length_sapp. split; [lia|].
    replace (String.length r + String.length p - String.length p)%nat
      with (String.length r) by lia. apply sdrop_app.
Qed.

Lemma TrimSuffix_app r p : TrimSuffix (r ++ p) p = r.
Proof.
  unfold TrimSuffix. rewrite (proj2 (HasSuffix_spec _ _)) by eauto.
  rewrite length_sapp.
  replace (String.length r + String.length p - String.length p)%nat
    with (String.length r) by lia. apply stake_app.
Qed.

Lemma Contains_spec s sub :
  Contains s sub = true <-> exists l r, s = (l ++ sub ++ r)%string.
Proof.
  induction s as [|a s IH]; cbn [Contains]; rewrite orb_true_iff, HasPrefix_spec.
  - split.
    + intros [[r Hr]|?]; [|done]. exists "", r. done.
    + intros (l & r & H). left. destruct l; [|done]. eauto.
  - rewrite IH. split.
    + intros [[r ->]|(l & r & ->)]; [exists "", r|exists (String a l), r]; done.
    + intros (l & r & H). destruct l as [|b l]; simpl in H; [eauto|].
      injection H as -> ->. right. eauto.
Qed.

(** *** FormatInt and ParseInt are inverse on int64 *)

Lemma digit_val_of d : 0 <= d < 10 -> digit_val (byte_of (48 + d)) = Some d.
Proof.
  intros H. unfold digit_val. rewrite byte_val_of by lia.
  destruct ((48 <=? 48 + d) && (48 + d <=? 57)) eqn:E; [f_equal; lia|lia].
Qed.

Lemma parse_format_uint fuel n acc m :
  0 <= n < 10 ^ Z.of_nat fuel -> n <= uint64_max -> (0 < fuel)%nat ->
  exists k, 0 <= k /\ forall b,
    b * 10 ^ k + n <= uint64_max -> 0 <= b -> m = b * 10 ^ k + n ->
    parse_uint (format_uint fuel n acc) b = parse_uint acc m.
Proof.
  revert n acc m. induction fuel as [|fuel IH]; intros n acc m Hn Hmax Hf; [lia|].
  simpl format_uint. destruct (n <? 10) eqn:E.
  - exists 1. split; [lia|]. intros b Hb Hb0 ->. simpl parse_uint.
    rewrite digit_val_of by (pose proof (Z.mod_pos_bound n 10); lia).
    rewrite Z.mod_small by lia. change (10 ^ 1) with 10 in *.
    destruct (uint64_max <? b * 10 + n) eqn:E2; [lia|done].
  - assert (Hq : 0 <= n / 10 < 10 ^ Z.of_nat fuel).
    { split; [apply Z.div_pos; lia|]. apply Z.div_lt_upper_bound; [lia|].
      replace (10 * 10 ^ Z.of_nat fuel) with (10 ^ Z.of_nat (S fuel)); [lia|].
      rewrite Nat2Z.inj_succ, Z.pow_succ_r; lia. }
    assert (Hfuel : (0 < fuel)%nat).
    { destruct fuel; [|lia]. simpl in Hq. pose proof (Z.div_mod n 10).
      pose proof (Z.mod_pos_bound n 10). lia. }
    pose proof (Z.div_mod n 10 ltac:(lia)) as Hdm.
    pose proof (Z.mod_pos_bound n 10 ltac:(lia)) as Hm.
    set (r := m / 10).
    destruct (IH (n / 10) (String (byte_of (48 + n mod 10)) acc) r Hq ltac:(lia) Hfuel)
      as (k & Hk & H).
    exists (k + 1). split; [lia|]. intros b Hb Hb0 Hmm.
    rewrite Z.pow_add_r in Hb, Hmm by lia. change (10 ^ 1) with 10 in *.
    pose proof (Z.pow_nonneg 10 k ltac:(lia)) as Hp.
    assert (Hr : r = b * 10 ^ k + n / 10).
    { unfold r. symmetry. apply Z.div_unique with (r := n mod 10); lia. }
    rewrite (H b); [|lia|lia|lia]. simpl parse_uint.
    rewrite digit_val_of by lia.
    destruct (uint64_max <? r * 10 + n mod 10) eqn:E2; [lia|].
    f_equal. lia.
Qed.

Lemma format_uint_nonempty fuel n acc :
  (0 < fuel)%nat -> exists c s, format_uint fuel n acc = String c s /\ digit_val c <> None.
Proof.
  revert n acc. induction fuel as [|fuel IH]; intros n acc Hf; [lia|]. simpl.
  assert (Hd : digit_val (byte_of (48 + n mod 10)) <> None).
  { rewrite digit_val_of; [done|]. apply Z.mod_pos_bound. lia. }
  destruct (n <? 10); [eauto|].
  destruct fuel as [|fuel]; [simpl; eauto|]. apply IH. lia.
Qed.

Lemma parse_uint_nonneg s n m : 0 <= n -> parse_uint s n = Some m -> 0 <= m.
Proof.
  revert n. induction s as [|a s IH]; intros n Hn; simpl; [by intros [= <-]|].
  destruct (digit_val a) as [d|] eqn:Ed; [|done].
  assert (0 <= d) by (unfold digit_val in Ed; destruct (_ && _) eqn:Eb; [|done]; injection Ed as <-; lia).
  destruct (_ <? _); [intros [= <-]; by unfold uint64_max|]. apply IH. lia.
Qed.
(** A value that [ParseInt] accepts is an int64. *)
Lemma ParseInt_range s z : ParseInt s = (z, true) -> in_int64 z = true.
Proof.
  assert (H : forall neg digits, parse_magnitude neg digits = (z, true) -> in_int64 z = true).
  { intros neg digits. unfold parse_magnitude. destruct (String.eqb digits ""); [done|].
    destruct (parse_uint digits 0) as [un|] eqn:E; [|done]. apply parse_uint_nonneg in E; [|lia].
    destruct neg; cbn [negb andb].
    - destruct (Z.ltb_spec (2 ^ 63) un); [done|]. intros [= <-]. apply in_int64_spec. unfold int64_min, int64_max. lia.
    - destruct (Z.leb_spec (2 ^ 63) un); [done|]. intros [= <-]. apply in_int64_spec. unfold int64_min, int64_max. lia. }
  unfold ParseInt. destruct s as [|c s]; [apply H|]. intros E.
  repeat match type of E with context [match ?x with _ => _ end] => is_var x; destruct x end; by eapply H.
Qed.

Lemma ParseInt_FormatInt z : in_int64 z = true -> ParseInt (FormatInt z) = (z, true).
Proof.
  rewrite in_int64_spec. unfold int64_min, int64_max. intros Hz.
  assert (Hparse : forall n, 0 <= n <= 2 ^ 63 -> parse_uint (format_uint 20 n "") 0 = Some n).
  { intros n Hn.
    destruct (parse_format_uint 20 n "" n) as (k & Hk & H); [lia|unfold uint64_max; lia|lia|].
    rewrite (H 0); [done|unfold uint64_max; lia|lia|lia]. }
  assert (Hmag : forall neg n, 0 <= n <= 2 ^ 63 -> (neg = false -> n < 2 ^ 63) ->
            parse_magnitude neg (format_uint 20 n "") = (if neg then - n else n, true)).
  { intros neg n Hn Hneg. unfold parse_magnitude.
    destruct (format_uint_nonempty 20 n "") as (c & s & Hc & _); [lia|].
    rewrite Hparse by lia. rewrite Hc. simpl String.eqb. cbv iota.
    destruct neg; simpl.
    - destruct (2 ^ 63 <? n) eqn:E; [lia|done].
    - destruct (2 ^ 63 <=? n) eqn:E; [lia|done]. }
  unfold FormatInt. destruct (z <? 0) eqn:E.
  - change (parse_magnitude true (format_uint 20 (- z) "") = (z, true)).
    rewrite Hmag by lia. f_equal. lia.
  - destruct (format_uint_nonempty 20 z "") as (c & s & Hc & Hd); [lia|].
    assert (Hsign : ParseInt (format_uint 20 z "") = parse_magnitude false (format_uint 20 z "")).
    { rewrite Hc. unfold ParseInt. destruct c as [b0 b1 b2 b3 b4 b5 b6 b7].
      destruct b0, b1, b2, b3, b4, b5, b6, b7; try reflexivity; by contradict Hd. }
    rewrite Hsign, Hmag by lia. done.
Qed.

(** A negative result or 0 when the text is empty: an address without a port. *)
Lemma Atoi_empty : Atoi "" = (0, false).
Proof. reflexivity. Qed.

Example split_host_port_ex :
  SplitHostPort "example.com:443" = Some ("example.com", "443")
  /\ SplitHostPort "[2001:db8::1]:53" = Some ("2001:db8::1", "53")
  /\ SplitHostPort "example.com" = None /\ SplitHostPort "a:b:c" = None.
Proof. repeat split. Qed.
Example trim_space_ex : TrimSpace (String (byte_of 9) " a b  ") = "a b".
Proof. reflexivity. Qed.
