(* ===== verification/GoUrl.v ===== *)
(** * Texts of URLs

    What the control plane uses of net/url: the escaping of query components and
    path segments and the encoding of query values. *)

From S2P Require Import Prelude GoStrings.
From stdpp Require Import base strings list.
From Stdlib Require Import ZArith Lia Ascii.
Open Scope Z_scope.

Definition is_unreserved (c : ascii) : bool :=
  let z := byte_val c in
  ((97 <=? z) && (z <=? 122)) || ((65 <=? z) && (z <=? 90)) || ((48 <=? z) && (z <=? 57))
  || existsb (Ascii.eqb c) ["-"; "_"; "."; "~"]%char.
Definition upper_digit (z : Z) : ascii := byte_of (if z <? 10 then 48 + z else 55 + z).
Definition percent (c : ascii) : string :=
  String "%"%char (String (upper_digit (byte_val c / 16)) (String (upper_digit (byte_val c mod 16)) "")).
Fixpoint escape_with (f : ascii -> string) (s : string) : string :=
  match s with "" => "" | String c s' => f c +:+ escape_with f s' end.
Definition QueryEscape : string -> string := escape_with (fun c =>
  if is_unreserved c then String c "" else if Ascii.eqb c " "%char then "+" else percent c).
Definition PathEscape : string -> string := escape_with (fun c =>
  if is_unreserved c || existsb (Ascii.eqb c) ["$"; "&"; "+"; ":"; "="; "@"]%char then String c "" else percent c).
(** [Values.Encode] of values whose keys are given in order. *)
Definition EncodeValues (values : list (string * string)) : string :=
  String.concat "&" ((fun kv => QueryEscape kv.1 +:+ "=" +:+ QueryEscape kv.2) <$> values).

(** [strings.TrimRight(s, "/")] *)
Fixpoint trim_slashes (s : string) : string :=
  match s with
  | "" => ""
  | String c s' => match trim_slashes s' with
                   | "" => if Ascii.eqb c "/"%char then "" else String c ""
                   | rest => String c rest
                   end
  end.
