(* ===== verification/Base64.v ===== *)
(** * base64.RawURLEncoding

    The encoding of tokens, hashes, keys and signatures
    (src/internal/security/security.go: [Encode], [Decode]).  The decoder is the
    one of Go's [encoding/base64]: line breaks are skipped, padding is refused
    and the unused low bits of the last character are not checked. *)

From S2P Require Import Prelude GoStrings.
From stdpp Require Import base strings list.
From Stdlib Require Import ZArith Lia Ascii String.
Open Scope Z_scope.

Definition alphabet : string :=
  "ABCDEFGHIJKLMNOPQRSTUVWXYZabcdefghijklmnopqrstuvwxyz0123456789-_".

Definition enc_char (i : Z) : ascii :=
  match String.get (Z.to_nat i) alphabet with Some c => c | None => "A"%char end.
Definition dec_char (c : ascii) : option Z := Z.of_nat <$> IndexByte alphabet c.

Fixpoint Encode (s : string) : string :=
  match s with
  | "" => ""
  | String a "" =>
      let v := byte_val a * 65536 in
      String (enc_char (v / 262144)) (String (enc_char (v / 4096 mod 64)) "")
  | String a (String b "") =>
      let v := byte_val a * 65536 + byte_val b * 256 in
      String (enc_char (v / 262144)) (String (enc_char (v / 4096 mod 64))
        (String (enc_char (v / 64 mod 64)) ""))
  | String a (String b (String c s')) =>
      let v := byte_val a * 65536 + byte_val b * 256 + byte_val c in
      String (enc_char (v / 262144)) (String (enc_char (v / 4096 mod 64))
        (String (enc_char (v / 64 mod 64)) (String (enc_char (v mod 64)) (Encode s'))))
  end.

Definition is_newline (c : ascii) : bool := (byte_val c =? 10) || (byte_val c =? 13).

Fixpoint sextets (s : string) : option (list Z) :=
  match s with
  | "" => Some []
  | String c s' =>
      if is_newline c then sextets s' else
      match dec_char c, sextets s' with
      | Some d, Some ds => Some (d :: ds)
      | _, _ => None
      end
  end.

Fixpoint unpack (ds : list Z) : option string :=
  match ds with
  | [] => Some ""
  | [_] => None
  | [a; b] => Some (String (byte_of ((a * 262144 + b * 4096) / 65536)) "")
  | [a; b; c] =>
      let v := a * 262144 + b * 4096 + c * 64 in
      Some (String (byte_of (v / 65536)) (String (byte_of (v / 256 mod 256)) ""))
  | a :: b :: c :: d :: ds' =>
      let v := a * 262144 + b * 4096 + c * 64 + d in
      (fun s => String (byte_of (v / 65536)) (String (byte_of (v / 256 mod 256))
                  (String (byte_of (v mod 256)) s))) <$> unpack ds'
  end.

Definition Decode (s : string) : option string :=
  match sextets s with Some ds => unpack ds | None => None end.

(** ** Round trip *)

Lemma dec_enc_char i : 0 <= i < 64 -> dec_char (enc_char i) = Some i.
Proof.
  intros H.
  assert (Hall : forallb (fun n => match dec_char (enc_char (Z.of_nat n)) with
                                   | Some j => (j =? Z.of_nat n) | None => false end)
                   (seq 0 64) = true) by reflexivity.
  rewrite forallb_forall in Hall.
  specialize (Hall (Z.to_nat i)). rewrite Z2Nat.id in Hall by lia.
  destruct (dec_char (enc_char i)) as [j|].
  - f_equal. apply Z.eqb_eq, Hall, in_seq. lia.
  - discriminate Hall. apply in_seq. lia.
Qed.

Lemma dec_char_newline c i : dec_char c = Some i -> is_newline c = false.
Proof.
  intros H. unfold is_newline.
  destruct (byte_val c =? 10) eqn:E1.
  { apply Z.eqb_eq in E1. rewrite <- (byte_of_val c), E1 in H. discriminate H. }
  destruct (byte_val c =? 13) eqn:E2; [|done].
  apply Z.eqb_eq in E2. rewrite <- (byte_of_val c), E2 in H. discriminate H.
Qed.

Lemma sextets_enc_char i s :
  0 <= i < 64 -> sextets (String (enc_char i) s) = cons i <$> sextets s.
Proof.
  intros H. cbn [sextets]. pose proof (dec_enc_char i H) as E.
  rewrite (dec_char_newline _ _ E), E. by destruct (sextets s).
Qed.

(** Induction over a string three bytes at a time, as the encoder proceeds. *)
Lemma string_ind3 (P : string -> Prop) :
  P "" -> (forall a, P (String a "")) -> (forall a b, P (String a (String b ""))) ->
  (forall a b c s, P s -> P (String a (String b (String c s)))) -> forall s, P s.
Proof.
  intros H0 H1 H2 H3 s.
  assert (Hlen : forall n s, (String.length s <= n)%nat -> P s); [|by apply (Hlen (String.length s))].
  clear s. intros n. induction n as [|n IH]; intros s Hs.
  - destruct s; [done|simpl in Hs; lia].
  - destruct s as [|a [|b [|c s]]]; auto. apply H3, IH. simpl in Hs. lia.
Qed.

Ltac bytes_lia :=
  repeat match goal with
  | a : ascii |- _ => pose proof (byte_val_range a); generalize dependent (byte_val a); clear a; intros
  end; Z.div_mod_to_equations; lia.

Ltac byte_eq a :=
  transitivity (byte_of (byte_val a)); [f_equal; bytes_lia|apply byte_of_val].

Lemma Decode_Encode s : Decode (Encode s) = Some s.
Proof.
  unfold Decode. induction s as [|a|a b|a b c s IH] using string_ind3; cbn [Encode].
  - reflexivity.
  - rewrite !sextets_enc_char by bytes_lia. cbn. do 2 f_equal. byte_eq a.
  - rewrite !sextets_enc_char by bytes_lia. cbn.
    f_equal. f_equal; [byte_eq a|]. f_equal. byte_eq b.
  - rewrite !sextets_enc_char by bytes_lia.
    destruct (sextets (Encode s)) as [ds|]; [|done].
    simpl in IH. cbn. rewrite IH. cbn.
    f_equal. f_equal; [byte_eq a|]. f_equal; [byte_eq b|]. f_equal. byte_eq c.
Qed.

Lemma Encode_inj s t : Encode s = Encode t -> s = t.
Proof. intros H. pose proof (Decode_Encode s) as E. rewrite H, Decode_Encode in E. congruence. Qed.

#[export] Hint Rewrite Decode_Encode : risevpn_rw.

Example encode_ex : Encode "RiseVPN" = "UmlzZVZQTg" /\ Decode "UmlzZVZQTg" = Some "RiseVPN"
  /\ Decode "UmlzZVZQTh" = Some "RiseVPN" /\ Decode "A" = None /\ Decode "QQ==" = None.
Proof. repeat split. Qed.
