(* ===== verification/Sha.v ===== *)
(** * SHA-256, SHA-1 and HMAC

    The hash functions of Go's [crypto/sha256], [crypto/sha1] and
    [crypto/hmac] (FIPS 180-4, RFC 2104), executable, over byte strings.  The
    agent hashes credentials and enrollment tokens with SHA-256
    (src/internal/security/security.go); the control plane keys session and
    HWID digests with HMAC-SHA-256. *)

From S2P Require Import Prelude GoStrings.
From stdpp Require Import base strings list.
From Stdlib Require Import ZArith Lia Ascii.
Open Scope Z_scope.
Open Scope list_scope.

Definition w32 (z : Z) : Z := Z.land z (Z.ones 32).
Definition rotr (n x : Z) : Z := Z.lor (Z.shiftr x n) (w32 (Z.shiftl x (32 - n))).
Definition rotl (n x : Z) : Z := Z.lor (w32 (Z.shiftl x n)) (Z.shiftr x (32 - n)).
Definition not32 (x : Z) : Z := Z.lxor x (Z.ones 32).
Definition add32 (l : list Z) : Z := w32 (foldr Z.add 0 l).

Definition bytes_of_string (s : string) : list Z := byte_val <$> String.list_ascii_of_string s.
Definition string_of_bytes (bs : list Z) : string := String.string_of_list_ascii (byte_of <$> bs).

(** Big-endian splitting and joining. *)
Fixpoint be_bytes (n : nat) (z : Z) : list Z :=
  match n with
  | O => []
  | S n' => Z.land (Z.shiftr z (8 * Z.of_nat n')) 255 :: be_bytes n' z
  end.
Definition be_word (bs : list Z) : Z := foldl (fun acc b => Z.lor (Z.shiftl acc 8) b) 0 bs.

Fixpoint chunks (fuel n : nat) (l : list Z) : list (list Z) :=
  match fuel, l with
  | S fuel', _ :: _ => take n l :: chunks fuel' n (drop n l)
  | _, _ => []
  end.

(** Padding to a multiple of 64 bytes, with the bit length at the end. *)
Definition pad (bs : list Z) : list Z :=
  let len := Z.of_nat (length bs) in
  bs ++ [128] ++ replicate (Z.to_nat ((55 - len) mod 64)) 0 ++ be_bytes 8 (8 * len).
Definition blocks (bs : list Z) : list (list Z) :=
  let p := pad bs in
  (fun b => be_word <$> chunks 16 4 b) <$> chunks (length p) 64 p.

(** ** SHA-256 *)

Module Sha256.
(** The constants as FIPS 180-4 (4.2.2, 5.3.3) defines them: the first 32
    fractional bits of the cube roots of the first 64 primes, and of the square
    roots of the first eight. *)
Fixpoint cbrt_bits (n : nat) (z r : Z) : Z :=
  match n with
  | O => r
  | S n' => let r' := r + 2 ^ Z.of_nat n' in cbrt_bits n' z (if r' * r' * r' <=? z then r' else r)
  end.
Definition is_prime (n : nat) : bool :=
  forallb (fun d => negb (n mod d =? 0)%nat) (seq 2 (n - 2)).
Definition primes : list nat := Eval vm_compute in List.filter is_prime (seq 2 310).
Definition k : list Z := Eval vm_compute in (fun p => w32 (cbrt_bits 35 (Z.of_nat p * 2 ^ 96) 0)) <$> primes.

Record st := mk { a : Z; b : Z; c : Z; d : Z; e : Z; f : Z; g : Z; h : Z }.
Definition init : st := Eval vm_compute in
  match (fun p => w32 (Z.sqrt (Z.of_nat p * 2 ^ 64))) <$> take 8 primes with
  | [a'; b'; c'; d'; e'; f'; g'; h'] => mk a' b' c' d' e' f' g' h'
  | _ => mk 0 0 0 0 0 0 0 0
  end.

(** The message schedule, most recent word first. *)
Definition extend (w : list Z) : list Z :=
  let at' i := nth i w 0 in
  let s0 := Z.lxor (Z.lxor (rotr 7 (at' 14%nat)) (rotr 18 (at' 14%nat))) (Z.shiftr (at' 14%nat) 3) in
  let s1 := Z.lxor (Z.lxor (rotr 17 (at' 1%nat)) (rotr 19 (at' 1%nat))) (Z.shiftr (at' 1%nat) 10) in
  add32 [at' 15%nat; s0; at' 6%nat; s1] :: w.
Definition schedule (block : list Z) : list Z := rev (Nat.iter 48 extend (rev block)).

Definition round (s : st) (kw : Z * Z) : st :=
  let s1 := Z.lxor (Z.lxor (rotr 6 s.(e)) (rotr 11 s.(e))) (rotr 25 s.(e)) in
  let ch := Z.lxor (Z.land s.(e) s.(f)) (Z.land (not32 s.(e)) s.(g)) in
  let t1 := add32 [s.(h); s1; ch; kw.1; kw.2] in
  let s0 := Z.lxor (Z.lxor (rotr 2 s.(a)) (rotr 13 s.(a))) (rotr 22 s.(a)) in
  let maj := Z.lxor (Z.lxor (Z.land s.(a) s.(b)) (Z.land s.(a) s.(c))) (Z.land s.(b) s.(c)) in
  mk (add32 [t1; s0; maj]) s.(a) s.(b) s.(c) (add32 [s.(d); t1]) s.(e) s.(f) s.(g).

Definition compress (s : st) (block : list Z) : st :=
  let r := foldl round s (zip k (schedule block)) in
  mk (add32 [s.(a); r.(a)]) (add32 [s.(b); r.(b)]) (add32 [s.(c); r.(c)]) (add32 [s.(d); r.(d)])
     (add32 [s.(e); r.(e)]) (add32 [s.(f); r.(f)]) (add32 [s.(g); r.(g)]) (add32 [s.(h); r.(h)]).

Definition words (s : st) : list Z := [s.(a); s.(b); s.(c); s.(d); s.(e); s.(f); s.(g); s.(h)].
Definition digest (bs : list Z) : list Z :=
  mjoin (be_bytes 4 <$> words (foldl compress init (blocks bs))).
End Sha256.

(** ** SHA-1 *)

Module Sha1.
Record st := mk { a : Z; b : Z; c : Z; d : Z; e : Z }.
Definition init : st := mk 0x67452301 0xefcdab89 0x98badcfe 0x10325476 0xc3d2e1f0.

Definition extend (w : list Z) : list Z :=
  let at' i := nth i w 0 in
  rotl 1 (Z.lxor (Z.lxor (at' 2%nat) (at' 7%nat)) (Z.lxor (at' 13%nat) (at' 15%nat))) :: w.
Definition schedule (block : list Z) : list Z := rev (Nat.iter 64 extend (rev block)).

Definition round (s : st) (iw : nat * Z) : st :=
  let '(i, w) := iw in
  let '(f, k) :=
    if (i <? 20)%nat then
      (Z.lor (Z.land s.(b) s.(c)) (Z.land (not32 s.(b)) s.(d)), 0x5a827999)
    else if (i <? 40)%nat then (Z.lxor (Z.lxor s.(b) s.(c)) s.(d), 0x6ed9eba1)
    else if (i <? 60)%nat then
      (Z.lor (Z.lor (Z.land s.(b) s.(c)) (Z.land s.(b) s.(d))) (Z.land s.(c) s.(d)), 0x8f1bbcdc)
    else (Z.lxor (Z.lxor s.(b) s.(c)) s.(d), 0xca62c1d6) in
  mk (add32 [rotl 5 s.(a); f; s.(e); k; w]) s.(a) (rotl 30 s.(b)) s.(c) s.(d).

Definition compress (s : st) (block : list Z) : st :=
  let r := foldl round s (zip (seq 0 80) (schedule block)) in
  mk (add32 [s.(a); r.(a)]) (add32 [s.(b); r.(b)]) (add32 [s.(c); r.(c)])
     (add32 [s.(d); r.(d)]) (add32 [s.(e); r.(e)]).

Definition words (s : st) : list Z := [s.(a); s.(b); s.(c); s.(d); s.(e)].
Definition digest (bs : list Z) : list Z :=
  mjoin (be_bytes 4 <$> words (foldl compress init (blocks bs))).
End Sha1.

(** ** HMAC, for a hash with 64-byte blocks *)
Definition hmac (hash : list Z -> list Z) (key msg : list Z) : list Z :=
  let key0 := if (64 <? length key)%nat then hash key else key in
  let k := key0 ++ replicate (64 - length key0)%nat 0 in
  hash ((Z.lxor 0x5c <$> k) ++ hash ((Z.lxor 0x36 <$> k) ++ msg)).

(** [sha256.Sum256] and HMAC-SHA-256 on strings. *)
Definition sha256 (s : string) : string := string_of_bytes (Sha256.digest (bytes_of_string s)).
Definition hmac_sha256 (key msg : string) : string :=
  string_of_bytes (hmac Sha256.digest (bytes_of_string key) (bytes_of_string msg)).
Definition hmac_sha1 (key : string) (msg : list Z) : list Z :=
  hmac Sha1.digest (bytes_of_string key) msg.

(** ** Sizes *)

Lemma length_be_bytes n z : length (be_bytes n z) = n.
Proof. induction n; simpl; auto. Qed.

Lemma length_string_of_bytes bs : String.length (string_of_bytes bs) = length bs.
Proof. unfold string_of_bytes. induction bs; simpl; auto. Qed.

Lemma length_sha256 s : String.length (sha256 s) = 32%nat.
Proof. unfold sha256. rewrite length_string_of_bytes. reflexivity. Qed.
Lemma length_hmac_sha256 key msg : String.length (hmac_sha256 key msg) = 32%nat.
Proof. unfold hmac_sha256. rewrite length_string_of_bytes. reflexivity. Qed.
Lemma length_hmac_sha1 key msg : length (hmac_sha1 key msg) = 20%nat.
Proof. reflexivity. Qed.

(** ** Test vectors of FIPS 180-4, RFC 2202 and RFC 4231 *)

Example sha256_abc : bytes_of_string (sha256 "abc") =
  be_bytes 32 0xba7816bf8f01cfea414140de5dae2223b00361a396177a9cb410ff61f20015ad.
Proof. vm_compute. reflexivity. Qed.
Example sha1_abc : Sha1.digest (bytes_of_string "abc") =
  be_bytes 20 0xa9993e364706816aba3e25717850c26c9cd0d89d.
Proof. vm_compute. reflexivity. Qed.
Example sha256_two_blocks :
  bytes_of_string (sha256 "abcdbcdecdefdefgefghfghighijhijkijkljklmklmnlmnomnopnopq") =
  be_bytes 32 0x248d6a61d20638b8e5c026930c3e6039a33ce45964ff2167f6ecedd419db06c1.
Proof. vm_compute. reflexivity. Qed.
Example hmac_sha256_jefe :
  bytes_of_string (hmac_sha256 "Jefe" "what do ya want for nothing?") =
  be_bytes 32 0x5bdcc146bf60754e6a042426089575c75a003f089d2739839dec58b964ec3843.
Proof. vm_compute. reflexivity. Qed.
Example hmac_sha1_jefe :
  hmac_sha1 "Jefe" (bytes_of_string "what do ya want for nothing?") =
  be_bytes 20 0xeffcdf6ae5eb2fa2d27416d5f184df9c259a7c79.
Proof. vm_compute. reflexivity. Qed.
