(* ===== verification/Json.v ===== *)
(** * JSON documents as Go's encoding/json sees them

    A JSON text is modelled by its syntax tree.  Decoding follows
    [json.Unmarshal] into the struct types of the program: keys are matched
    without regard to ASCII case, unknown keys are ignored, [null] leaves the
    Go value as it is, a number is read by [strconv.ParseInt] and a mismatch of
    kinds is an error.  Encoding follows [json.Marshal]. *)

From S2P Require Import Prelude GoStrings.
From stdpp Require Import base strings list.
From Stdlib Require Import ZArith Lia Ascii.
Open Scope Z_scope.

Inductive json :=
  | JNull
  | JBool (b : bool)
  | JNum (literal : string)
  | JStr (s : string)
  | JArr (items : list json)
  | JObj (members : list (string * json)).

Section JsonInd.
Variable P : json -> Prop.
Hypothesis Hnull : P JNull.
Hypothesis Hbool : forall b, P (JBool b).
Hypothesis Hnum : forall s, P (JNum s).
Hypothesis Hstr : forall s, P (JStr s).
Hypothesis Harr : forall l, Forall P l -> P (JArr l).
Hypothesis Hobj : forall l, Forall (fun kv => P kv.2) l -> P (JObj l).
Fixpoint json_ind' (j : json) : P j :=
  match j with
  | JNull => Hnull
  | JBool b => Hbool b
  | JNum s => Hnum s
  | JStr s => Hstr s
  | JArr l => Harr l ((fix go l : Forall P l :=
      match l with [] => Forall_nil_2 _ | x :: l' => Forall_cons_2 _ _ _ (json_ind' x) (go l') end) l)
  | JObj l => Hobj l ((fix go l : Forall (fun kv => P kv.2) l :=
      match l with [] => Forall_nil_2 _
      | x :: l' => Forall_cons_2 _ _ _ (json_ind' x.2) (go l') end) l)
  end.
End JsonInd.

(** ** Calendar arithmetic and RFC 3339 *)

(** Days from 1970-01-01 to a date of the proleptic Gregorian calendar. *)
Definition days_from_civil (y m d : Z) : Z :=
  let y' := if m <=? 2 then y - 1 else y in
  let era := y' / 400 in
  let yoe := y' - era * 400 in
  let doy := (153 * (if 2 <? m then m - 3 else m + 9) + 2) / 5 + d - 1 in
  era * 146097 + (yoe * 365 + yoe / 4 - yoe / 100 + doy) - 719468.

Definition civil_from_days (z : Z) : Z * Z * Z :=
  let z' := z + 719468 in
  let era := z' / 146097 in
  let doe := z' - era * 146097 in
  let yoe := (doe - doe / 1460 + doe / 36524 - doe / 146096) / 365 in
  let doy := doe - (365 * yoe + yoe / 4 - yoe / 100) in
  let mp := (5 * doy + 2) / 153 in
  let m := if mp <? 10 then mp + 3 else mp - 9 in
  ((if m <=? 2 then yoe + era * 400 + 1 else yoe + era * 400), m, doy - (153 * mp + 2) / 5 + 1).

Definition is_leap (y : Z) : bool := (y mod 4 =? 0) && (negb (y mod 100 =? 0) || (y mod 400 =? 0)).
Definition days_in (y m : Z) : Z :=
  if m =? 2 then (if is_leap y then 29 else 28)
  else if existsb (Z.eqb m) [4; 6; 9; 11] then 30 else 31.

(** A field of exactly [n] digits at the head of a text. *)
Fixpoint take_digits (n : nat) (s : string) (acc : Z) : option (Z * string) :=
  match n, s with
  | O, _ => Some (acc, s)
  | S n', String c s' => match digit_val c with
                         | Some d => take_digits n' s' (acc * 10 + d)
                         | None => None
                         end
  | _, _ => None
  end.
Definition take_char (c : ascii) (s : string) : option string :=
  match s with String a s' => if Ascii.eqb a c then Some s' else None | _ => None end.

(** The digits of a fraction, read to nanoseconds; later digits are dropped. *)
Fixpoint take_fraction (s : string) (scale acc : Z) : Z * string :=
  match s with
  | String c s' => match digit_val c with
                   | Some d => take_fraction s' (scale / 10) (acc + d * scale)
                   | None => (acc, s)
                   end
  | _ => (acc, s)
  end.

Definition parse_zone (s : string) : option Z :=
  match s with
  | String "Z" "" => Some 0
  | String c s1 =>
      let sign := if Ascii.eqb c "+" then Some 1 else if Ascii.eqb c "-" then Some (-1) else None in
      sign ← sign; '(hh, s2) ← take_digits 2 s1 0; s3 ← take_char ":" s2;
      '(mm, s4) ← take_digits 2 s3 0;
      if (hh <=? 23) && (mm <=? 59) && String.eqb s4 "" then Some (sign * (hh * 3600 + mm * 60))
      else None
  | _ => None
  end.

(** [Time.UnmarshalJSON] on an RFC 3339 text. *)
Definition parse_rfc3339 (s : string) : option time :=
  '(y, s) ← take_digits 4 s 0; s ← take_char "-" s;
  '(mo, s) ← take_digits 2 s 0; s ← take_char "-" s;
  '(d, s) ← take_digits 2 s 0; s ← take_char "T" s;
  '(h, s) ← take_digits 2 s 0; s ← take_char ":" s;
  '(mi, s) ← take_digits 2 s 0; s ← take_char ":" s;
  '(sec, s) ← take_digits 2 s 0;
  '(ns, s) ← match s with
             | String "." (String c _ as s') =>
                 match digit_val c with Some _ => Some (take_fraction s' 100000000 0) | None => None end
             | String "." _ => None
             | _ => Some (0, s)
             end;
  off ← parse_zone s;
  if (1 <=? mo) && (mo <=? 12) && (1 <=? d) && (d <=? days_in y mo)
     && (h <=? 23) && (mi <=? 59) && (sec <=? 59)
  then Some ((days_from_civil y mo d * 86400 + h * 3600 + mi * 60 + sec - off) * second + ns)
  else None.

Fixpoint pad_digits (n : nat) (z : Z) (acc : string) : string :=
  match n with
  | O => acc
  | S n' => pad_digits n' (z / 10) (String (byte_of (48 + z mod 10)) acc)
  end.

(** The fraction of [RFC3339Nano]: trailing zeros are dropped, and the point
    with them when nothing is left. *)
Fixpoint trim_zeros (fuel : nat) (digits : nat) (ns : Z) : string :=
  match fuel with
  | O => ""
  | S fuel' => if ns =? 0 then "" else
               if ns mod 10 =? 0 then trim_zeros fuel' (digits - 1) (ns / 10)
               else String "." (pad_digits digits ns "")
  end.

Definition format_year (y : Z) : string :=
  if y <? 0 then "-" +:+ pad_digits 4 (- y) ""
  else if y <=? 9999 then pad_digits 4 y "" else FormatInt y.

(** [t.Format(time.RFC3339Nano)] of a UTC time; on a whole second it is also
    [t.Format(time.RFC3339)]. *)
Definition FormatRFC3339 (t : time) : string :=
  let secs := t / second in
  let sod := secs mod 86400 in
  let '(y, mo, d) := civil_from_days (secs / 86400) in
  format_year y +:+ "-" +:+ pad_digits 2 mo "" +:+ "-" +:+ pad_digits 2 d ""
  +:+ "T" +:+ pad_digits 2 (sod / 3600) "" +:+ ":" +:+ pad_digits 2 (sod / 60 mod 60) ""
  +:+ ":" +:+ pad_digits 2 (sod mod 60) "" +:+ trim_zeros 10 9 (t mod second) +:+ "Z".

(** [Time.MarshalJSON] of a UTC time; years outside [0,9999] are an error. *)
Definition format_rfc3339 (t : time) : option string :=
  let '(y, _, _) := civil_from_days (t / second / 86400) in
  if (0 <=? y) && (y <=? 9999) then Some (FormatRFC3339 t) else None.

(** ** Decoding *)

(** A decoder takes the value already in the Go variable. *)
Definition dec (A : Type) : Type := json -> A -> option A.

Definition dec_string : dec string := fun j old =>
  match j with JStr s => Some s | JNull => Some old | _ => None end.
Definition dec_bool : dec bool := fun j old =>
  match j with JBool b => Some b | JNull => Some old | _ => None end.
Definition dec_int : dec Z := fun j old =>
  match j with
  | JNum lit => let '(z, ok) := ParseInt lit in if ok then Some z else None
  | JNull => Some old
  | _ => None
  end.
Definition dec_time : dec time := fun j old =>
  match j with JStr s => parse_rfc3339 s | JNull => Some old | _ => None end.
(** [json.RawMessage] keeps the document, [null] included. *)
Definition dec_raw : dec (option json) := fun j _ => Some (Some j).

Definition dec_list {A} (zero : A) (d : dec A) : dec (list A) := fun j old =>
  match j with
  | JArr items => mapM (fun x => d x zero) items
  | JNull => Some []
  | _ => None
  end.

Definition fold_key (s : string) : string := map_bytes lower_byte s.

(** [field name d members old] assigns every member whose key matches [name],
    in document order. *)
Fixpoint field {A} (name : string) (d : dec A) (members : list (string * json)) (old : A)
    : option A :=
  match members with
  | [] => Some old
  | (k, v) :: rest =>
      if String.eqb (fold_key k) (fold_key name)
      then match d v old with Some a => field name d rest a | None => None end
      else field name d rest old
  end.

Definition other_key (name : string) (kv : string * json) : bool :=
  negb (String.eqb (fold_key (fst kv)) (fold_key name)).

Lemma field_absent {A} name (d : dec A) members old :
  forallb (other_key name) members = true -> field name d members old = Some old.
Proof.
  induction members as [|[k v] m IH]; [done|]. cbn [forallb field]. unfold other_key at 1. cbn [fst].
  intros [H1 H2]%andb_true_iff. apply negb_true_iff in H1. rewrite H1. auto.
Qed.

Lemma field_first {A} name (d : dec A) v members old :
  forallb (other_key name) members = true ->
  field name d ((name, v) :: members) old = d v old.
Proof.
  intros H. cbn [field]. rewrite String.eqb_refl. destruct (d v old); [|done]. by apply field_absent.
Qed.

(** A struct is decoded from an object; [null] leaves it as it is. *)
Definition dec_struct {A} (d : list (string * json) -> A -> option A) : dec A := fun j old =>
  match j with JObj members => d members old | JNull => Some old | _ => None end.

(** What a decoder keeps, a field keeps. *)
Lemma field_inv {A} (P : A -> Prop) name (d : dec A) members old a :
  (forall j x y, d j x = Some y -> P x -> P y) -> field name d members old = Some a -> P old -> P a.
Proof.
  intros Hd. revert old. induction members as [|[k v] m IH]; intros old; cbn [field]; [by intros [= <-]|].
  destruct (String.eqb _ _); [|apply IH]. destruct (d v old) as [b|] eqn:E; [|done].
  intros H Ho. eapply IH; eauto.
Qed.
Lemma dec_int_range j x z : dec_int j x = Some z -> in_int64 x = true -> in_int64 z = true.
Proof.
  destruct j; try done; simpl; [by intros [= <-]|]. destruct (ParseInt _) as [v ok] eqn:E. destruct ok; [|done].
  intros [= <-] _. by eapply ParseInt_range.
Qed.

(** [DisallowUnknownFields] *)
Definition known_fields (names : list string) (j : json) : bool :=
  match j with
  | JObj members =>
      forallb (fun kv => existsb (fun n => String.eqb (fold_key (fst kv)) (fold_key n)) names) members
  | _ => true
  end.

(** ** Encoding *)

Definition hex_digit (z : Z) : ascii :=
  byte_of (if z <? 10 then 48 + z else 87 + z).
Definition u_escape (z : Z) : string :=
  String "\" (String "u" (String (hex_digit (z / 4096)) (String (hex_digit (z / 256 mod 16))
    (String (hex_digit (z / 16 mod 16)) (String (hex_digit (z mod 16)) ""))))).

(** The number of bytes of the UTF-8 encoded rune at the head of a text, 0 when
    the text does not start with a valid one ([utf8.DecodeRuneInString]). *)
Definition cont (lo hi z : Z) : bool := (lo <=? z) && (z <=? hi).
Definition rune_len (s : string) : nat :=
  match s with
  | String a s1 =>
      let x := byte_val a in
      if x <? 128 then 1%nat else
      match s1 with
      | String b s2 =>
          let y := byte_val b in
          if cont 194 223 x && cont 128 191 y then 2%nat else
          match s2 with
          | String c s3 =>
              let z := byte_val c in
              if ((x =? 224) && cont 160 191 y || cont 225 236 x && cont 128 191 y
                  || (x =? 237) && cont 128 159 y || cont 238 239 x && cont 128 191 y)
                 && cont 128 191 z then 3%nat else
              match s3 with
              | String d _ =>
                  if ((x =? 240) && cont 144 191 y || cont 241 243 x && cont 128 191 y
                      || (x =? 244) && cont 128 143 y)
                     && cont 128 191 z && cont 128 191 (byte_val d) then 4%nat else 0%nat
              | _ => 0%nat
              end
          | _ => 0%nat
          end
      | _ => 0%nat
      end
  | _ => 0%nat
  end.

Definition escape_ascii (a : ascii) : string :=
  let z := byte_val a in
  if z =? 34 then String "\" (String a "") else
  if z =? 92 then String "\" (String a "") else
  if z =? 8 then "\b" else if z =? 12 then "\f" else if z =? 10 then "\n" else
  if z =? 13 then "\r" else if z =? 9 then "\t" else
  if (z <? 32) || (z =? 60) || (z =? 62) || (z =? 38) then u_escape z
  else String a "".

(** The body of a JSON string; each round consumes at least one byte. *)
Fixpoint escape (fuel : nat) (s : string) : string :=
  match fuel, s with
  | S fuel', String a s' =>
      match rune_len s with
      | O => u_escape 65533 +:+ escape fuel' s'
      | 1%nat => escape_ascii a +:+ escape fuel' s'
      | n =>
          if String.eqb (stake 3 s) (String (byte_of 226) (String (byte_of 128) (String (byte_of 168) "")))
          then u_escape 8232 +:+ escape fuel' (sdrop 3 s)
          else if String.eqb (stake 3 s) (String (byte_of 226) (String (byte_of 128) (String (byte_of 169) "")))
          then u_escape 8233 +:+ escape fuel' (sdrop 3 s)
          else stake n s +:+ escape fuel' (sdrop n s)
      end
  | _, _ => ""
  end.
Definition quote_mark : string := String (byte_of 34) "".
Definition quote (s : string) : string :=
  quote_mark +:+ escape (String.length s) s +:+ quote_mark.

Definition commas (l : list string) : string :=
  match l with [] => "" | x :: l' => foldl (fun acc y => acc +:+ "," +:+ y) x l' end.

Fixpoint print (j : json) : string :=
  match j with
  | JNull => "null"
  | JBool true => "true"
  | JBool false => "false"
  | JNum lit => lit
  | JStr s => quote s
  | JArr items => "[" +:+ commas (map print items) +:+ "]"
  | JObj members => "{" +:+ commas (map (fun kv => quote kv.1 +:+ ":" +:+ print kv.2) members) +:+ "}"
  end.

Definition jint (z : Z) : json := JNum (FormatInt z).
Definition jtime (t : time) : option json := JStr <$> format_rfc3339 t.

(** ** Canonical form

    [json.Unmarshal] into [any] followed by [json.Marshal]: objects become
    maps, so that a repeated key keeps its last value and the keys are printed
    in byte order; numbers pass through [float64].  The conversion of a number
    literal is a parameter. *)

Class Float64Format := { float_literal : string -> option string }.

Fixpoint obj_put (k : string) (v : json) (l : list (string * json)) : list (string * json) :=
  match l with
  | [] => [(k, v)]
  | (k', v') :: l' =>
      match String.compare k k' with
      | Lt => (k, v) :: l
      | Eq => (k, v) :: l'
      | Gt => (k', v') :: obj_put k v l'
      end
  end.
Definition obj_of (l : list (string * json)) : list (string * json) :=
  foldl (fun acc kv => obj_put kv.1 kv.2 acc) [] l.

Fixpoint canonical `{Float64Format} (j : json) : option json :=
  match j with
  | JNum lit => JNum <$> float_literal lit
  | JArr items =>
      JArr <$> (fix go l := match l with
                            | [] => Some []
                            | x :: l' => x' ← canonical x; l'' ← go l'; Some (x' :: l'')
                            end) items
  | JObj members =>
      (fun l => JObj (obj_of l)) <$>
        (fix go l := match l with
                     | [] => Some []
                     | kv :: l' => x' ← canonical kv.2; l'' ← go l'; Some ((kv.1, x') :: l'')
                     end) members
  | _ => Some j
  end.

(** ** Tests *)

Example rfc3339_ex :
  parse_rfc3339 "2026-08-08T19:00:00Z" = Some (1786215600 * second)
  /\ parse_rfc3339 "2026-08-08T22:00:00.25+03:00" = Some (1786215600 * second + 250000000)
  /\ parse_rfc3339 "2026-02-29T00:00:00Z" = None
  /\ format_rfc3339 (1786215600 * second + 250000000) = Some "2026-08-08T19:00:00.25Z"
  /\ format_rfc3339 zero_time = Some "0001-01-01T00:00:00Z".
Proof. vm_compute. repeat split. Qed.

Example print_ex :
  print (JObj [("a", JStr "<x>"); ("b", JArr [jint 5; JBool true])])
  = "{" +:+ quote "a" +:+ ":" +:+ quote_mark +:+ "\u003cx\u003e" +:+ quote_mark
    +:+ "," +:+ quote "b" +:+ ":[5,true]}".
Proof. vm_compute. reflexivity. Qed.

(** ** Canonical forms do not depend on the order of members *)

Lemma compare_cons a b s t :
  String.compare (String a s) (String b t)
  = match (N_of_ascii a ?= N_of_ascii b)%N with Eq => String.compare s t | c => c end.
Proof. simpl. unfold Ascii.compare. by destruct (_ ?= _)%N. Qed.

Lemma compare_lt_trans s t u :
  String.compare s t = Lt -> String.compare t u = Lt -> String.compare s u = Lt.
Proof.
  revert t u. induction s as [|a s IH]; intros [|b t] [|c u]; try done.
  rewrite !compare_cons.
  destruct (N.compare_spec (N_of_ascii a) (N_of_ascii b)) as [H1|H1|H1]; [|intros _|done];
    destruct (N.compare_spec (N_of_ascii b) (N_of_ascii c)) as [H2|H2|H2]; try done;
    intros; destruct (N.compare_spec (N_of_ascii a) (N_of_ascii c)); try done; try lia.
  by eapply IH.
Qed.

Lemma compare_swap s t : String.compare s t = CompOpp (String.compare t s).
Proof. apply String.compare_antisym. Qed.

Lemma obj_put_comm k1 v1 k2 v2 l :
  k1 <> k2 -> obj_put k1 v1 (obj_put k2 v2 l) = obj_put k2 v2 (obj_put k1 v1 l).
Proof.
  intros Hne.
  assert (Hneq : String.compare k1 k2 <> Eq).
  { intros ?%String.compare_eq_iff. done. }
  pose proof (compare_swap k2 k1) as Hsw.
  induction l as [|[k' v'] l IH]; simpl.
  - rewrite Hsw. by destruct (String.compare k1 k2).
  - pose proof (compare_lt_trans k1 k' k2) as T1. pose proof (compare_lt_trans k2 k' k1) as T2.
    pose proof (compare_swap k' k1) as S1. pose proof (compare_swap k' k2) as S2.
    destruct (String.compare k1 k') eqn:E1, (String.compare k2 k') eqn:E2; simpl in *;
      rewrite ?E1, ?E2;
      try (apply String.compare_eq_iff in E1; subst k'); try (apply String.compare_eq_iff in E2; subst k');
      rewrite ?Hsw; destruct (String.compare k1 k2) eqn:E12; simpl in *;
      rewrite ?E1, ?E2, ?IH; try done; try (exfalso; naive_solver congruence).
Qed.

Lemma obj_of_perm l1 l2 : NoDup l1.*1 -> l1 ≡ₚ l2 -> obj_of l1 = obj_of l2.
Proof.
  unfold obj_of. intros Hnd Hp. generalize (@nil (string * json)).
  induction Hp as [|[k v] l1 l2 Hp IH|[k1 v1] [k2 v2] l|l1 l2 l3 H12 IH1 H23 IH2]; intros acc; simpl.
  - done.
  - apply NoDup_cons in Hnd as [_ Hnd]. auto.
  - f_equal. apply obj_put_comm. simpl in Hnd.
    apply NoDup_cons in Hnd as [Hni _].
    intros ->. apply Hni, list_elem_of_here.
  - rewrite IH1 by done. apply IH2. by rewrite <- H12.
Qed.

Section CanonicalFacts.
Context `{!Float64Format}.

Lemma canonical_arr l : canonical (JArr l) = JArr <$> mapM canonical l.
Proof. reflexivity. Qed.

Definition canonical_member (kv : string * json) : option (string * json) :=
  pair kv.1 <$> canonical kv.2.

Lemma canonical_obj l :
  canonical (JObj l) = (fun l => JObj (obj_of l)) <$> mapM canonical_member l.
Proof.
  simpl. f_equal. induction l as [|x l IH]; simpl; [done|].
  change (canonical_member x) with (pair x.1 <$> canonical x.2).
  destruct (canonical x.2); simpl; [|done]. by rewrite IH.
Qed.
End CanonicalFacts.

Lemma mapM_perm {A B} (f : A -> option B) l1 l2 :
  l1 ≡ₚ l2 ->
  (mapM f l1 = None /\ mapM f l2 = None)
  \/ exists r1 r2, mapM f l1 = Some r1 /\ mapM f l2 = Some r2 /\ r1 ≡ₚ r2.
Proof.
  induction 1 as [|x l1 l2 Hp IH|x y l|l1 l2 l3 _ IH1 _ IH2]; simpl.
  - right. eexists _, _. eauto.
  - destruct (f x) as [b|]; simpl; [|auto].
    destruct IH as [[-> ->]|(r1 & r2 & -> & -> & Hr)]; simpl; [auto|].
    right. eexists _, _. split_and!; eauto.
  - destruct (f x) as [b|], (f y) as [b'|]; simpl; auto.
    + destruct (mapM f l) as [r|]; simpl; [|auto].
      right. eexists _, _. split_and!; eauto. constructor.
  - destruct IH1 as [[-> E2]|(r1 & r2 & -> & E2 & H1)].
    + destruct IH2 as [[_ ->]|(? & ? & ? & _)]; [auto|congruence].
    + destruct IH2 as [[? _]|(r2' & r3 & E2' & -> & H2)]; [congruence|].
      right. exists r1, r3. split_and!; auto. simplify_eq. by etransitivity.
Qed.

(** [reordered j j']: [j'] is [j] with the members of its objects in another
    order, which is what a jsonb column may return. *)
Inductive reordered : json -> json -> Prop :=
  | reordered_refl j : reordered j j
  | reordered_arr l1 l2 : Forall2 reordered l1 l2 -> reordered (JArr l1) (JArr l2)
  | reordered_obj l1 l2 l3 :
      Forall2 (fun a b => a.1 = b.1 /\ reordered a.2 b.2) l1 l2 -> l2 ≡ₚ l3 -> NoDup l1.*1 ->
      reordered (JObj l1) (JObj l3).

Lemma canonical_reordered `{!Float64Format} j j' : reordered j j' -> canonical j = canonical j'.
Proof.
  revert j'. induction j as [| | | |l IH|l IH] using json_ind'; intros j' Hr;
    inversion Hr as [|l1 l2 HF|l1 l2 l3 HF Hp Hnd]; subst; auto.
  - rewrite !canonical_arr. f_equal. clear Hr. revert l2 HF.
    induction IH as [|x l Hx _ IHl]; intros l2 HF; apply Forall2_cons_inv_l in HF || apply Forall2_nil_inv_l in HF.
    + by subst.
    + destruct HF as (y & l2' & Hxy & HF & ->). simpl. by rewrite (Hx y Hxy), (IHl l2').
  - rewrite !canonical_obj.
    assert (E : mapM canonical_member l = mapM canonical_member l2 /\ l.*1 = l2.*1).
    { clear Hr Hp Hnd. revert l2 HF.
      induction IH as [|[k x] l Hx _ IHl]; intros l2 HF;
        apply Forall2_cons_inv_l in HF || apply Forall2_nil_inv_l in HF.
      - by subst.
      - destruct HF as ([k' y] & l2' & [Hk Hxy] & HF & ->). simpl in *. subst k'.
        destruct (IHl l2' HF) as [E1 E2].
        change (canonical_member (k, x)) with (pair k <$> canonical x).
        change (canonical_member (k, y)) with (pair k <$> canonical y).
        split; [by rewrite (Hx y Hxy), E1|by f_equal]. }
    destruct E as [-> Ek]. rewrite Ek in Hnd.
    destruct (mapM_perm canonical_member l2 l3 Hp) as [[-> ->]|(r1 & r2 & E1 & -> & Hperm)]; [done|].
    rewrite E1. simpl. do 2 f_equal. apply obj_of_perm; [|done].
    assert (Hkeys : r1.*1 = l2.*1); [|by rewrite Hkeys].
    clear - E1. revert r1 E1. induction l2 as [|[k x] l2 IH]; simpl; intros r1 E1; [by injection E1 as <-|].
    change (canonical_member (k, x)) with (pair k <$> canonical x) in E1.
    destruct (canonical x); simpl in E1; [|done].
    destruct (mapM canonical_member l2) as [r|]; simpl in E1; [|done].
    injection E1 as <-. simpl. f_equal. by apply IH.
Qed.
