(* ===== verification/JsonText.v ===== *)
(** * JSON texts

    What [json.Unmarshal] and [json.Decoder] do with a text before they look at
    the Go value: the scanner of Go's [encoding/json] with its nesting limit, and
    the unquoting of strings with surrogate pairs and the replacement of invalid
    UTF-8.  The result is the syntax tree of [Json].  The theorems are that the
    fuel of the recursion is enough ([parse_fuel]) and that the text which
    [json.Marshal] prints reads back as the value it was printed from
    ([Parse_print]), also for times ([parse_FormatRFC3339]). *)

From S2P Require Import Prelude GoStrings Json.
From stdpp Require Import base strings list.
From Stdlib Require Import ZArith Lia Ascii String.
Open Scope Z_scope.

(** ** Numbers *)

Definition is_digit (c : ascii) : bool := bool_decide (digit_val c <> None).

(** The digits at the head of a text, and what follows. *)
Fixpoint span_digits (s : string) : string * string :=
  match s with
  | String c s' => if is_digit c then let (d, r) := span_digits s' in (String c d, r) else ("", s)
  | "" => ("", "")
  end.
(** At least one digit. *)
Definition some_digits (s : string) : option (string * string) :=
  match span_digits s with ("", _) => None | p => Some p end.

Definition scan_sign (s : string) : string * string :=
  match s with String "-" s' => ("-", s') | _ => ("", s) end.
Definition scan_int (s : string) : option (string * string) :=
  match s with String "0" s' => Some ("0", s') | _ => some_digits s end.
Definition scan_fraction (s : string) : option (string * string) :=
  match s with
  | String "." s' => '(d, r) ← some_digits s'; Some (String "." d, r)
  | _ => Some ("", s)
  end.
Definition scan_exponent_sign (s : string) : string * string :=
  match s with
  | String "+" s' => ("+", s')
  | String "-" s' => ("-", s')
  | _ => ("", s)
  end.
Definition is_exponent (c : ascii) : bool := Ascii.eqb c "e" || Ascii.eqb c "E".
Definition scan_exponent (s : string) : option (string * string) :=
  match s with
  | String c s' =>
      if is_exponent c then
        let (sg, s1) := scan_exponent_sign s' in
        '(d, r) ← some_digits s1; Some (String c (sg +:+ d), r)
      else Some ("", s)
  | "" => Some ("", "")
  end.
Definition scan_number (s : string) : option (string * string) :=
  let (sg, s) := scan_sign s in
  '(i, s) ← scan_int s; '(f, s) ← scan_fraction s; '(e, s) ← scan_exponent s;
  Some (sg +:+ i +:+ f +:+ e, s).

(** ** Strings *)

Definition hex_val (c : ascii) : option Z :=
  let z := byte_val c in
  if (48 <=? z) && (z <=? 57) then Some (z - 48)
  else if (97 <=? z) && (z <=? 102) then Some (z - 87)
  else if (65 <=? z) && (z <=? 70) then Some (z - 55) else None.
(** The four digits of a [\u] escape. *)
Definition take_hex4 (s : string) : option (Z * string) :=
  match s with
  | String a (String b (String c (String d r))) =>
      a ← hex_val a; b ← hex_val b; c ← hex_val c; d ← hex_val d;
      Some (a * 4096 + b * 256 + c * 16 + d, r)
  | _ => None
  end.

(** [utf8.EncodeRune] *)
Definition encode_rune (r : Z) : string :=
  if r <? 128 then String (byte_of r) ""
  else if r <? 2048 then String (byte_of (192 + r / 64)) (String (byte_of (128 + r mod 64)) "")
  else if r <? 65536 then
    String (byte_of (224 + r / 4096))
      (String (byte_of (128 + r / 64 mod 64)) (String (byte_of (128 + r mod 64)) ""))
  else
    String (byte_of (240 + r / 262144)) (String (byte_of (128 + r / 4096 mod 64))
      (String (byte_of (128 + r / 64 mod 64)) (String (byte_of (128 + r mod 64)) ""))).
Definition replacement : Z := 65533.

Definition is_surrogate (r : Z) : bool := (55296 <=? r) && (r <? 57344).
(** [utf16.DecodeRune] *)
Definition pair_rune (hi lo : Z) : option Z :=
  if (55296 <=? hi) && (hi <? 56320) && (56320 <=? lo) && (lo <? 57344)
  then Some ((hi - 55296) * 1024 + (lo - 56320) + 65536) else None.

(** After [\u]: the bytes of the rune and the rest; a surrogate without its other
    half is replaced. *)
Definition unicode_escape (s : string) : option (string * string) :=
  '(r, s) ← take_hex4 s;
  if is_surrogate r then
    match s with
    | String "\" (String "u" s') =>
        match take_hex4 s' with
        | Some (lo, s'') =>
            match pair_rune r lo with
            | Some v => Some (encode_rune v, s'')
            | None => Some (encode_rune replacement, s)
            end
        | None => Some (encode_rune replacement, s)
        end
    | _ => Some (encode_rune replacement, s)
    end
  else Some (encode_rune r, s).

(** After a backslash. *)
Definition simple_escape (c : ascii) : option ascii :=
  let z := byte_val c in
  if (z =? 34) || (z =? 92) || (z =? 47) then Some c
  else if z =? 98 then Some (byte_of 8) else if z =? 102 then Some (byte_of 12)
  else if z =? 110 then Some (byte_of 10) else if z =? 114 then Some (byte_of 13)
  else if z =? 116 then Some (byte_of 9) else None.
Definition scan_escape (s : string) : option (string * string) :=
  match s with
  | String "u" s' => unicode_escape s'
  | String c s' => a ← simple_escape c; Some (String a "", s')
  | "" => None
  end.

(** The body of a string after its opening mark; each round consumes a byte. *)
Fixpoint scan_string (fuel : nat) (s : string) : option (string * string) :=
  match fuel, s with
  | S fuel', String c s' =>
      let z := byte_val c in
      if z =? 34 then Some ("", s')
      else if z =? 92 then
        '(v, r) ← scan_escape s'; '(v', r') ← scan_string fuel' r; Some (v +:+ v', r')
      else if z <? 32 then None
      else match rune_len s with
           | O => '(v', r') ← scan_string fuel' s'; Some (encode_rune replacement +:+ v', r')
           | n => '(v', r') ← scan_string fuel' (sdrop n s); Some (stake n s +:+ v', r')
           end
  | _, _ => None
  end.
Definition scan_quoted (s : string) : option (string * string) :=
  match s with
  | String c s' => if byte_val c =? 34 then scan_string (String.length s') s' else None
  | "" => None
  end.

(** ** Values *)

Definition is_space (c : ascii) : bool :=
  let z := byte_val c in (z =? 32) || (z =? 9) || (z =? 10) || (z =? 13).
Fixpoint skip_space (s : string) : string :=
  match s with String c s' => if is_space c then skip_space s' else s | "" => "" end.

Definition scan_scalar (s : string) : option (json * string) :=
  match s with
  | String c _ =>
      if byte_val c =? 34 then '(v, r) ← scan_quoted s; Some (JStr v, r)
      else if HasPrefix s "null" then Some (JNull, sdrop 4 s)
      else if HasPrefix s "true" then Some (JBool true, sdrop 4 s)
      else if HasPrefix s "false" then Some (JBool false, sdrop 5 s)
      else '(v, r) ← scan_number s; Some (JNum v, r)
  | "" => None
  end.

(** [maxNestingDepth] of the library. *)
Definition max_depth : nat := Z.to_nat 10000.

Fixpoint parse_value (fuel depth : nat) (s : string) : option (json * string) :=
  match fuel with
  | O => None
  | S fuel' =>
      let s0 := skip_space s in
      match take_char "[" s0, take_char "{" s0 with
      | Some s1, _ =>
          match depth with
          | O => None
          | S depth' =>
              match take_char "]" (skip_space s1) with
              | Some r => Some (JArr [], r)
              | None => '(l, r) ← parse_items fuel' depth' s1; Some (JArr l, r)
              end
          end
      | None, Some s1 =>
          match depth with
          | O => None
          | S depth' =>
              match take_char "}" (skip_space s1) with
              | Some r => Some (JObj [], r)
              | None => '(l, r) ← parse_members fuel' depth' s1; Some (JObj l, r)
              end
          end
      | None, None => scan_scalar s0
      end
  end
with parse_items (fuel depth : nat) (s : string) : option (list json * string) :=
  match fuel with
  | O => None
  | S fuel' =>
      '(v, r) ← parse_value fuel' depth s;
      let r0 := skip_space r in
      match take_char "," r0 with
      | Some r1 => '(l, r2) ← parse_items fuel' depth r1; Some (v :: l, r2)
      | None => r1 ← take_char "]" r0; Some ([v], r1)
      end
  end
with parse_members (fuel depth : nat) (s : string) : option (list (string * json) * string) :=
  match fuel with
  | O => None
  | S fuel' =>
      '(k, r) ← scan_quoted (skip_space s);
      r ← take_char ":" (skip_space r);
      '(v, r) ← parse_value fuel' depth r;
      let r0 := skip_space r in
      match take_char "," r0 with
      | Some r1 => '(l, r2) ← parse_members fuel' depth r1; Some ((k, v) :: l, r2)
      | None => r1 ← take_char "}" r0; Some ([(k, v)], r1)
      end
  end.

(** A document: one value and nothing but white space around it.  A value needs
    one unit of fuel and each of its bytes at most two. *)
Definition Parse (s : string) : option json :=
  '(v, r) ← parse_value (S (2 * String.length s)) max_depth s;
  if String.eqb (skip_space r) "" then Some v else None.

Example Parse_ex :
  Parse " { } " = Some (JObj []) /\ Parse "[1, -2.50e+3 ,true,null]" =
    Some (JArr [JNum "1"; JNum "-2.50e+3"; JBool true; JNull])
  /\ Parse "[1,]" = None /\ Parse "01" = None /\ Parse "-" = None /\ Parse "1 2" = None
  /\ Parse (quote_mark +:+ "\ud83d\ude00\u0041" +:+ quote_mark)
     = Some (JStr (string_of_list_ascii (byte_of <$> [240; 159; 152; 128; 65])))
  /\ Parse (quote_mark +:+ "\ud83dA" +:+ quote_mark)
     = Some (JStr (string_of_list_ascii (byte_of <$> [239; 191; 189; 65])))
  /\ Parse ("{" +:+ quote "a" +:+ ": [ " +:+ quote "b" +:+ " ] }") = Some (JObj [("a", JArr [JStr "b"])]).
Proof. vm_compute. repeat split. Qed.

(** ** The fuel is enough *)

Lemma length_sdrop n s : String.length (sdrop n s) = (String.length s - n)%nat.
Proof. revert s. induction n as [|n IH]; intros [|c s]; simpl; auto. Qed.

Lemma skip_space_le s : (String.length (skip_space s) <= String.length s)%nat.
Proof. induction s as [|c s IH]; simpl; [done|]. destruct (is_space c); simpl; lia. Qed.

(** A scanner leaves less than it was given. *)
Definition shrinks {A} (p : string -> option (A * string)) : Prop :=
  forall s a r, p s = Some (a, r) -> (String.length r < String.length s)%nat.

Lemma span_digits_app s d r : span_digits s = (d, r) -> s = d +:+ r.
Proof.
  revert d r. induction s as [|c s IH]; intros d r; simpl; [by intros [= <- <-]|].
  destruct (is_digit c); [|by intros [= <- <-]]. destruct (span_digits s) as [d' r'].
  intros [= <- <-]. simpl. by rewrite <- (IH d' r').
Qed.
Lemma some_digits_app s d r : some_digits s = Some (d, r) -> s = d +:+ r /\ d <> "".
Proof.
  unfold some_digits. destruct (span_digits s) as [[|c d'] r'] eqn:E; [done|]. intros [= <- <-].
  split; [by apply span_digits_app|done].
Qed.

(** Cases on the characters that a scanner looks at. *)
Ltac scan_cases H :=
  repeat match type of H with context [match ?x with _ => _ end] => is_var x; destruct x end.

Lemma scan_sign_app s v r : scan_sign s = (v, r) -> s = v +:+ r.
Proof. unfold scan_sign. intros H. scan_cases H; by injection H as <- <-. Qed.
Lemma scan_exponent_sign_app s v r : scan_exponent_sign s = (v, r) -> s = v +:+ r.
Proof. unfold scan_exponent_sign. intros H. scan_cases H; by injection H as <- <-. Qed.
Lemma scan_int_app s v r : scan_int s = Some (v, r) -> s = v +:+ r /\ v <> "".
Proof.
  unfold scan_int. intros H. scan_cases H; try (by apply some_digits_app in H); by injection H as <- <-.
Qed.
Lemma scan_fraction_app s v r : scan_fraction s = Some (v, r) -> s = v +:+ r.
Proof.
  unfold scan_fraction. intros H. scan_cases H; try (by injection H as <- <-).
  apply bind_Some in H as ([d r'] & E & H). injection H as <- <-. by apply some_digits_app in E as [-> _].
Qed.
Lemma scan_exponent_app s v r : scan_exponent s = Some (v, r) -> s = v +:+ r.
Proof.
  destruct s as [|c s]; cbn [scan_exponent]; [by intros [= <- <-]|].
  destruct (is_exponent c); [|by intros [= <- <-]].
  destruct (scan_exponent_sign s) as [sg s1] eqn:Es. apply scan_exponent_sign_app in Es as ->.
  intros H. apply bind_Some in H as ([d r'] & E & H). injection H as <- <-.
  apply some_digits_app in E as [-> _]. simpl. by rewrite sapp_assoc.
Qed.
Lemma scan_number_app s v r : scan_number s = Some (v, r) -> s = v +:+ r /\ v <> "".
Proof.
  unfold scan_number. destruct (scan_sign s) as [sg s0] eqn:E0. apply scan_sign_app in E0 as ->. intros H.
  apply bind_Some in H as ([i s1] & [-> Hne]%scan_int_app & H).
  apply bind_Some in H as ([f s2] & ->%scan_fraction_app & H).
  apply bind_Some in H as ([e s3] & ->%scan_exponent_app & H).
  injection H as <- <-. rewrite !sapp_assoc. split; [done|]. destruct sg; [|done]. by destruct i.
Qed.

Lemma take_hex4_shrinks : shrinks take_hex4.
Proof.
  intros s a r. unfold take_hex4. destruct s as [|? [|? [|? [|? ?]]]]; try done.
  intros H. repeat (apply bind_Some in H as (? & _ & H)). injection H as _ <-. simpl. lia.
Qed.
Lemma scan_escape_shrinks : shrinks scan_escape.
Proof.
  assert (Hu : shrinks unicode_escape).
  { intros s a r H. unfold unicode_escape in H.
    apply bind_Some in H as ([v s1] & E1 & H). apply take_hex4_shrinks in E1.
    destruct (is_surrogate v); [|injection H as _ <-; lia].
    repeat (match type of H with context [match ?x with _ => _ end] => destruct x eqn:? end; try discriminate H);
      try (injection H as _ <-; simpl in *; lia).
    injection H as _ <-. match goal with H : take_hex4 _ = _ |- _ => apply take_hex4_shrinks in H end.
    simpl in *. lia. }
  intros s a r H. unfold scan_escape in H. destruct s as [|c s']; [done|].
  assert (Hc : unicode_escape s' = Some (a, r) \/ (simple_escape c ≫= fun b => Some (String b "", s')) = Some (a, r)).
  { repeat match type of H with context [match ?x with _ => _ end] => is_var x; destruct x end; auto. }
  destruct Hc as [Hc|Hc].
  - apply Hu in Hc. simpl. lia.
  - apply bind_Some in Hc as (? & _ & Hc). injection Hc as _ <-. simpl. lia.
Qed.
Lemma scan_string_shrinks fuel : shrinks (scan_string fuel).
Proof.
  induction fuel as [|fuel IH]; intros [|c s] a r H; try done. cbn [scan_string] in H.
  destruct (byte_val c =? 34); [injection H as _ <-; simpl; lia|].
  destruct (byte_val c =? 92).
  { apply bind_Some in H as ([v s1] & E1 & H). apply bind_Some in H as ([v' s2] & E2 & H).
    injection H as _ <-. apply scan_escape_shrinks in E1. apply IH in E2. simpl. lia. }
  destruct (byte_val c <? 32); [done|].
  destruct (rune_len (String c s)) as [|n]; apply bind_Some in H as ([v' s2] & E2 & H);
    injection H as _ <-; apply IH in E2; rewrite ?length_sdrop in E2; simpl in *; lia.
Qed.
Lemma scan_quoted_shrinks : shrinks scan_quoted.
Proof.
  intros [|c s] a r H; [done|]. unfold scan_quoted in H. destruct (_ =? _); [|done].
  apply scan_string_shrinks in H. simpl. lia.
Qed.
Lemma scan_scalar_shrinks : shrinks scan_scalar.
Proof.
  intros [|c s] a r H; [done|]. unfold scan_scalar in H.
  destruct (_ =? _).
  { apply bind_Some in H as ([v s1] & E1 & H). injection H as _ <-. by apply scan_quoted_shrinks in E1. }
  destruct (HasPrefix _ "null"); [assert (r = sdrop 4 (String c s)) as -> by congruence; rewrite length_sdrop; simpl; lia|].
  destruct (HasPrefix _ "true"); [assert (r = sdrop 4 (String c s)) as -> by congruence; rewrite length_sdrop; simpl; lia|].
  destruct (HasPrefix _ "false"); [assert (r = sdrop 5 (String c s)) as -> by congruence; rewrite length_sdrop; simpl; lia|].
  apply bind_Some in H as ([v s1] & E1 & H). injection H as _ <-. apply scan_number_app in E1 as [E1 Hne].
  rewrite E1, length_sapp. destruct v; [done|]. simpl. lia.
Qed.

Lemma take_char_shrinks c s r : take_char c s = Some r -> String.length s = S (String.length r).
Proof. destruct s as [|a s]; [done|]. cbn [take_char]. destruct (Ascii.eqb a c); [by intros [= <-]|done]. Qed.
Lemma token_shrinks c s r : take_char c (skip_space s) = Some r -> (String.length r < String.length s)%nat.
Proof. intros H%take_char_shrinks. pose proof (skip_space_le s). lia. Qed.

Lemma parse_shrinks fuel : forall depth,
  shrinks (parse_value fuel depth) /\ shrinks (parse_items fuel depth) /\ shrinks (parse_members fuel depth).
Proof.
  induction fuel as [|fuel IH]; intros depth; [by split_and!; intros ? ? ?|].
  split_and!; intros s a r H; simpl in H.
  - destruct (take_char "[" _) as [s1|] eqn:E1; [|destruct (take_char "{" _) as [s1|] eqn:E2].
    + apply token_shrinks in E1. destruct depth as [|depth]; [done|].
      destruct (take_char "]" _) as [r'|] eqn:E3.
      * injection H as _ <-. apply token_shrinks in E3. lia.
      * apply bind_Some in H as ([l r'] & E & H). injection H as _ <-. apply IH in E. lia.
    + apply token_shrinks in E2. destruct depth as [|depth]; [done|].
      destruct (take_char "}" _) as [r'|] eqn:E3.
      * injection H as _ <-. apply token_shrinks in E3. lia.
      * apply bind_Some in H as ([l r'] & E & H). injection H as _ <-. apply IH in E. lia.
    + apply scan_scalar_shrinks in H. pose proof (skip_space_le s). lia.
  - apply bind_Some in H as ([v r1] & E & H). apply IH in E.
    destruct (take_char "," _) as [r2|] eqn:E2; apply bind_Some in H as (x & E' & H).
    + destruct x as [l r3]. injection H as _ <-. apply IH in E'. apply token_shrinks in E2. lia.
    + injection H as _ <-. apply token_shrinks in E'. lia.
  - apply bind_Some in H as ([k r1] & E & H). apply scan_quoted_shrinks in E. pose proof (skip_space_le s).
    apply bind_Some in H as (r2 & E2%token_shrinks & H).
    apply bind_Some in H as ([v r3] & E3 & H). apply IH in E3.
    destruct (take_char "," _) as [r4|] eqn:E4; apply bind_Some in H as (x & E' & H).
    + destruct x as [l r5]. injection H as _ <-. apply IH in E'. apply token_shrinks in E4. lia.
    + injection H as _ <-. apply token_shrinks in E'. lia.
Qed.
Lemma parse_value_shrinks fuel depth : shrinks (parse_value fuel depth).
Proof. apply parse_shrinks. Qed.

(** Past the bound the result does not depend on the fuel: a text is refused
    because it is malformed or nested too deep, never for lack of fuel. *)
Lemma bind_ext {A B} (m : option A) (f g : A -> option B) :
  (forall a, m = Some a -> f a = g a) -> (m ≫= f) = (m ≫= g).
Proof. destruct m; simpl; auto. Qed.

Lemma parse_fuel : forall n s, (String.length s <= n)%nat -> forall depth f g,
  ((2 * n + 1 <= f -> 2 * n + 1 <= g -> parse_value f depth s = parse_value g depth s)
   /\ (2 * n + 2 <= f -> 2 * n + 2 <= g ->
       parse_items f depth s = parse_items g depth s /\ parse_members f depth s = parse_members g depth s))%nat.
Proof.
  induction n as [n IH] using lt_wf_ind. intros s Hs.
  assert (Hsub : forall s', (String.length s' < n)%nat -> forall depth f g,
    ((2 * n - 1 <= f -> 2 * n - 1 <= g -> parse_value f depth s' = parse_value g depth s')
    /\ (2 * n <= f -> 2 * n <= g ->
       parse_items f depth s' = parse_items g depth s' /\ parse_members f depth s' = parse_members g depth s'))%nat).
  { intros s' Hs' depth f g. destruct (IH (n - 1)%nat ltac:(lia) s' ltac:(lia) depth f g) as [H1 H2].
    split; intros; [apply H1|apply H2]; lia. }
  clear IH.
  assert (Hv : forall depth f g, (2 * n + 1 <= f -> 2 * n + 1 <= g ->
    parse_value f depth s = parse_value g depth s)%nat).
  { intros depth [|f] [|g] Hf Hg; try lia. simpl.
    destruct (take_char "[" _) as [s1|] eqn:E1; [|destruct (take_char "{" _) as [s1|] eqn:E2].
    - apply token_shrinks in E1. destruct depth as [|depth]; [done|].
      destruct (take_char "]" _); [done|]. by rewrite (proj1 (proj2 (Hsub s1 ltac:(lia) depth f g) ltac:(lia) ltac:(lia))).
    - apply token_shrinks in E2. destruct depth as [|depth]; [done|].
      destruct (take_char "}" _); [done|]. by rewrite (proj2 (proj2 (Hsub s1 ltac:(lia) depth f g) ltac:(lia) ltac:(lia))).
    - done. }
  intros depth f g. split; [apply Hv|]. intros Hf Hg. destruct f as [|f], g as [|g]; try lia. simpl. split.
  - rewrite (Hv depth f g) by lia. apply bind_ext. intros [v r] E%parse_value_shrinks.
    destruct (take_char "," _) as [r1|] eqn:E1; [|done]. apply token_shrinks in E1.
    by rewrite (proj1 (proj2 (Hsub r1 ltac:(lia) depth f g) ltac:(lia) ltac:(lia))).
  - apply bind_ext. intros [k r] E%scan_quoted_shrinks. pose proof (skip_space_le s).
    apply bind_ext. intros r1 E1%token_shrinks.
    rewrite (proj1 (Hsub r1 ltac:(lia) depth f g) ltac:(lia) ltac:(lia)).
    apply bind_ext. intros [v r2] E2%parse_value_shrinks.
    destruct (take_char "," _) as [r3|] eqn:E3; [|done]. apply token_shrinks in E3.
    by rewrite (proj2 (proj2 (Hsub r3 ltac:(lia) depth f g) ltac:(lia) ltac:(lia))).
Qed.

(** ** Printed strings read back *)

Lemma length_stake' n s : (n <= String.length s)%nat -> String.length (stake n s) = n.
Proof. revert s. induction n as [|n IH]; intros [|c s] H; simpl in *; try lia. rewrite IH; lia. Qed.

(** Valid UTF-8, which is what Go requires of a text to be printed unchanged. *)
Fixpoint utf8_runes (fuel : nat) (s : string) : bool :=
  match s with
  | "" => true
  | _ => match fuel, rune_len s with
         | S fuel', S n => utf8_runes fuel' (sdrop (S n) s)
         | _, _ => false
         end
  end.
Definition valid_utf8 (s : string) : bool := utf8_runes (String.length s) s.

Inductive utf8 : string -> Prop :=
  | utf8_nil : utf8 ""
  | utf8_rune s : rune_len s <> 0%nat -> utf8 (sdrop (rune_len s) s) -> utf8 s.

Lemma utf8_runes_spec fuel s : utf8_runes fuel s = true -> utf8 s.
Proof.
  revert s. induction fuel as [|fuel IH]; intros [|c s] H; [constructor|done|constructor|]. cbn [utf8_runes] in H.
  destruct (rune_len (String c s)) as [|n] eqn:E; [done|].
  apply utf8_rune; rewrite E; (lia || by apply IH).
Qed.
Lemma valid_utf8_spec s : valid_utf8 s = true -> utf8 s.
Proof. apply utf8_runes_spec. Qed.

Lemma ascii_valid_utf8 s : is_ascii s = true -> valid_utf8 s = true.
Proof.
  unfold valid_utf8. induction s as [|c s IH]; [done|]. cbn [is_ascii String.length utf8_runes rune_len].
  destruct (byte_val c <? 128); [|done]. exact IH.
Qed.

Ltac rune_cases s :=
  unfold rune_len; destruct s as [|? [|? [|? [|? ?]]]]; cbn [stake String.length String.append];
  repeat match goal with
  | |- context [if ?b then _ else _] => let E := fresh "E" in destruct b eqn:E; cbn [stake String.length String.append] in *
  end; try done; try lia.
Lemma rune_len_le s : (rune_len s <= String.length s)%nat.
Proof. rune_cases s. Qed.
Lemma rune_len_stake s t : rune_len s <> 0%nat -> rune_len (stake (rune_len s) s +:+ t) = rune_len s.
Proof.
  destruct s as [|a [|b [|c [|d s]]]]; unfold rune_len at 1 2 4; cbv zeta;
  repeat match goal with
  | |- context [if ?b then _ else _] => let E := fresh "E" in destruct b eqn:E
  end; try done; intros _; cbv beta iota zeta delta [stake String.append rune_len];
  repeat match goal with H : ?b = _ |- context [if ?b then _ else _] => rewrite H end; done.
Qed.
Lemma rune_len_high c s : (2 <= rune_len (String c s))%nat -> 128 <= byte_val c.
Proof. unfold rune_len. destruct (Z.ltb_spec (byte_val c) 128); lia. Qed.

(** One character of the printed form. *)
Lemma scan_escaped a g t :
  byte_val a < 128 ->
  scan_string (S g) (escape_ascii a +:+ t) = '(v, r) ← scan_string g t; Some (String a v, r).
Proof.
  destruct a as [b0 b1 b2 b3 b4 b5 b6 b7]. destruct b7.
  { intros H. exfalso. revert H. destruct b0, b1, b2, b3, b4, b5, b6; vm_compute; discriminate. }
  intros _. destruct b0, b1, b2, b3, b4, b5, b6; reflexivity.
Qed.
Lemma scan_rune s g t :
  (2 <= rune_len s)%nat ->
  scan_string (S g) (stake (rune_len s) s +:+ t)
  = '(v, r) ← scan_string g t; Some (stake (rune_len s) s +:+ v, r).
Proof.
  intros Hn. destruct s as [|c s]; [by apply Nat.nle_succ_0 in Hn|].
  assert (Hlen : String.length (stake (rune_len (String c s)) (String c s)) = rune_len (String c s)).
  { apply length_stake'. apply rune_len_le. }
  assert (Hr : rune_len (stake (rune_len (String c s)) (String c s) +:+ t) = rune_len (String c s))
    by (apply rune_len_stake; lia).
  pose proof (rune_len_high c s Hn) as Hc. set (n := rune_len (String c s)) in *.
  assert (Hs : exists u, stake n (String c s) = String c u) by (destruct n; [lia|]; simpl; eauto).
  destruct Hs as [u Hu]. rewrite Hu in *. cbn [String.append scan_string].
  cbn [String.append] in Hr. rewrite Hr.
  destruct (Z.eqb_spec (byte_val c) 34), (Z.eqb_spec (byte_val c) 92), (Z.ltb_spec (byte_val c) 32); try lia.
  destruct n as [|n]; [lia|].
  change (String c (u +:+ t)) with (String c u +:+ t). rewrite <- Hlen, sdrop_app, stake_app. done.
Qed.

Lemma scan_escape_string s : utf8 s -> forall f g r,
  (String.length s <= f)%nat -> (String.length (escape f s) < g)%nat ->
  scan_string g (escape f s +:+ quote_mark +:+ r) = Some (s, r).
Proof.
  induction 1 as [|s Hn Hs IH]; intros f g r Hf Hg.
  { destruct g as [|g]; [lia|]. by destruct f. }
  destruct s as [|c s]; [done|]. destruct f as [|f]; [simpl in Hf; lia|]. destruct g as [|g]; [lia|].
  pose proof (rune_len_le (String c s)) as Hle.
  assert (Hstep : forall t, String.length (sdrop t (String c s)) = (S (String.length s) - t)%nat)
    by (intros; by rewrite length_sdrop).
  cbn [escape] in *. destruct (rune_len (String c s)) as [|[|n]] eqn:En; [done| |].
  - assert (Hc : byte_val c < 128).
    { revert En. clear. unfold rune_len. destruct (Z.ltb_spec (byte_val c) 128); [done|].
      repeat match goal with |- context [match ?x with _ => _ end] => destruct x; try done end. }
    rewrite sapp_assoc, scan_escaped by done. change (sdrop 1 (String c s)) with s in IH.
    simpl in Hf. rewrite length_sapp in Hg.
    assert (0 < String.length (escape_ascii c))%nat by (clear; unfold escape_ascii;
      repeat match goal with |- context [if ?b then _ else _] => destruct b end; simpl; lia).
    by rewrite IH by lia.
  - assert (Hlong : (2 <= rune_len (String c s))%nat) by (rewrite En; lia).
    pose proof (Hstep (S (S n))) as Hlen. cbn [String.length] in Hf.
    assert (Hsep : forall b z, stake 3 (String c s) = string_of_list_ascii [byte_of 226; byte_of 128; byte_of b] ->
      (b = 168 /\ z = 8232 \/ b = 169 /\ z = 8233) ->
      (String.length (u_escape z +:+ escape f (sdrop 3 (String c s))) < S g)%nat ->
      scan_string (S g) ((u_escape z +:+ escape f (sdrop 3 (String c s))) +:+ quote_mark +:+ r)
      = Some (String c s, r)).
    { intros b z Hst Hz Hg'.
      assert (Hn3 : S (S n) = 3%nat).
      { rewrite <- En. destruct s as [|x [|y s']]; [discriminate Hst..|]. injection Hst as -> -> ->.
        by destruct Hz as [[-> _]|[-> _]]. }
      rewrite Hn3 in *. rewrite sapp_assoc. rewrite length_sapp in Hg'.
      assert (Hl6 : String.length (u_escape z) = 6%nat) by (by destruct Hz as [[_ ->]|[_ ->]]).
      transitivity ('(v, r) ← scan_string g (escape f (sdrop 3 (String c s)) +:+ quote_mark +:+ r);
                    Some (stake 3 (String c s) +:+ v, r)).
      { rewrite Hst. by destruct Hz as [[-> ->]|[-> ->]]. }
      rewrite IH by lia. cbn. do 2 f_equal. apply (stake_sdrop 3 (String c s)). }
    destruct (String.eqb_spec (stake 3 (String c s))
      (String (byte_of 226) (String (byte_of 128) (String (byte_of 168) "")))) as [E8|_];
      [by apply (Hsep 168); auto|].
    destruct (String.eqb_spec (stake 3 (String c s))
      (String (byte_of 226) (String (byte_of 128) (String (byte_of 169) "")))) as [E9|_];
      [by apply (Hsep 169); auto|].
    rewrite sapp_assoc. rewrite <- En in *. rewrite scan_rune by done. rewrite length_sapp in Hg.
    assert (Hpos : String.length (stake (rune_len (String c s)) (String c s)) = rune_len (String c s))
      by (apply length_stake', rune_len_le).
    rewrite IH by lia. cbn. do 2 f_equal. apply stake_sdrop.
Qed.

Lemma scan_quote s r : valid_utf8 s = true -> scan_quoted (quote s +:+ r) = Some (s, r).
Proof.
  intros H%valid_utf8_spec. unfold quote. cbn [quote_mark String.append scan_quoted].
  change (byte_val (byte_of 34) =? 34) with true. cbv iota. rewrite sapp_assoc.
  apply scan_escape_string; [done|lia|]. rewrite !length_sapp. cbn [quote_mark String.length]. lia.
Qed.

(** ** Printed values read back *)

(** What may follow a number without becoming part of it. *)
Definition number_end (r : string) : bool :=
  match r with
  | "" => true
  | String c _ => negb (is_digit c || Ascii.eqb c "." || is_exponent c)
  end.
Definition valid_number (lit : string) : bool := bool_decide (scan_number lit = Some (lit, "")).

Section NumberEnd.
Context (r : string) (Hr : number_end r = true).

Lemma span_digits_end s d x : span_digits s = (d, x) -> span_digits (s +:+ r) = (d, x +:+ r).
Proof.
  revert d x. induction s as [|c s IH]; intros d x; simpl.
  - intros [= <- <-]. destruct r as [|c r']; [done|]. simpl in *. by destruct (is_digit c).
  - destruct (is_digit c); [|by intros [= <- <-]]. destruct (span_digits s) as [d' x'].
    intros [= <- <-]. by rewrite (IH d' x').
Qed.
Lemma some_digits_end s d x : some_digits s = Some (d, x) -> some_digits (s +:+ r) = Some (d, x +:+ r).
Proof.
  unfold some_digits. destruct (span_digits s) as [d' x'] eqn:E. rewrite (span_digits_end _ _ _ E).
  destruct d'; [done|]. by intros [= <- <-].
Qed.
Lemma scan_int_end s v x : scan_int s = Some (v, x) -> scan_int (s +:+ r) = Some (v, x +:+ r).
Proof.
  unfold scan_int. destruct s as [|c s]; [done|]. cbn [String.append]. intros H.
  pose proof (some_digits_end (String c s) v x) as Hd. cbn [String.append] in Hd.
  scan_cases H; try (by apply Hd); by injection H as <- <-.
Qed.
Lemma scan_fraction_end s v x : scan_fraction s = Some (v, x) -> scan_fraction (s +:+ r) = Some (v, x +:+ r).
Proof.
  destruct s as [|c s]; cbn [String.append].
  - intros [= <- <-]. destruct r as [|c r']; [done|]. cbn [number_end] in Hr.
    destruct (Ascii.eqb_spec c "."); [by rewrite orb_true_r in Hr|].
    unfold scan_fraction. simpl. clear Hr. destruct c as [[] [] [] [] [] [] [] []]; done.
  - unfold scan_fraction. intros H. scan_cases H; try (by injection H as <- <-).
    apply bind_Some in H as ([d x'] & E & H). injection H as <- <-. by rewrite (some_digits_end _ _ _ E).
Qed.
Lemma scan_exponent_end s v x : scan_exponent s = Some (v, x) -> scan_exponent (s +:+ r) = Some (v, x +:+ r).
Proof.
  destruct s as [|c s]; cbn [String.append scan_exponent].
  - intros [= <- <-]. destruct r as [|c r']; [done|]. cbn [number_end] in Hr. cbn.
    destruct (is_exponent c); [|done]. by rewrite !orb_true_r in Hr.
  - destruct (is_exponent c); [|by intros [= <- <-]].
    destruct (scan_exponent_sign s) as [sg s1] eqn:Es. intros H.
    apply bind_Some in H as ([d x'] & E & H). injection H as <- <-.
    assert (Es' : scan_exponent_sign (s +:+ r) = (sg, s1 +:+ r)).
    { destruct s as [|a s]; [by injection Es as <- <-|]. unfold scan_exponent_sign in *. cbn [String.append].
      scan_cases Es; by injection Es as <- <-. }
    by rewrite Es', (some_digits_end _ _ _ E).
Qed.
Lemma scan_number_end s v x : scan_number s = Some (v, x) -> scan_number (s +:+ r) = Some (v, x +:+ r).
Proof.
  unfold scan_number. destruct (scan_sign s) as [sg s0] eqn:Es. intros H.
  apply bind_Some in H as ([i s1] & E1 & H). apply bind_Some in H as ([f s2] & E2 & H).
  apply bind_Some in H as ([e s3] & E3 & H). injection H as <- <-.
  assert (Es' : scan_sign (s +:+ r) = (sg, s0 +:+ r)).
  { destruct s as [|a s]; [by injection Es as <- <-|]. unfold scan_sign in *. cbn [String.append].
    scan_cases Es; by injection Es as <- <-. }
  rewrite Es', (scan_int_end _ _ _ E1). cbn. rewrite (scan_fraction_end _ _ _ E2). cbn.
  by rewrite (scan_exponent_end _ _ _ E3).
Qed.
End NumberEnd.

(** The first character of a number. *)
Lemma number_head lit : valid_number lit = true ->
  exists c s, lit = String c s /\ (c = "-"%char \/ is_digit c = true).
Proof.
  unfold valid_number. rewrite bool_decide_eq_true. destruct lit as [|c s]; [done|].
  intros H. exists c, s. split; [done|]. destruct (Ascii.eqb_spec c "-"); [by left|right].
  unfold scan_number in H.
  assert (Es : scan_sign (String c s) = ("", String c s)).
  { unfold scan_sign. clear H. by destruct c as [[] [] [] [] [] [] [] []]. }
  rewrite Es in H. apply bind_Some in H as ([i s1] & E1 & _). clear - E1. destruct (is_digit c) eqn:E; [done|].
  assert (Hd : some_digits (String c s) = None) by (unfold some_digits; simpl; by rewrite E).
  unfold scan_int in E1. rewrite Hd in E1. by destruct c as [[] [] [] [] [] [] [] []].
Qed.

Lemma scan_scalar_number lit r :
  valid_number lit = true -> number_end r = true -> scan_scalar (lit +:+ r) = Some (JNum lit, r).
Proof.
  intros Hv Hr. destruct (number_head lit Hv) as (c & s & -> & Hc).
  pose proof (scan_number_end r Hr (String c s) (String c s) "") as Hn.
  unfold valid_number in Hv. rewrite bool_decide_eq_true in Hv. specialize (Hn Hv).
  cbn [String.append] in *. unfold scan_scalar.
  assert (Hne : (byte_val c =? 34) = false /\ Ascii.eqb "n" c = false /\ Ascii.eqb "t" c = false
                /\ Ascii.eqb "f" c = false).
  { clear - Hc. destruct Hc as [->|Hc]; [done|]. destruct c as [[] [] [] [] [] [] [] []];
      (done || (vm_compute in Hc; discriminate Hc)). }
  destruct Hne as (-> & H1 & H2 & H3). cbn [HasPrefix]. rewrite H1, H2, H3. cbn [andb]. by rewrite Hn.
Qed.

Fixpoint well_formed (depth : nat) (j : json) {struct j} : bool :=
  match j with
  | JNull | JBool _ => true
  | JNum lit => valid_number lit
  | JStr s => valid_utf8 s
  | JArr items =>
      match depth with O => false | S d => forallb (well_formed d) items end
  | JObj members =>
      match depth with
      | O => false
      | S d => forallb (fun kv => valid_utf8 kv.1 && well_formed d kv.2) members
      end
  end.

(** A value starts with a character that is neither white space nor a closing
    bracket. *)
Definition opening (s : string) : Prop :=
  exists c s', s = String c s' /\ is_space c = false /\ Ascii.eqb c "]" = false /\ Ascii.eqb c "}" = false.
Lemma print_opening depth j : well_formed depth j = true -> opening (print j).
Proof.
  destruct j as [|[]|lit|s|l|l]; intros H; try by (eexists _, _; split_and!).
  destruct (number_head lit H) as (c & s & -> & Hc). exists c, s. split; [done|]. clear H.
  destruct Hc as [->|Hc]; [done|].
  destruct c as [[] [] [] [] [] [] [] []]; (done || (vm_compute in Hc; discriminate Hc)).
Qed.
Lemma opening_app s r : opening s -> opening (s +:+ r).
Proof. intros (c & s' & -> & H). exists c, (s' +:+ r). done. Qed.
Lemma opening_skip s : opening s -> skip_space s = s.
Proof. intros (c & s' & -> & H & _). simpl. by rewrite H. Qed.
Lemma opening_closed s : opening s -> take_char "]" s = None /\ take_char "}" s = None.
Proof. intros (c & s' & -> & _ & H1 & H2). cbn [take_char]. by rewrite H1, H2. Qed.

Lemma commas_foldl l a b : foldl (fun acc y => acc +:+ "," +:+ y) (a +:+ b) l
  = a +:+ foldl (fun acc y => acc +:+ "," +:+ y) b l.
Proof. revert b. induction l as [|y l IH]; intros b; simpl; [done|]. by rewrite sapp_assoc, IH. Qed.
Lemma commas_cons x y l : commas (x :: y :: l) = x +:+ "," +:+ commas (y :: l).
Proof. simpl. rewrite commas_foldl. f_equal. change (String "," y) with ("," +:+ y). by rewrite commas_foldl. Qed.
Lemma commas_one x : commas [x] = x.
Proof. done. Qed.

(** What the parser does on a printed value followed by [r]. *)
Definition reads_back (j : json) : Prop := forall depth f r,
  well_formed depth j = true -> number_end r = true -> (2 * String.length (print j) + 1 <= f)%nat ->
  parse_value f depth (print j +:+ r) = Some (j, r).

Lemma parse_scalar_value f depth s :
  opening s -> take_char "[" s = None -> take_char "{" s = None ->
  parse_value (S f) depth s = scan_scalar s.
Proof. intros Ho H1 H2. simpl. by rewrite opening_skip, H1, H2. Qed.

Lemma reads_back_scalar j :
  match j with JArr _ | JObj _ => False | _ => True end -> reads_back j.
Proof.
  intros Hj depth [|f] r Hw Hr Hf; [lia|].
  pose proof (opening_app _ r (print_opening depth j Hw)) as Ho.
  assert (Hno : take_char "[" (print j +:+ r) = None /\ take_char "{" (print j +:+ r) = None).
  { destruct j as [|[]|lit|s| |]; try done.
    destruct (number_head lit Hw) as (c & s & -> & Hc). cbn. clear - Hc.
    destruct Hc as [->|Hc]; [done|].
    destruct c as [[] [] [] [] [] [] [] []]; (done || (vm_compute in Hc; discriminate Hc)). }
  rewrite parse_scalar_value by (done || apply Hno). clear Ho Hno.
  destruct j as [|[]|lit|s| |]; try done.
  - pose proof (HasPrefix_app "null" r) as Hp. unfold scan_scalar. cbn [print String.append] in *. by rewrite Hp.
  - pose proof (HasPrefix_app "true" r) as Hp. unfold scan_scalar. cbn [print String.append] in *. by rewrite Hp.
  - pose proof (HasPrefix_app "false" r) as Hp. unfold scan_scalar. cbn [print String.append] in *. by rewrite Hp.
  - by apply scan_scalar_number.
  - unfold scan_scalar. cbn [print]. pose proof (scan_quote s r Hw) as Hq. unfold quote in *.
    cbn [quote_mark String.append] in *. change (byte_val (byte_of 34) =? 34) with true. cbv iota. by rewrite Hq.
Qed.

Lemma skip_take c s : is_space c = false -> take_char c (skip_space (String c "" +:+ s)) = Some s.
Proof. intros H. cbn [String.append skip_space]. rewrite H. cbn [take_char]. by rewrite Ascii.eqb_refl. Qed.

Lemma parse_items_print depth items : Forall reads_back items ->
  forallb (well_formed depth) items = true -> items <> [] -> forall f r,
  (2 * String.length (commas (map print items)) + 2 <= f)%nat ->
  parse_items f depth (commas (map print items) +:+ "]" +:+ r) = Some (items, r).
Proof.
  induction 1 as [|x l Hx Hl IH]; [done|]. intros [Hwx Hwl]%andb_true_iff _ [|f] r Hf; [lia|].
  destruct l as [|y l].
  - cbn [map] in *. rewrite commas_one in *. cbn [parse_items]. rewrite Hx by (done || lia). done.
  - cbn [map] in *. rewrite commas_cons in *. rewrite !length_sapp in Hf. cbn [String.length] in Hf.
    rewrite !sapp_assoc. cbn [parse_items]. rewrite (Hx depth) by (done || lia). cbn [mbind option_bind].
    cbv zeta. rewrite (skip_take ",") by done. cbv iota. rewrite IH by (done || lia). done.
Qed.

Definition print_member (kv : string * json) : string := quote kv.1 +:+ ":" +:+ print kv.2.
Lemma parse_members_print depth members : Forall (fun kv => reads_back kv.2) members ->
  forallb (fun kv => valid_utf8 kv.1 && well_formed depth kv.2) members = true -> members <> [] -> forall f r,
  (2 * String.length (commas (map print_member members)) + 2 <= f)%nat ->
  parse_members f depth (commas (map print_member members) +:+ "}" +:+ r) = Some (members, r).
Proof.
  induction 1 as [|[k x] l Hx Hl IH]; [done|]. cbn [forallb fst snd] in *.
  intros [[Hk Hwx]%andb_true_iff Hwl]%andb_true_iff _ [|f] r Hf; [lia|].
  assert (Hskip : forall t, skip_space (quote k +:+ t) = quote k +:+ t) by done.
  destruct l as [|[k' y] l]; cbn [map] in *;
    change (print_member (k, x)) with (quote k +:+ ":" +:+ print x) in *.
  - rewrite commas_one in *. rewrite !length_sapp in Hf. cbn [String.length] in Hf.
    rewrite !sapp_assoc. cbn [parse_members]. rewrite Hskip, scan_quote by done. cbn [mbind option_bind].
    cbv zeta. rewrite (skip_take ":") by done. cbv iota. cbn [mbind option_bind].
    rewrite (Hx depth) by (done || lia). done.
  - rewrite commas_cons in *. rewrite !length_sapp in Hf. cbn [String.length] in Hf.
    rewrite !sapp_assoc. cbn [parse_members]. rewrite Hskip, scan_quote by done. cbn [mbind option_bind].
    cbv zeta. rewrite (skip_take ":") by done. cbv iota. cbn [mbind option_bind].
    rewrite (Hx depth) by (done || lia). cbn [mbind option_bind].
    cbv zeta. rewrite (skip_take ",") by done. cbv iota. rewrite IH by (done || lia). done.
Qed.

Lemma print_reads_back j : reads_back j.
Proof.
  induction j as [|b|lit|s|l IH|l IH] using json_ind'; try by apply reads_back_scalar.
  - intros [|depth] [|f] r Hw Hr Hf; [done|done|lia|]. cbn [print well_formed] in *.
    rewrite !length_sapp in Hf. cbn [String.length] in Hf. rewrite !sapp_assoc.
    change (parse_value (S f) (S depth) ("[" +:+ ?s)) with
      (match take_char "]" (skip_space s) with
       | Some r => Some (JArr [], r)
       | None => '(l, r) ← parse_items f depth s; Some (JArr l, r)
       end).
    destruct l as [|x l]; [done|].
    assert (Ho : opening (commas (map print (x :: l)) +:+ "]" +:+ r)).
    { apply andb_true_iff in Hw as [Hw _]. apply print_opening in Hw. destruct l as [|y l]; cbn [map];
        rewrite ?commas_cons, ?commas_one, ?sapp_assoc; by apply opening_app. }
    rewrite (opening_skip _ Ho), (proj1 (opening_closed _ Ho)).
    rewrite parse_items_print by (done || lia). done.
  - intros [|depth] [|f] r Hw Hr Hf; [done|done|lia|]. cbn [print well_formed] in *.
    rewrite !length_sapp in Hf. cbn [String.length] in Hf. rewrite !sapp_assoc.
    change (parse_value (S f) (S depth) ("{" +:+ ?s)) with
      (match take_char "}" (skip_space s) with
       | Some r => Some (JObj [], r)
       | None => '(l, r) ← parse_members f depth s; Some (JObj l, r)
       end).
    destruct l as [|x l]; [done|].
    assert (Ho : opening (commas (map print_member (x :: l)) +:+ "}" +:+ r)).
    { destruct l as [|y l]; cbn [map]; rewrite ?commas_cons, ?commas_one, ?sapp_assoc; apply opening_app;
        eexists _, _; split_and!; done. }
    change (map (fun kv => quote kv.1 +:+ ":" +:+ print kv.2) (x :: l)) with (map print_member (x :: l)) in *.
    rewrite (opening_skip _ Ho), (proj2 (opening_closed _ Ho)).
    rewrite parse_members_print by (done || lia). done.
Qed.

(** The text of a value reads back as the value. *)
Lemma Parse_print j : well_formed max_depth j = true -> Parse (print j) = Some j.
Proof.
  intros Hw. unfold Parse. rewrite <- (sapp_nil_r (print j)) at 2.
  rewrite print_reads_back by (done || lia). done.
Qed.

(** ** Printed integers and times read back *)

Lemma digit_is_digit d : 0 <= d < 10 -> is_digit (byte_of (48 + d)) = true.
Proof. intros H. unfold is_digit. by rewrite digit_val_of. Qed.

Fixpoint all_digits (s : string) : bool :=
  match s with "" => true | String c s' => is_digit c && all_digits s' end.
Lemma span_all_digits s : all_digits s = true -> span_digits s = (s, "").
Proof.
  induction s as [|c s IH]; simpl; [done|]. intros [-> H]%andb_true_iff. by rewrite IH.
Qed.
Lemma format_uint_all_digits fuel n acc :
  all_digits acc = true -> all_digits (format_uint fuel n acc) = true.
Proof.
  revert n acc. induction fuel as [|fuel IH]; intros n acc H; [done|]. cbn [format_uint].
  assert (H' : all_digits (String (byte_of (48 + n mod 10)) acc) = true).
  { cbn [all_digits]. rewrite digit_is_digit by (apply Z.mod_pos_bound; lia). done. }
  destruct (n <? 10); auto.
Qed.
(** No leading zero. *)
Lemma format_uint_head fuel n acc :
  0 < n < 10 ^ Z.of_nat fuel -> exists c s, format_uint fuel n acc = String c s /\ c <> "0"%char.
Proof.
  revert n acc. induction fuel as [|fuel IH]; intros n acc H; [simpl in H; lia|]. cbn [format_uint].
  destruct (Z.ltb_spec n 10).
  - eexists _, _. split; [done|]. rewrite Z.mod_small by lia. intros E. apply (f_equal byte_val) in E.
    rewrite byte_val_of in E by lia. change (byte_val "0") with 48 in E. lia.
  - apply IH. split; [apply Z.div_str_pos; lia|]. apply Z.div_lt_upper_bound; [lia|].
    rewrite Nat2Z.inj_succ, Z.pow_succ_r in H; lia.
Qed.

Lemma scan_digits_only s :
  all_digits s = true -> (exists c s', s = String c s' /\ (c <> "0"%char \/ s' = "")) ->
  scan_int s = Some (s, "").
Proof.
  intros H (c & s' & -> & Hc). assert (Hs : some_digits (String c s') = Some (String c s', ""))
    by (unfold some_digits; by rewrite span_all_digits).
  destruct (Ascii.eqb_spec c "0") as [->|Hne]; [by destruct Hc as [?| ->]|].
  unfold scan_int. rewrite Hs. clear - Hne. by destruct c as [[] [] [] [] [] [] [] []].
Qed.

Lemma FormatInt_valid z : in_int64 z = true -> valid_number (FormatInt z) = true.
Proof.
  rewrite in_int64_spec. unfold int64_min, int64_max. intros Hz.
  assert (Hu : forall n, 0 <= n <= 2 ^ 63 -> scan_int (format_uint 20 n "") = Some (format_uint 20 n "", "")).
  { intros n Hn. apply scan_digits_only; [by apply format_uint_all_digits|].
    destruct (Z.eq_dec n 0) as [->|Hne]; [exists "0"%char, ""; vm_compute; auto|].
    destruct (format_uint_head 20 n "") as (c & s & -> & Hc); [change (10 ^ Z.of_nat 20) with (10 ^ 20); lia|eauto]. }
  unfold valid_number. apply bool_decide_eq_true. unfold FormatInt. destruct (Z.ltb_spec z 0).
  - unfold scan_number. cbn [scan_sign]. rewrite Hu by lia. cbn. by rewrite sapp_nil_r.
  - specialize (Hu z ltac:(lia)). destruct (format_uint_nonempty 20 z "") as (c & s & Hc & Hd); [lia|].
    rewrite Hc in *. unfold scan_number.
    assert (Hs : scan_sign (String c s) = ("", String c s)).
    { clear - Hd. unfold scan_sign. destruct c as [[] [] [] [] [] [] [] []]; try done; by contradict Hd. }
    rewrite Hs, Hu. cbn. by rewrite sapp_nil_r.
Qed.

(** *** Fields of fixed width *)

Lemma pad_digits_app n z acc r : pad_digits n z acc +:+ r = pad_digits n z (acc +:+ r).
Proof. revert z acc. induction n as [|n IH]; intros z acc; simpl; [done|]. by rewrite IH. Qed.
Lemma take_digits_S n s a :
  take_digits (S n) s a = '(a', s') ← take_digits n s a; take_digits 1 s' a'.
Proof.
  revert s a. induction n as [|n IH]; intros s a; [done|].
  destruct s as [|c s]; [done|]. cbn [take_digits] in *. destruct (digit_val c); [|done]. apply IH.
Qed.
Lemma tenth z p : 0 <= z < 10 * p -> 0 <= z / 10 < p.
Proof. intros H. Z.div_mod_to_equations. lia. Qed.
Lemma take_pad n z s a :
  0 <= z < 10 ^ Z.of_nat n -> take_digits n (pad_digits n z s) a = Some (a * 10 ^ Z.of_nat n + z, s).
Proof.
  revert z s a. induction n as [|n IH]; intros z s a Hz.
  - simpl in *. do 2 f_equal. lia.
  - rewrite Nat2Z.inj_succ, Z.pow_succ_r in * by lia. rewrite take_digits_S. cbn [pad_digits].
    rewrite IH by (by apply tenth).
    cbn [mbind option_bind take_digits]. rewrite digit_val_of by (apply Z.mod_pos_bound; lia).
    do 2 f_equal. pose proof (Z.div_mod z 10). lia.
Qed.

(** The digits of a fraction. *)
Lemma take_fraction_pad k e m r acc :
  (k <= e)%nat -> 0 <= m < 10 ^ Z.of_nat k ->
  take_fraction (pad_digits k m r) (10 ^ Z.of_nat e) acc
  = take_fraction r (10 ^ Z.of_nat (e - k)) (acc + m * 10 ^ Z.of_nat (S e - k)).
Proof.
  revert m r acc. induction k as [|k IH]; intros m r acc Hk Hm.
  - rewrite Nat.sub_0_r. simpl in Hm. assert (m = 0) as -> by lia. simpl pad_digits. f_equal. lia.
  - rewrite Nat2Z.inj_succ, Z.pow_succ_r in Hm by lia. cbn [pad_digits].
    pose proof (tenth m _ Hm) as Hq. rewrite IH by (done || lia).
    cbn [take_fraction]. rewrite digit_val_of by (apply Z.mod_pos_bound; lia).
    replace (e - k)%nat with (S (e - S k)) by lia. replace (S e - k)%nat with (S (S (e - S k))) by lia.
    replace (S e - S k)%nat with (S (e - S k)) by lia.
    rewrite !Nat2Z.inj_succ, !Z.pow_succ_r by lia. set (p := 10 ^ Z.of_nat (e - S k)). f_equal.
    + rewrite Z.mul_comm, Z.div_mul; lia.
    + pose proof (Z.div_mod m 10 ltac:(lia)). nia.
Qed.
Lemma take_fraction_end k m r : (1 <= k <= 9)%nat -> 0 <= m < 10 ^ Z.of_nat k ->
  take_fraction (pad_digits k m ("Z" +:+ r)) 100000000 0 = (m * 10 ^ Z.of_nat (9 - k), "Z" +:+ r).
Proof.
  intros Hk Hm. destruct k as [|k]; [lia|]. rewrite Nat2Z.inj_succ, Z.pow_succ_r in Hm by lia. cbn [pad_digits].
  change 100000000 with (10 ^ Z.of_nat 8). 
  pose proof (tenth m _ Hm) as Hq. rewrite take_fraction_pad by (done || lia).
  cbn [take_fraction]. rewrite digit_val_of by (apply Z.mod_pos_bound; lia).
  cbn [String.append take_fraction]. change (digit_val "Z") with (@None Z). cbv iota. f_equal.
  replace (9 - k)%nat with (S (9 - S k)) by lia. replace (8 - k)%nat with (9 - S k)%nat by lia.
  rewrite !Nat2Z.inj_succ, !Z.pow_succ_r by lia. pose proof (Z.div_mod m 10 ltac:(lia)). nia.
Qed.
Lemma trim_zeros_spec fuel digits ns :
  (digits < fuel)%nat -> 0 < ns < 10 ^ Z.of_nat digits ->
  exists k m, trim_zeros fuel digits ns = String "." (pad_digits k m "")
    /\ (1 <= k <= digits)%nat /\ 0 <= m < 10 ^ Z.of_nat k /\ ns = m * 10 ^ Z.of_nat (digits - k).
Proof.
  revert digits ns. induction fuel as [|fuel IH]; intros digits ns Hf Hn; [lia|]. cbn [trim_zeros].
  destruct digits as [|digits]; [simpl in Hn; lia|].
  destruct (Z.eqb_spec ns 0); [lia|]. destruct (Z.eqb_spec (ns mod 10) 0) as [Hz|Hz].
  - rewrite Nat2Z.inj_succ, Z.pow_succ_r in Hn by lia. pose proof (Z.div_mod ns 10 ltac:(lia)) as Hd.
    cbn [Nat.sub]. rewrite Nat.sub_0_r.
    destruct (IH digits (ns / 10) ltac:(lia) ltac:(lia)) as (k & m & -> & Hk & Hm & E).
    exists k, m. split_and!; try lia; [done|]. replace (S digits - k)%nat with (S (digits - k)) by lia.
    rewrite Nat2Z.inj_succ, Z.pow_succ_r by lia. lia.
  - exists (S digits), ns. split_and!; try lia; [done|]. rewrite Nat.sub_diag. lia.
Qed.

(** *** The calendar *)

Lemma civil_days z :
  let '(y, m, d) := civil_from_days z in
  1 <= m <= 12 /\ 1 <= d <= days_in y m /\ days_from_civil y m d = z.
Proof.
  unfold civil_from_days.
  set (era := (z + 719468) / 146097). set (doe := z + 719468 - era * 146097).
  assert (Hdoe : 0 <= doe < 146097) by (unfold doe, era; Z.div_mod_to_equations; lia).
  set (yoe := (doe - doe / 1460 + doe / 36524 - doe / 146096) / 365).
  set (doy := doe - (365 * yoe + yoe / 4 - yoe / 100)).
  assert (Hyoe : 0 <= yoe <= 399 /\ 0 <= doy <= 365
    /\ (doy = 365 -> (yoe + 1) mod 4 = 0 /\ ((yoe + 1) mod 100 <> 0 \/ yoe = 399))).
  { clear - Hdoe. subst doy yoe. Z.div_mod_to_equations. lia. }
  assert (Hz : z = era * 146097 + (365 * yoe + yoe / 4 - yoe / 100 + doy) - 719468) by (unfold doy, doe; ring).
  clearbody doy. clearbody yoe. clearbody era. clear Hdoe doe. destruct Hyoe as (Hy & Hd & Hleap).
  set (mp := (5 * doy + 2) / 153).
  assert (Hmp : 0 <= mp <= 11 /\ (153 * mp + 2) / 5 <= doy
    /\ doy - (153 * mp + 2) / 5 + 1 <=
       (if mp =? 11 then (if doy =? 365 then 29 else 28) else if existsb (Z.eqb mp) [1; 3; 6; 8] then 30 else 31)).
  { subst mp. cbn [existsb]. clear - Hd. set (q := (5 * doy + 2) / 153).
    assert (Hq : 0 <= q <= 11) by (subst q; Z.div_mod_to_equations; lia).
    assert (Hq' : 153 * q <= 5 * doy + 2 < 153 * q + 153) by (subst q; Z.div_mod_to_equations; lia).
    clearbody q. assert (H : q = 0 \/ q = 1 \/ q = 2 \/ q = 3 \/ q = 4 \/ q = 5 \/ q = 6 \/ q = 7 \/ q = 8 \/ q = 9
      \/ q = 10 \/ q = 11) by lia.
    decompose [or] H; subst q; cbn [Z.eqb Pos.eqb orb]; try (Z.div_mod_to_equations; lia).
    destruct (Z.eqb_spec doy 365); Z.div_mod_to_equations; lia. }
  clearbody mp. destruct Hmp as (Hm & Hm1 & Hm2).
  set (d := doy - (153 * mp + 2) / 5 + 1) in *. set (y := yoe + era * 400).
  assert (Hdays : forall m y0, (m, y0) = (if mp <? 10 then (mp + 3, y) else (mp - 9, y + 1)) ->
    1 <= m <= 12 /\ d <= days_in y0 m /\ days_from_civil y0 m d = z).
  { intros m y0 Hmy.
    assert (Hlow : y / 400 = era) by (subst y; Z.div_mod_to_equations; lia).
    assert (Hrest : y - era * 400 = yoe) by (subst y; lia).
    assert (Hback : forall m', mp = m' -> 1 <= m <= 12 ->
      (if m <=? 2 then y0 - 1 else y0) = y -> (if 2 <? m then m - 3 else m + 9) = m' ->
      days_from_civil y0 m d = z).
    { intros m' <- _ E1 E2. unfold days_from_civil. rewrite E1, E2, Hlow, Hrest. subst d. lia. }
    destruct (Z.ltb_spec mp 10); injection Hmy as -> ->.
    - split_and!; [lia|lia| |].
      + destruct (Z.eqb_spec mp 11); [lia|]. unfold days_in. destruct (Z.eqb_spec (mp + 3) 2); [lia|].
        etransitivity; [exact Hm2|]. clear - Hm.
        destruct (existsb (Z.eqb mp) [1; 3; 6; 8]) eqn:E, (existsb (Z.eqb (mp + 3)) [4; 6; 9; 11]) eqn:E';
          cbn [existsb] in *; lia.
      + apply (Hback mp); [done|lia| |].
        * destruct (Z.leb_spec (mp + 3) 2); [lia|done].
        * destruct (Z.ltb_spec 2 (mp + 3)); lia.
    - split_and!; [lia|lia| |].
      + destruct (Z.eqb_spec mp 11) as [->|].
        * change (days_in (y + 1) (11 - 9)) with (if is_leap (y + 1) then 29 else 28). destruct (Z.eqb_spec doy 365) as [E|]; [|destruct (is_leap _); lia].
          assert (is_leap (y + 1) = true) as ->; [|lia]. destruct (Hleap E) as [H4 H100]. subst y. unfold is_leap.
          clear - H4 H100 Hy. Z.div_mod_to_equations. lia.
        * assert (mp = 10) as -> by lia. change (days_in (y + 1) (10 - 9)) with 31. change (d <= 31) in Hm2. lia.
      + apply (Hback mp); [done|lia| |].
        * destruct (Z.leb_spec (mp - 9) 2); lia.
        * destruct (Z.ltb_spec 2 (mp - 9)); lia. }
  fold y. assert (Hd1 : 1 <= d) by (subst d; lia).
  destruct (Z.ltb_spec mp 10).
  - destruct (Hdays _ _ eq_refl) as (H1 & H2 & H3). destruct (Z.leb_spec (mp + 3) 2); [lia|]. split_and!; (done || lia).
  - destruct (Hdays _ _ eq_refl) as (H1 & H2 & H3). destruct (Z.leb_spec (mp - 9) 2); [|lia]. split_and!; (done || lia).
Qed.

Lemma pad_digits_head k m r :
  (1 <= k)%nat -> exists c s, pad_digits k m r = String c s /\ is_Some (digit_val c).
Proof.
  revert m r. induction k as [|[|k] IH]; intros m r Hk; [lia| |].
  - eexists _, _. split; [done|]. rewrite digit_val_of by (apply Z.mod_pos_bound; lia). eauto.
  - apply IH. lia.
Qed.

(** The seconds and what follows them. *)
Lemma parse_seconds ns r : 0 <= ns < second ->
  let s := trim_zeros 10 9 ns +:+ "Z" +:+ r in
  match s with
  | String "." (String c _ as s') =>
      match digit_val c with Some _ => Some (take_fraction s' 100000000 0) | None => None end
  | String "." _ => None
  | _ => Some (0, s)
  end = Some (ns, "Z" +:+ r).
Proof.
  intros Hns. destruct (Z.eq_dec ns 0) as [->|Hne]; [done|].
  destruct (trim_zeros_spec 10 9 ns) as (k & m & -> & Hk & Hm & E); [lia|unfold second in Hns; lia|].
  destruct (pad_digits_head k m ("Z" +:+ r)) as (c & s & Hc & [v Hv]); [lia|].
  cbv zeta. cbn [String.append]. rewrite pad_digits_app. cbn [String.append] in *. rewrite Hc, Hv, <- Hc.
  change (String "Z" r) with ("Z" +:+ r). rewrite take_fraction_end by lia. by rewrite E.
Qed.

(** A field and the character after it. *)
Lemma take_field {B} n z c s (k : Z -> string -> option B) :
  0 <= z < 10 ^ Z.of_nat n ->
  ('(v, s1) ← take_digits n (pad_digits n z (String c "" +:+ s)) 0; s2 ← take_char c s1; k v s2) = k z s.
Proof.
  intros H. rewrite take_pad by done. cbn [mbind option_bind String.append take_char].
  by rewrite Ascii.eqb_refl.
Qed.

(** A time that JSON can carry reads back to the nanosecond. *)
Lemma parse_FormatRFC3339 t s : format_rfc3339 t = Some s -> parse_rfc3339 s = Some t.
Proof.
  unfold format_rfc3339, FormatRFC3339. pose proof (civil_days (t / second / 86400)) as Hcal.
  destruct (civil_from_days (t / second / 86400)) as [[y mo] d]. destruct Hcal as (Hmo & Hd & Hdays).
  destruct (Z.leb_spec 0 y) as [Hy0|]; [|done]. destruct (Z.leb_spec y 9999) as [Hy1|]; [|done]. cbn [andb].
  intros E. apply (inj Some) in E. subst s. unfold format_year. destruct (Z.ltb_spec y 0); [lia|]. destruct (Z.leb_spec y 9999); [|lia].
  set (sod := t / second mod 86400).
  assert (Hsod : 0 <= sod < 86400) by (apply Z.mod_pos_bound; lia).
  assert (Hh : 0 <= sod / 3600 < 24) by (Z.div_mod_to_equations; lia).
  assert (Hmi : 0 <= sod / 60 mod 60 < 60) by (apply Z.mod_pos_bound; lia).
  assert (Hse : 0 <= sod mod 60 < 60) by (apply Z.mod_pos_bound; lia).
  assert (Hd31 : d <= 31) by (revert Hd; unfold days_in; repeat case_match; lia).
  assert (Hsum : sod / 3600 * 3600 + sod / 60 mod 60 * 60 + sod mod 60 = sod) by (Z.div_mod_to_equations; lia).
  assert (Ht : t = (t / second / 86400 * 86400 + sod) * second + t mod second)
    by (subst sod; unfold second; Z.div_mod_to_equations; lia).
  pose proof (Z.mod_pos_bound t second ltac:(by unfold second)) as Hns.
  pose proof (parse_seconds (t mod second) "" Hns) as Hfrac. cbv zeta in Hfrac. rewrite sapp_nil_r in Hfrac.
  rewrite !pad_digits_app. unfold parse_rfc3339. change ("" +:+ ?s) with s.
  assert (Hpow2 : 10 ^ Z.of_nat 2 = 100) by done. assert (Hpow4 : 10 ^ Z.of_nat 4 = 10000) by done.
  do 5 (etransitivity; [apply take_field; lia|]; cbv beta).
  rewrite take_pad by lia. cbv beta iota delta [mbind option_bind].
  change ("" +:+ ?s) with s. rewrite Hfrac. cbn [parse_zone].
  rewrite Z.mul_0_l, Z.add_0_l.
  destruct (Z.leb_spec 1 mo); [|lia]. destruct (Z.leb_spec mo 12); [|lia]. destruct (Z.leb_spec 1 d); [|lia].
  destruct (Z.leb_spec d (days_in y mo)); [|lia]. destruct (Z.leb_spec (sod / 3600) 23); [|lia].
  destruct (Z.leb_spec (sod / 60 mod 60) 59); [|lia]. destruct (Z.leb_spec (sod mod 60) 59); [|lia].
  cbn [andb]. f_equal. rewrite Hdays. etransitivity; [|symmetry; exact Ht].
  generalize (t / second / 86400), (t mod second). clear - Hsum. intros a b.
  generalize dependent (sod / 3600). generalize dependent (sod / 60 mod 60). generalize dependent (sod mod 60).
  generalize dependent sod. intros s m1 m2 h <-. ring.
Qed.
