(* ===== verification/GoFloat.v ===== *)
(** * Floating-point numbers in JSON

    A [float64] is kept as a whole number of units of 2^-1074, the smallest
    positive value, so every finite one is an integer here; [dec_float] is what
    encoding/json does with a number for a [float64] field. *)

From S2P Require Import Prelude GoStrings Json JsonText.
From stdpp Require Import base strings list.
From Stdlib Require Import ZArith Lia.
Open Scope Z_scope.

Definition float_one : Z := 2 ^ 1074.
(** The first power of two that is out of range. *)
Definition float_limit : Z := 2 ^ 2098.

(** [num / den] to the nearest multiple of [step], ties to the even multiple. *)
Definition round_step (num den step : Z) : Z :=
  let d := den * step in
  let q := num / d in
  let r := num mod d in
  step * (if (2 * r <? d) || ((2 * r =? d) && Z.even q) then q else q + 1).

(** The spacing of the floats around a magnitude: 53 significant bits. *)
Definition spacing (magnitude : Z) : Z := 2 ^ Z.max 0 (Z.log2 magnitude - 52).

Definition round_float (num den : Z) : option Z :=
  let f := round_step num den (spacing (num / den)) in
  if f <? float_limit then Some f else None.

Fixpoint digits_value (s : string) (acc : Z) : Z :=
  match s with
  | String c s' => digits_value s' (acc * 10 + default 0 (digit_val c))
  | "" => acc
  end.

(** [strconv.ParseFloat] on a JSON number: sign, digits, fraction and exponent. *)
Definition ParseFloat (lit : string) : option Z :=
  let (sg, s) := scan_sign lit in
  '(i, s) ← scan_int s;
  '(f, s) ← scan_fraction s;
  '(e, _) ← scan_exponent s;
  let fraction := sdrop 1 f in
  let (minus, digits) := scan_exponent_sign (sdrop 1 e) in
  let exponent := (if String.eqb minus "-" then Z.opp else id) (digits_value digits 0)
                  - Z.of_nat (String.length fraction) in
  let units := digits_value fraction (digits_value i 0) * float_one in
  m ← (if exponent <? 0 then round_float units (10 ^ (- exponent)) else round_float (units * 10 ^ exponent) 1);
  Some (if String.eqb sg "-" then - m else m).

Definition dec_float : dec Z := fun j old =>
  match j with JNum lit => ParseFloat lit | JNull => Some old | _ => None end.

(** The rounded value is a multiple of the spacing, and no multiple is nearer. *)
Lemma round_step_nearest num den step k :
  0 < den -> 0 < step ->
  Z.abs (num - den * round_step num den step) <= Z.abs (num - den * (step * k)).
Proof.
  intros Hd Hs. unfold round_step. set (d := den * step). assert (Hd0 : 0 < d) by (unfold d; nia).
  pose proof (Z.div_mod num d ltac:(lia)) as E. pose proof (Z.mod_pos_bound num d Hd0) as B.
  set (q := num / d) in *. set (r := num mod d) in *.
  assert (Hk : forall x, num - den * (step * x) = r + d * (q - x)) by (intros x; rewrite E; unfold d; ring).
  rewrite !Hk. clearbody q r d. clear E Hk.
  destruct ((2 * r <? d) || _) eqn:C; rewrite ?orb_true_iff, ?andb_true_iff, ?orb_false_iff, ?andb_false_iff in C.
  - assert (2 * r <= d) by (destruct C as [C|[C _]]; lia). replace (q - q) with 0 by lia.
    destruct (Z.lt_trichotomy q k) as [Hlt|[->|Hgt]]; [|lia|nia].
    assert (d * (q - k) <= - d) by nia. lia.
  - assert (d <= 2 * r) by lia. replace (q - (q + 1)) with (-1) by lia.
    destruct (Z.lt_trichotomy (q + 1) k) as [Hlt|[Heq|Hgt]]; [|replace (q - k) with (-1) by lia; lia|].
    + assert (d * (q - k) <= - (2 * d)) by nia. lia.
    + assert (0 <= d * (q - k)) by nia. lia.
Qed.

(** A whole number of up to 53 bits is read exactly. *)
Lemma round_step_exact n step : 0 < step -> round_step (n * step) 1 step = n * step.
Proof.
  intros Hs. unfold round_step. rewrite Z.mul_1_l, Z.div_mul, Z.mod_mul by lia.
  replace (2 * 0 <? step) with true by lia. cbn [orb]. ring.
Qed.

Example parse_half : ParseFloat "0.5" = Some (2 ^ 1073).
Proof. vm_compute. reflexivity. Qed.
Example parse_hundred : ParseFloat "1e2" = Some (100 * float_one).
Proof. vm_compute. reflexivity. Qed.
(** 0.1 is 3602879701896397 * 2^-55. *)
Example parse_tenth : ParseFloat "0.1" = Some (3602879701896397 * 2 ^ 1019).
Proof. vm_compute. reflexivity. Qed.
Example parse_too_large : ParseFloat "1e309" = None.
Proof. vm_compute. reflexivity. Qed.
