(* ===== verification/Model.v ===== *)
(** * The data model of the node agent

    src/internal/model/model.go (plans, devices, decisions, alerts) and
    src/internal/security/security.go (hashes, tokens, UUIDs). *)

From S2P Require Import Prelude GoStrings Base64 Sha.
From stdpp Require Import base strings list.
From Stdlib Require Import ZArith Lia Ascii.
Open Scope Z_scope.

(** ** Plans *)

(** [type Plan string]: any text can arrive as a plan. *)
Definition Trial : string := "TRIAL".
Definition Lite : string := "LITE".
Definition Plus : string := "PLUS".
Definition Ultra : string := "ULTRA".

Record PlanPolicy := mkPlanPolicy {
  pp_UpBPS : Z; pp_DownBPS : Z; pp_QuotaBytes : Z; pp_ThrottleBPS : Z;
  pp_Priority : Z; pp_P2PAllowed : bool }.

Definition Policy (p : string) : option PlanPolicy :=
  if String.eqb p Trial then Some (mkPlanPolicy 30000000 30000000 20000000000 0 1 false)
  else if String.eqb p Lite then Some (mkPlanPolicy 50000000 50000000 150000000000 5000000 1 false)
  else if String.eqb p Plus then Some (mkPlanPolicy 200000000 200000000 600000000000 10000000 2 true)
  else if String.eqb p Ultra then Some (mkPlanPolicy 0 0 2000000000000 20000000 3 true)
  else None.

(** ** Devices, decisions and alerts *)

Record Device := mkDevice {
  ID : string; CredentialHash : string; Plan : string; Active : bool;
  SubscriptionEnds : time; PeriodEnds : time; QuotaBytes : Z; UsedBytes : Z;
  LeaseBytes : Z; LeaseExpires : time; OverrideUpBPS : Z; OverrideDownBPS : Z;
  OverrideP2P : bool; OverrideExpires : time }.

Record SessionPolicy := mkSessionPolicy {
  sp_UpBPS : Z; sp_DownBPS : Z; sp_Priority : Z; sp_P2PAllowed : bool;
  sp_DeviceID : string; sp_Throttled : bool; sp_Compliance : bool }.

Record AuthDecision := mkAuthDecision {
  ad_OK : bool; ad_ID : string; ad_Policy : option SessionPolicy; ad_Reason : string }.

Definition reject (reason : string) : AuthDecision := mkAuthDecision false "" None reason.

Record Alert := mkAlert {
  al_Code : string; al_Severity : string; al_Message : string; al_CreatedAt : time;
  al_Active : bool }.

(** The quota in force: the device's own when it is positive, else the plan's. *)
Definition effective_quota (d : Device) (p : PlanPolicy) : Z :=
  if QuotaBytes d <=? 0 then pp_QuotaBytes p else QuotaBytes d.

(** ** security.go *)

(** [Hash]: base64url of the SHA-256 digest. *)
Definition Hash (value : string) : string := Encode (sha256 value).

(** [subtle.ConstantTimeCompare]: the or of the xors of two texts of one length. *)
Fixpoint xor_fold (a b : string) (acc : Z) : Z :=
  match a, b with
  | String x a', String y b' => xor_fold a' b' (Z.lor acc (Z.lxor (byte_val x) (byte_val y)))
  | _, _ => acc
  end.
Definition ConstantTimeCompare (a b : string) : Z :=
  if (String.length a =? String.length b)%nat then (if xor_fold a b 0 =? 0 then 1 else 0) else 0.

Definition EqualHash (encodedHash plainValue : string) : bool :=
  let expected := Hash plainValue in
  if negb (String.length encodedHash =? String.length expected)%nat then false
  else ConstantTimeCompare encodedHash expected =? 1.

(** [RandomToken(n)] on the bytes that [rand.Read] delivered. *)
Definition RandomToken (random : string) : string := Encode random.

Definition hex2 (z : Z) : string :=
  let d x := byte_of (if x <? 10 then 48 + x else 87 + x) in
  String (d (z / 16)) (String (d (z mod 16)) "").
Definition hex (bs : list Z) : string := foldr (fun b acc => hex2 b +:+ acc) "" bs.

(** [UUID] on sixteen random bytes: version 4, variant 10. *)
Definition UUID (value : list Z) : string :=
  let v := <[8%nat := Z.lor (Z.land (nth 8 value 0) 0x3f) 0x80]>
           (<[6%nat := Z.lor (Z.land (nth 6 value 0) 0x0f) 0x40]> value) in
  hex (take 4 v) +:+ "-" +:+ hex (take 2 (drop 4 v)) +:+ "-" +:+ hex (take 2 (drop 6 v))
  +:+ "-" +:+ hex (take 2 (drop 8 v)) +:+ "-" +:+ hex (take 6 (drop 10 v)).

(** ** Lemmas *)

Lemma xor_fold_zero a b acc :
  String.length a = String.length b ->
  xor_fold a b acc = 0 <-> acc = 0 /\ a = b.
Proof.
  revert b acc. induction a as [|x a IH]; intros [|y b] acc Hlen; simpl in *; try lia.
  - naive_solver.
  - rewrite IH by lia. rewrite Z.lor_eq_0_iff, Z.lxor_eq_0_iff. split.
    + intros [[? Hxy] ->]. split; [done|]. f_equal.
      by rewrite <- (byte_of_val x), Hxy, byte_of_val.
    + intros [-> H]. by injection H as -> ->.
Qed.

(** The constant-time comparison of [EqualHash] decides equality of the stored
    hash with the hash of the presented value. *)
Lemma EqualHash_spec h v : EqualHash h v = true <-> h = Hash v.
Proof.
  unfold EqualHash, ConstantTimeCompare.
  destruct (String.length h =? String.length (Hash v))%nat eqn:E; simpl.
  - apply Nat.eqb_eq in E. destruct (xor_fold h (Hash v) 0 =? 0) eqn:X; simpl.
    + apply Z.eqb_eq, xor_fold_zero in X; naive_solver.
    + split; [done|]. intros H.
      assert (Hx : xor_fold h (Hash v) 0 = 0) by (by apply xor_fold_zero). lia.
  - split; [done|]. intros ->. by rewrite Nat.eqb_refl in E.
Qed.

Lemma Policy_some_cases p pol : Policy p = Some pol ->
  p = Trial \/ p = Lite \/ p = Plus \/ p = Ultra.
Proof.
  unfold Policy. intros H.
  destruct (String.eqb_spec p Trial); [auto|]. destruct (String.eqb_spec p Lite); [auto|].
  destruct (String.eqb_spec p Plus); [auto|]. destruct (String.eqb_spec p Ultra); [auto|done].
Qed.

Example uuid_ex : UUID (replicate 16 255) = "ffffffff-ffff-4fff-bfff-ffffffffffff".
Proof. reflexivity. Qed.
Example hash_ex : Hash "abc" = "ungWv48Bz-pBQUDeXa4iI7ADYaOWF3qctBD_YfIAFa0".
Proof. vm_compute. reflexivity. Qed.
