(* ===== verification/Store.v ===== *)
(** * The agent's durable state

    src/internal/store/store.go over SQLite.  [tables] is the content of the
    database file and [sqlite] adds a schedule of driver failures: the head of
    [faults] says whether the next statement fails.  Every theorem that does
    not mention [faults] holds for every schedule.  The connection pool has one
    connection ([SetMaxOpenConns(1)]), so operations do not interleave.

    A statement either takes effect as a whole or fails without effect; a
    transaction that returns early or fails to commit is rolled back by the
    deferred [tx.Rollback()]. *)

From S2P Require Import Prelude GoStrings Json Model.
From stdpp Require Import base gmap strings list fin_maps sorting.
From Stdlib Require Import ZArith Lia.
Open Scope Z_scope.

(** ** Rows and tables (the [CREATE TABLE] statements of [migrate]) *)

Record enrollment_row := mkEnrollmentRow {
  er_token : string; er_token_hash : string; er_expires_at : Z; er_claimed_at : option Z }.

Record device_row := mkDeviceRow {
  dr_device_id : string; dr_credential_hash : string; dr_plan : string; dr_active : Z;
  dr_subscription_ends : Z; dr_period_ends : Z; dr_quota_bytes : Z; dr_used_bytes : Z;
  dr_lease_bytes : Z; dr_lease_expires : Z; dr_override_up_bps : Z; dr_override_down_bps : Z;
  dr_override_p2p : Z; dr_override_expires : Z }.

Record usage_row := mkUsageRow {
  ur_id : Z; ur_device_id : string; ur_tx_bytes : Z; ur_rx_bytes : Z; ur_recorded_at : Z;
  ur_sent_at : option Z }.

Record alert_row := mkAlertRow {
  ar_severity : string; ar_message : string; ar_created_at : Z; ar_active : Z }.

(** The text column [rules_json] holds a JSON document: its tree is stored. *)
Record compliance_row := mkComplianceRow {
  cr_version : string; cr_updated_at : Z; cr_expires_at : Z; cr_rules_json : json;
  cr_signature : string }.

(** [t_usage] lists [usage_events] by id; [t_usage_seq] is the AUTOINCREMENT
    counter. *)
Record tables := mkTables {
  t_state : gmap string string;
  t_enrollment : option enrollment_row;
  t_devices : gmap string device_row;
  t_usage : list usage_row;
  t_usage_seq : Z;
  t_alerts : gmap string alert_row;
  t_compliance : option compliance_row }.

Definition empty_tables : tables := mkTables ∅ None ∅ [] 0 ∅ None.

Record sqlite := mkSqlite { db : tables; faults : list bool }.

Definition with_state f (t : tables) : tables :=
  mkTables (f (t_state t)) (t_enrollment t) (t_devices t) (t_usage t) (t_usage_seq t) (t_alerts t) (t_compliance t).
Definition with_enrollment e (t : tables) : tables :=
  mkTables (t_state t) e (t_devices t) (t_usage t) (t_usage_seq t) (t_alerts t) (t_compliance t).
Definition with_devices f (t : tables) : tables :=
  mkTables (t_state t) (t_enrollment t) (f (t_devices t)) (t_usage t) (t_usage_seq t) (t_alerts t) (t_compliance t).
Definition with_usage f seq (t : tables) : tables :=
  mkTables (t_state t) (t_enrollment t) (t_devices t) (f (t_usage t)) seq (t_alerts t) (t_compliance t).
Definition with_alerts f (t : tables) : tables :=
  mkTables (t_state t) (t_enrollment t) (t_devices t) (t_usage t) (t_usage_seq t) (f (t_alerts t)) (t_compliance t).
Definition with_compliance c (t : tables) : tables :=
  mkTables (t_state t) (t_enrollment t) (t_devices t) (t_usage t) (t_usage_seq t) (t_alerts t) c.

(** ** Statements and transactions *)

Definition exec {A} (f : tables -> result A * tables) : prog sqlite A := fun s =>
  let fs := tail (faults s) in
  match head (faults s) with
  | Some true => (Err (SqlErr SqlFault), mkSqlite (db s) fs)
  | _ => let (r, t) := f (db s) in (r, mkSqlite t fs)
  end.

Definition query {A} (f : tables -> result A) : prog sqlite A := exec (fun t => (f t, t)).
Definition update (f : tables -> tables) : prog sqlite unit := exec (fun t => (Ok tt, f t)).

Definition transaction {A} (body : prog sqlite A) : prog sqlite A := fun s =>
  match update (fun t => t) s with
  | (Err e, s1) => (Err e, s1)
  | (Ok _, s1) =>
      match body s1 with
      | (Err e, s2) => (Err e, mkSqlite (db s1) (faults s2))
      | (Ok a, s2) =>
          match update (fun t => t) s2 with
          | (Err e, s3) => (Err e, mkSqlite (db s1) (faults s3))
          | (Ok _, s3) => (Ok a, s3)
          end
      end
  end.

(** ** Operations *)

Definition boolInt (value : bool) : Z := if value then 1 else 0.

Definition State (key : string) : prog sqlite (option string) :=
  query (fun t => Ok (t_state t !! key)).

Definition SetState (key value : string) : prog sqlite unit :=
  update (with_state (insert key value)).

(** The loop over the Go map runs in an unspecified order, here that of the list. *)
Definition SetStates (values : list (string * string)) : prog sqlite unit :=
  transaction (for_each (fun kv => SetState kv.1 kv.2) values).

Record Enrollment := mkEnrollment {
  en_Token : string; en_TokenHash : string; en_ExpiresAt : time; en_ClaimedAt : option time }.

Definition ReplaceEnrollment (token tokenHash : string) (expires : time) : prog sqlite unit :=
  update (with_enrollment (Some (mkEnrollmentRow token tokenHash (Unix expires) None))).

Definition GetEnrollment : prog sqlite (option Enrollment) :=
  query (fun t => Ok ((fun e => mkEnrollment (er_token e) (er_token_hash e)
    (FromUnix (er_expires_at e)) (FromUnix <$> er_claimed_at e)) <$> t_enrollment t)).

(** The [WHERE] clause of the claim: the row, if the claim may take it. *)
Definition claimable (t : tables) (tokenHash : string) (now : time) : option enrollment_row :=
  match t_enrollment t with
  | Some e =>
      if String.eqb (er_token_hash e) tokenHash
         && (match er_claimed_at e with None => true | Some _ => false end)
         && (Unix now <=? er_expires_at e)
      then Some e else None
  | None => None
  end.

Definition claim_states (controllerURL controllerPublicKey nodeCert controllerCA : string)
    : list (string * string) :=
  [("controller_url", controllerURL); ("controller_public_key", controllerPublicKey);
   ("node_certificate", nodeCert); ("controller_ca", controllerCA)].

Definition claim_row (tokenHash : string) (now : time) (t : tables) : tables :=
  match claimable t tokenHash now with
  | Some e => with_enrollment
      (Some (mkEnrollmentRow (er_token e) (er_token_hash e) (er_expires_at e) (Some (Unix now)))) t
  | None => t
  end.

Definition bad_token : error := Msg "enrollment token is invalid, expired or already used".

Definition Claim (tokenHash controllerURL controllerPublicKey nodeCert controllerCA : string)
    (now : time) : prog sqlite unit :=
  transaction (
    let* rows := exec (fun t => (Ok (match claimable t tokenHash now with Some _ => 1 | None => 0 end),
                                 claim_row tokenHash now t)) in
    if negb (rows =? 1) then fail bad_token else
    for_each (fun kv => SetState kv.1 kv.2)
      (claim_states controllerURL controllerPublicKey nodeCert controllerCA)).

(** *** Devices *)

Definition hash_taken (t : tables) (hash id : string) : bool :=
  bool_decide (map_Exists (fun k r => dr_credential_hash r = hash /\ k <> id) (t_devices t)).

(** The row that the upsert writes, given the row it replaces. *)
Definition upsert_row (d : Device) (old : option device_row) : device_row :=
  let period := Unix (PeriodEnds d) in
  let used := match old with
              | Some r => if negb (dr_period_ends r =? period) then UsedBytes d else dr_used_bytes r
              | None => UsedBytes d
              end in
  let keep (f : device_row -> Z) := match old with Some r => f r | None => 0 end in
  mkDeviceRow (ID d) (CredentialHash d) (Plan d) (boolInt (Active d))
    (Unix (SubscriptionEnds d)) period (QuotaBytes d) used (LeaseBytes d) (Unix (LeaseExpires d))
    (keep dr_override_up_bps) (keep dr_override_down_bps) (keep dr_override_p2p)
    (keep dr_override_expires).

(** [credential_hash] is UNIQUE: the statement fails when another device has it. *)
Definition UpsertDevice (d : Device) : prog sqlite unit :=
  exec (fun t =>
    if hash_taken t (CredentialHash d) (ID d) then (Err (SqlErr SqlConstraint), t)
    else (Ok tt, with_devices (fun m => <[ID d := upsert_row d (m !! ID d)]> m) t)).

(** [scanDevice]; a [used_bytes] beyond int64 has become a REAL in SQLite and
    does not scan. *)
Definition scanDevice (r : device_row) : result Device :=
  if in_int64 (dr_used_bytes r) then
    Ok (mkDevice (dr_device_id r) (dr_credential_hash r) (dr_plan r) (dr_active r =? 1)
         (FromUnix (dr_subscription_ends r)) (FromUnix (dr_period_ends r)) (dr_quota_bytes r)
         (dr_used_bytes r) (dr_lease_bytes r) (FromUnix (dr_lease_expires r))
         (dr_override_up_bps r) (dr_override_down_bps r) (dr_override_p2p r =? 1)
         (FromUnix (dr_override_expires r)))
  else Err (SqlErr SqlScan).

Definition scan_option (r : option device_row) : result (option Device) :=
  match r with Some r => result_map Some (scanDevice r) | None => Ok None end.

Definition row_by_hash (t : tables) (hash : string) : option device_row :=
  head (filter (fun r => dr_credential_hash r = hash) (map_to_list (t_devices t)).*2).

Definition DeviceByCredentialHash (hash : string) : prog sqlite (option Device) :=
  query (fun t => scan_option (row_by_hash t hash)).

Definition DeviceByID (id : string) : prog sqlite (option Device) :=
  query (fun t => scan_option (t_devices t !! id)).

Definition string_le (a b : string) : Prop := String.leb a b = true.
#[export] Instance string_le_dec a b : Decision (string_le a b).
Proof. unfold string_le. apply _. Defined.

(** [ORDER BY device_id] *)
Definition sorted_rows (t : tables) : list device_row :=
  merge_sort (fun r1 r2 => string_le (dr_device_id r1) (dr_device_id r2))
    (map_to_list (t_devices t)).*2.

Fixpoint scan_all (rs : list device_row) : result (list Device) :=
  match rs with
  | [] => Ok []
  | r :: rs' => match scanDevice r, scan_all rs' with
                | Ok d, Ok ds => Ok (d :: ds)
                | Err e, _ => Err e
                | _, Err e => Err e
                end
  end.

Definition Devices : prog sqlite (list Device) := query (fun t => scan_all (sorted_rows t)).

Definition override_row (up down : Z) (p2p : bool) (expires : time) (r : device_row) : device_row :=
  mkDeviceRow (dr_device_id r) (dr_credential_hash r) (dr_plan r) (dr_active r)
    (dr_subscription_ends r) (dr_period_ends r) (dr_quota_bytes r) (dr_used_bytes r)
    (dr_lease_bytes r) (dr_lease_expires r) up down (boolInt p2p) (Unix expires).

Definition ApplyPolicyOverride (id : string) (up down : Z) (p2p : bool) (expires : time)
    : prog sqlite unit :=
  update (with_devices (alter (override_row up down p2p expires) id)).

Definition revoke_row (r : device_row) : device_row :=
  mkDeviceRow (dr_device_id r) (dr_credential_hash r) (dr_plan r) 0
    (dr_subscription_ends r) (dr_period_ends r) (dr_quota_bytes r) (dr_used_bytes r)
    (dr_lease_bytes r) (dr_lease_expires r) (dr_override_up_bps r) (dr_override_down_bps r)
    (dr_override_p2p r) (dr_override_expires r).

Definition RevokeDevice (id : string) : prog sqlite unit :=
  update (with_devices (alter revoke_row id)).

(** *** Usage *)

Definition add_used (n : Z) (r : device_row) : device_row :=
  mkDeviceRow (dr_device_id r) (dr_credential_hash r) (dr_plan r) (dr_active r)
    (dr_subscription_ends r) (dr_period_ends r) (dr_quota_bytes r) (dr_used_bytes r + n)
    (dr_lease_bytes r) (dr_lease_expires r) (dr_override_up_bps r) (dr_override_down_bps r)
    (dr_override_p2p r) (dr_override_expires r).

Definition insert_usage (deviceID : string) (txBytes rxBytes : Z) (now : time) (t : tables) : tables :=
  let id := t_usage_seq t + 1 in
  with_usage (fun l => l ++ [mkUsageRow id deviceID txBytes rxBytes (Unix now) None]) id t.

Definition AddUsage (deviceID : string) (txBytes rxBytes : Z) (now : time) : prog sqlite Z :=
  transaction (
    update (insert_usage deviceID txBytes rxBytes now) ;;;
    update (with_devices (alter (add_used (add64 txBytes rxBytes)) deviceID)) ;;;
    query (fun t => match t_devices t !! deviceID with
                    | Some r => if in_int64 (dr_used_bytes r) then Ok (dr_used_bytes r)
                                else Err (SqlErr SqlScan)
                    | None => Err (SqlErr SqlNoRows)
                    end)).

Record UsageEvent := mkUsageEvent {
  ue_ID : Z; ue_DeviceID : string; ue_TXBytes : Z; ue_RXBytes : Z; ue_RecordedAt : time }.

Definition event_of_row (r : usage_row) : UsageEvent :=
  mkUsageEvent (ur_id r) (ur_device_id r) (ur_tx_bytes r) (ur_rx_bytes r) (FromUnix (ur_recorded_at r)).

(** [WHERE sent_at IS NULL ORDER BY id] *)
Definition pending_rows (t : tables) : list usage_row :=
  filter (fun r => ur_sent_at r = None) (t_usage t).

Definition PendingUsage (limit : Z) : prog sqlite (list UsageEvent) :=
  let limit' := if (limit <? 1) || (5000 <? limit) then 1000 else limit in
  query (fun t => Ok (event_of_row <$> take (Z.to_nat limit') (pending_rows t))).

Definition mark_row (ids : list Z) (now : time) (r : usage_row) : usage_row :=
  if bool_decide (ur_id r ∈ ids)
  then mkUsageRow (ur_id r) (ur_device_id r) (ur_tx_bytes r) (ur_rx_bytes r) (ur_recorded_at r)
         (Some (Unix now))
  else r.

Definition MarkUsageSent (eventIDs : list Z) (now : time) : prog sqlite unit :=
  if (length eventIDs =? 0)%nat then ret tt
  else update (fun t => with_usage (fmap (mark_row eventIDs now)) (t_usage_seq t) t).

(** *** Alerts and compliance *)

Definition SetAlert (a : Alert) : prog sqlite unit :=
  update (with_alerts (insert (al_Code a)
    (mkAlertRow (al_Severity a) (al_Message a) (Unix (al_CreatedAt a)) (boolInt (al_Active a))))).

Definition resolve_row (r : alert_row) : alert_row :=
  mkAlertRow (ar_severity r) (ar_message r) (ar_created_at r) 0.

Definition ResolveAlert (code : string) : prog sqlite unit :=
  update (with_alerts (alter resolve_row code)).

Definition alert_le (a b : string * alert_row) : Prop := ar_created_at a.2 <= ar_created_at b.2.
#[export] Instance alert_le_dec a b : Decision (alert_le a b).
Proof. unfold alert_le. apply Z_le_dec. Defined.

(** [ORDER BY created_at]; the order of alerts of one second is not specified. *)
Definition ActiveAlerts : prog sqlite (list Alert) :=
  query (fun t => Ok
    ((fun kv => mkAlert kv.1 (ar_severity kv.2) (ar_message kv.2) (FromUnix (ar_created_at kv.2))
                  (ar_active kv.2 =? 1)) <$>
     merge_sort alert_le
       (filter (fun kv => ar_active kv.2 = 1) (map_to_list (t_alerts t))))).

Record ComplianceFeed := mkComplianceFeed {
  cf_Version : string; cf_UpdatedAt : time; cf_ExpiresAt : time; cf_RulesJSON : json;
  cf_Signature : string }.

Definition SaveCompliance (f : ComplianceFeed) : prog sqlite unit :=
  update (with_compliance (Some (mkComplianceRow (cf_Version f) (Unix (cf_UpdatedAt f))
    (Unix (cf_ExpiresAt f)) (cf_RulesJSON f) (cf_Signature f)))).

Definition Compliance : prog sqlite (option ComplianceFeed) :=
  query (fun t => Ok ((fun c => mkComplianceFeed (cr_version c) (FromUnix (cr_updated_at c))
    (FromUnix (cr_expires_at c)) (cr_rules_json c) (cr_signature c)) <$> t_compliance t)).

(** The same for every operation: what it may be asked to do, as data. *)
Inductive store_op :=
  | OpSetState (key value : string)
  | OpSetStates (values : list (string * string))
  | OpReplaceEnrollment (token tokenHash : string) (expires : time)
  | OpClaim (tokenHash url key cert ca : string) (now : time)
  | OpUpsertDevice (d : Device)
  | OpApplyPolicyOverride (id : string) (up down : Z) (p2p : bool) (expires : time)
  | OpRevokeDevice (id : string)
  | OpAddUsage (id : string) (txBytes rxBytes : Z) (now : time)
  | OpMarkUsageSent (ids : list Z) (now : time)
  | OpSetAlert (a : Alert)
  | OpResolveAlert (code : string)
  | OpSaveCompliance (f : ComplianceFeed).

Definition run_op (op : store_op) : prog sqlite unit :=
  match op with
  | OpSetState k v => SetState k v
  | OpSetStates l => SetStates l
  | OpReplaceEnrollment t h e => ReplaceEnrollment t h e
  | OpClaim h u k c a now => Claim h u k c a now
  | OpUpsertDevice d => UpsertDevice d
  | OpApplyPolicyOverride i u d p e => ApplyPolicyOverride i u d p e
  | OpRevokeDevice i => RevokeDevice i
  | OpAddUsage i tx rx now => let* _ := AddUsage i tx rx now in ret tt
  | OpMarkUsageSent l now => MarkUsageSent l now
  | OpSetAlert a => SetAlert a
  | OpResolveAlert c => ResolveAlert c
  | OpSaveCompliance f => SaveCompliance f
  end.

(** ** Reasoning about statements and transactions *)

(** A relation between the tables before and after, seen on the connection. *)
Definition on_db (R : relation tables) : relation sqlite := fun s s' => R (db s) (db s').
#[export] Instance on_db_preorder R `{!PreOrder R} : PreOrder (on_db R).
Proof.
  split; [intros s; unfold on_db; reflexivity|].
  intros x y z H1 H2. unfold on_db in *. by etransitivity.
Qed.

Section Connection.
Context (R : relation tables) `{!PreOrder R}.

Lemma keeps_exec {A} (f : tables -> result A * tables) :
  (forall t, R t (f t).2) -> keeps (on_db R) (exec f).
Proof.
  intros Hf [t fs]. unfold exec, on_db; simpl.
  specialize (Hf t). destruct (head fs) as [[]|], (f t); simpl in *; auto; reflexivity.
Qed.
Lemma keeps_update (f : tables -> tables) : (forall t, R t (f t)) -> keeps (on_db R) (update f).
Proof. intros Hf. by apply keeps_exec. Qed.
Lemma keeps_query {A} (f : tables -> result A) : keeps (on_db R) (query f).
Proof. apply keeps_exec. intros t. reflexivity. Qed.
Lemma keeps_transaction {A} (body : prog sqlite A) :
  keeps (on_db R) body -> keeps (on_db R) (transaction body).
Proof.
  intros Hb s. unfold transaction.
  pose proof (keeps_update (fun t => t) ltac:(reflexivity)) as Hu.
  pose proof (Hu s) as H1. destruct (update _ s) as [[u|e] s1]; simpl in *; [|done].
  pose proof (Hb s1) as H2. destruct (body s1) as [[a|e] s2]; simpl in *; [|done].
  pose proof (Hu s2) as H3. destruct (update _ s2) as [[u'|e'] s3]; simpl in *; [|done].
  unfold on_db in *. etransitivity; [done|]. by etransitivity.
Qed.
End Connection.

#[export] Hint Resolve keeps_query keeps_transaction : risevpn.
#[export] Hint Extern 3 (keeps _ (update _)) => apply keeps_update : risevpn.

Lemma exec_cases {A} (f : tables -> result A * tables) s r s' :
  exec f s = (r, s') ->
  (r = Err (SqlErr SqlFault) /\ db s' = db s) \/ f (db s) = (r, db s').
Proof.
  unfold exec. intros H.
  destruct (head (faults s)) as [[]|], (f (db s)) as [r0 t0]; simplify_eq/=; auto.
Qed.

Lemma update_cases f s r s' :
  update f s = (r, s') -> (exists e, r = Err e /\ db s' = db s) \/ (r = Ok tt /\ db s' = f (db s)).
Proof. intros H. apply exec_cases in H as [[-> H]|H]; simplify_eq/=; eauto. Qed.

(** A transaction is atomic: it commits the effects of its body or leaves the
    tables as they were. *)
Lemma transaction_cases {A} (body : prog sqlite A) s r s' :
  transaction body s = (r, s') ->
  (exists e, r = Err e /\ db s' = db s)
  \/ exists a s1 s2, r = Ok a /\ db s1 = db s /\ body s1 = (Ok a, s2) /\ db s' = db s2.
Proof.
  unfold transaction. intros H.
  destruct (update (fun t => t) s) as [[u|e] s1] eqn:E1;
    apply update_cases in E1; simplify_eq/=.
  - assert (Hs1 : db s1 = db s) by naive_solver.
    destruct (body s1) as [[a|e] s2] eqn:E2; simplify_eq/=; [|eauto].
    destruct (update (fun t => t) s2) as [[u'|e'] s3] eqn:E3;
      apply update_cases in E3; simplify_eq/=; [|left; eauto].
    right. exists a, s1, s2. naive_solver.
  - left. naive_solver.
Qed.

(** Without failures of the driver, statements and transactions do run. *)
Lemma exec_ok {A} (f : tables -> result A * tables) t :
  exec f (mkSqlite t []) = ((f t).1, mkSqlite (f t).2 []).
Proof. unfold exec. simpl. by destruct (f t). Qed.
Lemma update_ok f t : update f (mkSqlite t []) = (Ok tt, mkSqlite (f t) []).
Proof. apply exec_ok. Qed.
Lemma query_ok {A} (f : tables -> result A) t : query f (mkSqlite t []) = (f t, mkSqlite t []).
Proof. apply exec_ok. Qed.
Lemma transaction_ok {A} (body : prog sqlite A) t r t' :
  body (mkSqlite t []) = (r, mkSqlite t' []) ->
  transaction body (mkSqlite t []) = (r, mkSqlite (if is_ok r then t' else t) []).
Proof. intros H. unfold transaction. rewrite update_ok, H. by destruct r; simpl; rewrite ?update_ok. Qed.

#[export] Hint Rewrite @exec_ok update_ok @query_ok : risevpn_rw.

Definition set_states (l : list (string * string)) (m : gmap string string) : gmap string string :=
  foldl (fun m kv => <[kv.1 := kv.2]> m) m l.

Lemma set_states_cases l s r s' :
  for_each (fun kv => SetState kv.1 kv.2) l s = (r, s') ->
  r = Ok tt -> db s' = with_state (set_states l) (db s).
Proof.
  revert s. induction l as [|kv l IH]; intros s; simpl.
  - intros H _. unfold ret in H. simplify_eq/=. by destruct (db s').
  - unfold bind. destruct (SetState kv.1 kv.2 s) as [[u|e] s1] eqn:E;
      intros H Hr; simplify_eq/=.
    apply update_cases in E as [(e & ? & ?)|[_ E]]; [done|].
    rewrite (IH _ H eq_refl), E. done.
Qed.

Lemma set_states_ok l t :
  for_each (fun kv => SetState kv.1 kv.2) l (mkSqlite t [])
  = (Ok tt, mkSqlite (with_state (set_states l) t) []).
Proof.
  revert t. induction l as [|kv l IH]; intros t; simpl.
  - unfold ret. by destruct t.
  - unfold bind, SetState. rewrite update_ok, IH. done.
Qed.

(** ** The invariant of the database *)

Record db_ok (t : tables) : Prop := {
  ok_keys : forall k r, t_devices t !! k = Some r -> dr_device_id r = k;
  ok_hash : forall k1 k2 r1 r2, t_devices t !! k1 = Some r1 -> t_devices t !! k2 = Some r2 ->
    dr_credential_hash r1 = dr_credential_hash r2 -> k1 = k2;
  ok_used : forall k r, t_devices t !! k = Some r -> in_int64 (dr_used_bytes r) = true;
  ok_ids : StronglySorted Z.lt (ur_id <$> t_usage t);
  ok_seq : Forall (fun r => 1 <= ur_id r <= t_usage_seq t) (t_usage t) /\ 0 <= t_usage_seq t }.

Lemma db_ok_empty : db_ok empty_tables.
Proof. split; simpl; try (intros *; rewrite lookup_empty; done); [constructor|split; [constructor|lia]]. Qed.

(** A change of the devices table alone: it is enough to look at that table. *)
Definition devices_ok (m : gmap string device_row) : Prop :=
  (forall k r, m !! k = Some r -> dr_device_id r = k /\ in_int64 (dr_used_bytes r) = true)
  /\ (forall k1 k2 r1 r2, m !! k1 = Some r1 -> m !! k2 = Some r2 ->
        dr_credential_hash r1 = dr_credential_hash r2 -> k1 = k2).

Lemma db_ok_devices t : db_ok t -> devices_ok (t_devices t).
Proof. intros []. split; naive_solver. Qed.

Lemma db_ok_with_devices f t : db_ok t -> devices_ok (f (t_devices t)) -> db_ok (with_devices f t).
Proof. intros [? ? ? ? ?] [? ?]. split; naive_solver. Qed.

Lemma devices_ok_alter f k m :
  (forall r, dr_device_id (f r) = dr_device_id r /\ dr_credential_hash (f r) = dr_credential_hash r) ->
  (forall r, m !! k = Some r -> in_int64 (dr_used_bytes (f r)) = true) ->
  devices_ok m -> devices_ok (alter f k m).
Proof.
  intros Hf Hu [Hk Hh].
  assert (Hl : forall j r, alter f k m !! j = Some r ->
            exists r0, m !! j = Some r0 /\ dr_device_id r = dr_device_id r0
                       /\ dr_credential_hash r = dr_credential_hash r0
                       /\ in_int64 (dr_used_bytes r) = true).
  { intros j r. rewrite lookup_alter. case_decide as Hd.
    - subst. rewrite fmap_Some. intros (r0 & Hr0 & ->). destruct (Hf r0).
      exists r0. split_and!; auto.
    - intros Hr. destruct (Hk _ _ Hr). exists r. split_and!; auto. }
  split.
  - intros j r Hj. destruct (Hl _ _ Hj) as (r0 & H0 & -> & _ & ?). split; [|done].
    by apply Hk in H0 as [? ?].
  - intros k1 k2 r1 r2 H1 H2 Heq.
    destruct (Hl _ _ H1) as (r1' & H1' & _ & E1 & _).
    destruct (Hl _ _ H2) as (r2' & H2' & _ & E2 & _).
    apply (Hh k1 k2 r1' r2'); congruence.
Qed.

Lemma hash_not_taken t h id :
  hash_taken t h id = false ->
  forall k r, t_devices t !! k = Some r -> dr_credential_hash r = h -> k = id.
Proof.
  unfold hash_taken. rewrite bool_decide_eq_false. intros H k r Hk Hh.
  destruct (decide (k = id)); [done|]. exfalso. apply H. by exists k, r.
Qed.

Lemma upsert_row_used d old :
  in_int64 (UsedBytes d) = true ->
  (forall r, old = Some r -> in_int64 (dr_used_bytes r) = true) ->
  in_int64 (dr_used_bytes (upsert_row d old)) = true.
Proof. intros Hd Ho. destruct old as [r|]; simpl; [|done]. destruct (negb _); auto. Qed.

Lemma UpsertDevice_preserves d :
  in_int64 (UsedBytes d) = true -> keeps (on_db (preserves db_ok)) (UpsertDevice d).
Proof.
  intros Hd. apply keeps_exec; [apply _|]. intros t Ht.
  destruct (hash_taken t (CredentialHash d) (ID d)) eqn:E; simpl; [done|].
  pose proof (hash_not_taken _ _ _ E) as Hfree.
  destruct (db_ok_devices _ Ht) as [Hk Hh].
  apply db_ok_with_devices; [done|]. split.
  - intros k r. rewrite lookup_insert. case_decide; [|by auto].
    intros [= <-]. subst. split; [done|]. apply upsert_row_used; [done|].
    intros r Hr. by apply Hk in Hr as [_ ?].
  - intros k1 k2 r1 r2. rewrite !lookup_insert.
    repeat case_decide; intros; simplify_eq/=; eauto using eq_sym.
Qed.

Lemma with_usage_append_ok id tx rx now t : db_ok t -> db_ok (insert_usage id tx rx now t).
Proof.
  intros [H1 H2 H3 H4 [H5 H6]]. unfold insert_usage, with_usage. split; simpl; auto.
  - rewrite fmap_app. simpl. apply StronglySorted_app_2; [|done|repeat constructor].
    intros x y Hx Hy. apply list_elem_of_singleton in Hy as ->.
    apply list_elem_of_fmap in Hx as (r & -> & Hr).
    rewrite Forall_forall in H5. specialize (H5 r Hr). lia.
  - split; [|lia]. apply Forall_app. split.
    + eapply Forall_impl; [done|]. simpl. intros. lia.
    + constructor; [simpl; lia|constructor].
Qed.

(** [AddUsage] as a whole: what it commits. *)
Lemma AddUsage_cases id tx rx now s r s' :
  AddUsage id tx rx now s = (r, s') ->
  (exists e, r = Err e /\ db s' = db s)
  \/ exists row, t_devices (db s) !! id = Some row
     /\ r = Ok (dr_used_bytes row + add64 tx rx)
     /\ in_int64 (dr_used_bytes row + add64 tx rx) = true
     /\ db s' = with_devices (alter (add_used (add64 tx rx)) id) (insert_usage id tx rx now (db s)).
Proof.
  intros H. apply transaction_cases in H as [?|(a & s1 & s2 & -> & Hs1 & H & Hs2)]; [by left|].
  unfold bind in H.
  destruct (update (insert_usage id tx rx now) s1) as [[u|e] s3] eqn:E1; simplify_eq/=.
  destruct (update (with_devices _) s3) as [[u'|e] s4] eqn:E2; simplify_eq/=.
  apply update_cases in E1 as [(e & ? & ?)|[_ E1]]; [done|].
  apply update_cases in E2 as [(e & ? & ?)|[_ E2]]; [done|].
  apply exec_cases in H as [[? ?]|H]; [done|].
  rewrite Hs1 in E1. rewrite E1 in E2. injection H as Hr Hdb. rewrite E2 in Hr, Hdb.
  simpl in Hr. rewrite lookup_alter, decide_True in Hr by done.
  destruct (t_devices (db s) !! id) as [row|] eqn:Hrow; simpl in Hr; [|done].
  destruct (in_int64 (dr_used_bytes row + add64 tx rx)) eqn:Hin; [|done].
  right. exists row. split_and!; [done|congruence|done|congruence].
Qed.

Lemma AddUsage_ok id tx rx now t row :
  t_devices t !! id = Some row -> in_int64 (dr_used_bytes row + add64 tx rx) = true ->
  AddUsage id tx rx now (mkSqlite t [])
  = (Ok (dr_used_bytes row + add64 tx rx),
     mkSqlite (with_devices (alter (add_used (add64 tx rx)) id) (insert_usage id tx rx now t)) []).
Proof.
  intros Hrow Hin. unfold AddUsage. erewrite transaction_ok; cycle 1.
  { unfold bind. rewrite update_ok, update_ok, query_ok. simpl.
    rewrite lookup_alter, decide_True by done. rewrite Hrow. simpl. by rewrite Hin. }
  done.
Qed.

Lemma AddUsage_preserves id tx rx now : keeps (on_db (preserves db_ok)) (AddUsage id tx rx now).
Proof.
  intros s. unfold on_db, preserves. intros Ht.
  destruct (AddUsage id tx rx now s) as [r s'] eqn:E. simpl.
  apply AddUsage_cases in E as [(e & _ & ->)|(row & Hrow & _ & Hin & ->)]; [done|].
  apply db_ok_with_devices; [by apply with_usage_append_ok|].
  apply devices_ok_alter; [done| |exact (db_ok_devices _ Ht)].
  intros r'. simpl. intros. by simplify_eq.
Qed.

Lemma MarkUsageSent_preserves l now : keeps (on_db (preserves db_ok)) (MarkUsageSent l now).
Proof.
  unfold MarkUsageSent. destruct (length l =? 0)%nat; [apply keeps_ret, _|].
  apply keeps_update; [apply _|]. intros t [H1 H2 H3 H4 [H5 H6]].
  assert (Hid : forall r, ur_id (mark_row l now r) = ur_id r).
  { intros r. unfold mark_row. by case_bool_decide. }
  split; simpl; auto.
  - rewrite <- list_fmap_compose.
    rewrite (list_fmap_ext _ ur_id (t_usage t)); [done|]. intros i r _. apply Hid.
  - split; [|done]. apply Forall_fmap. eapply Forall_impl; [done|].
    intros r. simpl. by rewrite Hid.
Qed.

Ltac by_tables :=
  apply keeps_update; [apply _|]; intros ? []; split; simpl; auto.

Lemma set_states_preserves l : keeps (on_db (preserves db_ok)) (for_each (fun kv => SetState kv.1 kv.2) l).
Proof. apply keeps_for_each; [apply _|]. intros kv. by_tables. Qed.

Lemma Claim_preserves h u k c a now : keeps (on_db (preserves db_ok)) (Claim h u k c a now).
Proof.
  apply keeps_transaction; [apply _|]. apply keeps_bind; [apply _| |intros n].
  - apply keeps_exec; [apply _|]. intros t Ht. simpl. unfold claim_row.
    destruct (claimable t h now); [|done]. destruct Ht. by split.
  - apply keeps_if; [apply keeps_fail, _|apply set_states_preserves].
Qed.

(** The arguments of an operation are Go values: [UsedBytes] is an int64. *)
Definition typed_op (op : store_op) : Prop :=
  match op with OpUpsertDevice d => in_int64 (UsedBytes d) = true | _ => True end.

Lemma run_op_preserves op : typed_op op -> keeps (on_db (preserves db_ok)) (run_op op).
Proof.
  intros Hop. destruct op; simpl in *.
  - by_tables.
  - apply keeps_transaction; [apply _|]. apply set_states_preserves.
  - by_tables.
  - apply Claim_preserves.
  - by apply UpsertDevice_preserves.
  - apply keeps_update; [apply _|]. intros t Ht. apply db_ok_with_devices; [done|].
    apply devices_ok_alter; [done| |by apply db_ok_devices]. simpl. by apply Ht.
  - apply keeps_update; [apply _|]. intros t Ht. apply db_ok_with_devices; [done|].
    apply devices_ok_alter; [done| |by apply db_ok_devices]. simpl. by apply Ht.
  - apply keeps_bind; [apply _|apply AddUsage_preserves|intros; apply keeps_ret, _].
  - apply MarkUsageSent_preserves.
  - by_tables.
  - by_tables.
  - by_tables.
Qed.

(** The states a store can reach: any operations, any outcome, any failures. *)
Inductive reachable : sqlite -> Prop :=
  | reach_open fs : reachable (mkSqlite empty_tables fs)
  | reach_step op s : reachable s -> typed_op op -> reachable (run_op op s).2.

Lemma reachable_db_ok s : reachable s -> db_ok (db s).
Proof.
  induction 1 as [fs|op s Hs IH Hop]; [apply db_ok_empty|].
  by apply (run_op_preserves op Hop s).
Qed.

(** Looking a device up by its credential. *)
Lemma row_by_hash_spec t h r :
  db_ok t -> row_by_hash t h = Some r <-> (exists k, t_devices t !! k = Some r) /\ dr_credential_hash r = h.
Proof.
  intros Ht. unfold row_by_hash.
  assert (Hin : forall r', r' ∈ filter (fun r => dr_credential_hash r = h) (map_to_list (t_devices t)).*2
            <-> (exists k, t_devices t !! k = Some r') /\ dr_credential_hash r' = h).
  { intros r'. rewrite list_elem_of_filter, list_elem_of_fmap. split.
    - intros [Hh ([k v] & -> & Hkv)]. apply elem_of_map_to_list in Hkv. simpl in *. eauto.
    - intros [[k Hk] Hh]. split; [done|]. exists (k, r'). by rewrite elem_of_map_to_list. }
  destruct (filter _ _) as [|r0 l] eqn:E; simpl.
  - split; [done|]. intros H. apply Hin in H. by apply elem_of_nil in H.
  - assert (H0 : r0 ∈ r0 :: l) by constructor. apply Hin in H0 as [[k0 Hk0] Hh0]. split.
    + intros [= <-]. eauto.
    + intros [[k Hk] Hh]. f_equal.
      assert (k0 = k) as -> by (eapply (ok_hash _ Ht); eauto; congruence). congruence.
Qed.

Lemma elem_of_sorted_rows t r : r ∈ sorted_rows t <-> exists k, t_devices t !! k = Some r.
Proof.
  unfold sorted_rows. rewrite merge_sort_Permutation, list_elem_of_fmap. split.
  - intros ([k v] & -> & H). apply elem_of_map_to_list in H. eauto.
  - intros [k H]. exists (k, r). by rewrite elem_of_map_to_list.
Qed.

Lemma scan_all_elem rs ds d :
  scan_all rs = Ok ds -> d ∈ ds <-> exists r, r ∈ rs /\ scanDevice r = Ok d.
Proof.
  revert ds. induction rs as [|r rs IH]; intros ds; simpl.
  - intros [= <-]. split; [by intros ?%elem_of_nil|]. by intros (r & ?%elem_of_nil & _).
  - destruct (scanDevice r) as [d0|e] eqn:E; [|by destruct (scan_all rs)].
    destruct (scan_all rs) as [ds0|e]; [|done]. intros [= <-].
    rewrite elem_of_cons, (IH ds0 eq_refl). split.
    + intros [->|(r' & ? & ?)]; [exists r|exists r']; rewrite elem_of_cons; auto.
    + intros (r' & Hr' & Hs). apply elem_of_cons in Hr' as [->|?]; [left; congruence|eauto].
Qed.

Lemma scan_all_ok t : db_ok t -> exists ds, scan_all (sorted_rows t) = Ok ds.
Proof.
  intros Ht.
  assert (Hall : forall r, r ∈ sorted_rows t -> in_int64 (dr_used_bytes r) = true).
  { intros r Hr. apply elem_of_sorted_rows in Hr as [k Hk]. eapply ok_used; eauto. }
  revert Hall. induction (sorted_rows t) as [|r rs IH]; intros Hall; simpl; [eauto|].
  destruct IH as [ds ->]; [intros; apply Hall; by constructor|].
  unfold scanDevice. rewrite Hall by constructor. eauto.
Qed.

(** ** Sequences of operations *)

Definition run_ops (ops : list store_op) (s : sqlite) : sqlite :=
  foldl (fun s op => (run_op op s).2) s ops.

(** *** The enrollment row *)

Definition claimed (t : tables) : Prop :=
  exists e c, t_enrollment t = Some e /\ er_claimed_at e = Some c.

Lemma claimed_not_claimable t h now : claimed t -> claimable t h now = None.
Proof.
  intros (e & c & He & Hc). unfold claimable. rewrite He, Hc. by rewrite andb_false_r.
Qed.

(** What an accepted claim commits. *)
Definition claim_effect (h u k c a : string) (now : time) (t : tables) : tables :=
  with_state (set_states (claim_states u k c a)) (claim_row h now t).

Lemma Claim_cases h u k c a now s r s' :
  Claim h u k c a now s = (r, s') ->
  (exists e, r = Err e /\ db s' = db s)
  \/ (r = Ok tt /\ is_Some (claimable (db s) h now)
      /\ db s' = claim_effect h u k c a now (db s)).
Proof.
  intros H. apply transaction_cases in H as [?|([] & s1 & s2 & -> & Hs1 & H & Hs2)]; [by left|].
  right. unfold bind in H. destruct (exec _ s1) as [[n|e] s3] eqn:E; simplify_eq/=.
  apply exec_cases in E as [[? ?]|E]; [done|]. injection E as Hn E3. rewrite Hs1 in *.
  destruct (claimable (db s) h now) as [e|] eqn:Ec; subst n; simpl in H; [|done].
  split; [done|]. split; [eauto|]. unfold claim_effect.
  pose proof (set_states_cases (claim_states u k c a) s3 _ s2 H eq_refl) as H'.
  by rewrite Hs2, H', <- E3.
Qed.

Lemma Claim_ok h u k c a now t :
  is_Some (claimable t h now) ->
  Claim h u k c a now (mkSqlite t []) = (Ok tt, mkSqlite (claim_effect h u k c a now t) []).
Proof.
  intros [e He]. unfold Claim. erewrite transaction_ok; cycle 1.
  { unfold bind. rewrite exec_ok. cbn -[for_each claim_states]. rewrite He.
    cbn -[for_each claim_states]. apply set_states_ok. }
  done.
Qed.

Lemma claim_effect_claimed h u k c a now t :
  is_Some (claimable t h now) -> claimed (claim_effect h u k c a now t).
Proof. intros [e He]. unfold claim_effect, claim_row, claimed. rewrite He. simpl. eauto. Qed.

Definition is_replace (op : store_op) : bool :=
  match op with OpReplaceEnrollment _ _ _ => true | _ => false end.

Ltac keeps_claimed := apply keeps_update; [apply _|]; intros ? ?; done.

Lemma run_op_claimed op : is_replace op = false -> keeps (on_db (preserves claimed)) (run_op op).
Proof.
  assert (Hset : forall l, keeps (on_db (preserves claimed)) (for_each (fun kv => SetState kv.1 kv.2) l)).
  { intros l. apply keeps_for_each; [apply _|]. intros kv. keeps_claimed. }
  intros Hop. destruct op; simpl in *; try done; try keeps_claimed.
  - by apply keeps_transaction; [apply _|].
  - intros s Hc. unfold on_db. destruct (Claim _ _ _ _ _ _ s) as [r s'] eqn:E.
    apply Claim_cases in E as [(e & _ & H)|(_ & Hs & H)]; simpl; rewrite H; [done|].
    by apply claim_effect_claimed.
  - apply keeps_exec; [apply _|]. intros t Hc. by destruct (hash_taken _ _ _).
  - apply keeps_bind; [apply _| |intros; apply keeps_ret, _].
    intros s Hc. unfold on_db. destruct (AddUsage _ _ _ _ s) as [r s'] eqn:E.
    apply AddUsage_cases in E as [(e & _ & H)|(row & _ & _ & _ & H)]; simpl; by rewrite H.
  - unfold MarkUsageSent. destruct (_ =? _)%nat; [apply keeps_ret, _|keeps_claimed].
Qed.

Lemma run_ops_claimed ops s :
  Forall (fun op => is_replace op = false) ops -> claimed (db s) -> claimed (db (run_ops ops s)).
Proof.
  intros Hops. revert s. induction Hops as [|op ops Hop _ IH]; intros s Hs; [done|].
  simpl. apply IH. by apply (run_op_claimed op Hop s).
Qed.

(** *** Usage events *)

Definition event_bytes (id : string) (r : usage_row) : Z :=
  if String.eqb (ur_device_id r) id then ur_tx_bytes r + ur_rx_bytes r else 0.
Definition total_bytes (id : string) (t : tables) : Z :=
  foldr (fun r acc => event_bytes id r + acc) 0 (t_usage t).

(** The traffic counted for a device before its first recorded event. *)
Definition baseline (id : string) (t : tables) : option Z :=
  (fun r => dr_used_bytes r - total_bytes id t) <$> t_devices t !! id.

(** The operation measures traffic exactly and does not start a new period of
    the device. *)
Definition metered_op (id : string) (op : store_op) (t : tables) : Prop :=
  match op with
  | OpAddUsage _ tx rx _ => 0 <= tx /\ 0 <= rx /\ in_int64 (tx + rx) = true
  | OpUpsertDevice d =>
      ID d = id -> exists r, t_devices t !! id = Some r /\ dr_period_ends r = Unix (PeriodEnds d)
  | _ => True
  end.
Fixpoint metered (id : string) (ops : list store_op) (s : sqlite) : Prop :=
  match ops with
  | [] => True
  | op :: ops' => metered_op id op (db s) /\ metered id ops' (run_op op s).2
  end.

Lemma total_bytes_insert id j tx rx now t :
  total_bytes id (insert_usage j tx rx now t)
  = total_bytes id t + (if String.eqb j id then tx + rx else 0).
Proof.
  unfold total_bytes, insert_usage; simpl. rewrite foldr_app. simpl.
  unfold event_bytes at 2; simpl.
  induction (t_usage t) as [|r l IH]; simpl; [lia|]. rewrite IH. lia.
Qed.

Lemma total_bytes_mark id ids now (l : list usage_row) :
  foldr (fun r acc => event_bytes id r + acc) 0 (mark_row ids now <$> l)
  = foldr (fun r acc => event_bytes id r + acc) 0 l.
Proof.
  induction l as [|r l IH]; [done|]. rewrite fmap_cons. cbn [foldr]. rewrite IH. f_equal.
  unfold mark_row. by case_bool_decide.
Qed.

Lemma baseline_alter id j f t :
  (forall r, dr_used_bytes (f r) = dr_used_bytes r) ->
  baseline id (with_devices (alter f j) t) = baseline id t.
Proof.
  intros Hf. unfold baseline, with_devices, total_bytes; simpl. rewrite lookup_alter.
  case_decide; [|done]. subst. destruct (t_devices t !! id); simpl; [|done]. by rewrite Hf.
Qed.

Lemma update_baseline id f s :
  (forall t, baseline id (f t) = baseline id t) ->
  baseline id (db (update f s).2) = baseline id (db s).
Proof.
  intros Hf. destruct (update f s) as [r s'] eqn:E.
  apply update_cases in E as [(e & _ & H)|[_ H]]; simpl; by rewrite H.
Qed.

Lemma AddUsage_baseline id j tx rx now s :
  0 <= tx -> 0 <= rx -> in_int64 (tx + rx) = true ->
  baseline id (db (AddUsage j tx rx now s).2) = baseline id (db s).
Proof.
  intros Htx Hrx Hin. destruct (AddUsage j tx rx now s) as [r s'] eqn:E.
  apply AddUsage_cases in E as [(e & _ & H)|(row & Hrow & _ & _ & H)]; simpl; rewrite H; [done|].
  unfold baseline. simpl.
  change (total_bytes id (with_devices ?f ?t)) with (total_bytes id t).
  rewrite total_bytes_insert, lookup_alter.
  unfold add64. rewrite wrap64_id by done. case_decide as Hd.
  - subst. rewrite String.eqb_refl, Hrow. simpl. f_equal. lia.
  - destruct (String.eqb_spec j id); [done|]. destruct (t_devices (db s) !! id); simpl; [|done].
    f_equal. lia.
Qed.

Lemma UpsertDevice_baseline id d s :
  (ID d = id -> exists r, t_devices (db s) !! id = Some r /\ dr_period_ends r = Unix (PeriodEnds d)) ->
  baseline id (db (UpsertDevice d s).2) = baseline id (db s).
Proof.
  intros Hd. destruct (UpsertDevice d s) as [r s'] eqn:E.
  apply exec_cases in E as [[_ H]|E]; simpl; [by rewrite H|].
  destruct (hash_taken _ _ _); injection E as _ E; rewrite <- E; [done|].
  unfold baseline; simpl. change (total_bytes id (with_devices ?f ?t)) with (total_bytes id t).
  rewrite lookup_insert. case_decide as Hid; [|done].
  destruct (Hd Hid) as (row & Hrow & Hp). rewrite Hid, Hrow. simpl. rewrite Hp, Z.eqb_refl. done.
Qed.

Lemma run_op_baseline id op s :
  metered_op id op (db s) -> baseline id (db (run_op op s).2) = baseline id (db s).
Proof.
  intros Hm. destruct op; simpl in *; try by apply update_baseline.
  - destruct (SetStates values s) as [r s'] eqn:E. simpl.
    apply transaction_cases in E as [(e & _ & H)|(a & s1 & s2 & -> & Hs1 & H & H2)]; [by rewrite H|].
    rewrite H2, (set_states_cases _ _ _ _ H) by (by destruct a). by rewrite Hs1.
  - destruct (Claim _ _ _ _ _ _ s) as [r s'] eqn:E. simpl.
    apply Claim_cases in E as [(e & _ & H)|(_ & _ & H)]; rewrite H; [done|].
    unfold claim_effect, claim_row. by destruct (claimable _ _ _).
  - by apply UpsertDevice_baseline.
  - apply update_baseline. intros t. by apply baseline_alter.
  - apply update_baseline. intros t. by apply baseline_alter.
  - pose proof (AddUsage_baseline id id0 txBytes rxBytes now s) as H.
    unfold bind. destruct (AddUsage _ _ _ _ s) as [[] s'] eqn:E; simpl in *; apply H; naive_solver.
  - unfold MarkUsageSent. destruct (_ =? _)%nat; [done|].
    apply update_baseline. intros t. unfold baseline, total_bytes; simpl. by rewrite total_bytes_mark.
Qed.

(** *** Pending events *)

Lemma pending_mark ids now (l : list usage_row) :
  filter (fun r => ur_sent_at r = None) (mark_row ids now <$> l)
  = filter (fun r => ur_id r ∉ ids) (filter (fun r => ur_sent_at r = None) l).
Proof.
  induction l as [|r l IH]; [done|]. rewrite fmap_cons. unfold mark_row at 1.
  case_bool_decide as Hin.
  - rewrite filter_cons_False by done. rewrite IH. rewrite filter_cons.
    case_decide; [|done]. rewrite filter_cons_False by naive_solver. done.
  - rewrite !filter_cons. case_decide; [|done]. rewrite filter_cons_True by done. by rewrite IH.
Qed.

Definition keeps_event (r : usage_row) : relation tables :=
  preserves (fun t => r ∈ pending_rows t).

Lemma pending_append r id tx rx now t :
  r ∈ pending_rows t -> r ∈ pending_rows (insert_usage id tx rx now t).
Proof. unfold pending_rows, insert_usage; simpl. rewrite filter_app, elem_of_app. auto. Qed.

Ltac keeps_pending := apply keeps_update; [apply _|]; intros ? ?; done.

Lemma run_op_pending r op :
  (forall ids now, op = OpMarkUsageSent ids now -> ur_id r ∉ ids) ->
  keeps (on_db (preserves (fun t => r ∈ pending_rows t))) (run_op op).
Proof.
  assert (Hset : forall l, keeps (on_db (preserves (fun t => r ∈ pending_rows t)))
                    (for_each (fun kv => SetState kv.1 kv.2) l)).
  { intros l. apply keeps_for_each; [apply _|]. intros kv. keeps_pending. }
  intros Hop. destruct op; simpl in *; try keeps_pending.
  - by apply keeps_transaction; [apply _|].
  - intros s Hc. unfold on_db. destruct (Claim _ _ _ _ _ _ s) as [x s'] eqn:E.
    apply Claim_cases in E as [(e & _ & H)|(_ & Hs & H)]; simpl; rewrite H; [done|].
    unfold claim_effect, claim_row. by destruct (claimable _ _ _).
  - apply keeps_exec; [apply _|]. intros t Hc. by destruct (hash_taken _ _ _).
  - apply keeps_bind; [apply _| |intros; apply keeps_ret, _].
    intros s Hc. unfold on_db. destruct (AddUsage _ _ _ _ s) as [x s'] eqn:E.
    apply AddUsage_cases in E as [(e & _ & H)|(row & _ & _ & _ & H)]; simpl; rewrite H; [done|].
    by apply pending_append.
  - unfold MarkUsageSent. destruct (_ =? _)%nat; [apply keeps_ret, _|].
    apply keeps_update; [apply _|]. intros t Ht. unfold pending_rows in *; simpl.
    rewrite pending_mark. apply list_elem_of_filter. eauto.
Qed.

Lemma alter_as_insert {A} (f : A -> A) k x (m : gmap string A) :
  m !! k = Some x -> alter f k m = <[k := f x]> m.
Proof.
  intros Hx. apply map_eq. intros j. rewrite lookup_alter, lookup_insert.
  case_decide; [subst; by rewrite Hx|done].
Qed.

(** ** Properties *)

(** C32 - In every state the agent's database can reach, through any operations
    and any failures of the driver, the rows agree with their keys, no two
    devices share a credential hash, the traffic counters are int64 values, the
    usage events are numbered strictly upwards within the AUTOINCREMENT
    counter, a credential hash names at most the one device that has it, and
    listing the devices succeeds and yields exactly the stored ones. *)
Theorem store_invariant s :
  reachable s ->
  db_ok (db s)
  /\ (forall h r, row_by_hash (db s) h = Some r
        <-> (exists k, t_devices (db s) !! k = Some r) /\ dr_credential_hash r = h)
  /\ (exists ds, (Devices (mkSqlite (db s) [])).1 = Ok ds
        /\ forall d, d ∈ ds <-> exists k r, t_devices (db s) !! k = Some r /\ scanDevice r = Ok d).
Proof.
  intros Hs. pose proof (reachable_db_ok _ Hs) as Hok. split; [done|].
  split; [intros; by apply row_by_hash_spec|].
  destruct (scan_all_ok _ Hok) as [ds Hds]. exists ds. unfold Devices. rewrite query_ok.
  split; [done|]. intros d. rewrite (scan_all_elem _ _ _ Hds). split.
  - intros (r & Hr & Hd). apply elem_of_sorted_rows in Hr as [k Hk]. eauto.
  - intros (k & r & Hk & Hd). exists r. split; [|done]. apply elem_of_sorted_rows. eauto.
Qed.

Definition sample_device : Device :=
  mkDevice "device-1" "hash-1" Plus true (FromUnix 2000) (FromUnix 3000) 600000000000 0
    1000000 (FromUnix 2000) 0 0 false (FromUnix 0).

Lemma store_invariant_witness :
  db_ok (db (run_op (OpUpsertDevice sample_device) (mkSqlite empty_tables [])).2).
Proof. apply (store_invariant _). apply reach_step; [constructor|reflexivity]. Defined.

(** Claiming the node is atomic.  Under any failures of the driver, a claim
    either fails and leaves the tables as they were, or succeeds, which requires
    the stored token hash, no earlier claim and a token that has not expired, and
    then marks the row claimed and stores the four controller values together.
    Without failures such a claim does succeed. *)
Theorem Claim_atomic h url key cert ca now s r s' :
  Claim h url key cert ca now s = (r, s') ->
  ((exists e, r = Err e /\ db s' = db s)
   \/ (r = Ok tt
       /\ (exists e, t_enrollment (db s) = Some e /\ er_token_hash e = h
             /\ er_claimed_at e = None /\ Unix now <= er_expires_at e
             /\ t_enrollment (db s') = Some (mkEnrollmentRow (er_token e) h (er_expires_at e) (Some (Unix now))))
       /\ t_state (db s') = <["controller_ca" := ca]> (<["node_certificate" := cert]>
            (<["controller_public_key" := key]> (<["controller_url" := url]> (t_state (db s)))))
       /\ t_devices (db s') = t_devices (db s)))
  /\ (faults s = [] -> is_Some (claimable (db s) h now) -> r = Ok tt).
Proof.
  intros H. split.
  - apply Claim_cases in H as [?|(-> & [e He] & Hdb)]; [by left|]. right. split; [done|].
    unfold claim_effect, claim_row in Hdb. rewrite He in Hdb. rewrite Hdb. simpl.
    split; [|done]. unfold claimable in He.
    destruct (t_enrollment (db s)) as [e0|] eqn:E0; [|done].
    destruct (String.eqb_spec (er_token_hash e0) h); [|done].
    destruct (er_claimed_at e0) eqn:Ec; [done|]. simpl in He.
    destruct (Unix now <=? er_expires_at e0) eqn:Ex; [|done].
    injection He as <-. exists e0. split_and!; auto; [lia|by subst].
  - intros Hf Hc. destruct s as [t fs]. simpl in *. subst fs.
    rewrite (Claim_ok h url key cert ca now t Hc) in H. congruence.
Qed.

Lemma Claim_atomic_witness :
  let t := with_enrollment (Some (mkEnrollmentRow "tok" "h" 100 None)) empty_tables in
  (Claim "h" "wss://c" "k" "cert" "ca" (FromUnix 50) (mkSqlite t [])).1 = Ok tt.
Proof.
  intros t.
  destruct (Claim "h" "wss://c" "k" "cert" "ca" (FromUnix 50) (mkSqlite t [])) as [r s'] eqn:E.
  apply (Claim_atomic _ _ _ _ _ _ _ _ _ E); [reflexivity|]. exists (mkEnrollmentRow "tok" "h" 100 None). reflexivity.
Defined.

(** C22 - An enrollment token is spent by its first claim.  After a successful
    claim, and after any further operations except issuing a new token, every
    claim with any token is refused and changes nothing. *)
Theorem Claim_single_use h url key cert ca now s s1 ops h' url' key' cert' ca' now' r s2 :
  Claim h url key cert ca now s = (Ok tt, s1) ->
  Forall (fun op => is_replace op = false) ops ->
  Claim h' url' key' cert' ca' now' (run_ops ops s1) = (r, s2) ->
  (exists e, r = Err e) /\ db s2 = db (run_ops ops s1).
Proof.
  intros H Hops H2.
  assert (Hc : claimed (db (run_ops ops s1))).
  { apply run_ops_claimed; [done|].
    apply Claim_cases in H as [(e & ? & _)|(_ & Hs & ->)]; [done|]. by apply claim_effect_claimed. }
  apply Claim_cases in H2 as [(e & -> & ->)|(_ & [x Hx] & _)]; [eauto|].
  by rewrite claimed_not_claimable in Hx.
Qed.

Lemma Claim_single_use_witness :
  let t := with_enrollment (Some (mkEnrollmentRow "tok" "h" 100 None)) empty_tables in
  let s1 := (Claim "h" "u" "k" "c" "a" (FromUnix 50) (mkSqlite t [])).2 in
  exists e, (Claim "h" "u2" "k2" "c2" "a2" (FromUnix 51) (run_ops [OpSetState "x" "y"] s1)).1 = Err e.
Proof.
  intros t s1.
  destruct (Claim "h" "u2" "k2" "c2" "a2" (FromUnix 51) (run_ops [OpSetState "x" "y"] s1)) as [r s2] eqn:E.
  eapply (Claim_single_use "h" "u" "k" "c" "a" (FromUnix 50) (mkSqlite t []) s1 [OpSetState "x" "y"]).
  - reflexivity.
  - repeat constructor.
  - exact E.
Defined.

(** Recording usage is exact and atomic.  [AddUsage] fails, and then the
    tables do not change, unless the device exists and the new counter is an
    int64; otherwise it adds the 64-bit sum of the two counters to the device
    and appends one pending event under the next number.  Without driver
    failures the success case is the one taken. *)
Theorem AddUsage_spec id tx rx now s r s' :
  AddUsage id tx rx now s = (r, s') ->
  ((exists e, r = Err e /\ db s' = db s)
   \/ exists row, t_devices (db s) !! id = Some row
      /\ r = Ok (dr_used_bytes row + add64 tx rx)
      /\ in_int64 (dr_used_bytes row + add64 tx rx) = true
      /\ t_devices (db s') = <[id := add_used (add64 tx rx) row]> (t_devices (db s))
      /\ pending_rows (db s')
         = pending_rows (db s) ++ [mkUsageRow (t_usage_seq (db s) + 1) id tx rx (Unix now) None]
      /\ t_usage_seq (db s') = t_usage_seq (db s) + 1)
  /\ (faults s = [] ->
      forall row, t_devices (db s) !! id = Some row ->
        in_int64 (dr_used_bytes row + add64 tx rx) = true -> is_ok r = true).
Proof.
  intros H. split.
  - apply AddUsage_cases in H as [?|(row & Hrow & -> & Hin & ->)]; [by left|]. right.
    exists row. split_and!; auto; simpl.
    + by apply alter_as_insert.
    + unfold pending_rows; simpl. rewrite filter_app. done.
  - intros Hf row Hrow Hin. destruct s as [t fs]. simpl in *. subst.
    rewrite (AddUsage_ok _ _ _ _ _ _ Hrow Hin) in H. by injection H as <- _.
Qed.

Lemma AddUsage_spec_witness :
  let s := (UpsertDevice sample_device (mkSqlite empty_tables [])).2 in
  is_ok (AddUsage "device-1" 10 20 0 s).1 = true.
Proof.
  intros s. destruct (AddUsage "device-1" 10 20 0 s) as [r s'] eqn:E.
  apply (AddUsage_spec _ _ _ _ _ _ _ E) with (row := upsert_row sample_device None); reflexivity.
Defined.



(** A usage event stays queued for delivery until it is acknowledged, and an
    acknowledgement removes exactly the acknowledged events.  No operation and no
    failure other than an acknowledgement that names its number takes a pending
    event out of the queue, and after a successful acknowledgement the queue is
    the old queue without the named numbers. *)
Theorem pending_until_acknowledged r op s :
  r ∈ pending_rows (db s) ->
  (forall ids now, op = OpMarkUsageSent ids now -> ur_id r ∉ ids) ->
  r ∈ pending_rows (db (run_op op s).2)
  /\ forall ids now s', MarkUsageSent ids now s = (Ok tt, s') ->
       pending_rows (db s') = filter (fun r => ur_id r ∉ ids) (pending_rows (db s)).
Proof.
  intros Hr Hop. split; [by apply (run_op_pending r op Hop s)|].
  intros ids now s' H. unfold MarkUsageSent in H.
  destruct (length ids =? 0)%nat eqn:E.
  - clear Hr. injection H as <-. apply Nat.eqb_eq, length_zero_iff_nil in E as ->. symmetry.
    induction (pending_rows (db s)) as [|x l IH]; [done|].
    rewrite filter_cons_True by apply not_elem_of_nil. by rewrite IH.
  - apply update_cases in H as [(e & ? & _)|[_ ->]]; [done|]. apply pending_mark.
Qed.

Lemma pending_until_acknowledged_witness :
  let s := mkSqlite (with_usage (fun _ => [mkUsageRow 1 "d" 1 2 0 None; mkUsageRow 2 "d" 3 4 0 None]) 2
                       empty_tables) [] in
  mkUsageRow 2 "d" 3 4 0 None ∈ pending_rows (db (run_op (OpMarkUsageSent [1] 0) s).2).
Proof.
  intros s. eapply (pending_until_acknowledged (mkUsageRow 2 "d" 3 4 0 None) (OpMarkUsageSent [1] 0) s).
  - simpl. apply list_elem_of_further, list_elem_of_here.
  - intros ids now [= <- <-] H. apply list_elem_of_singleton in H. discriminate H.
Defined.

(** What a device update stores.  After a successful [UpsertDevice], reading
    the device back gives the new fields with their instants rounded down to the
    second; the traffic counter is kept when the period end is unchanged and is
    the given one otherwise; the policy override survives; and no other device
    changes.  The update fails exactly when another device owns the credential
    hash, unless the driver fails. *)
Theorem UpsertDevice_spec d s r s' :
  UpsertDevice d s = (r, s') -> in_int64 (UsedBytes d) = true -> db_ok (db s) ->
  (r = Ok tt ->
     exists d', (DeviceByID (ID d) (mkSqlite (db s') [])).1 = Ok (Some d')
       /\ ID d' = ID d /\ CredentialHash d' = CredentialHash d /\ Plan d' = Plan d
       /\ Active d' = Active d /\ QuotaBytes d' = QuotaBytes d /\ LeaseBytes d' = LeaseBytes d
       /\ SubscriptionEnds d' = FromUnix (Unix (SubscriptionEnds d))
       /\ LeaseExpires d' = FromUnix (Unix (LeaseExpires d))
       /\ match t_devices (db s) !! ID d with
          | Some old => UsedBytes d' = (if dr_period_ends old =? Unix (PeriodEnds d)
                                        then dr_used_bytes old else UsedBytes d)
                        /\ OverrideExpires d' = FromUnix (dr_override_expires old)
                        /\ OverrideUpBPS d' = dr_override_up_bps old
          | None => UsedBytes d' = UsedBytes d /\ OverrideExpires d' = FromUnix 0
          end)
  /\ (forall k, k <> ID d -> t_devices (db s') !! k = t_devices (db s) !! k)
  /\ (r = Err (SqlErr SqlConstraint) ->
        exists k row, t_devices (db s) !! k = Some row /\ k <> ID d
                      /\ dr_credential_hash row = CredentialHash d)
  /\ (r <> Ok tt -> db s' = db s).
Proof.
  intros H Hd Hok.
  apply exec_cases in H as [[-> ->]|H]; [split_and!; done|].
  destruct (hash_taken (db s) (CredentialHash d) (ID d)) eqn:Ht; injection H as <- Hs'; rewrite <- Hs'.
  - split_and!; try done. intros _. unfold hash_taken in Ht.
    apply bool_decide_eq_true in Ht as (k & row & Hk & Hh & Hne). eauto.
  - split_and!; try done; [intros _|intros k Hk; simpl; by rewrite lookup_insert_ne].
    unfold DeviceByID. rewrite query_ok. simpl. rewrite lookup_insert_eq. simpl.
    unfold scanDevice. rewrite upsert_row_used; [|done|intros; by eapply ok_used].
    simpl. eexists. split; [done|]. simpl.
    split_and!; try done; [by destruct (Active d)|].
    destruct (t_devices (db s) !! ID d) as [old|]; [|done]. by destruct (dr_period_ends old =? _).
Qed.

Lemma UpsertDevice_spec_witness :
  let s := mkSqlite empty_tables [] in
  exists d', (DeviceByID "device-1" (mkSqlite (db (UpsertDevice sample_device s).2) [])).1 = Ok (Some d')
             /\ UsedBytes d' = 0.
Proof.
  intros s. destruct (UpsertDevice sample_device s) as [r s'] eqn:E.
  assert (Hr : r = Ok tt) by (vm_compute in E; congruence).
  destruct (UpsertDevice_spec sample_device s r s' E eq_refl db_ok_empty) as [H _].
  destruct (H Hr) as (d' & Hd & H1). exists d'. split; [exact Hd|]. apply H1.
Defined.
