(* ===== verification/GoNet.v ===== *)
(** * IP addresses and networks of Go's net package

    [net.ParseIP], [net.ParseCIDR] and [IPNet.Contains], which the compliance
    rules use, following [net] and [net/netip].  An address is its 16 bytes,
    an IPv4 address in the form ::ffff:a.b.c.d. *)

From S2P Require Import Prelude GoStrings.
From stdpp Require Import base strings list.
From Stdlib Require Import ZArith Lia Ascii.
Open Scope Z_scope.

(** ** netip.ParseAddr *)

(** [parseIPv4Fields]: four decimal fields without leading zeros.  [val] is
    [None] at the start of a field. *)
Fixpoint ipv4_fields (s : string) (val : option Z) (done : list Z) : option (list Z) :=
  match s with
  | "" => match val with
          | Some v => if (length done =? 3)%nat then Some (done ++ [v]) else None
          | None => None
          end
  | String c s' =>
      match digit_val c with
      | Some d =>
          match val with
          | Some v => if v =? 0 then None
                      else if 255 <? v * 10 + d then None else ipv4_fields s' (Some (v * 10 + d)) done
          | None => ipv4_fields s' (Some d) done
          end
      | None =>
          if Ascii.eqb c "." then
            match val with
            | Some v => if (length done =? 3)%nat then None else ipv4_fields s' None (done ++ [v])
            | None => None
            end
          else None
      end
  end.

Definition hex_val (c : ascii) : option Z :=
  let z := byte_val c in
  if (48 <=? z) && (z <=? 57) then Some (z - 48)
  else if (97 <=? z) && (z <=? 102) then Some (z - 87)
  else if (65 <=? z) && (z <=? 70) then Some (z - 55)
  else None.

(** One hexadecimal group: its value, its length and the rest; [None] when it
    has more than four digits. *)
Fixpoint hex_group (s : string) (off : nat) (acc : Z) : option (Z * nat * string) :=
  match s with
  | String c s' =>
      match hex_val c with
      | Some d => if (3 <? off)%nat then None else hex_group s' (S off) (acc * 16 + d)
      | None => Some (acc, off, s)
      end
  | "" => Some (acc, off, s)
  end.

(** The loop of [parseIPv6]: the bytes so far, the place of the ellipsis and the
    text left.  The result also says what is left at the end. *)
Fixpoint ipv6_loop (fuel : nat) (s : string) (ip : list Z) (ellipsis : option nat)
    : option (list Z * option nat * string) :=
  match fuel with
  | O => Some (ip, ellipsis, s)
  | S fuel' =>
      if (16 <=? length ip)%nat then Some (ip, ellipsis, s) else
      match hex_group s 0 0 with
      | None => None
      | Some (_, O, _) => None
      | Some (acc, _, rest) =>
          match rest with
          | String "." _ =>
              if (match ellipsis with None => negb (length ip =? 12)%nat | Some _ => false end) then None
              else if (16 <? length ip + 4)%nat then None
              else match ipv4_fields s None [] with
                   | Some v4 => Some (ip ++ v4, ellipsis, "")
                   | None => None
                   end
          | "" => Some (ip ++ [acc / 256; acc mod 256], ellipsis, "")
          | String ":" "" => None
          | String ":" (String ":" s2) =>
              match ellipsis with
              | Some _ => None
              | None =>
                  let ip' := ip ++ [acc / 256; acc mod 256] in
                  if String.eqb s2 "" then Some (ip', Some (length ip'), "")
                  else ipv6_loop fuel' s2 ip' (Some (length ip'))
              end
          | String ":" s1 => ipv6_loop fuel' s1 (ip ++ [acc / 256; acc mod 256]) ellipsis
          | _ => None
          end
      end
  end.

Definition ipv6_finish (r : list Z * option nat * string) : option (list Z) :=
  let '(ip, ellipsis, s) := r in
  if negb (String.eqb s "") then None
  else match ellipsis with
       | None => if (length ip <? 16)%nat then None else Some ip
       | Some e => if (length ip <? 16)%nat
                   then Some (take e ip ++ replicate (16 - length ip) 0 ++ drop e ip)
                   else None
       end.

(** A group takes two bytes, so that eight rounds and a last test are enough. *)
Definition parse_ipv6 (s : string) : option (list Z) :=
  match s with
  | String ":" (String ":" "") => Some (replicate 16 0)
  | String ":" (String ":" s') =>
      match ipv6_loop 9 s' [] (Some 0%nat) with Some r => ipv6_finish r | None => None end
  | _ => match ipv6_loop 9 s [] None with Some r => ipv6_finish r | None => None end
  end.

Definition v4_prefix : list Z := replicate 10 0 ++ [255; 255].

(** The first of '.', ':' and '%' decides the family. *)
Fixpoint family (s : string) : option ascii :=
  match s with
  | "" => None
  | String c s' => if Ascii.eqb c "." || Ascii.eqb c ":" || Ascii.eqb c "%" then Some c else family s'
  end.

(** [netip.ParseAddr] without a zone: whether the address is IPv4, and its bytes. *)
Definition ParseAddr (s : string) : option (bool * list Z) :=
  match family s with
  | Some "."%char => (fun b => (true, v4_prefix ++ b)) <$> ipv4_fields s None []
  | Some ":"%char => if contains_byte s "%" then None else pair false <$> parse_ipv6 s
  | _ => None
  end.

(** ** net.ParseIP, net.ParseCIDR, IPNet.Contains *)

Definition ParseIP (s : string) : option (list Z) := snd <$> ParseAddr s.

(** [IP.To4] on 16 bytes. *)
Definition To4 (ip : list Z) : option (list Z) :=
  if bool_decide (take 12 ip = v4_prefix) then Some (drop 12 ip) else None.

(** [CIDRMask(n, 8 * len)] *)
Fixpoint cidr_mask (len : nat) (n : Z) : list Z :=
  match len with
  | O => []
  | S len' => (if 8 <=? n then 255 else if n <=? 0 then 0 else 256 - 2 ^ (8 - n)) :: cidr_mask len' (n - 8)
  end.

Record IPNet := mkIPNet { net_IP : list Z; net_Mask : list Z }.

Definition mask_bytes (ip m : list Z) : list Z := zip_with Z.land ip m.

(** [dtoi] on the whole text *)
Fixpoint dtoi (s : string) (n : Z) : option Z :=
  match s with
  | "" => Some n
  | String c s' => match digit_val c with
                   | Some d => if 0xFFFFFF <=? n * 10 + d then None else dtoi s' (n * 10 + d)
                   | None => None
                   end
  end.

Definition ParseCIDR (s : string) : option IPNet :=
  match IndexByte s "/" with
  | None => None
  | Some i =>
      match ParseAddr (stake i s), sdrop (S i) s with
      | None, _ | _, "" => None
      | Some (v4, ip), mask =>
          match dtoi mask 0 with
          | None => None
          | Some n =>
              if (if v4 then 32 else 128) <? n then None
              else if v4 then let m := cidr_mask 4 n in Some (mkIPNet (mask_bytes (drop 12 ip) m) m)
              else let m := cidr_mask 16 n in Some (mkIPNet (mask_bytes ip m) m)
          end
      end
  end.

(** [networkNumberAndMask] *)
Definition network_and_mask (n : IPNet) : list Z * list Z :=
  if (length (net_IP n) =? 16)%nat then
    match To4 (net_IP n) with
    | Some ip4 => (ip4, drop 12 (net_Mask n))
    | None => (net_IP n, net_Mask n)
    end
  else (net_IP n, net_Mask n).

Definition NetContains (n : IPNet) (ip : list Z) : bool :=
  let '(nn, m) := network_and_mask n in
  let ip' := default ip (To4 ip) in
  (length ip' =? length nn)%nat && bool_decide (mask_bytes nn m = mask_bytes ip' m).

Example parse_ip_ex :
  ParseIP "203.0.113.7" = Some (v4_prefix ++ [203; 0; 113; 7])
  /\ ParseIP "2001:db8::1" = Some ([32; 1; 13; 184] ++ replicate 11 0 ++ [1])
  /\ ParseIP "::ffff:1.2.3.4" = Some (v4_prefix ++ [1; 2; 3; 4])
  /\ ParseIP "1:2:3:4:5:6:7:8" = Some [0;1;0;2;0;3;0;4;0;5;0;6;0;7;0;8]
  /\ ParseIP "::" = Some (replicate 16 0)
  /\ ParseIP "1.2.3" = None /\ ParseIP "01.2.3.4" = None /\ ParseIP "1.2.3.256" = None
  /\ ParseIP "1::2::3" = None /\ ParseIP "fe80::1%eth0" = None /\ ParseIP "example.com" = None
  /\ ParseIP "1:2:3:4:5:6:7:8::" = None /\ ParseIP "1:2:3:4:5:6:7:8:9" = None.
Proof. repeat split. Qed.

Example contains_ex :
  let inside c a := match ParseCIDR c, ParseIP a with
                    | Some n, Some ip => NetContains n ip | _, _ => false end in
  inside "203.0.113.0/24" "203.0.113.99" = true /\ inside "203.0.113.0/24" "203.0.114.1" = false
  /\ inside "10.0.0.0/9" "10.127.1.1" = true /\ inside "10.0.0.0/9" "10.128.0.0" = false
  /\ inside "2001:db8::/32" "2001:db8:ffff::1" = true /\ inside "::/0" "1.2.3.4" = false
  /\ inside "::ffff:0:0/96" "1.2.3.4" = true /\ inside "0.0.0.0/0" "9.9.9.9" = true
  /\ ParseCIDR "1.2.3.4/33" = None /\ ParseCIDR "1.2.3.4/" = None /\ ParseCIDR "1.2.3.4" = None.
Proof. vm_compute. repeat split. Qed.
