(* ===== verification/Crypto.v ===== *)
(** * Digital signatures

    Ed25519 is a parameter of the development: [crypto/ed25519] is used only
    through [Sign], [Verify] and the sizes of its keys.  What the program relies
    on is stated in [Ed25519Laws]: a signature made with a private key verifies
    under its public key. *)

From S2P Require Import Prelude GoStrings.
From stdpp Require Import base strings.

Class Ed25519 := {
  ed_verify : string -> string -> string -> bool;   (* public key, message, signature *)
  ed_sign : string -> string -> string;             (* private key, message *)
  ed_public : string -> string }.                   (* PrivateKey.Public() *)

Definition PublicKeySize : nat := 32.
Definition PrivateKeySize : nat := 64.

Class Ed25519Laws `{!Ed25519} : Prop := {
  ed_sign_verify : forall priv msg, String.length priv = PrivateKeySize ->
    ed_verify (ed_public priv) msg (ed_sign priv msg) = true;
  ed_public_size : forall priv, String.length priv = PrivateKeySize ->
    String.length (ed_public priv) = PublicKeySize }.

Lemma length_stake n s : (n <= String.length s)%nat -> String.length (stake n s) = n.
Proof.
  revert s. induction n as [|n IH]; intros [|c s] H; simpl in *; try lia. rewrite IH; lia.
Qed.

(** The laws are satisfiable: a keyed checksum, which the examples use. *)
Definition toy_ed25519 : Ed25519 := {|
  ed_verify pub msg sg := String.eqb sg (pub +:+ msg);
  ed_sign priv msg := stake PublicKeySize priv +:+ msg;
  ed_public priv := stake PublicKeySize priv |}.

Lemma toy_ed25519_laws : @Ed25519Laws toy_ed25519.
Proof.
  split; intros priv; cbn [ed_verify ed_sign ed_public toy_ed25519].
  - intros msg _. apply String.eqb_refl.
  - intros H. apply length_stake. rewrite H. unfold PublicKeySize, PrivateKeySize. lia.
Qed.
