(* ===== verification/Compliance.v ===== *)
(** * Compliance rules

    src/internal/compliance/service.go: the signed feed of blocked domains,
    networks and ports, its verification, storage and application, and the
    alert about a stale feed. *)

From S2P Require Import Prelude GoStrings Base64 Json Model Store GoNet Crypto.
From stdpp Require Import base gmap strings list.
From Stdlib Require Import ZArith Lia Ascii.
Open Scope Z_scope.

Definition staleAlert : string := "COMPLIANCE_FEED_STALE".

(** [len(Rules) == 0] exactly when the document has no rules: [None]. *)
Record SignedFeed := mkSignedFeed {
  sf_Version : string; sf_UpdatedAt : time; sf_ExpiresAt : time; sf_Rules : option json;
  sf_Signature : string }.

Record rules := mkRules {
  BlockedDomains : list string; BlockedCIDRs : list string; BlockedPorts : list Z }.

Definition decode_rules (raw : json) : option rules :=
  dec_struct (fun m old =>
    ds ← field "blockedDomains" (dec_list "" dec_string) m (BlockedDomains old);
    cs ← field "blockedCidrs" (dec_list "" dec_string) m (BlockedCIDRs old);
    ps ← field "blockedPorts" (dec_list 0 dec_int) m (BlockedPorts old);
    Some (mkRules ds cs ps)) raw (mkRules [] [] []).

Definition json_error : error := LibErr "encoding/json".

(** The first element that fails a test, as a loop with an early return. *)
Fixpoint check_all {A} (ok : A -> bool) (e : error) (l : list A) : result unit :=
  match l with
  | [] => Ok tt
  | x :: l' => if ok x then check_all ok e l' else Err e
  end.

Definition valid_domain (domain : string) : bool :=
  let domain := TrimSpace domain in
  negb (String.eqb domain "" || ContainsAny domain " /:@").
Definition valid_cidr (encoded : string) : bool :=
  match ParseCIDR encoded with Some _ => true | None => false end.
Definition valid_port (port : Z) : bool := negb ((port <? 1) || (65535 <? port)).

Definition validateRules (raw : json) : result unit :=
  match decode_rules raw with
  | None => Err (Wrap "invalid compliance rules" json_error)
  | Some r =>
      match check_all valid_domain (Msg "invalid blocked domain") (BlockedDomains r) with
      | Err e => Err e
      | Ok _ =>
          match check_all valid_cidr (Msg "invalid compliance CIDR") (BlockedCIDRs r) with
          | Err e => Err e
          | Ok _ => check_all valid_port (Msg "invalid blocked port") (BlockedPorts r)
          end
      end
  end.

Section Service.
Context {UT : UnicodeTables} {FF : Float64Format} {ED : Ed25519}.

Definition signingPayload (feed : SignedFeed) : result string :=
  match sf_Rules feed ≫= canonical with
  | None => Err (Wrap "canonicalize compliance rules" json_error)
  | Some canonicalRules =>
      match jtime (sf_UpdatedAt feed), jtime (sf_ExpiresAt feed) with
      | Some u, Some e =>
          Ok (print (JObj [("version", JStr (sf_Version feed)); ("updatedAt", u);
                           ("expiresAt", e); ("rules", canonicalRules)]))
      | _, _ => Err json_error
      end
  end.

Definition Sign (feed : SignedFeed) (privateKey : string) : result SignedFeed :=
  match signingPayload feed with
  | Err e => Err e
  | Ok payload =>
      Ok (mkSignedFeed (sf_Version feed) (sf_UpdatedAt feed) (sf_ExpiresAt feed) (sf_Rules feed)
            (Encode (ed_sign privateKey payload)))
  end.

(** The tests of [Apply], in order; [now1] and [now2] are its two readings of
    the clock.  The result is the rules document to store. *)
Definition check_feed (now1 now2 : time) (feed : SignedFeed) (publicKeyEncoded : string) : result json :=
  match sf_Rules feed with
  | None => Err (Msg "invalid compliance feed metadata")
  | Some raw =>
      if String.eqb (sf_Version feed) "" || negb (After (sf_ExpiresAt feed) (sf_UpdatedAt feed))
      then Err (Msg "invalid compliance feed metadata")
      else if negb (After (sf_ExpiresAt feed) now1)
              || After (sf_UpdatedAt feed) (TimeAdd now2 (5 * minute))
      then Err (Msg "compliance feed is expired or dated too far in the future")
      else match validateRules raw with
      | Err e => Err e
      | Ok _ =>
          match Decode publicKeyEncoded with
          | None => Err (Msg "invalid controller public key")
          | Some keyRaw =>
              if negb (String.length keyRaw =? PublicKeySize)%nat
              then Err (Msg "invalid controller public key")
              else match Decode (sf_Signature feed) with
              | None => Err (Msg "invalid feed signature encoding")
              | Some signature =>
                  match signingPayload feed with
                  | Err e => Err e
                  | Ok payload =>
                      if ed_verify keyRaw payload signature then Ok raw
                      else Err (Msg "invalid compliance feed signature")
                  end
              end
          end
      end
  end.

Definition Apply (now1 now2 : time) (feed : SignedFeed) (publicKeyEncoded : string) : prog sqlite unit :=
  let* raw := lift (check_feed now1 now2 feed publicKeyEncoded) in
  SaveCompliance (mkComplianceFeed (sf_Version feed) (sf_UpdatedAt feed) (sf_ExpiresAt feed) raw
                    (sf_Signature feed)) ;;;
  ResolveAlert staleAlert.

Definition Check (now1 now2 : time) : prog sqlite unit :=
  let* found := Compliance in
  match found with
  | Some feed =>
      if After (cf_ExpiresAt feed) now1 then ResolveAlert staleAlert
      else SetAlert (mkAlert staleAlert "critical"
             ("Compliance feed " +:+ cf_Version feed +:+ " expired at "
              +:+ FormatRFC3339 (cf_ExpiresAt feed) +:+ "; the last valid rules remain active")
             now2 true)
  | None =>
      SetAlert (mkAlert staleAlert "critical" "Compliance feed has never been synchronized" now2 true)
  end.

Definition CurrentRules : prog sqlite (option (json * string)) :=
  let* found := Compliance in
  ret ((fun feed => (cf_RulesJSON feed, cf_Version feed)) <$> found).

(** Host and port of a destination, as [Blocked] and [isP2P] read them. *)
Definition host_of (address : string) : string :=
  let host := match SplitHostPort address with Some (h, _) => h | None => address end in
  ToLower (TrimSuffix host ".").
Definition port_of (address : string) : Z :=
  let portText := match SplitHostPort address with Some (_, p) => p | None => "" end in
  fst (Atoi portText).

Definition normal_domain (domain : string) : string :=
  ToLower (TrimPrefix (TrimSpace domain) ".").

Fixpoint domain_blocked (host : string) (domains : list string) : bool :=
  match domains with
  | [] => false
  | domain :: domains' =>
      let domain := normal_domain domain in
      if negb (String.eqb domain "") && (String.eqb host domain || HasSuffix host ("." +:+ domain))
      then true else domain_blocked host domains'
  end.

(** [Some b] or the error of the first network that does not parse. *)
Fixpoint cidr_blocked (ip : list Z) (cidrs : list string) : result bool :=
  match cidrs with
  | [] => Ok false
  | encoded :: cidrs' =>
      match ParseCIDR encoded with
      | None => Err (Msg "invalid compliance CIDR")
      | Some network => if NetContains network ip then Ok true else cidr_blocked ip cidrs'
      end
  end.

Definition port_blocked (port : Z) (ports : list Z) : bool := existsb (Z.eqb port) ports.

Definition rules_block (r : rules) (address : string) : result bool :=
  let host := host_of address in
  if domain_blocked host (BlockedDomains r) then Ok true else
  let by_network := match ParseIP host with
                    | Some ip => cidr_blocked ip (BlockedCIDRs r)
                    | None => Ok false
                    end in
  match by_network with
  | Err e => Err e
  | Ok true => Ok true
  | Ok false => Ok (port_blocked (port_of address) (BlockedPorts r))
  end.

Definition Blocked (address : string) : prog sqlite bool :=
  let* found := CurrentRules in
  match found with
  | None => ret false
  | Some (raw, _) =>
      match decode_rules raw with
      | None => fail json_error
      | Some r => lift (rules_block r address)
      end
  end.
End Service.

(** ** Lemmas *)

Lemma check_all_ok {A} (ok : A -> bool) e l :
  check_all ok e l = Ok tt <-> Forall (fun x => ok x = true) l.
Proof.
  induction l as [|x l IH]; simpl; [by split; [constructor|]|].
  rewrite Forall_cons, <- IH. destruct (ok x); naive_solver.
Qed.

Lemma validateRules_ok raw :
  validateRules raw = Ok tt <->
  exists r, decode_rules raw = Some r
    /\ Forall (fun d => valid_domain d = true) (BlockedDomains r)
    /\ Forall (fun c => is_Some (ParseCIDR c)) (BlockedCIDRs r)
    /\ Forall (fun p => 1 <= p <= 65535) (BlockedPorts r).
Proof.
  assert (Hc : forall l, check_all valid_cidr (Msg "invalid compliance CIDR") l = Ok tt
                         <-> Forall (fun c => is_Some (ParseCIDR c)) l).
  { intros l. rewrite check_all_ok. apply Forall_iff. intros c. unfold valid_cidr.
    destruct (ParseCIDR c); split; try done; eauto. }
  assert (Hp : forall l, check_all valid_port (Msg "invalid blocked port") l = Ok tt
                         <-> Forall (fun p => 1 <= p <= 65535) l).
  { intros l. rewrite check_all_ok. apply Forall_iff. intros p. unfold valid_port. lia. }
  unfold validateRules. destruct (decode_rules raw) as [r|]; [|naive_solver].
  pose proof (check_all_ok valid_domain (Msg "invalid blocked domain") (BlockedDomains r)) as Hd.
  specialize (Hc (BlockedCIDRs r)). specialize (Hp (BlockedPorts r)).
  destruct (check_all valid_domain _ _) as [[]|] eqn:E1;
    [destruct (check_all valid_cidr _ _) as [[]|] eqn:E2|]; naive_solver.
Qed.

(** Every stored feed has passed validation. *)
Definition feed_ok (t : tables) : Prop :=
  forall c, t_compliance t = Some c -> validateRules (cr_rules_json c) = Ok tt.

Section Facts.
Context {UT : UnicodeTables} {FF : Float64Format} {ED : Ed25519}.

(** What it means for the rules to block a destination. *)
Definition blocks (r : rules) (address : string) : Prop :=
  (exists d, d ∈ BlockedDomains r /\ normal_domain d <> ""
     /\ (host_of address = normal_domain d
         \/ exists p, host_of address = p +:+ "." +:+ normal_domain d))
  \/ (exists ip c n, ParseIP (host_of address) = Some ip /\ c ∈ BlockedCIDRs r
        /\ ParseCIDR c = Some n /\ NetContains n ip = true)
  \/ port_of address ∈ BlockedPorts r.

Lemma domain_blocked_spec host ds :
  domain_blocked host ds = true <->
  exists d, d ∈ ds /\ normal_domain d <> ""
    /\ (host = normal_domain d \/ exists p, host = p +:+ "." +:+ normal_domain d).
Proof.
  induction ds as [|d ds IH]; cbn [domain_blocked].
  { split; [done|]. by intros (d & ?%elem_of_nil & _). }
  destruct (negb (String.eqb (normal_domain d) "") &&
    (String.eqb host (normal_domain d) || HasSuffix host ("." +:+ normal_domain d))) eqn:E.
  - split; [|done]. intros _. exists d. split; [constructor|].
    apply andb_true_iff in E as [E1 E2]. apply negb_true_iff, String.eqb_neq in E1.
    rewrite orb_true_iff, String.eqb_eq, HasSuffix_spec in E2. auto.
  - rewrite IH. split.
    + intros (d' & Hd' & H). exists d'. split; [by constructor|done].
    + intros (d' & Hd' & Hne & H). apply elem_of_cons in Hd' as [->|Hd']; [|eauto].
      exfalso. rewrite <- not_true_iff_false in E. apply E.
      rewrite andb_true_iff, negb_true_iff, String.eqb_neq, orb_true_iff, String.eqb_eq, HasSuffix_spec.
      auto.
Qed.

Lemma cidr_blocked_spec ip cs :
  Forall (fun c => is_Some (ParseCIDR c)) cs ->
  exists b, cidr_blocked ip cs = Ok b
    /\ (b = true <-> exists c n, c ∈ cs /\ ParseCIDR c = Some n /\ NetContains n ip = true).
Proof.
  induction 1 as [|c cs [n Hn] _ (b & IH & Hb)]; simpl.
  - exists false. split; [done|]. split; [done|]. by intros (c & n & ?%elem_of_nil & _).
  - rewrite Hn. destruct (NetContains n ip) eqn:E.
    + exists true. split; [done|]. split; [|done]. intros _. exists c, n. split; [constructor|auto].
    + exists b. split; [done|]. rewrite Hb. split.
      * intros (c' & n' & ? & ?). exists c', n'. split; [by constructor|done].
      * intros (c' & n' & Hc & Hn' & E'). apply elem_of_cons in Hc as [->|?]; [congruence|eauto].
Qed.

Lemma rules_block_spec r address :
  Forall (fun c => is_Some (ParseCIDR c)) (BlockedCIDRs r) ->
  exists b, rules_block r address = Ok b /\ (b = true <-> blocks r address).
Proof.
  intros Hc. unfold rules_block, blocks.
  destruct (domain_blocked (host_of address) (BlockedDomains r)) eqn:Ed.
  { exists true. split; [done|]. split; [|done]. intros _. left. by apply domain_blocked_spec. }
  assert (Hd : ~ exists d, d ∈ BlockedDomains r /\ normal_domain d <> ""
     /\ (host_of address = normal_domain d
         \/ exists p, host_of address = p +:+ "." +:+ normal_domain d)).
  { rewrite <- domain_blocked_spec. congruence. }
  assert (Hport : port_blocked (port_of address) (BlockedPorts r) = true
                  <-> port_of address ∈ BlockedPorts r).
  { unfold port_blocked. rewrite existsb_exists. setoid_rewrite <- list_elem_of_In. split.
    - intros (x & Hx & E). apply Z.eqb_eq in E. congruence.
    - intros H. eexists. split; [done|]. apply Z.eqb_refl. }
  destruct (ParseIP (host_of address)) as [ip|] eqn:Eip.
  - destruct (cidr_blocked_spec ip _ Hc) as (b & Hb & Hspec). rewrite Hb. destruct b.
    + exists true. split; [done|]. split; [|done]. intros _. right; left.
      destruct (proj1 Hspec eq_refl) as (c & n & ?). eauto.
    + eexists. split; [done|]. rewrite Hport. split; [auto|].
      intros [?|[(ip' & c & n & Hip & H)|?]]; [done| |done].
      simplify_eq. assert (false = true) by (apply Hspec; eauto). done.
  - eexists. split; [done|]. rewrite Hport. split; [auto|].
    intros [?|[(ip' & c & n & ? & H)|?]]; [done|congruence|done].
Qed.

Lemma Blocked_no_feed address t :
  t_compliance t = None -> Blocked address (mkSqlite t []) = (Ok false, mkSqlite t []).
Proof.
  intros H. unfold Blocked, CurrentRules, Compliance, bind. rewrite query_ok, H. done.
Qed.

Lemma Blocked_feed address t c :
  t_compliance t = Some c ->
  Blocked address (mkSqlite t []) =
  (match decode_rules (cr_rules_json c) with
   | Some r => rules_block r address | None => Err json_error end, mkSqlite t []).
Proof.
  intros H. unfold Blocked, CurrentRules, Compliance, bind. rewrite query_ok, H. simpl.
  by destruct (decode_rules (cr_rules_json c)).
Qed.

Lemma Blocked_keeps R `{!PreOrder R} address : keeps (on_db R) (Blocked address).
Proof.
  unfold Blocked, CurrentRules, Compliance.
  apply keeps_bind; [apply _| |intros [[raw v]|]].
  - apply keeps_bind; [apply _|apply keeps_query, _|intros; apply keeps_ret, _].
  - destruct (decode_rules raw); [apply keeps_lift, _|apply keeps_fail, _].
  - apply keeps_ret, _.
Qed.

(** The tests that a feed has passed when [Apply] stores it. *)
Record feed_accepted (now1 now2 : time) (feed : SignedFeed) (key : string) (raw : json) : Prop := {
  fa_version : sf_Version feed <> "";
  fa_rules : sf_Rules feed = Some raw;
  fa_order : sf_UpdatedAt feed < sf_ExpiresAt feed;
  fa_fresh : now1 < sf_ExpiresAt feed;
  fa_not_future : sf_UpdatedAt feed <= now2 + 5 * minute;
  fa_valid : validateRules raw = Ok tt;
  fa_signed : exists keyRaw signature payload,
    Decode key = Some keyRaw /\ String.length keyRaw = PublicKeySize
    /\ Decode (sf_Signature feed) = Some signature /\ signingPayload feed = Ok payload
    /\ ed_verify keyRaw payload signature = true }.

Lemma check_feed_ok now1 now2 feed key raw :
  check_feed now1 now2 feed key = Ok raw <-> feed_accepted now1 now2 feed key raw.
Proof.
  unfold check_feed. split.
  - intros H. destruct (sf_Rules feed) as [raw'|] eqn:Er; [|done].
    destruct (String.eqb_spec (sf_Version feed) ""); [done|]. simpl in H.
    destruct (After (sf_ExpiresAt feed) (sf_UpdatedAt feed)) eqn:E1; [|done].
    destruct (After (sf_ExpiresAt feed) now1) eqn:E2; [|done]. simpl in H.
    destruct (After (sf_UpdatedAt feed) _) eqn:E3; [done|].
    destruct (validateRules raw') as [[]|] eqn:E4; [|done].
    destruct (Decode key) as [keyRaw|] eqn:E5; [|done].
    destruct (String.length keyRaw =? PublicKeySize)%nat eqn:E6; [|done]. simpl in H.
    destruct (Decode (sf_Signature feed)) as [sg|] eqn:E7; [|done].
    destruct (signingPayload feed) as [payload|] eqn:E8; [|done].
    destruct (ed_verify keyRaw payload sg) eqn:E9; [|done]. injection H as ->.
    apply Nat.eqb_eq in E6. unfold After, TimeAdd in *.
    split; auto; [lia|lia|lia|]. exists keyRaw, sg, payload. auto.
  - intros [Hv Hr Ho Hf Hn Hval (keyRaw & sg & payload & Hk & Hl & Hs & Hp & Hver)].
    rewrite Hr. apply String.eqb_neq in Hv. rewrite Hv. unfold After, TimeAdd. simpl.
    rewrite (proj2 (Z.ltb_lt _ _) Ho), (proj2 (Z.ltb_lt _ _) Hf). simpl.
    rewrite (proj2 (Z.ltb_ge _ _) Hn), Hval, Hk, Hl. simpl. by rewrite Hs, Hp, Hver.
Qed.

(** The row that an accepted feed becomes. *)
Definition feed_row (feed : SignedFeed) (raw : json) : compliance_row :=
  mkComplianceRow (sf_Version feed) (Unix (sf_UpdatedAt feed)) (Unix (sf_ExpiresAt feed)) raw
    (sf_Signature feed).

Lemma Apply_cases now1 now2 feed key s r s' :
  Apply now1 now2 feed key s = (r, s') ->
  (exists e, r = Err e /\ db s' = db s)
  \/ exists raw, feed_accepted now1 now2 feed key raw
       /\ (db s' = with_compliance (Some (feed_row feed raw)) (db s) /\ (exists e, r = Err e)
           \/ r = Ok tt /\ db s' = with_alerts (alter resolve_row staleAlert)
                              (with_compliance (Some (feed_row feed raw)) (db s))).
Proof.
  unfold Apply, bind, lift. destruct (check_feed now1 now2 feed key) as [raw|e] eqn:E;
    [|intros [= <- <-]; eauto].
  apply check_feed_ok in E.
  destruct (SaveCompliance _ s) as [[u|e] s1] eqn:E1; apply update_cases in E1.
  - destruct E1 as [(? & ? & _)|[_ E1]]; [done|]. intros H. apply update_cases in H.
    change (db s1 = with_compliance (Some (feed_row feed raw)) (db s)) in E1.
    right. exists raw. split; [done|]. rewrite <- E1. naive_solver.
  - intros [= <- <-]. left. naive_solver.
Qed.

Lemma Apply_feed_ok now1 now2 feed key :
  keeps (on_db (preserves feed_ok)) (Apply now1 now2 feed key).
Proof.
  intros s Hs. unfold on_db. destruct (Apply now1 now2 feed key s) as [r s'] eqn:E.
  apply Apply_cases in E as [(e & _ & H)|(raw & Ha & [[H _]|[_ H]])]; simpl; rewrite H; [done| |];
    intros c [= <-]; apply Ha.
Qed.
End Facts.

(** ** Properties *)

(** C14 - A feed that is not verified never replaces the rules in force.  Whatever
    the outcome of [Apply] and the failures of the driver, the stored feed is
    either the old one or one that has a version and rules, is unexpired, is not
    dated more than five minutes ahead, passed validation and carries an Ed25519
    signature that verifies under the given key; and a successful [Apply] has
    stored it.  Validated rules thus stay an invariant of the store. *)
Theorem Apply_verified {UT : UnicodeTables} {FF : Float64Format} {ED : Ed25519}
    now1 now2 feed key s r s' :
  Apply now1 now2 feed key s = (r, s') ->
  (t_compliance (db s') = t_compliance (db s) /\ r <> Ok tt
   \/ exists raw, feed_accepted now1 now2 feed key raw
        /\ t_compliance (db s') = Some (feed_row feed raw))
  /\ (feed_ok (db s) -> feed_ok (db s')).
Proof.
  intros H. split.
  - apply Apply_cases in H as [(e & -> & ->)|(raw & Ha & [[-> _]|[_ ->]])]; [by left| |]; right; eauto.
  - intros Hs. pose proof (Apply_feed_ok now1 now2 feed key s Hs) as Hk. by rewrite H in Hk.
Qed.

Definition plain_unicode : UnicodeTables := {| lower_nonascii := fun s => s |}.
Definition plain_floats : Float64Format := {| float_literal := fun s => Some s |}.

Definition sample_rules : json :=
  JObj [("blockedDomains", JArr [JStr "blocked.example"]);
        ("blockedCidrs", JArr [JStr "203.0.113.0/24"]); ("blockedPorts", JArr [jint 25])].
Definition sample_feed : SignedFeed :=
  mkSignedFeed "v1" (FromUnix 1000) (FromUnix 5000) (Some sample_rules) "AAAA".
Definition sample_key : string := String.concat "" (replicate 64 "k").

Lemma Apply_verified_witness :
  feed_ok (db (@Apply plain_floats toy_ed25519 (FromUnix 2000) (FromUnix 2000) sample_feed "AAAA"
                 (mkSqlite empty_tables [])).2).
Proof.
  destruct (@Apply plain_floats toy_ed25519 (FromUnix 2000) (FromUnix 2000) sample_feed "AAAA"
              (mkSqlite empty_tables [])) as [r s'] eqn:E.
  apply (@Apply_verified plain_unicode plain_floats toy_ed25519 _ _ _ _ _ _ _ E).
  intros c Hc. discriminate Hc.
Defined.

(** Filtering decides by the rules in force.  When the stored feed has passed
    validation (which [Apply] guarantees), every query about a destination
    succeeds, whatever the address looks like, and it answers "blocked" exactly
    when a feed is stored and the host is a blocked domain or a subdomain of one,
    or an address inside a blocked network, or the port is a blocked port. *)
Theorem Blocked_decides {UT : UnicodeTables} t address :
  feed_ok t ->
  exists b, Blocked address (mkSqlite t []) = (Ok b, mkSqlite t [])
    /\ (b = true <-> exists c r, t_compliance t = Some c
          /\ decode_rules (cr_rules_json c) = Some r /\ blocks r address).
Proof.
  intros Hok. destruct (t_compliance t) as [c|] eqn:Hc.
  - destruct (proj1 (validateRules_ok _) (Hok c Hc)) as (r & Hr & _ & Hcidr & _).
    destruct (rules_block_spec r address Hcidr) as (b & Hb & Hspec).
    exists b. rewrite (Blocked_feed address t c Hc), Hr, Hb. split; [done|].
    rewrite Hspec. split; [eauto|]. intros (c' & r' & [= <-] & Hr' & ?). congruence.
  - exists false. rewrite (Blocked_no_feed address t Hc). split; [done|]. naive_solver.
Qed.

Lemma Blocked_decides_witness :
  let t := with_compliance (Some (feed_row sample_feed sample_rules)) empty_tables in
  exists b, (@Blocked plain_unicode "www.Blocked.example.:443" (mkSqlite t [])).1 = Ok b /\ b = true.
Proof.
  intros t.
  destruct (@Blocked_decides plain_unicode t "www.Blocked.example.:443") as (b & Hb & Hspec).
  { intros c [= <-]. vm_compute. reflexivity. }
  exists b. rewrite Hb. split; [reflexivity|].
  assert (E : (@Blocked plain_unicode "www.Blocked.example.:443" (mkSqlite t [])).1 = Ok true)
    by (vm_compute; reflexivity).
  rewrite Hb in E. simpl in E. congruence.
Defined.

(** A feed survives its way through the command queue.  A feed signed by the
    control plane is accepted by the node that holds the matching public key and
    is stored as the rules in force, also when the rules document comes back from
    its jsonb column with the members of its objects in another order, provided
    the metadata and the rules as received are valid. *)
Theorem signed_feed_applies {UT : UnicodeTables} {FF : Float64Format} {ED : Ed25519}
    (EL : Ed25519Laws) feed priv signed raw raw' now1 now2 t :
  String.length priv = PrivateKeySize -> Sign feed priv = Ok signed ->
  sf_Rules feed = Some raw -> reordered raw raw' -> validateRules raw' = Ok tt ->
  sf_Version feed <> "" -> sf_UpdatedAt feed < sf_ExpiresAt feed -> now1 < sf_ExpiresAt feed ->
  sf_UpdatedAt feed <= now2 + 5 * minute ->
  let received := mkSignedFeed (sf_Version feed) (sf_UpdatedAt feed) (sf_ExpiresAt feed) (Some raw')
                    (sf_Signature signed) in
  exists s', Apply now1 now2 received (Encode (ed_public priv)) (mkSqlite t []) = (Ok tt, s')
             /\ t_compliance (db s') = Some (feed_row received raw').
Proof.
  intros Hlen Hsign Hraw Hre Hval Hv Ho Hf Hn received.
  unfold Sign in Hsign. destruct (signingPayload feed) as [payload|] eqn:Hp; [|done].
  injection Hsign as <-.
  assert (Hp' : signingPayload received = Ok payload).
  { rewrite <- Hp. unfold signingPayload. simpl. rewrite Hraw. simpl.
    by rewrite (canonical_reordered raw raw' Hre). }
  assert (Ha : check_feed now1 now2 received (Encode (ed_public priv)) = Ok raw').
  { apply check_feed_ok. split; try done.
    exists (ed_public priv), (ed_sign priv payload), payload. rewrite !Decode_Encode.
    split_and!; try done;
      [by apply ed_public_size|apply Decode_Encode|by apply ed_sign_verify]. }
  unfold Apply, bind, lift. rewrite Ha. unfold SaveCompliance. rewrite update_ok.
  unfold ResolveAlert. rewrite update_ok. eexists. split; [done|]. done.
Qed.

Definition sample_rules_jsonb : json :=
  JObj [("blockedCidrs", JArr [JStr "203.0.113.0/24"]); ("blockedPorts", JArr [jint 25]);
        ("blockedDomains", JArr [JStr "blocked.example"])].

Lemma signed_feed_applies_witness :
  exists signed s', @Sign plain_floats toy_ed25519 sample_feed sample_key = Ok signed
    /\ @Apply plain_floats toy_ed25519 (FromUnix 2000) (FromUnix 2000)
         (mkSignedFeed "v1" (FromUnix 1000) (FromUnix 5000) (Some sample_rules_jsonb) (sf_Signature signed))
         (Encode (@ed_public toy_ed25519 sample_key)) (mkSqlite empty_tables []) = (Ok tt, s').
Proof.
  destruct (@Sign plain_floats toy_ed25519 sample_feed sample_key) as [signed|e] eqn:E;
    [|vm_compute in E; discriminate E].
  destruct (@signed_feed_applies plain_unicode plain_floats toy_ed25519 toy_ed25519_laws
    sample_feed sample_key signed sample_rules sample_rules_jsonb (FromUnix 2000) (FromUnix 2000) empty_tables)
    as (s' & Hs & _).
  - reflexivity.
  - exact E.
  - reflexivity.
  - eapply reordered_obj with (l2 := [("blockedDomains", JArr [JStr "blocked.example"]);
      ("blockedCidrs", JArr [JStr "203.0.113.0/24"]); ("blockedPorts", JArr [jint 25])]).
    + repeat constructor; apply reordered_refl.
    + apply (Permutation_app_comm [_] [_; _]).
    + apply (bool_decide_unpack _). vm_compute. exact I.
  - vm_compute. reflexivity.
  - discriminate.
  - reflexivity.
  - reflexivity.
  - vm_compute. discriminate.
  - exists signed, s'. split; [reflexivity|exact Hs].
Defined.

(** The stale-feed alert tells the truth, and staleness never unblocks.
    After a check the alert is active exactly when no unexpired feed is stored,
    and the rules in force and their decisions are the same as before. *)
Theorem Check_alert {UT : UnicodeTables} now1 now2 t :
  let s' := (Check now1 now2 (mkSqlite t [])).2 in
  ((exists a, t_alerts (db s') !! staleAlert = Some a /\ ar_active a = 1)
   <-> ~ exists c, t_compliance t = Some c /\ now1 < FromUnix (cr_expires_at c))
  /\ t_compliance (db s') = t_compliance t
  /\ forall address, (Blocked address s').1 = (Blocked address (mkSqlite t [])).1.
Proof.
  assert (Hframe : forall f, let s' := mkSqlite (with_alerts f t) [] in
    t_compliance (db s') = t_compliance t
    /\ forall address, (Blocked address s').1 = (Blocked address (mkSqlite t [])).1).
  { intros f. split; [done|]. intros address. destruct (t_compliance t) as [c|] eqn:Hc.
    - by rewrite !(Blocked_feed _ _ c).
    - by rewrite !Blocked_no_feed. }
  unfold Check, bind, Compliance. rewrite query_ok. destruct (t_compliance t) as [c|] eqn:Hc; simpl.
  - destruct (After (FromUnix (cr_expires_at c)) now1) eqn:E; unfold ResolveAlert, SetAlert;
      rewrite update_ok; (split; [|apply Hframe]); apply After_spec in E || apply bool_not_true in E; simpl.
    + rewrite lookup_alter, decide_True by done. split; [|naive_solver].
      intros (a & Ha & H1). destruct (t_alerts t !! staleAlert); naive_solver.
    + rewrite lookup_insert_eq. unfold After in E. split; [|eauto]. intros _ (c' & [= <-] & ?). lia.
  - split; [|apply Hframe]. simpl.
    rewrite lookup_insert_eq. naive_solver.
Qed.
