(* ===== verification/Policy.v ===== *)
(** * Admission of devices and of their connections

    src/internal/policy/service.go: [Authenticate] decides whether a credential
    may open a session and under which limits, [Authorize] whether a session may
    reach a destination. *)

From S2P Require Import Prelude GoStrings Json Model Store GoNet Compliance.
From stdpp Require Import base gmap strings list.
From Stdlib Require Import ZArith Lia Ascii.
Open Scope Z_scope.

Section Service.
Context {UT : UnicodeTables}.

(** The decision on a device that was found; [now] is the clock reading. *)
Definition decide_device (device : Device) (now : time) : AuthDecision :=
  if negb (Active device) then reject "device_revoked" else
  if negb (After (SubscriptionEnds device) now) then reject "subscription_expired" else
  match Policy (Plan device) with
  | None => reject "unknown_plan"
  | Some base =>
      let quota := if QuotaBytes device <=? 0 then pp_QuotaBytes base else QuotaBytes device in
      let exhausted := quota <=? UsedBytes device in
      if String.eqb (Plan device) Trial && exhausted then reject "trial_quota_exhausted" else
      if negb exhausted && (0 <? LeaseBytes device)
         && (negb (After (LeaseExpires device) now) || (LeaseBytes device <=? UsedBytes device))
      then reject "quota_lease_exhausted" else
      let '(up, down) := if exhausted then (pp_ThrottleBPS base, pp_ThrottleBPS base)
                         else (pp_UpBPS base, pp_DownBPS base) in
      let '(up, down, p2pAllowed) :=
        if After (OverrideExpires device) now
        then (OverrideUpBPS device, OverrideDownBPS device, OverrideP2P device)
        else (up, down, pp_P2PAllowed base) in
      mkAuthDecision true (ID device)
        (Some (mkSessionPolicy up down (pp_Priority base) p2pAllowed (ID device) exhausted true)) ""
  end.

Definition Authenticate (credential : string) (now : time) : prog sqlite AuthDecision :=
  if String.eqb credential "" then ret (reject "missing_credential") else
  let* found := DeviceByCredentialHash (Hash credential) in
  match found with
  | None => ret (reject "invalid_credential")
  | Some device => ret (decide_device device now)
  end.

Definition isP2P (address payload : string) : bool :=
  let host := host_of address in
  let port := port_of address in
  if Contains host "tracker" || Contains host "announce"
     || ((6881 <=? port) && (port <=? 6889)) || (port =? 51413) || (port =? 6969)
  then true
  else HasPrefix payload (String (byte_of 19) "BitTorrent protocol")
       || Contains payload "announce_peer" || Contains payload "find_node".

(** The three return values of [Authorize]. *)
Definition Authorize (deviceID address initialPayload : string) (now : time)
    : prog sqlite (bool * string * option error) :=
  let* found := try (DeviceByID deviceID) in
  match found with
  | Err e => ret (false, "backend_error", Some e)
  | Ok None => ret (false, "device_revoked", None)
  | Ok (Some device) =>
      if negb (Active device) then ret (false, "device_revoked", None) else
      let* blocked := try (Blocked address) in
      match blocked with
      | Err e => ret (false, "compliance_error", Some e)
      | Ok true => ret (false, "compliance_blocked", None)
      | Ok false =>
          match Policy (Plan device) with
          | None => ret (false, "unknown_plan", None)
          | Some planPolicy =>
              let p2pAllowed := if After (OverrideExpires device) now then OverrideP2P device
                                else pp_P2PAllowed planPolicy in
              if negb p2pAllowed && isP2P address initialPayload
              then ret (false, "p2p_blocked", None)
              else ret (true, "", None)
          end
      end
  end.
End Service.

(** ** The contract *)

Definition exhausted (d : Device) (p : PlanPolicy) : Prop := effective_quota d p <= UsedBytes d.

(** A lease binds only while the quota lasts; lease 0 means no lease. *)
Definition lease_open (d : Device) (now : time) : Prop :=
  LeaseBytes d <= 0 \/ (now < LeaseExpires d /\ UsedBytes d < LeaseBytes d).

Record admitted (d : Device) (now : time) (p : PlanPolicy) : Prop := {
  adm_active : Active d = true;
  adm_paid : now < SubscriptionEnds d;
  adm_plan : Policy (Plan d) = Some p;
  adm_trial : Plan d = Trial -> ~ exhausted d p;
  adm_lease : ~ exhausted d p -> lease_open d now }.

(** The limits of an admitted session. *)
Definition granted (d : Device) (now : time) (p : PlanPolicy) (sp : SessionPolicy) : Prop :=
  sp_DeviceID sp = ID d /\ sp_Priority sp = pp_Priority p /\ sp_Compliance sp = true
  /\ (sp_Throttled sp = true <-> exhausted d p)
  /\ (now < OverrideExpires d ->
        sp_UpBPS sp = OverrideUpBPS d /\ sp_DownBPS sp = OverrideDownBPS d
        /\ sp_P2PAllowed sp = OverrideP2P d)
  /\ (OverrideExpires d <= now ->
        sp_P2PAllowed sp = pp_P2PAllowed p
        /\ (exhausted d p -> sp_UpBPS sp = pp_ThrottleBPS p /\ sp_DownBPS sp = pp_ThrottleBPS p)
        /\ (~ exhausted d p -> sp_UpBPS sp = pp_UpBPS p /\ sp_DownBPS sp = pp_DownBPS p)).

(** ** Lemmas *)

Lemma decide_device_admits d now :
  ad_OK (decide_device d now) = true <-> exists p, admitted d now p.
Proof.
  unfold decide_device. destruct (Active d) eqn:Ea; simpl; [|split; [done|intros (p & []); congruence]].
  destruct (After (SubscriptionEnds d) now) eqn:Es; unfold After in Es; simpl;
    [|split; [done|intros (p & []); lia]].
  destruct (Policy (Plan d)) as [p|] eqn:Ep; [|split; [done|intros (p & []); congruence]].
  assert (Hx : exhausted d p <->
            ((if QuotaBytes d <=? 0 then pp_QuotaBytes p else QuotaBytes d) <=? UsedBytes d) = true).
  { unfold exhausted, effective_quota. destruct (QuotaBytes d <=? 0); lia. }
  destruct ((if QuotaBytes d <=? 0 then pp_QuotaBytes p else QuotaBytes d) <=? UsedBytes d) eqn:E.
  - destruct (String.eqb_spec (Plan d) Trial); simpl.
    + split; [done|]. intros (p' & []). naive_solver.
    + destruct (After (OverrideExpires d) now); (split; [|done]); intros _; exists p; split; naive_solver lia.
  - rewrite andb_false_r. simpl.
    destruct ((0 <? LeaseBytes d) && (negb (After (LeaseExpires d) now) || (LeaseBytes d <=? UsedBytes d))) eqn:El.
    + split; [done|]. intros (p' & [? ? ? ? Hl]). simplify_eq. unfold lease_open, After in *.
      assert (Hn : ~ exhausted d p) by (rewrite Hx; done). specialize (Hl Hn). lia.
    + destruct (After (OverrideExpires d) now); (split; [|done]); intros _; exists p;
        (split; [done|lia|done|naive_solver|]); intros _; unfold lease_open, After in *; lia.
Qed.

Lemma decide_device_grants d now p :
  admitted d now p ->
  exists sp, decide_device d now = mkAuthDecision true (ID d) (Some sp) "" /\ granted d now p sp.
Proof.
  intros H. assert (Hok : ad_OK (decide_device d now) = true) by (apply decide_device_admits; eauto).
  destruct H as [Ha Hs Hp Ht Hl]. revert Hok. unfold decide_device.
  rewrite Ha, Hp. simpl. destruct (After (SubscriptionEnds d) now) eqn:Es; [|done]. simpl.
  unfold granted, exhausted, effective_quota.
  generalize (if QuotaBytes d <=? 0 then pp_QuotaBytes p else QuotaBytes d) as q. intros q.
  destruct (q <=? UsedBytes d) eqn:E; simpl; rewrite ?andb_true_r, ?andb_false_r.
  - destruct (String.eqb (Plan d) Trial); [done|]. intros _.
    destruct (After (OverrideExpires d) now) eqn:Eo; unfold After in Eo; eexists; (split; [done|]);
      simpl; split_and!; try done; intros; split_and!; intros; try done; lia.
  - destruct ((0 <? LeaseBytes d) && _); [done|]. intros _.
    destruct (After (OverrideExpires d) now) eqn:Eo; unfold After in Eo; eexists; (split; [done|]);
      simpl; split_and!; try done; try (split; [done|lia]); intros; split_and!; intros; try done; lia.
Qed.

Lemma decide_device_rejects d now :
  ad_OK (decide_device d now) = false -> ad_Policy (decide_device d now) = None /\ ad_ID (decide_device d now) = "".
Proof.
  unfold decide_device. repeat case_match; simplify_eq/=; done.
Qed.

Lemma decide_device_id d now : ad_OK (decide_device d now) = true -> ad_ID (decide_device d now) = ID d.
Proof.
  intros H. apply decide_device_admits in H as [p Hp].
  by destruct (decide_device_grants d now p Hp) as (sp & -> & _).
Qed.

Lemma scanDevice_id r d : scanDevice r = Ok d -> ID d = dr_device_id r /\ Active d = (dr_active r =? 1).
Proof. unfold scanDevice. destruct (in_int64 _); [|done]. by intros [= <-]. Qed.

Lemma scanDevice_total t k r : db_ok t -> t_devices t !! k = Some r -> exists d, scanDevice r = Ok d.
Proof. intros Ht Hr. unfold scanDevice. rewrite (ok_used _ Ht _ _ Hr). eauto. Qed.

Lemma Authenticate_known credential now t r k d :
  credential <> "" -> db_ok t -> t_devices t !! k = Some r ->
  dr_credential_hash r = Hash credential -> scanDevice r = Ok d ->
  Authenticate credential now (mkSqlite t []) = (Ok (decide_device d now), mkSqlite t []).
Proof.
  intros Hc Ht Hr Hh Hd. unfold Authenticate. apply String.eqb_neq in Hc. rewrite Hc.
  unfold bind, DeviceByCredentialHash. rewrite query_ok.
  rewrite (proj2 (row_by_hash_spec t (Hash credential) r Ht)) by eauto.
  simpl. by rewrite Hd.
Qed.

(** The outcome of [Authenticate] on any database. *)
Lemma Authenticate_ok_inv credential now s dec s' :
  Authenticate credential now s = (Ok dec, s') -> ad_OK dec = true ->
  exists r d, row_by_hash (db s) (Hash credential) = Some r /\ scanDevice r = Ok d
              /\ dec = decide_device d now.
Proof.
  unfold Authenticate. destruct (String.eqb credential ""); [by intros [= <- _]|].
  unfold bind. destruct (DeviceByCredentialHash _ s) as [[[d|]|e] s1] eqn:E; try done.
  - intros [= <- _] _. apply exec_cases in E as [[? _]|E]; [done|].
    destruct (row_by_hash (db s) (Hash credential)) as [r|]; [|done]. simpl in E.
    destruct (scanDevice r) as [d'|] eqn:Ed; [|done]. simpl in E. exists r, d'.
    split_and!; auto. congruence.
  - by intros [= <- _].
Qed.

(** ** Revocation *)

Definition revoked (id : string) (t : tables) : Prop :=
  forall r, t_devices t !! id = Some r -> dr_active r = 0.

Definition is_upsert_of (id : string) (op : store_op) : bool :=
  match op with OpUpsertDevice d => String.eqb (ID d) id | _ => false end.

Lemma revoked_alter id j f t :
  (forall r, dr_active (f r) = dr_active r \/ dr_active (f r) = 0) ->
  revoked id t -> revoked id (with_devices (alter f j) t).
Proof.
  intros Hf Ht r. simpl. rewrite lookup_alter. case_decide; [subst|by apply Ht].
  rewrite fmap_Some. intros (r0 & H0 & ->). destruct (Hf r0) as [->|?]; [by apply Ht|done].
Qed.

Lemma run_op_revoked id op :
  is_upsert_of id op = false -> keeps (on_db (preserves (revoked id))) (run_op op).
Proof.
  assert (Hset : forall l, keeps (on_db (preserves (revoked id))) (for_each (fun kv => SetState kv.1 kv.2) l)).
  { intros l. apply keeps_for_each; [apply _|]. intros kv.
    apply keeps_update; [apply _|]. by intros t Ht. }
  intros Hop. destruct op; simpl in *;
    try (apply keeps_update; [apply _|]; intros t Ht; done).
  - by apply keeps_transaction; [apply _|].
  - intros s Hc. unfold on_db. destruct (Claim _ _ _ _ _ _ s) as [r s'] eqn:E.
    apply Claim_cases in E as [(e & _ & H)|(_ & Hs & H)]; simpl; rewrite H; [done|].
    unfold claim_effect, claim_row. by destruct (claimable _ _ _).
  - apply keeps_exec; [apply _|]. intros t Ht. destruct (hash_taken _ _ _); simpl; [done|].
    intros r. simpl. rewrite lookup_insert_ne by (by apply String.eqb_neq). apply Ht.
  - apply keeps_update; [apply _|]. intros t Ht. apply revoked_alter; [simpl; auto|done].
  - apply keeps_update; [apply _|]. intros t Ht. apply revoked_alter; [simpl; auto|done].
  - apply keeps_bind; [apply _| |intros; apply keeps_ret, _].
    intros s Hc. unfold on_db. destruct (AddUsage _ _ _ _ s) as [r s'] eqn:E.
    apply AddUsage_cases in E as [(e & _ & H)|(row & _ & _ & _ & H)]; simpl; rewrite H; [done|].
    apply revoked_alter; [simpl; auto|done].
  - unfold MarkUsageSent. destruct (_ =? _)%nat; [apply keeps_ret, _|].
    apply keeps_update; [apply _|]. by intros t Ht.
Qed.

Lemma run_ops_revoked id ops s :
  Forall (fun op => is_upsert_of id op = false) ops -> revoked id (db s) -> revoked id (db (run_ops ops s)).
Proof.
  intros Hops. revert s. induction Hops as [|op ops Hop _ IH]; intros s Hs; [done|].
  simpl. apply IH. by apply (run_op_revoked id op Hop s).
Qed.

Lemma RevokeDevice_revoked id s s' : RevokeDevice id s = (Ok tt, s') -> revoked id (db s').
Proof.
  intros H. apply update_cases in H as [(e & ? & _)|[_ ->]]; [done|].
  intros r. simpl. rewrite lookup_alter, decide_True by done.
  destruct (t_devices (db s) !! id); [|done]. by intros [= <-].
Qed.

Lemma run_ops_ok ops s : Forall typed_op ops -> db_ok (db s) -> db_ok (db (run_ops ops s)).
Proof.
  intros Hops. revert s. induction Hops as [|op ops Hop _ IH]; intros s Hs; [done|].
  simpl. apply IH. by apply (run_op_preserves op Hop s).
Qed.

(** An inactive device gets no session and no destination. *)
Lemma revoked_no_access {UT : UnicodeTables} id s :
  db_ok (db s) -> revoked id (db s) ->
  (forall credential now dec s', Authenticate credential now s = (Ok dec, s') ->
     ad_OK dec = true -> ad_ID dec <> id)
  /\ (forall address payload now ok reason err s',
        Authorize id address payload now s = (Ok (ok, reason, err), s') -> ok = false).
Proof.
  intros Hok Hr. split.
  - intros credential now dec s' H HOK Hid.
    destruct (Authenticate_ok_inv _ _ _ _ _ H HOK) as (r & d & Hrow & Hd & ->).
    apply row_by_hash_spec in Hrow as [[k Hk] _]; [|done].
    rewrite decide_device_id in Hid by done. destruct (scanDevice_id _ _ Hd) as [Hid' Hact].
    assert (k = id) as -> by (rewrite <- (ok_keys _ Hok _ _ Hk); congruence).
    apply decide_device_admits in HOK as [p [Ha _ _ _ _]]. by rewrite (Hr _ Hk), Ha in Hact.
  - intros address payload now ok reason err s'. unfold Authorize, bind, try, ret.
    destruct (DeviceByID id s) as [[[d|]|e] s3] eqn:E; [|by intros [= <-]..].
    apply exec_cases in E as [[? _]|E]; [done|].
    destruct (t_devices (db s) !! id) as [r|] eqn:Hk; [|done]. simpl in E.
    destruct (scanDevice r) as [d'|] eqn:Hd; [|done]. injection E as <- _.
    destruct (scanDevice_id _ _ Hd) as [_ ->]. rewrite (Hr _ Hk). simpl. by intros [= <-].
Qed.

(** Refute a positive decision that some recorded fact contradicts. *)
Ltac refute := split; [done|]; intros (? & ? & ? & ? & ? & ? & ? & ? & ?); simplify_eq/=; try tauto; congruence.

(** ** Properties *)

(** C3 - Who gets a session, and with which limits.  A credential that names a
    stored device is accepted exactly when the device is active, its subscription
    has not ended, its plan is known, a trial still has quota, and - while quota
    is left - its lease (if it has one) is neither expired nor used up.  An
    accepted session has the plan's priority and speeds, the throttled speed once
    the quota is used up, or the override while one is in force; a refusal
    carries no policy. *)
Theorem Authenticate_spec credential now t k r d :
  credential <> "" -> db_ok t -> t_devices t !! k = Some r ->
  dr_credential_hash r = Hash credential -> scanDevice r = Ok d ->
  exists dec, Authenticate credential now (mkSqlite t []) = (Ok dec, mkSqlite t [])
    /\ (ad_OK dec = true <-> exists p, admitted d now p)
    /\ (forall p, admitted d now p ->
          exists sp, ad_ID dec = ID d /\ ad_Policy dec = Some sp /\ granted d now p sp)
    /\ (ad_OK dec = false -> ad_Policy dec = None).
Proof.
  intros Hc Ht Hr Hh Hd. exists (decide_device d now).
  split; [by eapply Authenticate_known|]. split; [apply decide_device_admits|].
  split; [|by apply decide_device_rejects].
  intros p Hp. destruct (decide_device_grants d now p Hp) as (sp & -> & Hg). eauto.
Qed.

Definition sample_credential_device : Device :=
  mkDevice "device-1" (Hash "secret") Lite true (FromUnix 2000) (FromUnix 3000) 100 100
    0 (FromUnix 0) 0 0 false (FromUnix 0).

Lemma Authenticate_spec_witness :
  let t := db (UpsertDevice sample_credential_device (mkSqlite empty_tables [])).2 in
  exists dec, Authenticate "secret" (FromUnix 1000) (mkSqlite t []) = (Ok dec, mkSqlite t [])
    /\ (ad_OK dec = true <-> exists p, admitted sample_credential_device (FromUnix 1000) p).
Proof.
  intros t.
  destruct (Authenticate_spec "secret" (FromUnix 1000) t "device-1"
              (upsert_row sample_credential_device None) sample_credential_device) as (dec & H1 & H2 & _).
  - discriminate.
  - apply (UpsertDevice_preserves sample_credential_device eq_refl (mkSqlite empty_tables [])), db_ok_empty.
  - vm_compute. reflexivity.
  - reflexivity.
  - reflexivity.
  - exists dec. split; [exact H1|exact H2].
Defined.

(** Revocation holds.  Once [RevokeDevice] has succeeded, then after any
    further operations and driver failures that do not update that same device,
    no credential opens a session as the device and no destination is authorized
    for it. *)
Theorem revoked_device_locked_out {UT : UnicodeTables} id s s1 ops credential address payload now now' :
  db_ok (db s) -> RevokeDevice id s = (Ok tt, s1) ->
  Forall typed_op ops -> Forall (fun op => is_upsert_of id op = false) ops ->
  (forall dec s2, Authenticate credential now (run_ops ops s1) = (Ok dec, s2) ->
     ad_OK dec = true -> ad_ID dec <> id)
  /\ (forall ok reason err s2,
        Authorize id address payload now' (run_ops ops s1) = (Ok (ok, reason, err), s2) -> ok = false).
Proof.
  intros Hok Hrev Hty Hops.
  assert (Hs1 : db_ok (db s1)).
  { pose proof (run_op_preserves (OpRevokeDevice id) I s Hok) as H. simpl in H. by rewrite Hrev in H. }
  assert (Hok' : db_ok (db (run_ops ops s1))) by (by apply run_ops_ok).
  assert (Hr : revoked id (db (run_ops ops s1))).
  { apply run_ops_revoked; [done|]. by eapply RevokeDevice_revoked. }
  destruct (revoked_no_access id _ Hok' Hr) as [H1 H2]. eauto.
Qed.

Lemma revoked_device_locked_out_witness :
  let s := (UpsertDevice sample_credential_device (mkSqlite empty_tables [])).2 in
  let s1 := (RevokeDevice "device-1" s).2 in
  let s2 := run_ops [OpApplyPolicyOverride "device-1" 1 1 true (FromUnix 5000)] s1 in
  (exists dec, Authenticate "secret" (FromUnix 1000) s2 = (Ok dec, s2) /\ ad_OK dec = false)
  /\ (forall dec s3, Authenticate "secret" (FromUnix 1000) s2 = (Ok dec, s3) ->
        ad_OK dec = true -> ad_ID dec <> "device-1").
Proof.
  intros s s1 s2. split.
  - eexists. split; [vm_compute; reflexivity|reflexivity].
  - apply (@revoked_device_locked_out plain_unicode "device-1" s s1
             [OpApplyPolicyOverride "device-1" 1 1 true (FromUnix 5000)] "secret" "a:1" "" (FromUnix 1000) 0).
    + apply (UpsertDevice_preserves sample_credential_device eq_refl (mkSqlite empty_tables [])), db_ok_empty.
    + reflexivity.
    + repeat constructor.
    + repeat constructor.
Defined.

(** C30 - Where a session may go.  With a validated feed (or none), authorization
    always reaches a decision without an error, and it allows the destination
    exactly when the device exists and is active, the compliance rules do not
    block the destination, the plan is known, and either peer-to-peer traffic is
    permitted (by the override while it lasts, else by the plan) or neither the
    address nor the first payload looks like peer-to-peer. *)
Theorem Authorize_spec {UT : UnicodeTables} id address payload now t :
  db_ok t -> feed_ok t ->
  exists ok reason, Authorize id address payload now (mkSqlite t []) = (Ok (ok, reason, None), mkSqlite t [])
    /\ (ok = true <-> exists r d p, t_devices t !! id = Some r /\ scanDevice r = Ok d
          /\ Active d = true /\ Policy (Plan d) = Some p
          /\ ~ (exists c rs, t_compliance t = Some c /\ decode_rules (cr_rules_json c) = Some rs
                  /\ blocks rs address)
          /\ ((if After (OverrideExpires d) now then OverrideP2P d else pp_P2PAllowed p) = true
              \/ isP2P address payload = false)).
Proof.
  intros Ht Hfeed. unfold Authorize, bind, try, DeviceByID. rewrite query_ok.
  destruct (t_devices t !! id) as [r|] eqn:Hr; simpl; [|eexists _, _; split; [done|naive_solver]].
  destruct (scanDevice_total t id r Ht Hr) as [d Hd]. rewrite Hd. simpl.
  destruct (Active d) eqn:Ha; simpl; [|eexists _, _; split; [done|refute]].
  assert (Hb : exists b, Blocked address (mkSqlite t []) = (Ok b, mkSqlite t [])
     /\ (b = true <-> exists c rs, t_compliance t = Some c /\ decode_rules (cr_rules_json c) = Some rs
          /\ blocks rs address)).
  { destruct (t_compliance t) as [c|] eqn:Hc.
    - destruct (proj1 (validateRules_ok _) (Hfeed c Hc)) as (rs & Hrs & _ & Hcidr & _).
      destruct (rules_block_spec rs address Hcidr) as (b & Hb & Hspec).
      exists b. rewrite (Blocked_feed address t c Hc), Hrs, Hb. split; [done|]. naive_solver.
    - exists false. rewrite (Blocked_no_feed address t Hc). split; [done|]. naive_solver. }
  destruct Hb as (b & -> & Hspec). destruct b; [eexists _, _; split; [done|naive_solver]|].
  destruct (Policy (Plan d)) as [p|] eqn:Hp; [|eexists _, _; split; [done|refute]].
  destruct (if After (OverrideExpires d) now then OverrideP2P d else pp_P2PAllowed p) eqn:E1,
    (isP2P address payload) eqn:E2; simpl; eexists _, _; (split; [done|]);
    (split; [intros; try done; exists r, d, p; split_and!; auto; rewrite <- Hspec; done|]); try done.
  intros (r' & d' & p' & [= <-] & Hd' & _ & Hp' & _ & H). rewrite Hd in Hd'. injection Hd' as <-.
  rewrite Hp in Hp'. injection Hp' as <-. destruct H; congruence.
Qed.

Lemma Authorize_spec_witness :
  let t := db (UpsertDevice sample_credential_device (mkSqlite empty_tables [])).2 in
  exists ok reason, (@Authorize plain_unicode "device-1" "tracker.example:443" "" (FromUnix 1000) (mkSqlite t [])).1
    = Ok (ok, reason, None).
Proof.
  intros t.
  destruct (@Authorize_spec plain_unicode "device-1" "tracker.example:443" "" (FromUnix 1000) t)
    as (ok & reason & H & _).
  - apply (UpsertDevice_preserves sample_credential_device eq_refl (mkSqlite empty_tables [])), db_ok_empty.
  - intros c Hc. discriminate Hc.
  - exists ok, reason. rewrite H. reflexivity.
Defined.
