(* ===== verification/Protocol.v ===== *)
(** * The messages between node and controller

    src/protocol/v2/protocol.go: the envelope, the payloads and the signed quota
    lease. *)

From S2P Require Import Prelude GoStrings Base64 Json Crypto.
From stdpp Require Import base strings list.
From Stdlib Require Import ZArith Lia.
Open Scope Z_scope.

Definition Version : Z := 2.

(** ** Messages *)

Record Envelope := mkEnvelope {
  env_Version : Z; env_MessageID : string; env_ReplyTo : string; env_Type : string;
  env_SentAt : time; env_Data : option json }.

Definition CapabilityACK : string := "command.ack".
Definition CapabilityQuotaLease : string := "quota.lease.signed".
Definition CapabilitySessionKick : string := "session.kick".
Definition CapabilityPolicyOverride : string := "policy.override".
Definition CapabilityCertRotate : string := "certificate.rotate".
Definition CapabilityAtomicUpdate : string := "update.atomic".
Definition CapabilityTCPFallback : string := "fallback.vless-reality".
Definition CapabilityCDNWebSocket : string := "fallback.vless-ws-tls".

Record Hello := mkHello {
  he_NodeID : string; he_AgentVersion : string; he_Protocols : list Z;
  he_Capabilities : list string; he_RealityPublicKey : string; he_RealityShortID : string }.

Record Ack := mkAck { ack_OK : bool; ack_Code : string; ack_Message : string; ack_AppliedAt : string }.

Record QuotaLease := mkQuotaLease {
  ql_LeaseID : string; ql_DeviceID : string; ql_NodeID : string; ql_Bytes : Z;
  ql_IssuedAt : time; ql_ExpiresAt : time; ql_KeyID : string; ql_Signature : string }.

Record DeviceUpsert := mkDeviceUpsert {
  du_DeviceID : string; du_CredentialHash : string; du_Plan : string; du_Active : bool;
  du_SubscriptionEnds : time; du_PeriodEnds : time; du_QuotaBytes : Z }.

Record DeviceRef := mkDeviceRef { ref_DeviceID : string; ref_Reason : string }.

Record PolicyOverride := mkPolicyOverride {
  po_DeviceID : string; po_UpBPS : Z; po_DownBPS : Z; po_P2P : bool; po_ExpiresAt : time }.

Record CertificateRotate := mkCertificateRotate {
  cert_CertificatePEM : string; cert_ControllerCA : string; cert_NotAfter : time }.

Record UsageEvent := mkUsageEvent {
  pu_EventID : string; pu_DeviceID : string; pu_RXBytes : Z; pu_TXBytes : Z;
  pu_StartedAt : time; pu_EndedAt : time }.

(** ** The struct tags: decoding *)

Definition decode_Envelope (j : json) : option Envelope :=
  dec_struct (fun m old =>
    v ← field "version" dec_int m (env_Version old);
    i ← field "messageId" dec_string m (env_MessageID old);
    r ← field "replyTo" dec_string m (env_ReplyTo old);
    t ← field "type" dec_string m (env_Type old);
    s ← field "sentAt" dec_time m (env_SentAt old);
    d ← field "data" dec_raw m (env_Data old);
    Some (mkEnvelope v i r t s d)) j (mkEnvelope 0 "" "" "" zero_time None).

Definition decode_QuotaLease (j : json) : option QuotaLease :=
  dec_struct (fun m old =>
    l ← field "leaseId" dec_string m (ql_LeaseID old);
    d ← field "deviceId" dec_string m (ql_DeviceID old);
    n ← field "nodeId" dec_string m (ql_NodeID old);
    b ← field "bytes" dec_int m (ql_Bytes old);
    i ← field "issuedAt" dec_time m (ql_IssuedAt old);
    e ← field "expiresAt" dec_time m (ql_ExpiresAt old);
    k ← field "keyId" dec_string m (ql_KeyID old);
    s ← field "signature" dec_string m (ql_Signature old);
    Some (mkQuotaLease l d n b i e k s)) j (mkQuotaLease "" "" "" 0 zero_time zero_time "" "").

Definition decode_DeviceRef (j : json) : option DeviceRef :=
  dec_struct (fun m old =>
    d ← field "deviceId" dec_string m (ref_DeviceID old);
    r ← field "reason" dec_string m (ref_Reason old);
    Some (mkDeviceRef d r)) j (mkDeviceRef "" "").

Definition decode_PolicyOverride (j : json) : option PolicyOverride :=
  dec_struct (fun m old =>
    d ← field "deviceId" dec_string m (po_DeviceID old);
    u ← field "upBps" dec_int m (po_UpBPS old);
    w ← field "downBps" dec_int m (po_DownBPS old);
    p ← field "p2pAllowed" dec_bool m (po_P2P old);
    e ← field "expiresAt" dec_time m (po_ExpiresAt old);
    Some (mkPolicyOverride d u w p e)) j (mkPolicyOverride "" 0 0 false zero_time).

Definition decode_CertificateRotate (j : json) : option CertificateRotate :=
  dec_struct (fun m old =>
    c ← field "certificatePem" dec_string m (cert_CertificatePEM old);
    a ← field "controllerCa" dec_string m (cert_ControllerCA old);
    n ← field "notAfter" dec_time m (cert_NotAfter old);
    Some (mkCertificateRotate c a n)) j (mkCertificateRotate "" "" zero_time).

(** ** The struct tags: encoding *)

(** [omitempty] on a string. *)
Definition omit (name value : string) : list (string * json) :=
  if String.eqb value "" then [] else [(name, JStr value)].

Definition encode_Hello (h : Hello) : json :=
  JObj ([("nodeId", JStr (he_NodeID h)); ("agentVersion", JStr (he_AgentVersion h));
         ("protocols", JArr (jint <$> he_Protocols h));
         ("capabilities", JArr (JStr <$> he_Capabilities h))]
        ++ omit "realityPublicKey" (he_RealityPublicKey h)
        ++ omit "realityShortId" (he_RealityShortID h)).

Definition encode_Ack (a : Ack) : json :=
  JObj ([("ok", JBool (ack_OK a))] ++ omit "code" (ack_Code a) ++ omit "message" (ack_Message a)
        ++ omit "appliedAt" (ack_AppliedAt a)).

Definition encode_UsageEvent (u : UsageEvent) : option json :=
  s ← jtime (pu_StartedAt u); e ← jtime (pu_EndedAt u);
  Some (JObj [("eventId", JStr (pu_EventID u)); ("deviceId", JStr (pu_DeviceID u));
              ("rxBytes", jint (pu_RXBytes u)); ("txBytes", jint (pu_TXBytes u));
              ("startedAt", s); ("endedAt", e)]).

Definition encode_QuotaLease (l : QuotaLease) : option json :=
  i ← jtime (ql_IssuedAt l); e ← jtime (ql_ExpiresAt l);
  Some (JObj [("leaseId", JStr (ql_LeaseID l)); ("deviceId", JStr (ql_DeviceID l));
              ("nodeId", JStr (ql_NodeID l)); ("bytes", jint (ql_Bytes l));
              ("issuedAt", i); ("expiresAt", e); ("keyId", JStr (ql_KeyID l));
              ("signature", JStr (ql_Signature l))]).

Definition encode_DeviceUpsert (d : DeviceUpsert) : option json :=
  s ← jtime (du_SubscriptionEnds d); p ← jtime (du_PeriodEnds d);
  Some (JObj [("deviceId", JStr (du_DeviceID d)); ("credentialHash", JStr (du_CredentialHash d));
              ("plan", JStr (du_Plan d)); ("active", JBool (du_Active d));
              ("subscriptionEnds", s); ("periodEnds", p); ("quotaBytes", jint (du_QuotaBytes d))]).

(** ** The signed quota lease *)

Section Lease.
Context {ED : Ed25519}.

Definition signingBytes (l : QuotaLease) : result string :=
  match jtime (ql_IssuedAt l), jtime (ql_ExpiresAt l) with
  | Some i, Some e =>
      Ok (print (JObj [("leaseId", JStr (ql_LeaseID l)); ("deviceId", JStr (ql_DeviceID l));
                       ("nodeId", JStr (ql_NodeID l)); ("bytes", jint (ql_Bytes l));
                       ("issuedAt", i); ("expiresAt", e); ("keyId", JStr (ql_KeyID l))]))
  | _, _ => Err (LibErr "encoding/json")
  end.

Definition with_signature (l : QuotaLease) (s : string) : QuotaLease :=
  mkQuotaLease (ql_LeaseID l) (ql_DeviceID l) (ql_NodeID l) (ql_Bytes l) (ql_IssuedAt l)
    (ql_ExpiresAt l) (ql_KeyID l) s.

(** The pointer receiver: the lease after the call. *)
Definition SignLease (l : QuotaLease) (privateKey : string) : result QuotaLease :=
  match signingBytes l with
  | Err e => Err e
  | Ok payload => Ok (with_signature l (Encode (ed_sign privateKey payload)))
  end.

Definition VerifyLease (l : QuotaLease) (publicKey : string) (now : time) : result unit :=
  if String.eqb (ql_LeaseID l) "" || String.eqb (ql_DeviceID l) "" || String.eqb (ql_NodeID l) ""
     || (ql_Bytes l <? 0)
  then Err (Msg "invalid quota lease fields") else
  if negb (After (ql_ExpiresAt l) now) || After (ql_IssuedAt l) (TimeAdd now (5 * minute))
     || (24 * hour <? TimeSub (ql_ExpiresAt l) (ql_IssuedAt l))
  then Err (Msg "quota lease is outside its validity window") else
  match Decode (ql_Signature l) with
  | None => Err (Msg "invalid quota lease signature encoding")
  | Some signature =>
      match signingBytes l with
      | Err _ => Err (Msg "invalid quota lease signature")
      | Ok payload => if ed_verify publicKey payload signature then Ok tt
                      else Err (Msg "invalid quota lease signature")
      end
  end.

(** What a verified lease guarantees. *)
Record lease_valid (l : QuotaLease) (now : time) : Prop := {
  lv_lease : ql_LeaseID l <> ""; lv_device : ql_DeviceID l <> ""; lv_node : ql_NodeID l <> "";
  lv_bytes : 0 <= ql_Bytes l;
  lv_live : now < ql_ExpiresAt l;
  lv_issued : ql_IssuedAt l <= now + 5 * minute;
  lv_span : ql_ExpiresAt l - ql_IssuedAt l <= 24 * hour }.

Lemma VerifyLease_ok l pub now :
  VerifyLease l pub now = Ok tt <->
  lease_valid l now
  /\ exists sg payload, Decode (ql_Signature l) = Some sg /\ signingBytes l = Ok payload
       /\ ed_verify pub payload sg = true.
Proof.
  unfold VerifyLease.
  destruct (String.eqb_spec (ql_LeaseID l) ""); [split; [done|]; by intros [[] _]|].
  destruct (String.eqb_spec (ql_DeviceID l) ""); [split; [done|]; by intros [[] _]|].
  destruct (String.eqb_spec (ql_NodeID l) ""); [split; [done|]; by intros [[] _]|].
  destruct (Z.ltb_spec (ql_Bytes l) 0); [split; [done|]; intros [[] _]; lia|]. simpl.
  destruct (negb _ || _ || _) eqn:E.
  - split; [done|]. intros [[] _]. exfalso.
    unfold After, TimeAdd, TimeSub, int64_min, int64_max, hour, minute, second in *. lia.
  - assert (lease_valid l now).
    { split; try done; unfold After, TimeAdd, TimeSub, int64_min, int64_max, hour, minute, second in *; lia. }
    destruct (Decode (ql_Signature l)) as [sg|]; [|split; [done|]; by intros [_ (? & ? & ? & _)]].
    destruct (signingBytes l) as [payload|]; [|split; [done|]; by intros [_ (? & ? & _ & ? & _)]].
    destruct (ed_verify pub payload sg) eqn:Ev; split; try done; [eauto 10|].
    intros [_ (sg' & p' & [= <-] & [= <-] & ?)]. congruence.
Qed.

Lemma signingBytes_with_signature l s : signingBytes (with_signature l s) = signingBytes l.
Proof. done. Qed.

(** What [Sign] signs, [Verify] accepts inside the window. *)
Lemma SignLease_verifies {EL : Ed25519Laws} l priv signed now :
  String.length priv = PrivateKeySize -> SignLease l priv = Ok signed -> lease_valid l now ->
  VerifyLease signed (ed_public priv) now = Ok tt.
Proof.
  intros Hlen Hs Hv. unfold SignLease in Hs. destruct (signingBytes l) as [payload|] eqn:E; [|done].
  injection Hs as <-. apply VerifyLease_ok. split; [by destruct Hv|].
  exists (ed_sign priv payload), payload. simpl. rewrite Decode_Encode. split_and!; [done|done|].
  by apply ed_sign_verify.
Qed.
End Lease.

(** C31 - What a verified lease guarantees.  [Verify] accepts a lease exactly
    when its identifiers are present, its size is not negative, it has not
    expired, it was issued at most five minutes in the future, it lasts at most
    24 hours - also for instants so far apart that their difference overflows a
    [time.Duration] - and its signature verifies over the bytes of its fields.
    A lease that the controller signs inside that window is accepted. *)
Theorem quota_lease_verification {ED : Ed25519} {EL : Ed25519Laws} l pub now :
  (VerifyLease l pub now = Ok tt <->
     lease_valid l now
     /\ exists sg payload, Decode (ql_Signature l) = Some sg /\ signingBytes l = Ok payload
          /\ ed_verify pub payload sg = true)
  /\ (forall priv signed now', String.length priv = PrivateKeySize ->
        SignLease l priv = Ok signed -> lease_valid l now' ->
        VerifyLease signed (ed_public priv) now' = Ok tt).
Proof.
  split; [apply VerifyLease_ok|]. intros priv signed now'. apply SignLease_verifies.
Qed.

Definition sample_lease : QuotaLease :=
  mkQuotaLease "lease-1" "device-1" "node-1" 1000000000 (FromUnix 1786215600) (FromUnix 1786219200)
    "quota-1" "".
Definition sample_private : string := "0123456789abcdef0123456789abcdef0123456789abcdef0123456789abcdef".

Lemma quota_lease_verification_witness :
  exists signed, @SignLease toy_ed25519 sample_lease sample_private = Ok signed
    /\ @VerifyLease toy_ed25519 signed (@ed_public toy_ed25519 sample_private) (FromUnix 1786215700) = Ok tt.
Proof.
  eexists. split; [reflexivity|].
  eapply (@quota_lease_verification toy_ed25519 toy_ed25519_laws sample_lease "" 0).
  - reflexivity.
  - reflexivity.
  - split; try discriminate; vm_compute; congruence.
Defined.
