(* ===== verification/Xray.v ===== *)
(** * The Xray user manager

    src/internal/xray/manager.go keeps the users of the Xray inbound equal to
    the devices that may connect, and src/internal/vless/identity.go derives
    their VLESS identifiers.  The Xray server and its gRPC interface are not
    part of the program: they are the parameter [XrayApi], and [XrayLaws] states
    what its documentation promises. *)

From S2P Require Import Prelude GoStrings Base64 Sha Model Store Compliance Policy.
From stdpp Require Import base gmap strings list.
From Stdlib Require Import ZArith Lia.
Open Scope Z_scope.

(** ** VLESS identifiers *)

(** [uuid.NewSHA1(space, data).String()] of github.com/google/uuid. *)
Class UuidSha1 := { new_sha1 : string -> string -> string }.

Definition credentialNamespace : string := "38b07a0a-b4a7-50d7-9f39-d40d78a3cb55".

Definition IDFromCredential `{UuidSha1} (credential : string) : string :=
  new_sha1 credentialNamespace (sha256 credential).

Definition IDFromCredentialHash `{UuidSha1} (encoded : string) : result string :=
  match Decode encoded with
  | Some digest => if (String.length digest =? 32)%nat then Ok (new_sha1 credentialNamespace digest)
                   else Err (Msg "invalid credential hash")
  | None => Err (Msg "invalid credential hash")
  end.

(** ** The interface of the Xray server *)

(** A gRPC error: its status code and its text. *)
Record grpc_error := mkGrpcError { grpc_code : Z; grpc_text : string }.
Definition NotFound : Z := 5.

(** The account of an inbound user, as the manager can read it. *)
Inductive account := NoAccount | UnreadableAccount | OtherAccount | VlessAccount (id : string).

Class XrayApi (X : Type) := {
  xr_dial : prog X unit;
  xr_add_user : string -> string -> prog X unit;
  xr_remove_user : string -> X -> option grpc_error * X;
  xr_inbound_users : prog X (list (string * account));
  xr_get_stats : string -> X -> (Z + grpc_error) * X }.

(** [Manager], with the database and the server it works on. *)
Record manager (X : Type) := mkManager {
  mg_store : sqlite; mg_blocked : gset string; mg_xray : X }.
Arguments mkManager {X}. Arguments mg_store {X}. Arguments mg_blocked {X}. Arguments mg_xray {X}.

#[export] Instance manager_store X : Part sqlite (manager X).
Proof.
  refine {| part := mg_store; with_part s w := mkManager s (mg_blocked w) (mg_xray w) |}; [done|by intros []].
Defined.
#[export] Instance manager_xray X : Part X (manager X) | 1.
Proof.
  refine {| part := mg_xray; with_part x w := mkManager (mg_store w) (mg_blocked w) x |}; [done|by intros []].
Defined.

(** ** Operations *)

Definition email (deviceID : string) : string := deviceID +:+ "@risevpn".

Definition allowed (device : Device) (now : time) : bool :=
  if negb (Active device) || negb (After (SubscriptionEnds device) now) then false else
  match Policy (Plan device) with
  | None => false
  | Some policy =>
      let quota := if QuotaBytes device <=? 0 then pp_QuotaBytes policy else QuotaBytes device in
      let exhausted := quota <=? UsedBytes device in
      if String.eqb (Plan device) Trial && exhausted then false else
      exhausted || (LeaseBytes device <=? 0)
      || (After (LeaseExpires device) now && (UsedBytes device <? LeaseBytes device))
  end.

Section Manager.
Context {UT : UnicodeTables} {US : UuidSha1} {MO : MapOrder} {X : Type} {XA : XrayApi X}.
Context (address : string).

Definition grpc (e : grpc_error) : error := Wrap (grpc_text e) (LibErr "google.golang.org/grpc").

Definition setBlocked (f : gset string -> gset string) : prog (manager X) unit := fun w =>
  (Ok tt, mkManager (mg_store w) (f (mg_blocked w)) (mg_xray w)).

Definition isBlocked (deviceID : string) (w : manager X) : bool :=
  bool_decide (deviceID ∈ mg_blocked w).

Definition dial : prog (manager X) unit :=
  if String.eqb address "" then fail (Msg "Xray API address is missing") else on xr_dial.

Definition current : prog (manager X) (gmap string string) :=
  dial ;;;
  let* users := on xr_inbound_users in
  ret (foldl (fun result user =>
         let deviceID := TrimSuffix (fst user) "@risevpn" in
         if String.eqb deviceID (fst user) then result else
         match snd user with
         | VlessAccount id => <[deviceID := id]> result
         | NoAccount | UnreadableAccount | OtherAccount => result
         end) ∅ users).

Definition add (device : Device) : prog (manager X) unit :=
  let* id := lift (IDFromCredentialHash (CredentialHash device)) in
  dial ;;;
  on (xr_add_user (email (ID device)) id).

Definition is_not_found (e : grpc_error) : bool :=
  (grpc_code e =? NotFound) || Contains (ToLower (grpc_text e)) "not found".

Definition remove (deviceID : string) : prog (manager X) unit :=
  dial ;;;
  (fun w => let '(err, x) := xr_remove_user (email deviceID) (mg_xray w) in
            let w' := mkManager (mg_store w) (mg_blocked w) x in
            match err with
            | Some e => if is_not_found e then (Ok tt, w') else (Err (grpc e), w')
            | None => (Ok tt, w')
            end).

Definition ensure (device : Device) : prog (manager X) unit :=
  let* current := current in
  let* expected := lift (IDFromCredentialHash (CredentialHash device)) in
  (* a missing key reads as the empty string *)
  if String.eqb (default "" (current !! ID device)) expected then ret tt else
  (match current !! ID device with
   | Some _ => remove (ID device)
   | None => ret tt
   end) ;;;
  add device.

Definition Upsert (device : Device) (now : time) : prog (manager X) unit :=
  setBlocked (fun b => b ∖ {[ID device]}) ;;;
  if negb (allowed device now) then remove (ID device) else ensure device.

Definition Revoke (deviceID : string) : prog (manager X) unit :=
  setBlocked (fun b => b ∪ {[deviceID]}) ;;; remove deviceID.

Definition Kick (deviceID : string) : prog (manager X) unit := Revoke deviceID.

(** [Reconcile] examines each device once; [clock id] is the reading of the
    clock when it examines the device [id]. *)
Definition desired_devices (clock : string -> time) (blocked : gset string) (devices : list Device)
    : gmap string Device :=
  foldl (fun desired device =>
    if allowed device (clock (ID device)) && negb (bool_decide (ID device ∈ blocked))
    then <[ID device := device]> desired else desired) ∅ devices.

Fixpoint reconcile_current (l : list (string * string)) (desired : gmap string Device)
    : prog (manager X) (gmap string Device) :=
  match l with
  | [] => ret desired
  | (deviceID, id) :: l' =>
      match desired !! deviceID with
      | None => remove deviceID ;;; reconcile_current l' desired
      | Some device =>
          let* expected := lift (IDFromCredentialHash (CredentialHash device)) in
          (if negb (String.eqb id expected) then remove deviceID ;;; add device else ret tt) ;;;
          reconcile_current l' (delete deviceID desired)
      end
  end.

(** The first half of [Reconcile] reads, the second writes. *)
Definition reconcile_plan (clock : string -> time)
    : prog (manager X) (gmap string string * gmap string Device) :=
  let* devices := on Devices in
  let* current := current in
  let* blocked := (fun w => (Ok (mg_blocked w), w)) in
  ret (current, desired_devices clock blocked devices).

Definition reconcile_apply (plan : gmap string string * gmap string Device) : prog (manager X) unit :=
  let* rest := reconcile_current (range (fst plan)) (snd plan) in
  for_each (fun kv => add (snd kv)) (range rest).

Definition Reconcile (clock : string -> time) : prog (manager X) unit :=
  let* plan := reconcile_plan clock in reconcile_apply plan.

(** The two directions in the order of [range]; a counter that the server does
    not have stays 0. *)
Fixpoint read_counters (deviceID : string) (directions : list (string * unit)) (uplink downlink : Z)
    : prog (manager X) (Z * Z) :=
  match directions with
  | [] => ret (uplink, downlink)
  | (direction, _) :: rest => fun w =>
      let '(reply, x) := xr_get_stats ("user>>>" +:+ email deviceID +:+ ">>>traffic>>>" +:+ direction)
                           (mg_xray w) in
      let w' := mkManager (mg_store w) (mg_blocked w) x in
      match reply with
      | inr e => if grpc_code e =? NotFound then read_counters deviceID rest uplink downlink w'
                 else (Err (grpc e), w')
      | inl v => if String.eqb direction "uplink" then read_counters deviceID rest v downlink w'
                 else read_counters deviceID rest uplink v w'
      end
  end.

Definition directions : gmap string unit := {["uplink" := tt; "downlink" := tt]}.

(** [clock1 id] and [clock2 id] are the readings for the usage event of the
    device [id] and for its check afterwards. *)
Definition collect_device (clock1 clock2 : string -> time) (device : Device) : prog (manager X) unit :=
  let* counters := read_counters (ID device) (range directions) 0 0 in
  let '(uplink, downlink) := counters in
  if (0 <? uplink) || (0 <? downlink) then
    let* _ := on (AddUsage (ID device) uplink downlink (clock1 (ID device))) in
    let* found := on (DeviceByID (ID device)) in
    match found with
    | Some updated =>
        if negb (allowed updated (clock2 (ID device))) then let* _ := try (Revoke (ID device)) in ret tt
        else ret tt
    | None => ret tt
    end
  else ret tt.

Definition CollectUsage (clock1 clock2 : string -> time) : prog (manager X) unit :=
  let* devices := on Devices in
  dial ;;;
  for_each (collect_device clock1 clock2) devices.
End Manager.

(** ** What the Xray server promises

    [xr_view] is the server's table of inbound users by email, [xr_live] says
    that it is reachable and answers.  A call that fails leaves the table as it
    was; adding a user fails when the email is taken; removing an unknown user
    is reported as not found.  Emails are compared as they are written, which
    for the lower-case UUIDs of the devices is what Xray does. *)
Class XrayLaws (X : Type) {UT : UnicodeTables} {XA : XrayApi X} := {
  xr_view : X -> gmap string account;
  xr_live : X -> Prop;
  xr_dial_law : forall x r x', xr_dial x = (r, x') ->
    xr_view x' = xr_view x /\ (xr_live x -> r = Ok tt /\ xr_live x');
  xr_add_law : forall e i x r x', xr_add_user e i x = (r, x') ->
    ((r = Ok tt /\ xr_view x !! e = None /\ xr_view x' = <[e := VlessAccount i]> (xr_view x))
     \/ (r <> Ok tt /\ xr_view x' = xr_view x))
    /\ (xr_live x -> xr_live x' /\ (xr_view x !! e = None -> r = Ok tt));
  xr_remove_law : forall e x err x', xr_remove_user e x = (err, x') ->
    match err with
    | None => xr_view x' = delete e (xr_view x)
    | Some g => xr_view x' = xr_view x /\ (is_not_found g = true -> xr_view x !! e = None)
    end
    /\ (xr_live x -> xr_live x' /\ (forall g, err = Some g -> is_not_found g = true));
  xr_users_law : forall x r x', xr_inbound_users x = (r, x') ->
    xr_view x' = xr_view x
    /\ (forall l, r = Ok l -> NoDup l.*1 /\ forall e a, (e, a) ∈ l <-> xr_view x !! e = Some a)
    /\ (xr_live x -> xr_live x' /\ is_ok r = true);
  xr_stats_law : forall n x r x', xr_get_stats n x = (r, x') -> xr_view x' = xr_view x }.

(** ** Lemmas *)

Lemma email_inj d d' : email d = email d' -> d = d'.
Proof.
  unfold email. intros H. apply (f_equal (fun s => TrimSuffix s "@risevpn")) in H.
  by rewrite !TrimSuffix_app in H.
Qed.
Lemma TrimSuffix_email d : TrimSuffix (email d) "@risevpn" = d.
Proof. apply TrimSuffix_app. Qed.
Lemma email_neq d : d <> email d.
Proof. intros H. apply (f_equal String.length) in H. unfold email in H. rewrite length_sapp in H. simpl in H. lia. Qed.
Lemma TrimSuffix_neq e d : TrimSuffix e "@risevpn" = d -> d <> e -> e = email d.
Proof.
  unfold TrimSuffix. destruct (HasSuffix e "@risevpn") eqn:E; [|by intros -> []].
  apply HasSuffix_spec in E as [p ->]. intros Hd _.
  pose proof (TrimSuffix_app p "@risevpn") as T. unfold TrimSuffix in T.
  rewrite (proj2 (HasSuffix_spec _ _)) in T by eauto. rewrite T in Hd. by subst.
Qed.

(** Both sides of the tunnel derive the same VLESS identifier. *)
Lemma IDFromCredentialHash_Hash `{UuidSha1} c : IDFromCredentialHash (Hash c) = Ok (IDFromCredential c).
Proof.
  unfold IDFromCredentialHash, Hash. rewrite Decode_Encode.
  by rewrite length_sha256.
Qed.

(** [allowed] is the admission decision of the policy service. *)
Lemma allowed_decide d now : allowed d now = ad_OK (decide_device d now).
Proof.
  unfold allowed, decide_device. destruct (Active d); [|done]. simpl.
  destruct (After (SubscriptionEnds d) now); [|done]. simpl.
  destruct (Policy (Plan d)) as [p|]; [|done]. cbv zeta.
  destruct ((if QuotaBytes d <=? 0 then pp_QuotaBytes p else QuotaBytes d) <=? UsedBytes d) eqn:E.
  - destruct (String.eqb (Plan d) Trial); simpl; [done|]. by destruct (After (OverrideExpires d) now).
  - rewrite andb_false_r. simpl.
    replace (0 <? LeaseBytes d) with (negb (LeaseBytes d <=? 0)) by lia.
    replace (LeaseBytes d <=? UsedBytes d) with (negb (UsedBytes d <? LeaseBytes d)) by lia.
    by destruct (LeaseBytes d <=? 0), (After (LeaseExpires d) now), (UsedBytes d <? LeaseBytes d),
      (After (OverrideExpires d) now).
Qed.

Section Effects.
Context {UT : UnicodeTables} {US : UuidSha1} {MO : MapOrder} {X : Type} {XA : XrayApi X}
  {XL : XrayLaws X}.
Context (address : string).

Definition view (w : manager X) : gmap string account := xr_view (mg_xray w).
Definition live (w : manager X) : Prop := address <> "" /\ xr_live (mg_xray w).

(** What an operation on the server alone keeps. *)
Definition local (w w' : manager X) : Prop :=
  mg_store w' = mg_store w /\ mg_blocked w' = mg_blocked w.
#[local] Instance local_preorder : PreOrder local.
Proof. split; [done|]. intros x y z [] []. split; congruence. Qed.

Lemma dial_effect w r w' : dial address w = (r, w') ->
  local w w' /\ view w' = view w /\ (live w -> r = Ok tt /\ live w').
Proof.
  unfold dial, live. destruct (String.eqb_spec address "") as [E|E].
  - intros [= <- <-]. split_and!; [done|done|]. by intros [].
  - intros H. apply on_cases in H as (x & H & ->). apply xr_dial_law in H as [Hv Hl].
    split_and!; [done|done|]. intros [_ Hx]. destruct (Hl Hx). done.
Qed.

Lemma remove_effect d w r w' : remove address d w = (r, w') ->
  local w w'
  /\ (view w' = view w \/ view w' = delete (email d) (view w))
  /\ (r = Ok tt -> view w' = delete (email d) (view w))
  /\ (live w -> r = Ok tt /\ live w').
Proof.
  unfold remove, bind. destruct (dial address w) as [[[]|e] w1] eqn:E;
    apply dial_effect in E as ([Hs Hb] & Hv & Hl).
  2:{ intros [= <- <-]. split_and!; [done|by left|done|]. intros H. by destruct (Hl H). }
  destruct (xr_remove_user (email d) (mg_xray w1)) as [err x] eqn:Er.
  apply xr_remove_law in Er as [Hr Hlr]. unfold view in *.
  destruct err as [g|]; [destruct (is_not_found g) eqn:En|]; intros [= <- <-]; unfold local, live in *;
    simpl in *.
  - destruct Hr as [Hr1 Hr2]. split_and!; [done|done| | |]; try rewrite Hr1, Hv.
    + by left.
    + intros _. rewrite delete_id; [done|]. rewrite <- Hv. by apply Hr2.
    + intros H. destruct (Hl H) as [_ [? Hx]]. split; [done|]. split; [done|]. by apply Hlr.
  - destruct Hr as [Hr1 _]. split_and!; [done|done| |done|]; try rewrite Hr1, Hv; [by left|].
    intros H. destruct (Hl H) as [_ [? Hx]]. destruct (Hlr Hx) as [_ Hg].
    specialize (Hg g eq_refl). congruence.
  - split_and!; [done|done| | |]; try (rewrite Hr, Hv; auto). intros H.
    destruct (Hl H) as [_ [? Hx]]. split; [done|]. split; [done|]. by apply Hlr.
Qed.

Lemma add_effect dev w r w' : add address dev w = (r, w') ->
  local w w'
  /\ (view w' = view w
      \/ exists i, IDFromCredentialHash (CredentialHash dev) = Ok i
           /\ view w' = <[email (ID dev) := VlessAccount i]> (view w))
  /\ (r = Ok tt -> exists i, IDFromCredentialHash (CredentialHash dev) = Ok i
        /\ view w' = <[email (ID dev) := VlessAccount i]> (view w))
  /\ (live w -> view w !! email (ID dev) = None ->
      is_ok (IDFromCredentialHash (CredentialHash dev)) = true -> r = Ok tt /\ live w').
Proof.
  unfold add, bind, lift. destruct (IDFromCredentialHash (CredentialHash dev)) as [i|e] eqn:Ei.
  2:{ intros [= <- <-]. split_and!; [done|by left|done|done]. }
  destruct (dial address w) as [[[]|e] w1] eqn:E; apply dial_effect in E as ([Hs Hb] & Hv & Hl).
  2:{ intros [= <- <-]. split_and!; [done|by left|done|]. intros H. by destruct (Hl H). }
  intros H. apply on_cases in H as (x & H & ->). apply xr_add_law in H as [Hr Hlr].
  unfold view, local, live in *. simpl in *. rewrite <- Hv.
  split_and!; [done|done| | |].
  - destruct Hr as [(-> & _ & ->)|[_ ->]]; eauto.
  - intros ->. destruct Hr as [(_ & _ & ->)|[? _]]; [eauto|done].
  - intros Hlive Hnone _. destruct (Hl Hlive) as [_ [? Hx]]. destruct (Hlr Hx). auto.
Qed.

Definition add_user (c : gmap string string) (u : string * account) : gmap string string :=
  let deviceID := TrimSuffix (fst u) "@risevpn" in
  if String.eqb deviceID (fst u) then c else
  match snd u with VlessAccount id => <[deviceID := id]> c | _ => c end.

Lemma add_user_lookup c e a d i :
  (add_user c (e, a)) !! d = Some i <->
  (e = email d /\ a = VlessAccount i) \/ (c !! d = Some i /\ (e = email d -> forall j, a <> VlessAccount j)).
Proof.
  unfold add_user. simpl. destruct (String.eqb_spec (TrimSuffix e "@risevpn") e) as [E|E].
  - assert (Hne : e <> email d). { intros ->. rewrite TrimSuffix_email in E. by apply email_neq in E. }
    naive_solver.
  - assert (He : e = email (TrimSuffix e "@risevpn")) by (by apply TrimSuffix_neq).
    destruct a as [| | |j]; try naive_solver congruence.
    rewrite lookup_insert. case_decide as Hd.
    + subst d. split; [intros [= ->]; by left|]. intros [[_ [= ->]]|[_ H]]; [done|]. by destruct (H He j).
    + split; [|intros [[-> _]|[? _]]; [by rewrite TrimSuffix_email in Hd|done]].
      intros H. right. split; [done|]. intros ->. by rewrite TrimSuffix_email in Hd.
Qed.

Lemma users_lookup l d i :
  NoDup l.*1 -> foldl add_user ∅ l !! d = Some i <-> (email d, VlessAccount i) ∈ l.
Proof.
  induction l as [|[e a] l IH] using rev_ind; intros Hnd.
  - simpl. rewrite lookup_empty. split; [done|]. by intros ?%elem_of_nil.
  - rewrite fmap_app in Hnd. apply NoDup_app in Hnd as (Hnd & Hd & _).
    rewrite foldl_app. simpl. rewrite add_user_lookup, IH by done.
    rewrite elem_of_app, list_elem_of_singleton. split.
    + intros [[-> ->]|[? _]]; auto.
    + intros [H|[= -> ->]]; [|by left]. right. split; [done|]. intros ->.
      destruct (Hd (email d)); [|apply list_elem_of_here].
      apply list_elem_of_fmap. by exists (email d, VlessAccount i).
Qed.

Lemma current_effect w r w' : current address w = (r, w') ->
  local w w' /\ view w' = view w
  /\ (forall c, r = Ok c -> forall d i, c !! d = Some i <-> view w !! email d = Some (VlessAccount i))
  /\ (live w -> is_ok r = true /\ live w').
Proof.
  unfold current, bind. destruct (dial address w) as [[[]|e] w1] eqn:E;
    apply dial_effect in E as ([Hs Hb] & Hv & Hl).
  2:{ intros [= <- <-]. split_and!; [done|done|done|]. intros H. by destruct (Hl H). }
  destruct (on xr_inbound_users w1) as [r1 w2] eqn:E2. apply on_cases in E2 as (x & E2 & ->).
  apply xr_users_law in E2 as (Hv2 & Hu & Hl2). unfold view, local, live in *. simpl in *.
  assert (Hlive : address <> "" /\ xr_live (mg_xray w) -> is_ok r1 = true /\ address <> "" /\ xr_live x).
  { intros H. destruct (Hl H) as [_ [? Hx]]. destruct (Hl2 Hx). auto. }
  destruct r1 as [l|e]; intros [= <- <-]; simpl in *; rewrite Hv2, Hv.
  - split_and!; [done|done|done| |by intros ?%Hlive]. intros c [= <-] d i.
    destruct (Hu l eq_refl) as [Hnd Hel]. rewrite <- Hv, <- Hel.
    by apply (users_lookup l d i).
  - split_and!; [done|done|done|done|by intros ?%Hlive].
Qed.

(** The account that a wanted device should have. *)
Definition vless_of (dev : option Device) : option account :=
  match dev with
  | Some d => match IDFromCredentialHash (CredentialHash d) with
              | Ok i => Some (VlessAccount i) | Err _ => None end
  | None => None
  end.

Definition valid_hash (d : Device) : Prop := is_ok (IDFromCredentialHash (CredentialHash d)) = true.
Definition valid_hashes (D : gmap string Device) : Prop := forall d dev, D !! d = Some dev -> valid_hash dev.
Definition keyed (D : gmap string Device) : Prop := forall d dev, D !! d = Some dev -> ID dev = d.

(** From [w] to [w'] the accounts of the devices [ks], and no others, were
    made what [D] says. *)
Definition settles (ks : list string) (D : gmap string Device) (w w' : manager X) : Prop :=
  (forall d, d ∈ ks -> view w' !! email d = vless_of (D !! d))
  /\ (forall e, (forall d, d ∈ ks -> e <> email d) -> view w' !! e = view w !! e).

Lemma settles_cons d ks D w w1 w2 :
  d ∉ ks -> settles [d] D w w1 -> settles ks (delete d D) w1 w2 -> settles (d :: ks) D w w2.
Proof.
  intros Hni [A1 A2] [B1 B2]. split.
  - intros d' Hd'. destruct (decide (d' = d)) as [->|Hne].
    + rewrite B2; [by apply A1, list_elem_of_singleton|].
      intros d' Hd1 He. apply email_inj in He as ->. done.
    + rewrite B1 by (apply elem_of_cons in Hd'; tauto). by rewrite lookup_delete_ne.
  - intros e He. rewrite B2 by (intros; apply He; by constructor).
    apply A2. intros d' ->%list_elem_of_singleton. apply He. constructor.
Qed.

(** A program that settles the device [d], unless it fails. *)
Definition settling (ks : list string) (D : gmap string Device) {A} (m : prog (manager X) A) w : Prop :=
  forall r w', m w = (r, w') ->
    local w w' /\ (is_ok r = true -> settles ks D w w')
    /\ (live w -> valid_hashes D -> is_ok r = true /\ live w').

Lemma settling_remove d D w : D !! d = None -> settling [d] D (remove address d) w.
Proof.
  intros HD r w' H. apply remove_effect in H as (L & _ & V & A). split_and!; [done| |].
  - intros Hr. assert (Hv : r = Ok tt) by (by destruct r as [[]|]). apply V in Hv. split.
    + intros d' ->%list_elem_of_singleton. by rewrite Hv, lookup_delete_eq, HD.
    + intros e He. rewrite Hv, lookup_delete_ne; [done|]. intros <-. by destruct (He d (list_elem_of_here _ _)).
  - intros Hl _. destruct (A Hl) as [-> ?]. done.
Qed.

Lemma settling_replace d dev D w :
  D !! d = Some dev -> ID dev = d ->
  settling [d] D (bind (remove address d) (fun _ => add address dev)) w.
Proof.
  intros HD <- r w'. unfold bind. destruct (remove address (ID dev) w) as [[[]|e] w1] eqn:E1;
    apply remove_effect in E1 as (L1 & _ & V1 & A1).
  2:{ intros [= <- <-]. split_and!; [done|done|]. intros H _. by destruct (A1 H). }
  intros E2. apply add_effect in E2 as (L2 & _ & V2 & A2). specialize (V1 eq_refl).
  split_and!; [by etransitivity| |].
  - intros Hr. destruct V2 as (i & Hi & Hv); [by destruct r as [[]|]|]. split.
    + intros d' ->%list_elem_of_singleton. rewrite Hv, V1, lookup_insert_eq, HD. simpl. by rewrite Hi.
    + intros e He. specialize (He _ (list_elem_of_here _ _)).
      by rewrite Hv, V1, lookup_insert_ne, lookup_delete_ne by done.
  - intros H Hh. destruct (A1 H) as [_ H1]. destruct A2 as [-> ?]; [done| |by eapply Hh|done].
    rewrite V1. apply lookup_delete_eq.
Qed.

Lemma settling_add dev D w :
  D !! ID dev = Some dev -> view w !! email (ID dev) = None ->
  settling [ID dev] D (add address dev) w.
Proof.
  intros HD Hn r w' E2. apply add_effect in E2 as (L2 & _ & V2 & A2). split_and!; [done| |].
  - intros Hr. destruct V2 as (i & Hi & Hv); [by destruct r as [[]|]|]. split.
    + intros d' ->%list_elem_of_singleton. rewrite Hv, lookup_insert_eq, HD. simpl. by rewrite Hi.
    + intros e He. specialize (He _ (list_elem_of_here _ _)). by rewrite Hv, lookup_insert_ne.
  - intros H Hh. destruct A2 as [-> ?]; [done|done|by eapply Hh|done].
Qed.

(** The rest of a loop, after a round that settled [d]. *)
Lemma settling_cons d ks D D1 {A} (m : prog (manager X) unit) (k : prog (manager X) A) w :
  d ∉ ks -> D1 = delete d D -> settling [d] D m w ->
  (forall w1, settles [d] D w w1 -> settling ks D1 k w1) ->
  settling (d :: ks) D (bind m (fun _ => k)) w.
Proof.
  intros Hni -> Hm Hk r w'. unfold bind. destruct (m w) as [[[]|e] w1] eqn:Em;
    destruct (Hm _ _ Em) as (L1 & V1 & A1).
  2:{ intros [= <- <-]. split_and!; [done|done|]. intros Hl Hh. by destruct (A1 Hl Hh). }
  specialize (V1 eq_refl). intros H. destruct (Hk w1 V1 _ _ H) as (L2 & V2 & A2).
  split_and!; [by etransitivity| |].
  - intros Hr. by eapply settles_cons; [|done|apply V2].
  - intros Hl Hh. destruct (A1 Hl Hh) as [_ Hl1]. apply A2; [done|].
    intros d' dev Hd. apply lookup_delete_Some in Hd as [_ Hd]. eauto.
Qed.

Lemma settles_other d (ks : list string) D w w1 d' :
  settles [d] D w w1 -> d ∉ ks -> d' ∈ ks -> view w1 !! email d' = view w !! email d'.
Proof.
  intros [_ H] Hni Hd'. apply H. intros x ->%list_elem_of_singleton He.
  apply email_inj in He as ->. done.
Qed.

Lemma settling_current l : forall D w,
  NoDup l.*1 -> keyed D -> (forall d i, (d, i) ∈ l -> view w !! email d = Some (VlessAccount i)) ->
  settling l.*1 D (reconcile_current address l D) w.
Proof.
  induction l as [|[d i] l IH]; intros D w Hnd HD Hcur; cbn [reconcile_current fmap list_fmap fst] in *.
  { intros r w' [= <- <-]. split_and!; [done| |done]. intros _. split; [by intros d ?%elem_of_nil|done]. }
  apply NoDup_cons in Hnd as [Hni Hnd].
  assert (Hrest : forall D1 w1, D1 = delete d D -> settles [d] D w w1 ->
            settling l.*1 D1 (reconcile_current address l D1) w1).
  { intros D1 w1 -> Hs. apply IH; [done| |].
    - intros d' dev Hd. apply lookup_delete_Some in Hd as [_ Hd]. eauto.
    - intros d' i' Hd. rewrite (settles_other d l.*1 D w); [apply Hcur; by constructor|done|done|].
      apply list_elem_of_fmap. by exists (d', i'). }
  destruct (D !! d) as [dev|] eqn:ED.
  - destruct (IDFromCredentialHash (CredentialHash dev)) as [x|e] eqn:Ei; unfold bind at 1, lift; intros r w'.
    2:{ intros [= <- <-]. split_and!; [done|done|]. intros _ Hh.
        specialize (Hh d dev ED). unfold valid_hash in Hh. by rewrite Ei in Hh. }
    revert r w'. eapply settling_cons; [done|done| |intros w1 Hw1; by apply Hrest].
    destruct (String.eqb_spec i x) as [->|Hx]; cbn [negb]; [|by apply settling_replace, HD].
    intros r w' [= <- <-]. split_and!; [done| |done]. intros _. split; [|done].
    intros d' ->%list_elem_of_singleton. rewrite (Hcur d x), ED by constructor. simpl. by rewrite Ei.
  - eapply settling_cons; [done|by rewrite delete_id| |intros; apply Hrest; [by rewrite delete_id|done]].
    by apply settling_remove.
Qed.

(** What is left to add after the loop over the current users. *)
Lemma reconcile_current_rest l : forall D w D' w',
  reconcile_current address l D w = (Ok D', w') ->
  forall d, D' !! d = if bool_decide (d ∈ l.*1) then None else D !! d.
Proof.
  induction l as [|[d0 i] l IH]; intros D w D' w'; cbn [reconcile_current fmap list_fmap fst].
  { by intros [= <- <-]. }
  assert (Hc : forall d (D0 : gmap string Device), D0 !! d0 = None ->
    (if bool_decide (d ∈ l.*1) then None else D0 !! d)
    = (if bool_decide (d ∈ d0 :: l.*1) then None else D0 !! d)).
  { intros d D0 HD0. repeat case_bool_decide; rewrite ?elem_of_cons in *; try tauto.
    destruct (decide (d = d0)) as [->|]; [done|tauto]. }
  destruct (D !! d0) as [dev|] eqn:ED; unfold bind.
  - destruct (lift _ w) as [[x|e] w1]; [|done].
    intros H d. match type of H with context [match ?m w1 with _ => _ end] =>
      destruct (m w1) as [[[]|e] w2]; [|done] end. rewrite (IH _ _ _ _ H), Hc by apply lookup_delete_eq.
    case_bool_decide as Hd; [done|]. rewrite lookup_delete_ne; [done|].
    intros ->. apply Hd. constructor.
  - destruct (remove address d0 w) as [[[]|e] w1]; [|done].
    intros H d. by rewrite (IH _ _ _ _ H), Hc.
Qed.

Lemma settling_adds l : forall D w,
  NoDup l.*1 -> (forall d dev, (d, dev) ∈ l -> D !! d = Some dev /\ ID dev = d) ->
  (forall d, d ∈ l.*1 -> view w !! email d = None) ->
  settling l.*1 D (for_each (fun kv => add address (snd kv)) l) w.
Proof.
  induction l as [|[d dev] l IH]; intros D w Hnd HD Hn; cbn [for_each fmap list_fmap fst snd] in *.
  { intros r w' [= <- <-]. split_and!; [done| |done]. intros _. split; [by intros d ?%elem_of_nil|done]. }
  apply NoDup_cons in Hnd as [Hni Hnd].
  destruct (HD d dev (list_elem_of_here _ _)) as [Hd Hid]. subst d.
  eapply settling_cons; [done|done| |].
  - apply settling_add; [done|]. apply Hn. constructor.
  - intros w1 Hs. apply IH; [done| |].
    + intros d' dev' Hd'. destruct (HD d' dev'); [by constructor|]. split; [|done].
      rewrite lookup_delete_ne; [done|]. intros <-. apply Hni. apply list_elem_of_fmap. by exists (ID dev, dev').
    + intros d' Hd'. rewrite (settles_other (ID dev) l.*1 D w); [apply Hn; by constructor|done|done|done].
Qed.

(** Every user under an address of the manager has a VLESS account. *)
Definition managed (w : manager X) : Prop :=
  forall d a, view w !! email d = Some a -> exists i, a = VlessAccount i.

(** The devices that should be users. *)
Definition wanted (clock : string -> time) (w : manager X) (id : string) (d : Device) : Prop :=
  exists row, t_devices (db (mg_store w)) !! id = Some row /\ scanDevice row = Ok d
    /\ allowed d (clock id) = true /\ id ∉ mg_blocked w.

Definition desired_step (clock : string -> time) (blocked : gset string)
    (desired : gmap string Device) (device : Device) : gmap string Device :=
  if allowed device (clock (ID device)) && negb (bool_decide (ID device ∈ blocked))
  then <[ID device := device]> desired else desired.

Lemma desired_lookup clock b ds id d :
  (forall d1 d2, d1 ∈ ds -> d2 ∈ ds -> ID d1 = ID d2 -> d1 = d2) ->
  desired_devices clock b ds !! id = Some d <->
  d ∈ ds /\ ID d = id /\ allowed d (clock id) = true /\ id ∉ b.
Proof.
  change (desired_devices clock b ds) with (foldl (desired_step clock b) ∅ ds).
  induction ds as [|d0 ds IH] using rev_ind; intros Huniq.
  { simpl. rewrite lookup_empty. split; [done|]. by intros [?%elem_of_nil _]. }
  assert (Hu : forall d1 d2, d1 ∈ ds -> d2 ∈ ds -> ID d1 = ID d2 -> d1 = d2).
  { intros d1 d2 H1 H2. apply Huniq; apply elem_of_app; by left. }
  rewrite foldl_app. simpl. unfold desired_step at 1. rewrite elem_of_app, list_elem_of_singleton.
  specialize (IH Hu).
  destruct (allowed d0 (clock (ID d0)) && negb (bool_decide (ID d0 ∈ b))) eqn:E.
  - apply andb_true_iff in E as [E1 E2]. apply negb_true_iff, bool_decide_eq_false in E2.
    rewrite lookup_insert. case_decide as Hd; [subst id|rewrite IH; naive_solver].
    split; [intros [= <-]; auto|]. intros ([H| ->] & Hid & _); [|done]. f_equal.
    apply Huniq; [apply elem_of_app; right; by apply list_elem_of_singleton|apply elem_of_app; by left|done].
  - rewrite IH. split; [naive_solver|]. intros ([H| ->] & <- & H1 & H2); [auto|].
    rewrite H1 in E. simpl in E. apply negb_false_iff, bool_decide_eq_true in E. done.
Qed.

Lemma listed_unique t ds :
  db_ok t -> scan_all (sorted_rows t) = Ok ds ->
  (forall d, d ∈ ds <-> exists row, t_devices t !! ID d = Some row /\ scanDevice row = Ok d)
  /\ (forall d1 d2, d1 ∈ ds -> d2 ∈ ds -> ID d1 = ID d2 -> d1 = d2).
Proof.
  intros Hok Hds.
  assert (H : forall d, d ∈ ds <-> exists row, t_devices t !! ID d = Some row /\ scanDevice row = Ok d).
  { intros d. rewrite (scan_all_elem _ _ _ Hds). split.
    - intros (row & Hr & Hd). apply elem_of_sorted_rows in Hr as [k Hk]. exists row. split; [|done].
      destruct (scanDevice_id _ _ Hd) as [-> _]. by rewrite (ok_keys _ Hok _ _ Hk).
    - intros (row & Hr & Hd). exists row. split; [|done]. apply elem_of_sorted_rows. eauto. }
  split; [done|]. intros d1 d2 H1 H2 He. apply H in H1 as (r1 & Hr1 & Hd1).
  apply H in H2 as (r2 & Hr2 & Hd2). rewrite He in Hr1. congruence.
Qed.

Lemma reconcile_plan_effect clock w r w' :
  reconcile_plan address clock w = (r, w') -> db_ok (db (mg_store w)) ->
  db (mg_store w') = db (mg_store w) /\ mg_blocked w' = mg_blocked w /\ view w' = view w
  /\ (forall c D, r = Ok (c, D) ->
        (forall d i, c !! d = Some i <-> view w !! email d = Some (VlessAccount i))
        /\ (forall id d, D !! id = Some d <-> wanted clock w id d) /\ keyed D)
  /\ (faults (mg_store w) = [] -> live w -> is_ok r = true /\ live w').
Proof.
  intros H Hok. unfold reconcile_plan, bind in H.
  destruct (on Devices w) as [r1 w1] eqn:E1. apply on_cases in E1 as (s & E1 & ->).
  assert (Hs : db s = db (mg_store w)).
  { pose proof (keeps_query (same id) (fun t => scan_all (sorted_rows t)) (mg_store w)) as Hk.
    unfold on_db, same in Hk. simpl in E1. unfold Devices in E1. by rewrite E1 in Hk. }
  assert (Hf : faults (mg_store w) = [] -> is_ok r1 = true).
  { intros Hf. simpl in E1. destruct (mg_store w) as [t fs]. simpl in *. subst fs.
    unfold Devices in E1. rewrite query_ok in E1. destruct (scan_all_ok _ Hok) as [ds Hds].
    rewrite Hds in E1. by injection E1 as <- _. }
  destruct r1 as [ds|e].
  2:{ injection H as <- <-. split_and!; [done|done|done|done|]. intros Hf' _. by specialize (Hf Hf'). }
  destruct (current address (with_part s w)) as [r2 w2] eqn:E2.
  apply current_effect in E2 as ([Hs2 Hb2] & Hv2 & Hc & Hl). simpl in *.
  assert (Hds : scan_all (sorted_rows (db (mg_store w))) = Ok ds).
  { apply exec_cases in E1 as [[? _]|E1]; [done|]. by injection E1. }
  destruct (listed_unique _ _ Hok Hds) as [Hin Huniq].
  destruct r2 as [c|e]; injection H as <- <-; (split_and!; [congruence|done|done| |]).
  2:{ intros _ H. by apply Hl. } 2:{ done. } 2:{ intros _ H. by apply Hl. }
  intros c' D [= <- <-]. split_and!.
  - by apply Hc.
  - intros id d. rewrite Hb2, desired_lookup by done. unfold wanted. split.
    + intros (Hd & <- & ? & ?). apply Hin in Hd as (row & ? & ?). eauto.
    + intros (row & Hr & Hd & ? & ?).
      assert (ID d = id) as <-.
      { destruct (scanDevice_id _ _ Hd) as [-> _]. by apply (ok_keys _ Hok). }
      split_and!; [|done|done|done]. apply Hin. eauto.
  - intros id d. rewrite desired_lookup by done. naive_solver.
Qed.

(** What the users are after the plan [(c, D)] was carried out. *)
Definition settled (D : gmap string Device) (w w' : manager X) : Prop :=
  (forall d, view w' !! email d = vless_of (D !! d))
  /\ (forall e, (forall d, e <> email d) -> view w' !! e = view w !! e).

Lemma reconcile_apply_effect c D w r w' :
  reconcile_apply address (c, D) w = (r, w') -> managed w -> keyed D ->
  (forall d i, c !! d = Some i <-> view w !! email d = Some (VlessAccount i)) ->
  local w w' /\ (r = Ok tt -> settled D w w') /\ (live w -> valid_hashes D -> r = Ok tt).
Proof.
  intros H Hm HD Hc. unfold reconcile_apply, bind in H. cbn [fst snd] in H.
  destruct (reconcile_current address (range c) D w) as [r1 w1] eqn:E1.
  destruct (settling_current (range c) D w (NoDup_range c) HD
    ltac:(intros d i Hd; by apply Hc, elem_of_range) _ _ E1) as (L1 & V1 & A1).
  destruct r1 as [D1|e].
  2:{ injection H as <- <-. split_and!; [done|done|]. intros Hl Hh. by destruct (A1 Hl Hh). }
  pose proof (reconcile_current_rest _ _ _ _ _ E1) as Hrest. specialize (V1 eq_refl) as [V1a V1b].
  assert (Hsub : forall d dev, D1 !! d = Some dev -> D !! d = Some dev /\ c !! d = None).
  { intros d dev Hd. rewrite Hrest in Hd. case_bool_decide as Hin; [done|]. split; [done|].
    rewrite range_keys in Hin. by apply eq_None_not_Some. }
  assert (Hsame : forall d, c !! d = None -> view w1 !! email d = None).
  { intros d Hd. rewrite V1b.
    - destruct (view w !! email d) as [a|] eqn:Ea; [|done]. destruct (Hm _ _ Ea) as [i ->].
      apply Hc in Ea. congruence.
    - intros d' Hd' He. apply email_inj in He as ->. apply range_keys in Hd' as [? ?]. congruence. }
  destruct (settling_adds (range D1) D w1) with (r := r) (w' := w') as (L2 & V2 & A2); [| | |done|].
  - apply NoDup_range.
  - intros d dev Hd. apply elem_of_range in Hd. destruct (Hsub _ _ Hd). eauto.
  - intros d [dev Hd]%range_keys. apply Hsame. by destruct (Hsub _ _ Hd).
  - split_and!; [by etransitivity| |].
    + intros ->. specialize (V2 eq_refl) as [V2a V2b].
      split.
      * intros d. destruct (decide (d ∈ (range D1).*1)) as [Hd|Hd]; [by apply V2a|].
        rewrite V2b by (intros d' Hd' He; by apply email_inj in He as ->).
        destruct (c !! d) as [i|] eqn:Ecd; [apply V1a, range_keys; eauto|].
        rewrite Hsame by done. destruct (D !! d) as [dev|] eqn:ED; [|done]. destruct Hd.
        apply range_keys. rewrite Hrest, bool_decide_false; [eauto|]. rewrite range_keys, Ecd. by intros [].
      * intros e He. rewrite V2b, V1b; done.
    + intros Hl Hh. destruct (A1 Hl Hh) as [_ Hl1]. destruct (A2 Hl1 Hh) as [Hr _].
      by destruct r as [[]|].
Qed.

Lemma Reconcile_effect clock w r w' :
  Reconcile address clock w = (r, w') -> db_ok (db (mg_store w)) -> managed w ->
  db (mg_store w') = db (mg_store w) /\ mg_blocked w' = mg_blocked w
  /\ (r = Ok tt ->
        (forall id i, view w' !! email id = Some (VlessAccount i)
           <-> exists d, wanted clock w id d /\ IDFromCredentialHash (CredentialHash d) = Ok i)
        /\ managed w' /\ (forall e, (forall d, e <> email d) -> view w' !! e = view w !! e))
  /\ (faults (mg_store w) = [] -> live w ->
      (forall id d, wanted clock w id d -> valid_hash d) -> r = Ok tt).
Proof.
  intros H Hok Hm. unfold Reconcile, bind in H.
  destruct (reconcile_plan address clock w) as [r1 w1] eqn:E1.
  apply reconcile_plan_effect in E1 as (Hs & Hb & Hv & Hplan & A1); [|done].
  destruct r1 as [[c D]|e].
  2:{ injection H as <- <-. split_and!; [done|done|done|]. intros Hf Hl _. by destruct (A1 Hf Hl). }
  destruct (Hplan c D eq_refl) as (Hc & HD & Hkey).
  apply reconcile_apply_effect in H as ([Hs2 Hb2] & V2 & A2); [|by unfold managed; rewrite Hv|done|by rewrite Hv].
  split_and!; [congruence|congruence| |].
  - intros Hr. destruct (V2 Hr) as [Va Vb]. split_and!.
    + intros id i. rewrite Va. split.
      * destruct (D !! id) as [d|] eqn:E; [|done]. simpl.
        destruct (IDFromCredentialHash (CredentialHash d)) as [j|] eqn:Ej; [|done].
        intros [= ->]. exists d. split; [by apply HD|done].
      * intros (d & Hw & Hi). apply HD in Hw as ->. simpl. by rewrite Hi.
    + intros d a. rewrite Va. destruct (D !! d) as [dev|]; [|done]. simpl.
      destruct (IDFromCredentialHash _); [|done]. intros [= <-]. eauto.
    + intros e He. rewrite Vb, Hv; done.
  - intros Hf Hl Hh. destruct (A1 Hf Hl) as [_ Hl1]. apply A2; [done|].
    intros d dev Hd. apply HD in Hd. eauto.
Qed.

(** ** A removed device stays out *)

Definition out (id : string) (w : manager X) : Prop :=
  id ∈ mg_blocked w /\ view w !! email id = None.

Definition absent (id : string) (w : manager X) : Prop := view w !! email id = None.

(** A program that neither changes the blocked set nor makes [id] a user. *)
Definition quiet (id : string) {A} (m : prog (manager X) A) : Prop :=
  forall w r w', m w = (r, w') -> mg_blocked w' = mg_blocked w /\ (absent id w -> absent id w').

Lemma keeps_out_quiet id {A} (m : prog (manager X) A) : quiet id m -> keeps (preserves (out id)) m.
Proof.
  intros Hm w [H1 H2]. destruct (m w) as [r w'] eqn:E. destruct (Hm _ _ _ E) as [Hb Hv].
  split; simpl; [by rewrite Hb|by apply Hv].
Qed.
Lemma keeps_absent_quiet id {A} (m : prog (manager X) A) : quiet id m -> keeps (preserves (absent id)) m.
Proof. intros Hm w H. destruct (m w) as [r w'] eqn:E. by apply (Hm _ _ _ E). Qed.

Lemma quiet_store id {A} (m : prog sqlite A) : quiet id (on m).
Proof. intros w r w' H. by apply on_cases in H as (s & _ & ->). Qed.

Lemma quiet_dial id : quiet id (dial address).
Proof.
  intros w r w' H. apply dial_effect in H as ([_ Hb] & Hv & _). unfold absent. by rewrite Hv.
Qed.

Lemma quiet_remove id d : quiet id (remove address d).
Proof.
  intros w r w' H. unfold absent.
  apply remove_effect in H as ([_ Hb] & [Hv|Hv] & _); (split; [done|]); rewrite Hv; [done|].
  intros Hn. apply lookup_delete_None. auto.
Qed.

Lemma quiet_add id dev : ID dev <> id -> quiet id (add address dev).
Proof.
  intros Hne w r w' H. unfold absent.
  apply add_effect in H as ([_ Hb] & [Hv|(i & _ & Hv)] & _); (split; [done|]); rewrite Hv; [done|].
  rewrite lookup_insert_ne; [done|]. intros He. by apply email_inj in He.
Qed.

Lemma quiet_current id : quiet id (current address).
Proof.
  intros w r w' H. apply current_effect in H as ([_ Hb] & Hv & _). unfold absent. by rewrite Hv.
Qed.

Lemma quiet_bind id {A B} (m : prog (manager X) A) (k : A -> prog (manager X) B) :
  quiet id m -> (forall a, quiet id (k a)) -> quiet id (bind m k).
Proof.
  intros Hm Hk w r w'. unfold bind. destruct (m w) as [[a|e] w1] eqn:E;
    destruct (Hm _ _ _ E) as [Hb1 Hv1]; [|by intros [= <- <-]].
  intros H. destruct (Hk _ _ _ _ H) as [Hb2 Hv2]. split; [congruence|auto].
Qed.

Lemma quiet_pure id {A} (r : result A) : quiet id (lift r).
Proof. by intros w r' w' [= _ <-]. Qed.

Lemma quiet_ensure id dev : ID dev <> id -> quiet id (ensure address dev).
Proof.
  intros Hne. apply quiet_bind; [apply quiet_current|intros c].
  apply quiet_bind; [apply quiet_pure|intros i].
  destruct (String.eqb _ _); [apply (quiet_pure id (Ok tt))|].
  apply quiet_bind; [|intros _; by apply quiet_add].
  destruct (c !! ID dev); [apply quiet_remove|apply (quiet_pure id (Ok tt))].
Qed.

Lemma keeps_out_store id {A} (m : prog sqlite A) : keeps (preserves (out id)) (on m).
Proof. apply keeps_out_quiet, quiet_store. Qed.
Lemma keeps_out_dial id : keeps (preserves (out id)) (dial address).
Proof. apply keeps_out_quiet, quiet_dial. Qed.
Lemma keeps_out_remove id d : keeps (preserves (out id)) (remove address d).
Proof. apply keeps_out_quiet, quiet_remove. Qed.
Lemma keeps_out_add id dev : ID dev <> id -> keeps (preserves (out id)) (add address dev).
Proof. intros Hne. by apply keeps_out_quiet, quiet_add. Qed.
Lemma keeps_out_current id : keeps (preserves (out id)) (current address).
Proof. apply keeps_out_quiet, quiet_current. Qed.

Lemma keeps_out_revoke id d : keeps (preserves (out id)) (Revoke address d).
Proof.
  apply keeps_bind; [apply _| |intros; apply keeps_out_remove].
  intros w [H1 H2]. split; simpl; [set_solver|done].
Qed.

Lemma keeps_out_upsert id dev now : ID dev <> id -> keeps (preserves (out id)) (Upsert address dev now).
Proof.
  intros Hne. apply keeps_bind; [apply _| |intros _].
  - intros w [H1 H2]. split; simpl; [set_solver|done].
  - destruct (negb _); [apply keeps_out_remove|]. by apply keeps_out_quiet, quiet_ensure.
Qed.

Lemma quiet_loop id l : forall D : gmap string Device,
  (forall k dev, D !! k = Some dev -> ID dev <> id) ->
  quiet id (reconcile_current address l D)
  /\ (forall w D' w', reconcile_current address l D w = (Ok D', w') ->
        forall k dev, D' !! k = Some dev -> ID dev <> id).
Proof.
  intros D HD. split.
  - revert D HD. induction l as [|[d i] l IH]; intros D HD; cbn [reconcile_current]; [apply (quiet_pure id (Ok D))|].
    destruct (D !! d) as [dev|] eqn:E; [|apply quiet_bind; [apply quiet_remove|intros _; by apply IH]].
    apply quiet_bind; [apply quiet_pure|intros x].
    apply quiet_bind; [|intros _; apply IH; intros k dev' Hk; apply lookup_delete_Some in Hk as [_ Hk]; eauto].
    destruct (negb _); [|apply (quiet_pure id (Ok tt))].
    apply quiet_bind; [apply quiet_remove|intros _; apply quiet_add; eauto].
  - intros w D' w' H k dev Hk. rewrite (reconcile_current_rest _ _ _ _ _ H) in Hk.
    case_bool_decide; [done|]. eauto.
Qed.

Lemma reconcile_apply_quiet id plan :
  (forall k dev, snd plan !! k = Some dev -> ID dev <> id) -> quiet id (reconcile_apply address plan).
Proof.
  intros HD. destruct (quiet_loop id (range (fst plan)) (snd plan) HD) as [Hq Hrest].
  intros w r w'. unfold reconcile_apply, bind.
  destruct (reconcile_current _ _ _ w) as [[D'|e] w1] eqn:E; destruct (Hq _ _ _ E) as [Hb1 Hv1];
    [|by intros [= <- <-]].
  assert (Hall : Forall (fun kv => ID (snd kv) <> id) (range D')).
  { apply Forall_forall. intros [k dev] Hk. apply elem_of_range in Hk. simpl. by eapply Hrest. }
  assert (Hadds : quiet id (for_each (fun kv => add address (snd kv)) (range D'))).
  { induction Hall as [|kv l Hkv _ IH]; [apply (quiet_pure id (Ok tt))|].
    apply quiet_bind; [by apply quiet_add|intros _; exact IH]. }
  intros H. destruct (Hadds _ _ _ H). split; [congruence|auto].
Qed.

Lemma reconcile_plan_quiet id clock : quiet id (reconcile_plan address clock).
Proof.
  apply quiet_bind; [apply quiet_store|intros ds].
  apply quiet_bind; [apply quiet_current|intros c].
  apply quiet_bind; [by intros w r w' [= _ <-]|intros b]. apply (quiet_pure id (Ok _)).
Qed.

Lemma desired_not_blocked clock b ds k dev : desired_devices clock b ds !! k = Some dev -> ID dev ∉ b.
Proof.
  change (desired_devices clock b ds) with (foldl (desired_step clock b) ∅ ds).
  induction ds as [|d0 ds IH] using rev_ind; [done|]. rewrite foldl_app. simpl.
  unfold desired_step at 1. destruct (allowed d0 _ && negb (bool_decide (ID d0 ∈ b))) eqn:E; [|done].
  rewrite lookup_insert. destruct (decide (ID d0 = k)); [|exact IH]. intros [= <-].
  apply andb_true_iff in E as [_ E]. by apply negb_true_iff, bool_decide_eq_false in E.
Qed.

(** The devices of a plan, however the reading went. *)
Lemma reconcile_plan_devices clock w plan w' :
  reconcile_plan address clock w = (Ok plan, w') ->
  exists ds, scan_all (sorted_rows (db (mg_store w))) = Ok ds
    /\ snd plan = desired_devices clock (mg_blocked w) ds.
Proof.
  unfold reconcile_plan, bind. destruct (on Devices w) as [[ds|e] w1] eqn:E1; [|done].
  apply on_cases in E1 as (s & E1 & ->).
  destruct (current address (with_part s w)) as [[c|e] w2] eqn:E2; [|done].
  apply current_effect in E2 as ([_ Hb] & _). intros [= <- <-]. exists ds. simpl in *. rewrite Hb.
  split; [|done]. apply exec_cases in E1 as [[? _]|E1]; [done|]. by injection E1.
Qed.

Lemma keeps_out_reconcile id clock : keeps (preserves (out id)) (Reconcile address clock).
Proof.
  intros w Ho. unfold Reconcile, bind. destruct (reconcile_plan address clock w) as [r w1] eqn:E.
  assert (Ho1 : out id w1).
  { pose proof (keeps_out_quiet id _ (reconcile_plan_quiet id clock) w Ho) as H. by rewrite E in H. }
  destruct r as [plan|e]; [|done].
  apply (keeps_out_quiet id _); [|done]. apply reconcile_apply_quiet. intros k dev Hk.
  apply reconcile_plan_devices in E as (ds & _ & Hd). rewrite Hd in Hk. apply desired_not_blocked in Hk.
  intros <-. by destruct Ho.
Qed.

Lemma quiet_counters id d l : forall up down, quiet id (read_counters d l up down).
Proof.
  induction l as [|[dir []] l IH]; intros up down; [apply (quiet_pure id (Ok (up, down)))|].
  intros w r w'. cbn [read_counters]. destruct (xr_get_stats _ (mg_xray w)) as [reply x] eqn:E.
  apply xr_stats_law in E.
  assert (Ha : absent id w -> absent id (mkManager (mg_store w) (mg_blocked w) x)).
  { unfold absent, view. simpl. by rewrite E. }
  assert (Hrest : forall up down, read_counters d l up down (mkManager (mg_store w) (mg_blocked w) x) = (r, w') ->
            mg_blocked w' = mg_blocked w /\ (absent id w -> absent id w')).
  { intros u v H. destruct (IH u v _ _ _ H). split; auto. }
  destruct reply as [v|e]; [destruct (String.eqb dir "uplink"); apply Hrest|].
  destruct (grpc_code e =? NotFound); [apply Hrest|]. intros [= <- <-]. auto.
Qed.

Lemma keeps_out_counters id d l up down : keeps (preserves (out id)) (read_counters d l up down).
Proof. apply keeps_out_quiet, quiet_counters. Qed.

Lemma keeps_out_collect id c1 c2 : keeps (preserves (out id)) (CollectUsage address c1 c2).
Proof.
  apply keeps_bind; [apply _|apply keeps_out_store|intros ds].
  apply keeps_bind; [apply _|apply keeps_out_dial|intros _].
  apply keeps_for_each; [apply _|]. intros d. unfold collect_device.
  apply keeps_bind; [apply _|apply keeps_out_counters|intros [up down]].
  apply keeps_if; [|apply keeps_ret, _].
  apply keeps_bind; [apply _|apply keeps_out_store|intros _].
  apply keeps_bind; [apply _|apply keeps_out_store|intros [u|]]; [|apply keeps_ret, _].
  apply keeps_if; [|apply keeps_ret, _].
  apply keeps_bind; [apply _|apply keeps_try, keeps_out_revoke|intros; apply keeps_ret, _].
Qed.

(** ** Sequences of operations

    [MStore] is a change of the database by another part of the agent. *)
Inductive manager_op :=
  | MUpsert (d : Device) (now : time)
  | MRevoke (id : string)
  | MKick (id : string)
  | MReconcile (clock : string -> time)
  | MCollectUsage (clock1 clock2 : string -> time)
  | MStore (op : store_op).

Definition run_manager_op (op : manager_op) : prog (manager X) unit :=
  match op with
  | MUpsert d now => Upsert address d now
  | MRevoke id => Revoke address id
  | MKick id => Kick address id
  | MReconcile clock => Reconcile address clock
  | MCollectUsage c1 c2 => CollectUsage address c1 c2
  | MStore op => on (run_op op)
  end.

Definition run_manager (ops : list manager_op) (w : manager X) : manager X :=
  foldl (fun w op => (run_manager_op op w).2) w ops.

Definition readmits (id : string) (op : manager_op) : bool :=
  match op with MUpsert d _ => String.eqb (ID d) id | _ => false end.

Lemma run_manager_out id ops w :
  Forall (fun op => readmits id op = false) ops -> out id w -> out id (run_manager ops w).
Proof.
  intros Hops. revert w. induction Hops as [|op ops Hop _ IH]; intros w Hw; [done|].
  simpl. apply IH. destruct op; simpl in *.
  - apply keeps_out_upsert; [by apply String.eqb_neq|done].
  - by apply keeps_out_revoke.
  - by apply keeps_out_revoke.
  - by apply keeps_out_reconcile.
  - by apply keeps_out_collect.
  - by apply keeps_out_store.
Qed.

Lemma Revoke_out id w w' : Revoke address id w = (Ok tt, w') -> out id w'.
Proof.
  unfold Revoke, bind. cbn [setBlocked]. intros H.
  apply remove_effect in H as ([_ Hb] & _ & Hv & _). specialize (Hv eq_refl). split.
  - rewrite Hb. simpl. set_solver.
  - rewrite Hv. apply lookup_delete_eq.
Qed.
End Effects.

(** ** A server to run the examples on: it is always up *)

Record toy_xray := mkToyXray { ty_users : gmap string account; ty_stats : gmap string Z }.

#[export] Instance toy_xray_api : XrayApi toy_xray := {|
  xr_dial x := (Ok tt, x);
  xr_add_user e i x :=
    match ty_users x !! e with
    | Some _ => (Err (LibErr "User already exists"), x)
    | None => (Ok tt, mkToyXray (<[e := VlessAccount i]> (ty_users x)) (ty_stats x))
    end;
  xr_remove_user e x :=
    match ty_users x !! e with
    | None => (Some (mkGrpcError NotFound "rpc error: code = NotFound"), x)
    | Some _ => (None, mkToyXray (delete e (ty_users x)) (ty_stats x))
    end;
  xr_inbound_users x := (Ok (map_to_list (ty_users x)), x);
  xr_get_stats n x :=
    match ty_stats x !! n with
    | Some v => (inl v, mkToyXray (ty_users x) (<[n := 0]> (ty_stats x)))
    | None => (inr (mkGrpcError NotFound "rpc error: code = NotFound"), x)
    end |}.

#[export] Instance toy_xray_laws {UT : UnicodeTables} : XrayLaws toy_xray.
Proof.
  refine {| xr_view := ty_users; xr_live _ := True |}.
  - by intros x r x' [= <- <-].
  - intros e i x r x'. simpl. destruct (ty_users x !! e) eqn:E; intros [= <- <-]; simpl;
      (split; [|split; [done|by intros]]); [by right|by left].
  - intros e x err x'. simpl. destruct (ty_users x !! e) eqn:E; intros [= <- <-]; simpl;
      split; try done. intros _. split; [done|]. by intros g [= <-].
  - intros x r x' [= <- <-]. split_and!; [done| |done]. intros l [= <-].
    split; [apply NoDup_fst_map_to_list|]. intros e a. apply elem_of_map_to_list.
  - intros n x r x'. simpl. by destruct (ty_stats x !! n); intros [= <- <-].
Defined.

Definition toy_uuid : UuidSha1 := {| new_sha1 space data := space +:+ Encode data |}.

(** ** Properties *)


Definition sample_user : Device :=
  mkDevice "device-1" (Hash "secret") Plus true (FromUnix 2000) (FromUnix 3000) 0 0
    0 (FromUnix 0) 0 0 false (FromUnix 0).
Definition sample_manager (blocked : gset string) (users : gmap string account) : manager toy_xray :=
  mkManager (UpsertDevice sample_user (mkSqlite empty_tables [])).2 blocked (mkToyXray users ∅).

Lemma sample_manager_ok b u : db_ok (db (mg_store (sample_manager b u))).
Proof. apply (UpsertDevice_preserves sample_user eq_refl (mkSqlite empty_tables [])), db_ok_empty. Qed.

Lemma sample_manager_devices b u :
  t_devices (db (mg_store (sample_manager b u))) = {["device-1" := upsert_row sample_user None]}.
Proof. reflexivity. Qed.

Lemma sample_managed b : @managed plain_unicode toy_xray _ _ (sample_manager b ∅).
Proof. intros d a H. discriminate H. Qed.


(** A revoked or kicked device stays out of Xray.  Once [Revoke] has
    succeeded, then after any further operations of the manager and of the
    database, with any failures of the server and of the driver, the device is
    not among the Xray users, until an [Upsert] of that same device. *)
Theorem revoked_user_stays_out {UT : UnicodeTables} {US : UuidSha1} {MO : MapOrder} {X} {XA : XrayApi X}
    {XL : XrayLaws X} address id w w1 ops :
  Revoke address id w = (Ok tt, w1) ->
  Forall (fun op => readmits id op = false) ops ->
  view (run_manager address ops w1) !! email id = None.
Proof. intros H Hops. eapply run_manager_out; [done|]. by eapply Revoke_out. Qed.

Lemma revoked_user_stays_out_witness :
  let w := sample_manager ∅ {[email "device-1" := VlessAccount "x"]} in
  let w1 := (@Revoke plain_unicode _ _ "127.0.0.1:10085" "device-1" w).2 in
  @view plain_unicode _ _ _
    (@run_manager plain_unicode toy_uuid sorted_order _ _ "127.0.0.1:10085"
       [MReconcile (fun _ => FromUnix 1000)] w1) !! email "device-1" = None.
Proof.
  intros w w1.
  apply (@revoked_user_stays_out plain_unicode toy_uuid sorted_order _ _ _ "127.0.0.1:10085" "device-1" w w1).
  - vm_compute. reflexivity.
  - repeat constructor.
Defined.



(** Revocation can race with reconciliation.  The manager locks only the
    blocked set: when a device is revoked between the reading half of [Reconcile]
    and its writing half, the device is an Xray user again afterwards although it
    is blocked and inactive; the next successful reconciliation removes it. *)
Theorem revoke_races_with_reconcile :
  let api := "127.0.0.1:10085" in
  let clock := fun _ : string => FromUnix 1000 in
  let reconcile_plan := @reconcile_plan toy_xray _ api clock in
  let reconcile_apply := @reconcile_apply plain_unicode toy_uuid sorted_order toy_xray _ api in
  exists w1 w2 w3 plan,
    reconcile_plan (sample_manager ∅ ∅) = (Ok plan, w1)
    /\ (on (RevokeDevice "device-1") ;;; @Revoke plain_unicode _ _ api "device-1") w1 = (Ok tt, w2)
    /\ reconcile_apply plan w2 = (Ok tt, w3)
    /\ "device-1" ∈ mg_blocked w3
    /\ is_Some (@view plain_unicode _ _ _ w3 !! email "device-1")
    /\ (forall w4, @Reconcile plain_unicode toy_uuid sorted_order _ _ api clock w3 = (Ok tt, w4) ->
          forall i, @view plain_unicode _ _ _ w4 !! email "device-1" <> Some (VlessAccount i)).
Proof.
  intros api clock rp ra.
  set (p1 := rp (sample_manager ∅ ∅)).
  set (p2 := (on (RevokeDevice "device-1") ;;; @Revoke plain_unicode _ _ api "device-1") p1.2).
  set (p3 := ra (∅, {["device-1" := sample_user]}) p2.2).
  exists p1.2, p2.2, p3.2, (∅, {["device-1" := sample_user]}).
  assert (Hb : mg_blocked p3.2 = {["device-1"]}) by (vm_compute; reflexivity).
  assert (Hv : @view plain_unicode _ _ _ p3.2
                = {[email "device-1" := VlessAccount (@IDFromCredential toy_uuid "secret")]})
    by (vm_compute; reflexivity).
  split_and!; [vm_compute; reflexivity|vm_compute; reflexivity|vm_compute; reflexivity| | |].
  - rewrite Hb. by apply elem_of_singleton.
  - rewrite Hv, lookup_singleton_eq. eauto.
  - intros w4 H i Hi. apply (@Reconcile_effect plain_unicode toy_uuid sorted_order _ _ (@toy_xray_laws plain_unicode)) in H as (_ & _ & Hr & _).
    + destruct (Hr eq_refl) as [Hr1 _]. apply Hr1 in Hi as (d & (row & _ & _ & _ & Hn) & _).
      rewrite Hb in Hn. by apply Hn, elem_of_singleton.
    + replace (db (mg_store p3.2)) with (db (run_op (OpRevokeDevice "device-1") (mg_store (sample_manager ∅ ∅))).2)
        by (vm_compute; reflexivity).
      apply run_op_preserves; [done|]. apply sample_manager_ok.
    + intros d a. rewrite Hv. intros Ha. apply lookup_singleton_Some in Ha as [_ <-]. eauto.
Qed.
