(* ===== verification/Usage.v ===== *)
(** * The traffic collector

    src/internal/usage/collector.go polls the traffic API of the Hysteria server:
    it reads and clears the byte counters, records them in the database, kicks
    devices that used up a trial or a lease, and stores how many clients are
    online.  The Hysteria server is not part of the program: its three endpoints
    are the parameter [TrafficApi]. *)

From S2P Require Import Prelude GoStrings Json Model Store Policy.
From stdpp Require Import base gmap strings list.
From Stdlib Require Import ZArith Lia.
Open Scope Z_scope.

Record Counter := mkCounter { TX : Z; RX : Z }.

(** An HTTP answer: the status code and the body, [None] when the (limited) body
    is not a JSON document. *)
Record http_response := mkResponse { rs_status : Z; rs_body : option json }.

Class TrafficApi (H : Type) := {
  ta_get : string -> prog H http_response;      (* GET path *)
  ta_kick : string -> prog H Z }.               (* POST /kick with one device; the status *)

Record collector (H : Type) := mkCollector { co_store : sqlite; co_api : H }.
Arguments mkCollector {H}. Arguments co_store {H}. Arguments co_api {H}.

#[export] Instance collector_store H : Part sqlite (collector H).
Proof. refine {| part := co_store; with_part s w := mkCollector s (co_api w) |}; [done|by intros []]. Defined.
#[export] Instance collector_api H : Part H (collector H) | 1.
Proof. refine {| part := co_api; with_part h w := mkCollector (co_store w) h |}; [done|by intros []]. Defined.

(** [json.Decode] into a map: a repeated key keeps its last value. *)
Definition decode_map {A} (zero : A) (d : dec A) (j : json) : option (gmap string A) :=
  match j with
  | JNull => Some ∅
  | JObj members =>
      foldl (fun acc kv => m ← acc; v ← d (snd kv) zero; Some (<[fst kv := v]> m)) (Some ∅) members
  | _ => None
  end.

Definition dec_counter : dec Counter :=
  dec_struct (fun m old =>
    tx ← field "tx" dec_int m (TX old);
    rx ← field "rx" dec_int m (RX old);
    Some (mkCounter tx rx)).

Definition decode_body {A} (zero : A) (d : dec A) (body : option json) : result (gmap string A) :=
  match body ≫= decode_map zero d with
  | Some m => Ok m
  | None => Err (LibErr "encoding/json")
  end.

Section Collector.
Context {MO : MapOrder} {H : Type} {TA : TrafficApi H}.

Definition Kick (deviceID : string) : prog (collector H) unit :=
  let* status := on (ta_kick deviceID) in
  if (status <? 200) || (300 <=? status)
  then fail (Wrap "kick API returned" (Msg (FormatInt status)))
  else ret tt.

(** Whether the collector kicks a device that has used [used] bytes. *)
Definition kick_due (device : Device) (used : Z) : bool :=
  match Policy (Plan device) with
  | None => false
  | Some policy =>
      let quota := if QuotaBytes device <=? 0 then pp_QuotaBytes policy else QuotaBytes device in
      (String.eqb (Plan device) Trial && (quota <=? used))
      || ((0 <? LeaseBytes device) && (LeaseBytes device <=? used))
  end.

(** One round of the loop of [Collect]; [clock id] is the reading of the clock
    for the device [id]. *)
Definition collect_one (clock : string -> time) (kv : string * Counter) : prog (collector H) unit :=
  let '(deviceID, counter) := kv in
  if (TX counter <? 0) || (RX counter <? 0) then ret tt else
  let* recorded := try (on (AddUsage deviceID (TX counter) (RX counter) (clock deviceID))) in
  match recorded with
  | Err e => fail (Wrap ("persist usage for " +:+ deviceID) e)
  | Ok used =>
      let* found := try (on (DeviceByID deviceID)) in
      match found with
      | Ok (Some device) =>
          if kick_due device used then let* _ := try (Kick deviceID) in ret tt else ret tt
      | _ => ret tt
      end
  end.

Definition collectOnline : prog (collector H) unit :=
  let* response := on (ta_get "/online") in
  if negb (rs_status response =? 200)
  then fail (Wrap "online API returned" (Msg (FormatInt (rs_status response)))) else
  let* online := lift (decode_body 0 dec_int (rs_body response)) in
  let connections := foldl (fun n kv => if 0 <? snd kv then add64 n (snd kv) else n) 0 (range online) in
  on (SetState "online_devices" (FormatInt (Z.of_nat (size online)))) ;;;
  on (SetState "online_connections" (FormatInt connections)).

Definition Collect (clock : string -> time) : prog (collector H) unit :=
  let* response := on (ta_get "/traffic?clear=1") in
  if negb (rs_status response =? 200)
  then fail (Wrap "traffic API returned" (Msg (FormatInt (rs_status response)))) else
  let* counters := lift (decode_body (mkCounter 0 0) dec_counter (rs_body response)) in
  for_each (collect_one clock) (range counters) ;;;
  collectOnline.
End Collector.

(** ** Lemmas *)

Section Facts.
Context {MO : MapOrder} {H : Type} {TA : TrafficApi H}.

Definition counted (c : Counter) : bool := (0 <=? TX c) && (0 <=? RX c).

(** What one counter does to the database, and whether it leads to a kick. *)
Definition meter (clock : string -> time) (t : tables) (kv : string * Counter) : tables :=
  let '(id, c) := kv in
  if counted c
  then with_devices (alter (add_used (add64 (TX c) (RX c))) id) (insert_usage id (TX c) (RX c) (clock id) t)
  else t.

Definition exceeds (t : tables) (kv : string * Counter) : bool :=
  let '(id, c) := kv in
  counted c &&
  match t_devices t !! id with
  | Some row => match scanDevice (add_used (add64 (TX c) (RX c)) row) with
                | Ok d => kick_due d (UsedBytes d)
                | Err _ => false
                end
  | None => false
  end.

Definition kicks (h : H) (ids : list string) : H := foldl (fun h id => (ta_kick id h).2) h ids.

(** The counters name known devices and do not overflow. *)
Definition meterable (t : tables) (kv : string * Counter) : Prop :=
  counted (snd kv) = true -> exists row, t_devices t !! fst kv = Some row
    /\ in_int64 (dr_used_bytes row + add64 (TX (snd kv)) (RX (snd kv))) = true.

Lemma Kick_api id s h : (try (Kick id) (mkCollector s h)).2 = mkCollector s (ta_kick id h).2.
Proof.
  unfold try, Kick, bind, on. simpl. destruct (ta_kick id h) as [[st|e] h']; simpl; [|done].
  by destruct ((st <? 200) || (300 <=? st)).
Qed.

Lemma collect_one_ok clock kv t h :
  meterable t kv ->
  collect_one clock kv (mkCollector (mkSqlite t []) h)
  = (Ok tt, mkCollector (mkSqlite (meter clock t kv) [])
              (if exceeds t kv then (ta_kick (fst kv) h).2 else h)).
Proof.
  destruct kv as [id c]. unfold meterable, collect_one, meter, exceeds, counted. cbn [fst snd].
  replace ((TX c <? 0) || (RX c <? 0)) with (negb ((0 <=? TX c) && (0 <=? RX c))) by lia.
  destruct ((0 <=? TX c) && (0 <=? RX c)) eqn:E; cbn [negb andb]; [|done].
  intros Hm. destruct (Hm eq_refl) as (row & Hrow & Hin).
  unfold bind at 1, try at 1, on at 1. cbn [part collector_store co_store].
  rewrite (AddUsage_ok _ _ _ _ _ _ Hrow Hin). cbn [with_part collector_store co_api].
  unfold bind at 1, try at 1, on at 1, DeviceByID. cbn [part collector_store co_store].
  rewrite query_ok. cbn [with_part collector_store co_api].
  set (t' := with_devices _ _).
  assert (Hr' : t_devices t' !! id = Some (add_used (add64 (TX c) (RX c)) row)).
  { unfold t'. simpl. by rewrite lookup_alter, decide_True, Hrow by done. }
  rewrite Hr', Hrow. cbn [scan_option]. unfold scanDevice. cbn [dr_used_bytes add_used].
  rewrite Hin. cbn [result_map UsedBytes]. destruct (kick_due _ _); [|done].
  unfold bind. pose proof (Kick_api id (mkSqlite t' []) h) as HK. unfold try in *.
  destruct (Kick id _) as [r w']. simpl in HK. by subst w'.
Qed.

Lemma meter_lookup clock t kv k :
  t_devices (meter clock t kv) !! k
  = if decide (fst kv = k /\ counted (snd kv) = true)
    then add_used (add64 (TX (snd kv)) (RX (snd kv))) <$> t_devices t !! k else t_devices t !! k.
Proof.
  destruct kv as [id c]. unfold meter. cbn [fst snd]. destruct (counted c); simpl.
  - rewrite lookup_alter. repeat case_decide; try done; naive_solver.
  - case_decide; naive_solver.
Qed.

Lemma meter_other clock t kv k : fst kv <> k -> t_devices (meter clock t kv) !! k = t_devices t !! k.
Proof. intros Hk. rewrite meter_lookup, decide_False; [done|]. by intros []. Qed.

(** One round whatever fails: the counter is recorded, or the round fails and
    nothing has changed. *)
Lemma collect_one_cases clock kv s h r w' :
  collect_one clock kv (mkCollector s h) = (r, w') ->
  (counted (snd kv) = true /\ (exists e, r = Err (Wrap ("persist usage for " +:+ fst kv) e))
     /\ db (co_store w') = db s /\ co_api w' = h /\ (faults s = [] -> ~ meterable (db s) kv))
  \/ (r = Ok tt /\ db (co_store w') = meter clock (db s) kv /\ (faults s = [] -> faults (co_store w') = [])
      /\ exists kicked : bool, co_api w' = (if kicked then (ta_kick (fst kv) h).2 else h)
           /\ (kicked = true -> exceeds (db s) kv = true) /\ (faults s = [] -> kicked = exceeds (db s) kv)).
Proof.
  intros Hrun. assert (Hclean : faults s = [] -> meterable (db s) kv ->
    r = Ok tt /\ w' = mkCollector (mkSqlite (meter clock (db s) kv) []) (if exceeds (db s) kv then (ta_kick (fst kv) h).2 else h)).
  { intros Hf Hm. destruct s as [t f]. cbn in Hf. subst f. rewrite collect_one_ok in Hrun by done. by injection Hrun as <- <-. }
  destruct kv as [id c]. unfold collect_one in Hrun. unfold counted in *. cbn [fst snd] in *.
  replace ((TX c <? 0) || (RX c <? 0)) with (negb ((0 <=? TX c) && (0 <=? RX c))) in Hrun by lia.
  destruct ((0 <=? TX c) && (0 <=? RX c)) eqn:Ec; cbn [negb] in Hrun.
  2: { injection Hrun as <- <-. right. unfold meter, exceeds, counted. rewrite Ec. split_and!; [done..|]. by exists false. }
  unfold bind at 1, try at 1, on at 1 in Hrun. cbn [part collector_store co_store] in Hrun.
  destruct (AddUsage id (TX c) (RX c) (clock id) s) as [r0 s0] eqn:E. pose proof E as Hadd.
  apply AddUsage_cases in Hadd as [(e & -> & Hdb)|(row & Hrow & -> & Hin & Hdb)].
  { left. injection Hrun as <- <-. split_and!; [done|by exists e|done|done|]. intros Hf Hm. destruct (Hclean Hf Hm) as [? _]. done. }
  right. assert (Hm : meterable (db s) (id, c)) by (intros _; eauto).
  assert (Hmeter : db s0 = meter clock (db s) (id, c)) by (rewrite Hdb; unfold meter, counted; by rewrite Ec).
  enough (r = Ok tt /\ db (co_store w') = db s0 /\ exists kicked : bool, co_api w' = (if kicked then (ta_kick id h).2 else h)
    /\ (kicked = true -> exceeds (db s) (id, c) = true)) as (-> & Hd & kicked & Hk & Hx).
  { split_and!; [done|congruence|intros Hf; destruct (Hclean Hf Hm) as [_ ->]; done|].
    destruct (decide (faults s = [])) as [Hf|]; [|by exists kicked]. exists (exceeds (db s) (id, c)).
    destruct (Hclean Hf Hm) as [_ ->]. done. }
  unfold bind at 1, try at 1, on at 1 in Hrun. cbn [part with_part collector_store co_store co_api] in Hrun.
  destruct (DeviceByID id s0) as [r1 s1] eqn:E1. unfold DeviceByID in E1. apply exec_cases in E1 as [[-> Hs1]|E1].
  { injection Hrun as <- <-. split_and!; [done|exact Hs1|by exists false]. }
  injection E1 as <- Hs1. symmetry in Hs1. assert (Hl : t_devices (db s0) !! id = Some (add_used (add64 (TX c) (RX c)) row)).
  { rewrite Hdb. cbn. by rewrite lookup_alter, decide_True, Hrow. }
  rewrite Hl in Hrun. cbn [scan_option] in Hrun. unfold exceeds, counted. rewrite Ec, Hrow. cbn [andb].
  unfold scanDevice in *. cbn [dr_used_bytes add_used] in *. rewrite Hin in *. cbn [result_map UsedBytes] in *.
  destruct (kick_due _ _) eqn:Ek.
  - unfold bind in Hrun. cbn [with_part collector_store] in Hrun. pose proof (Kick_api id s1 h) as HK. unfold try in *.
    cbn [co_api] in Hrun. destruct (Kick id _) as [rk wk] eqn:EK. cbn in HK. subst wk.
    injection Hrun as <- <-. split_and!; [done|exact Hs1|]. by exists true.
  - injection Hrun as <- <-. split_and!; [done|exact Hs1|]. by exists false.
Qed.

(** The loop: the counters of [seen] are recorded, those of [todo] are not. *)
Record collected (clock : string -> time) (l : list (string * Counter)) (s : sqlite) (h : H) (r : result unit)
    (w' : collector H) (seen todo : list (string * Counter)) (ids : list string) : Prop := {
  cl_split : l = seen ++ todo;
  cl_db : db (co_store w') = foldl (meter clock) (db s) seen;
  cl_kicks : co_api w' = kicks h ids;
  cl_due : ids `sublist_of` (filter (fun kv => exceeds (db s) kv = true) seen).*1;
  cl_end : (todo = [] /\ r = Ok tt) \/ exists id c rest e, todo = (id, c) :: rest /\ counted c = true
             /\ r = Err (Wrap ("persist usage for " +:+ id) e);
  cl_clean : faults s = [] -> ids = (filter (fun kv => exceeds (db s) kv = true) seen).*1
               /\ (Forall (meterable (db s)) l -> todo = []) }.

Lemma collect_loop clock l s h r w' :
  NoDup l.*1 -> for_each (collect_one clock) l (mkCollector s h) = (r, w') ->
  exists seen todo ids, collected clock l s h r w' seen todo ids.
Proof.
  revert s h. induction l as [|kv l IH]; intros s h Hnd Hrun.
  { injection Hrun as <- <-. exists [], [], []. split; try done. by left. }
  apply NoDup_cons in Hnd as [Hni Hnd]. cbn [for_each] in Hrun. unfold bind in Hrun.
  destruct (collect_one clock kv (mkCollector s h)) as [r1 w1] eqn:E1. apply collect_one_cases in E1.
  destruct E1 as [(Hc & (e & ->) & Hdb & Hapi & Hbad)|(-> & Hdb & Hf & kicked & Hapi & Hk & Hkf)].
  { injection Hrun as <- <-. exists [], (kv :: l), []. destruct kv as [id c]. split; try done.
    - right. by exists id, c, l, e.
    - intros Hf. split; [done|]. intros [Hm _]%Forall_cons. by destruct (Hbad Hf). }
  assert (Hne : forall x, x ∈ l -> fst kv <> fst x).
  { intros x Hx He. apply Hni. apply list_elem_of_fmap. exists x. auto. }
  destruct w1 as [s1 h1]. cbn [co_store co_api] in *. destruct (IH s1 h1 Hnd Hrun) as (seen & todo & ids & [C1 C2 C3 C4 C5 C6]).
  assert (Hx : filter (fun x => exceeds (db s1) x = true) seen = filter (fun x => exceeds (db s) x = true) seen).
  { apply filter_agree. intros [k c] Hin. unfold exceeds. rewrite Hdb, meter_other; [done|]. apply (Hne (k, c)). rewrite C1. set_solver. }
  exists (kv :: seen), todo, (if kicked then fst kv :: ids else ids). rewrite Hx in C4, C6. split.
  - by rewrite C1.
  - by rewrite C2, Hdb.
  - rewrite C3, Hapi. by destruct kicked.
  - rewrite filter_cons. destruct kicked.
    + rewrite decide_True by auto. cbn. by constructor.
    + case_decide; [|done]. cbn. by apply sublist_cons.
  - done.
  - intros Hs. destruct (C6 (Hf Hs)) as [-> Hall]. rewrite (Hkf Hs), filter_cons. split.
    + destruct (exceeds (db s) kv); [by rewrite decide_True|by rewrite decide_False].
    + intros [_ Hm]%Forall_cons. apply Hall. apply Forall_forall. intros x Hin. rewrite Forall_forall in Hm. specialize (Hm x Hin).
      unfold meterable in *. rewrite Hdb, meter_other by (by apply Hne). exact Hm.
Qed.

Lemma meters_lookup clock l t k :
  NoDup l.*1 ->
  t_devices (foldl (meter clock) t l) !! k
  = match (list_to_map l : gmap string Counter) !! k with
    | Some c => if counted c then add_used (add64 (TX c) (RX c)) <$> t_devices t !! k else t_devices t !! k
    | None => t_devices t !! k
    end.
Proof.
  revert t. induction l as [|[id c] l IH]; intros t Hnd; [done|].
  apply NoDup_cons in Hnd as [Hni Hnd]. rewrite list_to_map_cons, lookup_insert.
  change (foldl (meter clock) t ((id, c) :: l)) with (foldl (meter clock) (meter clock t (id, c)) l).
  rewrite IH by done. case_decide as Hk.
  - subst k. apply not_elem_of_list_to_map_1 in Hni. cbn [fst] in Hni. rewrite Hni, meter_lookup.
    cbn [fst snd]. destruct (counted c); [by rewrite decide_True|by rewrite decide_False by (by intros [])].
  - destruct (list_to_map l !! k); by rewrite meter_other.
Qed.
End Facts.

Section Collecting.
Context {MO : MapOrder} {H : Type} {TA : TrafficApi H}.

(** The last part of [Collect] touches only the two counters of the state table. *)
Lemma collectOnline_effect (w : collector H) :
  t_devices (db (co_store (collectOnline w).2)) = t_devices (db (co_store w))
  /\ t_usage (db (co_store (collectOnline w).2)) = t_usage (db (co_store w))
  /\ co_api (collectOnline w).2 = (ta_get "/online" (co_api w)).2.
Proof.
  unfold collectOnline, bind. destruct (on (ta_get "/online") w) as [r w1] eqn:E.
  apply on_cases in E as (h & E & ->). simpl in E. rewrite E.
  destruct r as [resp|e]; [|done]. destruct (negb _); [done|]. unfold lift.
  destruct (decode_body _ _ _) as [online|e]; [|done].
  assert (Hset : forall k v (x : collector H) r' x', on (SetState k v) x = (r', x') ->
    co_api x' = co_api x /\ t_devices (db (co_store x')) = t_devices (db (co_store x))
    /\ t_usage (db (co_store x')) = t_usage (db (co_store x))).
  { intros k v x r' x' Hx. apply on_cases in Hx as (s & Hs & ->). simpl.
    apply update_cases in Hs as [(e & _ & ->)|[_ ->]]; done. }
  destruct (on (SetState "online_devices" _) _) as [[[]|e] w2] eqn:E2;
    apply Hset in E2 as (A1 & A2 & A3); simpl in *; [|split_and!; congruence].
  destruct (on (SetState "online_connections" _) w2) as [r3 w3] eqn:E3.
  apply Hset in E3 as (B1 & B2 & B3). simpl. split_and!; congruence.
Qed.

Lemma Collect_traffic clock h h1 body counters s :
  ta_get "/traffic?clear=1" h = (Ok (mkResponse 200 (Some body)), h1) ->
  decode_map (mkCounter 0 0) dec_counter body = Some counters ->
  Collect clock (mkCollector s h)
  = bind (for_each (collect_one clock) (range counters)) (fun _ => collectOnline) (mkCollector s h1).
Proof.
  intros Hget Hdec. unfold Collect at 1, bind at 1, on at 1. simpl part. rewrite Hget. simpl.
  unfold bind at 1, lift, decode_body. simpl. by rewrite Hdec.
Qed.

Lemma collect_one_unknown clock id c s h :
  counted c = true -> t_devices (db s) !! id = None ->
  exists e s', collect_one clock (id, c) (mkCollector s h)
               = (Err (Wrap ("persist usage for " +:+ id) e), mkCollector s' h)
               /\ db s' = db s.
Proof.
  unfold counted. intros Hc Hid. unfold collect_one.
  replace ((TX c <? 0) || (RX c <? 0)) with false by lia.
  unfold bind at 1, try at 1, on at 1. cbn [part collector_store co_store].
  destruct (AddUsage id (TX c) (RX c) (clock id) s) as [r0 s0] eqn:E.
  apply AddUsage_cases in E as [(e & -> & Hdb)|(row & Hrow & _)]; [|congruence].
  exists e, s0. done.
Qed.
End Collecting.

(** ** Properties *)


(** A traffic API for the examples: it returns a fixed document and remembers
    the kicks. *)
Record toy_traffic := mkToyTraffic { tt_body : json; tt_kicked : list string }.
#[export] Instance toy_traffic_api : TrafficApi toy_traffic := {|
  ta_get path h := (Ok (mkResponse 200 (Some (if String.eqb path "/online" then JObj [] else tt_body h))), h);
  ta_kick id h := (Ok 200, mkToyTraffic (tt_body h) (tt_kicked h ++ [id])) |}.

Definition counter_json (tx rx : Z) : json := JObj [("tx", jint tx); ("rx", jint rx)].
Definition leased_device : Device :=
  mkDevice "device-1" "hash-1" Plus true (FromUnix 2000) (FromUnix 3000) 0 0
    1000 (FromUnix 2000) 0 0 false (FromUnix 0).


(** One unknown device stops a whole collection.  When the traffic API,
    which has already cleared its counters, reports a device that the database
    does not know, and the loop meets it first, [Collect] fails and records
    nothing at all, whatever the other counters are. *)
Theorem unknown_device_stops_collection {MO : MapOrder} {H} {TA : TrafficApi H} clock s h h1 body counters
    id c l r w' :
  ta_get "/traffic?clear=1" h = (Ok (mkResponse 200 (Some body)), h1) ->
  decode_map (mkCounter 0 0) dec_counter body = Some counters ->
  range counters = (id, c) :: l -> counted c = true -> t_devices (db s) !! id = None ->
  Collect clock (mkCollector s h) = (r, w') ->
  (exists e, r = Err (Wrap ("persist usage for " +:+ id) e)) /\ db (co_store w') = db s /\ co_api w' = h1.
Proof.
  intros Hget Hdec Hr Hc Hid Hrun. rewrite (Collect_traffic _ _ _ _ _ _ Hget Hdec), Hr in Hrun.
  destruct (collect_one_unknown clock id c s h1 Hc Hid) as (e & s' & He & Hdb).
  unfold bind in Hrun. cbn [for_each] in Hrun. unfold bind in Hrun. rewrite He in Hrun.
  injection Hrun as <- <-. simpl. eauto.
Qed.

Lemma unknown_device_stops_collection_witness :
  let t := db (UpsertDevice leased_device (mkSqlite empty_tables [])).2 in
  let h := mkToyTraffic (JObj [("device-1", counter_json 600 500); ("ghost", counter_json 1 1)]) [] in
  let w' := (@Collect sorted_order _ _ (fun _ => 0) (mkCollector (mkSqlite t []) h)).2 in
  db (co_store w') = t.
Proof.
  intros t h w'.
  eapply (@unknown_device_stops_collection sorted_order _ _ (fun _ => 0) (mkSqlite t []) h h (tt_body h)
    {["device-1" := mkCounter 600 500; "ghost" := mkCounter 1 1]} "ghost" (mkCounter 1 1)
    [("device-1", mkCounter 600 500)]
    (@Collect sorted_order _ _ (fun _ => 0) (mkCollector (mkSqlite t []) h)).1 w').
  - reflexivity.
  - vm_compute. reflexivity.
  - vm_compute. reflexivity.
  - reflexivity.
  - vm_compute. reflexivity.
  - vm_compute. reflexivity.
Defined.
