(* ===== verification/Enrollment.v ===== *)
(** * Enrollment of the node

    src/internal/enrollment/service.go: the node's identity, the one-time claim
    token and the bundle that carries it, and the claim by a controller.  X.509
    certificates, PEM and URL parsing are parameters: the program uses only the
    observations listed in [X509] and [UrlParser]. *)

From S2P Require Import Prelude GoStrings Base64 Json Model Store Crypto.
From stdpp Require Import base gmap strings list.
From Stdlib Require Import ZArith Lia.
Open Scope Z_scope.

(** [crypto/x509] and [encoding/pem], as far as the agent looks. *)
Class X509 := {
  Certificate : Type;
  pem_decode : string -> option (string * string);        (* block type and bytes *)
  parse_certificate : string -> option Certificate;
  cert_verify : Certificate -> Certificate -> time -> bool;  (* leaf, root, time: client authentication *)
  cert_public_key : Certificate -> option string;         (* an Ed25519 key, if it is one *)
  cert_not_after : Certificate -> time }.

(** [url.Parse]: scheme and host of an address. *)
Class UrlParser := { url_parse : string -> option (string * string) }.

Definition BundlePrefix : string := "rvpn1_".

Record Bundle := mkBundle {
  b_Version : Z; b_NodeID : string; b_Domain : string; b_ClaimEndpoint : string;
  b_NodePublicKey : string; b_ClaimToken : string; b_ExpiresAt : time; b_AgentVersion : string }.

Record ClaimRequest := mkClaimRequest {
  rq_ClaimToken : string; rq_ControllerURL : string; rq_ControllerPublicKey : string;
  rq_QuotaPublicKey : string; rq_CompliancePublicKey : string;
  rq_NodeCertificatePEM : string; rq_ControllerCAPEM : string }.

Definition encode_Bundle (b : Bundle) : option json :=
  e ← jtime (b_ExpiresAt b);
  Some (JObj [("version", jint (b_Version b)); ("nodeId", JStr (b_NodeID b));
              ("domain", JStr (b_Domain b)); ("claimEndpoint", JStr (b_ClaimEndpoint b));
              ("nodePublicKey", JStr (b_NodePublicKey b)); ("claimToken", JStr (b_ClaimToken b));
              ("expiresAt", e); ("agentVersion", JStr (b_AgentVersion b))]).

Section Service.
Context {MO : MapOrder} {XC : X509} {UP : UrlParser}.
Context (domain version : string).

(** [security.NewIdentity] and [security.UUID] draw random bytes: their outcomes
    are the arguments [identity] (public and private key) and [uuid]. *)
Definition ensureIdentity (identity : result (string * string)) (uuid : result string) : prog sqlite unit :=
  let* private := State "node_private_key" in
  let* public := State "node_public_key" in
  let* nodeID := State "node_id" in
  let has {A} (o : option A) := match o with Some _ => true | None => false end in
  if has private || has public || has nodeID then
    if has private && has public && has nodeID && negb (String.eqb (default "" private) "")
    then ret tt
    else fail (Msg "node identity is incomplete; restore the database from backup instead of regenerating it")
  else
  let* keys := lift identity in
  let* newID := lift uuid in
  SetStates (range {["node_id" := newID; "node_public_key" := Encode (fst keys);
                     "node_private_key" := Encode (snd keys)]}).

(** [v, ok, err := State(key); if err != nil || !ok { return errors.New(message) }] *)
Definition require_state (key message : string) : prog sqlite string :=
  let* found := try (State key) in
  match found with
  | Ok (Some v) => ret v
  | _ => fail (Msg message)
  end.

Definition bundle (token : string) (expires : time) : prog sqlite string :=
  let* nodeID := require_state "node_id" "node ID is missing" in
  let* publicKey := require_state "node_public_key" "node public key is missing" in
  match encode_Bundle (mkBundle 1 nodeID domain ("https://" +:+ domain +:+ ":8443/v1/enrollment/claim")
                         publicKey token expires version) with
  | None => fail (LibErr "encoding/json")
  | Some payload => ret (BundlePrefix +:+ Encode (print payload))
  end.

(** [token] is the outcome of [security.RandomToken(32)]. *)
Definition Reenroll (identity : result (string * string)) (uuid token : result string) (now : time)
    : prog sqlite string :=
  ensureIdentity identity uuid ;;;
  let* token := lift token in
  let expires := TimeAdd now (24 * hour) in
  ReplaceEnrollment token (Hash token) expires ;;;
  bundle token expires.

Definition Ensure (identity : result (string * string)) (uuid token : result string) (now now' : time)
    : prog sqlite string :=
  ensureIdentity identity uuid ;;;
  let* found := GetEnrollment in
  match found with
  | Some e =>
      match en_ClaimedAt e with
      | Some _ => ret ""
      | None => if negb (After (en_ExpiresAt e) now) then Reenroll identity uuid token now'
                else bundle (en_Token e) (en_ExpiresAt e)
      end
  | None => Reenroll identity uuid token now'
  end.

Definition Current (now : time) : prog sqlite string :=
  let* found := GetEnrollment in
  match found with
  | None => fail (Msg "enrollment has not been initialized")
  | Some e =>
      match en_ClaimedAt e with
      | Some _ => fail (Msg "node is already claimed")
      | None => if negb (After (en_ExpiresAt e) now)
                then fail (Msg "enrollment token has expired; run reenroll")
                else bundle (en_Token e) (en_ExpiresAt e)
      end
  end.

Definition parseCertificate (value : string) : result Certificate :=
  match pem_decode value with
  | None => Err (Msg "PEM certificate is required")
  | Some (kind, bytes) =>
      if negb (String.eqb kind "CERTIFICATE") then Err (Msg "PEM certificate is required") else
      match parse_certificate bytes with
      | Some c => Ok c
      | None => Err (LibErr "crypto/x509")
      end
  end.

Definition valid_public_key (encoded : string) : bool :=
  match Decode encoded with
  | Some raw => (String.length raw =? PublicKeySize)%nat
  | None => false
  end.

(** The tests of [Claim] before it looks into the database. *)
Definition check_request (request : ClaimRequest) (now : time) : result Certificate :=
  if String.eqb (TrimSpace (rq_ClaimToken request)) "" then Err (Msg "claimToken is required") else
  if negb (match url_parse (rq_ControllerURL request) with
           | Some (scheme, host) =>
               (String.eqb scheme "wss" || String.eqb scheme "https") && negb (String.eqb host "")
           | None => false
           end)
  then Err (Msg "controllerUrl must be an absolute wss:// or https:// URL") else
  if negb (valid_public_key (rq_ControllerPublicKey request))
  then Err (Msg "controllerPublicKey must be a base64url Ed25519 public key") else
  match parseCertificate (rq_NodeCertificatePEM request) with
  | Err e => Err (Wrap "invalid node certificate" e)
  | Ok nodeCert =>
      match parseCertificate (rq_ControllerCAPEM request) with
      | Err e => Err (Wrap "invalid controller CA" e)
      | Ok controllerCA =>
          if negb (cert_verify nodeCert controllerCA now)
          then Err (Wrap "node certificate is not valid for the controller CA" (LibErr "crypto/x509"))
          else Ok nodeCert
      end
  end.

Definition claim_keys (request : ClaimRequest) : gmap string string :=
  (if negb (String.eqb (rq_CompliancePublicKey request) "")
   then insert "compliance_public_key" (rq_CompliancePublicKey request) else fun m => m)
  ((if negb (String.eqb (rq_QuotaPublicKey request) "")
    then insert "quota_public_key" (rq_QuotaPublicKey request) else fun m => m) ∅).

(** [now1] and [now2] are the readings of the clock for the certificate and for
    the token. *)
Definition ClaimNode (request : ClaimRequest) (now1 now2 : time) : prog sqlite unit :=
  let* nodeCert := lift (check_request request now1) in
  let* publicEncoded := require_state "node_public_key" "node identity is missing" in
  match Decode publicEncoded with
  | None => fail (LibErr "encoding/base64")
  | Some publicRaw =>
      if negb (match cert_public_key nodeCert with Some k => String.eqb k publicRaw | None => false end)
      then fail (Msg "node certificate does not match this node identity") else
      if negb (String.eqb (rq_QuotaPublicKey request) "") && negb (valid_public_key (rq_QuotaPublicKey request))
      then fail (Msg "quotaPublicKey must be a base64url Ed25519 public key") else
      if negb (String.eqb (rq_CompliancePublicKey request) "")
         && negb (valid_public_key (rq_CompliancePublicKey request))
      then fail (Msg "compliancePublicKey must be a base64url Ed25519 public key") else
      Claim (Hash (rq_ClaimToken request)) (rq_ControllerURL request) (rq_ControllerPublicKey request)
        (rq_NodeCertificatePEM request) (rq_ControllerCAPEM request) now2 ;;;
      let states := claim_keys request in
      if (0 <? Z.of_nat (size states)) then SetStates (range states) else ret tt
  end.
End Service.

(** ** Lemmas *)

Lemma set_states_lookup l m k :
  NoDup l.*1 ->
  set_states l m !! k = match (list_to_map l : gmap string string) !! k with Some v => Some v | None => m !! k end.
Proof.
  unfold set_states. revert m. induction l as [|[k0 v0] l IH]; intros m Hnd; [done|].
  apply NoDup_cons in Hnd as [Hni Hnd]. rewrite list_to_map_cons, lookup_insert.
  change (foldl (fun m kv => <[kv.1:=kv.2]> m) m ((k0, v0) :: l))
    with (foldl (fun m kv => <[kv.1:=kv.2]> m) (<[k0:=v0]> m) l).
  rewrite IH by done. case_decide as Hk.
  - subst. apply not_elem_of_list_to_map_1 in Hni. cbn [fst] in Hni. rewrite Hni. apply lookup_insert_eq.
  - by rewrite lookup_insert_ne.
Qed.

Lemma set_states_range {MO : MapOrder} (states m : gmap string string) :
  set_states (range states) m = states ∪ m.
Proof.
  apply map_eq. intros k. rewrite set_states_lookup by apply NoDup_range.
  rewrite (list_to_map_proper (range states) (map_to_list states)), list_to_map_to_list.
  - by rewrite lookup_union; destruct (states !! k), (m !! k).
  - apply NoDup_range.
  - apply range_perm.
Qed.

Lemma SetStates_cases {MO : MapOrder} states s r s' :
  SetStates (range states) s = (r, s') ->
  (exists e, r = Err e /\ db s' = db s) \/ (r = Ok tt /\ db s' = with_state (fun m => states ∪ m) (db s)).
Proof.
  intros H. apply transaction_cases in H as [?|([] & s1 & s2 & -> & Hs1 & H & Hs2)]; [by left|].
  right. split; [done|]. apply set_states_cases in H; [|done]. rewrite Hs2, H, Hs1.
  unfold with_state. by rewrite set_states_range.
Qed.

Lemma SetStates_ok {MO : MapOrder} states t :
  SetStates (range states) (mkSqlite t []) = (Ok tt, mkSqlite (with_state (fun m => states ∪ m) t) []).
Proof.
  unfold SetStates. rewrite (transaction_ok _ _ _ _ (set_states_ok (range states) t)). simpl.
  unfold with_state. by rewrite set_states_range.
Qed.

(** Reading a state key leaves the tables alone and answers what is stored. *)
Lemma State_cases k s r s' :
  State k s = (r, s') -> db s' = db s /\ (forall v, r = Ok v -> v = t_state (db s) !! k).
Proof.
  intros H. apply exec_cases in H as [[-> ->]|H]; [done|]. injection H as <- <-. split; [done|]. by intros v [= <-].
Qed.

Lemma require_state_cases k msg s r s' :
  require_state k msg s = (r, s') -> db s' = db s /\ (forall v, r = Ok v -> t_state (db s) !! k = Some v).
Proof.
  unfold require_state, bind, try. destruct (State k s) as [r1 s1] eqn:E.
  apply State_cases in E as [Hs Hv]. destruct r1 as [[v|]|e]; intros [= <- <-]; (split; [done|]); try done.
  intros v' [= <-]. by rewrite <- (Hv _ eq_refl).
Qed.

Lemma require_state_ok k msg t v :
  t_state t !! k = Some v -> require_state k msg (mkSqlite t []) = (Ok v, mkSqlite t []).
Proof. intros H. unfold require_state, bind, try, State. rewrite query_ok, H. done. Qed.

(** ** The identity of the node *)

Definition identity_keys : list string := ["node_id"; "node_public_key"; "node_private_key"].

(** What was set stays set to the same values, and the three keys are set
    together. *)
Definition identity_kept (t t' : tables) : Prop :=
  forall k v, k ∈ identity_keys -> t_state t !! k = Some v -> t_state t' !! k = Some v.
#[export] Instance identity_kept_preorder : PreOrder identity_kept.
Proof. split; [by intros t k v|]. intros x y z H1 H2 k v Hk Hv. eauto. Qed.

Definition identity_whole (t : tables) : Prop :=
  (forall k, k ∈ identity_keys -> t_state t !! k = None)
  \/ (forall k, k ∈ identity_keys -> is_Some (t_state t !! k)).

Definition identity_rel : relation tables := fun t t' =>
  identity_kept t t' /\ preserves identity_whole t t'.
#[export] Instance identity_rel_preorder : PreOrder identity_rel.
Proof. split; [split; reflexivity|]. intros x y z [] []. split; etransitivity; eauto. Qed.

Lemma identity_rel_same t t' : t_state t' = t_state t -> identity_rel t t'.
Proof. intros H. split; [intros k v _|unfold preserves, identity_whole]; by rewrite H. Qed.

Lemma identity_rel_state f t :
  (forall k, k ∈ identity_keys -> f (t_state t) !! k = t_state t !! k) -> identity_rel t (with_state f t).
Proof.
  intros H. split.
  - intros k v Hk Hv. simpl. by rewrite H.
  - intros [Hn|Hs]; [left|right]; intros k Hk; simpl; rewrite H; auto.
Qed.

Section Identity.
Context {MO : MapOrder} {XC : X509} {UP : UrlParser}.

Lemma ensureIdentity_rel identity uuid : keeps (on_db identity_rel) (ensureIdentity identity uuid).
Proof.
  intros s. unfold on_db, ensureIdentity, bind.
  destruct (State "node_private_key" s) as [r1 s1] eqn:E1. apply State_cases in E1 as [Hs1 Hv1].
  destruct r1 as [p|]; [|simpl; by rewrite Hs1]. specialize (Hv1 _ eq_refl).
  destruct (State "node_public_key" s1) as [r2 s2] eqn:E2. apply State_cases in E2 as [Hs2 Hv2].
  destruct r2 as [q|]; [|simpl; by rewrite Hs2, Hs1]. specialize (Hv2 _ eq_refl).
  destruct (State "node_id" s2) as [r3 s3] eqn:E3. apply State_cases in E3 as [Hs3 Hv3].
  destruct r3 as [i|]; [|simpl; by rewrite Hs3, Hs2, Hs1]. specialize (Hv3 _ eq_refl).
  assert (Hdb : db s3 = db s) by congruence. rewrite Hs1 in Hv2. rewrite Hs2, Hs1 in Hv3.
  destruct (_ || _ || _) eqn:Eb.
  { destruct (_ && negb _); simpl; by rewrite Hdb. }
  destruct p; [done|]. destruct q; [done|]. destruct i; [done|].
  unfold lift. destruct identity as [[pub priv]|]; [|simpl; by rewrite Hdb].
  destruct uuid as [newID|]; [|simpl; by rewrite Hdb].
  destruct (SetStates _ s3) as [r s'] eqn:E. apply SetStates_cases in E as [(e & _ & E)|[_ E]];
    simpl; rewrite E, Hdb; [done|].
  assert (Hnone : forall k, k ∈ identity_keys -> t_state (db s) !! k = None).
  { intros k Hk. unfold identity_keys in Hk. rewrite !elem_of_cons, elem_of_nil in Hk. naive_solver. }
  split.
  - intros k v Hk Hv. rewrite Hnone in Hv by done. done.
  - intros _. right. intros k Hk. simpl. apply lookup_union_is_Some. left.
    unfold identity_keys in Hk. rewrite !elem_of_cons, elem_of_nil in Hk.
    destruct Hk as [->|[->|[->|[]]]];
      rewrite ?lookup_insert_eq, ?lookup_insert_ne, ?lookup_insert_eq, ?lookup_insert_ne,
        ?lookup_singleton_eq by done; eauto.
Qed.

Lemma query_rel {A} (f : tables -> result A) : keeps (on_db identity_rel) (query f).
Proof. apply keeps_query, _. Qed.

Lemma require_state_rel k msg : keeps (on_db identity_rel) (require_state k msg).
Proof.
  intros s. unfold on_db. destruct (require_state k msg s) as [r s'] eqn:E.
  apply require_state_cases in E as [E _]. simpl. by rewrite E.
Qed.

Lemma bundle_rel domain version token expires :
  keeps (on_db identity_rel) (bundle domain version token expires).
Proof.
  apply keeps_bind; [apply _|apply require_state_rel|intros i].
  apply keeps_bind; [apply _|apply require_state_rel|intros p].
  destruct (encode_Bundle _); [apply keeps_ret, _|apply keeps_fail, _].
Qed.

Lemma Reenroll_rel domain version identity uuid token now :
  keeps (on_db identity_rel) (Reenroll domain version identity uuid token now).
Proof.
  apply keeps_bind; [apply _|apply ensureIdentity_rel|intros _].
  apply keeps_bind; [apply _|apply keeps_lift, _|intros tok].
  apply keeps_bind; [apply _| |intros _; apply bundle_rel].
  apply keeps_update; [apply _|]. intros t. by apply identity_rel_same.
Qed.

Lemma Ensure_rel domain version identity uuid token now now' :
  keeps (on_db identity_rel) (Ensure domain version identity uuid token now now').
Proof.
  apply keeps_bind; [apply _|apply ensureIdentity_rel|intros _].
  apply keeps_bind; [apply _|apply query_rel|intros [e|]]; [|apply Reenroll_rel].
  destruct (en_ClaimedAt e); [apply keeps_ret, _|].
  apply keeps_if; [apply Reenroll_rel|apply bundle_rel].
Qed.

Lemma Current_rel domain version now : keeps (on_db identity_rel) (Current domain version now).
Proof.
  apply keeps_bind; [apply _|apply query_rel|]. intros [e|]; [|apply keeps_fail, _].
  destruct (en_ClaimedAt e); [apply keeps_fail, _|].
  apply keeps_if; [apply keeps_fail, _|apply bundle_rel].
Qed.

Lemma Claim_rel h u k c a now : keeps (on_db identity_rel) (Claim h u k c a now).
Proof.
  intros s. unfold on_db. destruct (Claim h u k c a now s) as [r s'] eqn:E.
  apply Claim_cases in E as [(e & _ & E)|(_ & [e He] & E)]; simpl; rewrite E; [done|].
  unfold claim_effect, claim_row. rewrite He. etransitivity; [|apply identity_rel_state]; [by apply identity_rel_same|].
  intros k' Hk. unfold identity_keys in Hk. rewrite !elem_of_cons, elem_of_nil in Hk.
  simpl. rewrite !lookup_insert_ne by (destruct Hk as [->|[->|[->|[]]]]; done). done.
Qed.

Lemma claim_keys_identity request k : k ∈ identity_keys -> claim_keys request !! k = None.
Proof.
  intros Hk. unfold identity_keys in Hk. rewrite !elem_of_cons, elem_of_nil in Hk. unfold claim_keys.
  destruct (negb (String.eqb (rq_CompliancePublicKey request) "")),
    (negb (String.eqb (rq_QuotaPublicKey request) ""));
    rewrite ?lookup_insert_ne by (destruct Hk as [->|[->|[->|[]]]]; done); apply lookup_empty.
Qed.

Lemma ClaimNode_rel request now1 now2 : keeps (on_db identity_rel) (ClaimNode request now1 now2).
Proof.
  apply keeps_bind; [apply _|apply keeps_lift, _|intros cert].
  apply keeps_bind; [apply _|apply require_state_rel|intros pub].
  destruct (Decode pub) as [raw|]; [|apply keeps_fail, _].
  repeat (apply keeps_if; [apply keeps_fail, _|]).
  apply keeps_bind; [apply _|apply Claim_rel|intros _].
  apply keeps_if; [|apply keeps_ret, _].
  intros s. unfold on_db. destruct (SetStates _ s) as [r s'] eqn:E.
  apply SetStates_cases in E as [(e & _ & E)|[_ E]]; simpl; rewrite E; [done|]. apply identity_rel_state.
  intros k Hk. rewrite lookup_union, claim_keys_identity by done. by destruct (t_state (db s) !! k).
Qed.
End Identity.

(** ** What a claim requires *)

Section Claiming.
Context {MO : MapOrder} {XC : X509} {UP : UrlParser}.

Definition optional_key (encoded : string) : Prop := encoded = "" \/ valid_public_key encoded = true.

Record claim_accepted (q : ClaimRequest) (now1 now2 : time) (t : tables) : Prop := {
  ca_token : TrimSpace (rq_ClaimToken q) <> "";
  ca_url : exists scheme host, url_parse (rq_ControllerURL q) = Some (scheme, host)
    /\ (scheme = "wss" \/ scheme = "https") /\ host <> "";
  ca_key : valid_public_key (rq_ControllerPublicKey q) = true;
  ca_cert : exists cert ca pub raw,
    parseCertificate (rq_NodeCertificatePEM q) = Ok cert
    /\ parseCertificate (rq_ControllerCAPEM q) = Ok ca
    /\ cert_verify cert ca now1 = true
    /\ t_state t !! "node_public_key" = Some pub /\ Decode pub = Some raw
    /\ cert_public_key cert = Some raw;
  ca_quota : optional_key (rq_QuotaPublicKey q);
  ca_compliance : optional_key (rq_CompliancePublicKey q);
  ca_claimable : is_Some (claimable t (Hash (rq_ClaimToken q)) now2) }.

Definition claimed_tables (q : ClaimRequest) (now2 : time) (t : tables) : tables :=
  claim_effect (Hash (rq_ClaimToken q)) (rq_ControllerURL q) (rq_ControllerPublicKey q)
    (rq_NodeCertificatePEM q) (rq_ControllerCAPEM q) now2 t.

Lemma check_request_ok q now cert :
  check_request q now = Ok cert <->
  TrimSpace (rq_ClaimToken q) <> ""
  /\ (exists scheme host, url_parse (rq_ControllerURL q) = Some (scheme, host)
        /\ (scheme = "wss" \/ scheme = "https") /\ host <> "")
  /\ valid_public_key (rq_ControllerPublicKey q) = true
  /\ exists ca, parseCertificate (rq_NodeCertificatePEM q) = Ok cert
       /\ parseCertificate (rq_ControllerCAPEM q) = Ok ca /\ cert_verify cert ca now = true.
Proof.
  unfold check_request. destruct (String.eqb_spec (TrimSpace (rq_ClaimToken q)) ""); [naive_solver|].
  destruct (url_parse (rq_ControllerURL q)) as [[scheme host]|] eqn:Eu; simpl; [|naive_solver].
  destruct ((String.eqb scheme "wss" || String.eqb scheme "https") && negb (String.eqb host "")) eqn:Ew; simpl.
  2:{ split; [done|]. intros (_ & (s & h & [= <- <-] & Hs & Hh) & _). exfalso.
      apply andb_false_iff in Ew as [Ew|Ew].
      - apply orb_false_iff in Ew as [E1 E2]. apply String.eqb_neq in E1, E2. tauto.
      - apply negb_false_iff, String.eqb_eq in Ew. done. }
  apply andb_true_iff in Ew as [E1 E2]. apply orb_true_iff in E1. rewrite !String.eqb_eq in E1.
  apply negb_true_iff, String.eqb_neq in E2.
  destruct (valid_public_key (rq_ControllerPublicKey q)); simpl; [|naive_solver].
  destruct (parseCertificate (rq_NodeCertificatePEM q)) as [c|]; [|naive_solver].
  destruct (parseCertificate (rq_ControllerCAPEM q)) as [ca|]; [|naive_solver].
  destruct (cert_verify c ca now) eqn:Ev; simpl; [|naive_solver congruence]. naive_solver.
Qed.

Lemma optional_key_spec k : negb (String.eqb k "") && negb (valid_public_key k) = false <-> optional_key k.
Proof.
  unfold optional_key. destruct (String.eqb_spec k ""); simpl; [naive_solver|].
  rewrite negb_false_iff. naive_solver.
Qed.

Lemma claim_keys_empty q : (0 <? Z.of_nat (size (claim_keys q))) = false -> claim_keys q = ∅.
Proof. intros H. apply map_size_empty_iff. lia. Qed.

Lemma key_matches (o : option string) raw :
  (match o with Some k => String.eqb k raw | None => false end) = true <-> o = Some raw.
Proof. destruct o as [k|]; [|done]. rewrite String.eqb_eq. naive_solver. Qed.

Lemma ClaimNode_cases q now1 now2 s r s' :
  ClaimNode q now1 now2 s = (r, s') ->
  ((exists e, r = Err e) /\ db s' = db s)
  \/ (claim_accepted q now1 now2 (db s)
      /\ ((r = Ok tt /\ db s' = with_state (fun m => claim_keys q ∪ m) (claimed_tables q now2 (db s)))
          \/ ((exists e, r = Err e) /\ claim_keys q <> ∅ /\ db s' = claimed_tables q now2 (db s)))).
Proof.
  unfold ClaimNode, bind, lift. destruct (check_request q now1) as [cert|e] eqn:Ec; [|intros [= <- <-]; eauto].
  apply check_request_ok in Ec as (Ht & Hu & Hk & ca & Hc1 & Hc2 & Hv).
  destruct (require_state _ _ s) as [[pub|e] s1] eqn:Es; apply require_state_cases in Es as [Hs1 Hp];
    [|intros [= <- <-]; left; eauto].
  specialize (Hp _ eq_refl).
  destruct (Decode pub) as [raw|] eqn:Ed; [|intros [= <- <-]; left; eauto].
  destruct (match cert_public_key cert with Some k => _ | None => _ end) eqn:Em;
    [|intros [= <- <-]; left; eauto]. apply key_matches in Em. simpl.
  destruct (negb (String.eqb (rq_QuotaPublicKey q) "") && _) eqn:Eq; [intros [= <- <-]; left; eauto|].
  apply optional_key_spec in Eq.
  destruct (negb (String.eqb (rq_CompliancePublicKey q) "") && _) eqn:Eo; [intros [= <- <-]; left; eauto|].
  apply optional_key_spec in Eo.
  destruct (Claim _ _ _ _ _ _ s1) as [rc s2] eqn:Ecl.
  apply Claim_cases in Ecl as [(e & -> & Hs2)|(-> & Hcl & Hs2)];
    [intros [= <- <-]; left; split; [eauto|congruence]|].
  rewrite Hs1 in Hcl, Hs2.
  assert (Hacc : claim_accepted q now1 now2 (db s)) by (split; eauto 10).
  fold (claimed_tables q now2 (db s)) in Hs2.
  destruct (0 <? Z.of_nat (size (claim_keys q))) eqn:Esz; intros H; right; (split; [done|]).
  - apply SetStates_cases in H as [(e & -> & H)|[-> H]]; [right|left; by rewrite H, Hs2].
    split_and!; [eauto| |congruence]. intros He. rewrite He in Esz. by rewrite map_size_empty in Esz.
  - injection H as <- <-. left. split; [done|]. rewrite Hs2. apply claim_keys_empty in Esz as ->.
    unfold with_state. rewrite map_empty_union. by destruct (claimed_tables q now2 (db s)).
Qed.

Lemma ClaimNode_ok q now1 now2 t :
  claim_accepted q now1 now2 t -> (ClaimNode q now1 now2 (mkSqlite t [])).1 = Ok tt.
Proof.
  intros [Ht Hu Hk (cert & ca & pub & raw & H1 & H2 & H3 & H4 & H5 & H6) Hq Hc Hcl].
  unfold ClaimNode, bind, lift.
  rewrite (proj2 (check_request_ok q now1 cert)) by (split_and!; eauto).
  rewrite (require_state_ok _ _ _ _ H4), H5.
  assert (Hm : (match cert_public_key cert with Some k => String.eqb k raw | None => false end) = true)
    by (by apply key_matches). rewrite Hm. simpl negb. cbv iota.
  rewrite (proj2 (optional_key_spec (rq_QuotaPublicKey q)) Hq).
  rewrite (proj2 (optional_key_spec (rq_CompliancePublicKey q)) Hc).
  cbv [negb]. cbv iota beta. rewrite Claim_ok by done. cbv iota beta.
  destruct (0 <? Z.of_nat (size (claim_keys q))); [|done].
  by rewrite SetStates_ok.
Qed.
End Claiming.

(** ** Properties *)

Section Runs.
Context {MO : MapOrder} {XC : X509} {UP : UrlParser} (domain version : string).

Inductive enrollment_op :=
  | EEnsure (identity : result (string * string)) (uuid token : result string) (now now' : time)
  | ECurrent (now : time)
  | EReenroll (identity : result (string * string)) (uuid token : result string) (now : time)
  | EClaim (request : ClaimRequest) (now1 now2 : time).

Definition run_enrollment_op (op : enrollment_op) (s : sqlite) : sqlite :=
  match op with
  | EEnsure i u t n n' => (Ensure domain version i u t n n' s).2
  | ECurrent n => (Current domain version n s).2
  | EReenroll i u t n => (Reenroll domain version i u t n s).2
  | EClaim q n1 n2 => (ClaimNode q n1 n2 s).2
  end.

Definition run_enrollment (ops : list enrollment_op) (s : sqlite) : sqlite :=
  foldl (fun s op => run_enrollment_op op s) s ops.

Lemma run_enrollment_op_rel op s : identity_rel (db s) (db (run_enrollment_op op s)).
Proof.
  destruct op; simpl.
  - apply Ensure_rel.
  - apply Current_rel.
  - apply Reenroll_rel.
  - apply ClaimNode_rel.
Qed.
End Runs.

(** C38 - The node keeps its identity.  Over any sequence of enrollment
    operations with any random draws and any database failures, a node id and
    key pair that are set are never replaced, and the three values are only ever
    stored together: if none or all of them were set before, the same holds
    after. *)
Theorem node_identity_stable {MO : MapOrder} {XC : X509} {UP : UrlParser} domain version ops s :
  identity_kept (db s) (db (run_enrollment domain version ops s))
  /\ (identity_whole (db s) -> identity_whole (db (run_enrollment domain version ops s))).
Proof.
  enough (H : identity_rel (db s) (db (run_enrollment domain version ops s))) by (by destruct H).
  revert s. induction ops as [|op ops IH]; intros s; [done|]. simpl.
  etransitivity; [apply (run_enrollment_op_rel domain version)|apply IH].
Qed.

(** Stand-ins for the examples: a certificate is its public key. *)
Definition toy_x509 : X509 := {|
  Certificate := string; pem_decode s := Some ("CERTIFICATE", s); parse_certificate b := Some b;
  cert_verify _ _ _ := true; cert_public_key c := Some c; cert_not_after _ := FromUnix 4000000000 |}.
Definition toy_url : UrlParser := {| url_parse s := Some ("wss", s) |}.
Definition toy_key : string := "0123456789abcdef0123456789abcdef".
Definition toy_request : ClaimRequest :=
  mkClaimRequest "token" "wss://controller.example" (Encode toy_key) (Encode toy_key) "" toy_key "ca".
Definition toy_tables : tables :=
  with_enrollment (Some (mkEnrollmentRow "token" (Hash "token") 100 None))
    (with_state (insert "node_public_key" (Encode toy_key)) empty_tables).

Lemma node_identity_stable_witness :
  identity_whole (db (@run_enrollment sorted_order toy_x509 toy_url "node.example" "dev"
    [EReenroll (Ok (toy_key, toy_key)) (Ok "node-1") (Ok "token") 0] (mkSqlite empty_tables []))).
Proof. apply (@node_identity_stable sorted_order toy_x509 toy_url). left. intros k _. apply lookup_empty. Defined.

Lemma toy_accepted : @claim_accepted toy_x509 toy_url toy_request 0 (FromUnix 50) toy_tables.
Proof.
  split.
  - vm_compute. congruence.
  - exists "wss", "wss://controller.example". split_and!; [done|by left|done].
  - vm_compute. reflexivity.
  - exists toy_key, "ca", (Encode toy_key), toy_key. split_and!; vm_compute; reflexivity.
  - right. vm_compute. reflexivity.
  - left. reflexivity.
  - exists (mkEnrollmentRow "token" (Hash "token") 100 None). vm_compute. reflexivity.
Qed.

(** C16 - Only the right controller can claim the node.  A claim succeeds exactly
    when the token is the stored, unclaimed and unexpired one, the controller URL
    and every given key are well formed, and the node certificate is issued by
    the given CA for this node's own public key; it then stores the controller's
    values and all given keys.  A claim that fails changes nothing, except that
    when storing the optional keys fails after the token was already spent the
    claim itself remains. *)
Theorem ClaimNode_spec {MO : MapOrder} {XC : X509} {UP : UrlParser} q now1 now2 s r s' :
  ClaimNode q now1 now2 s = (r, s') ->
  (r = Ok tt -> claim_accepted q now1 now2 (db s)
      /\ db s' = with_state (fun m => claim_keys q ∪ m) (claimed_tables q now2 (db s)))
  /\ (forall e, r = Err e -> db s' = db s \/ (claim_keys q <> ∅ /\ db s' = claimed_tables q now2 (db s)))
  /\ (faults s = [] -> claim_accepted q now1 now2 (db s) -> r = Ok tt).
Proof.
  intros H. split_and!.
  - intros ->. apply ClaimNode_cases in H as [[[e ?] _]|(? & [[_ ?]|[[e ?] _]])]; done.
  - intros e ->. apply ClaimNode_cases in H as [[_ ?]|(? & [[? _]|(_ & ? & ?)])]; auto. done.
  - intros Hf Ha. destruct s as [t fs]. simpl in *. subst fs.
    pose proof (ClaimNode_ok q now1 now2 t Ha) as Hok. by rewrite H in Hok.
Qed.

Lemma ClaimNode_spec_witness :
  (@ClaimNode sorted_order toy_x509 toy_url toy_request 0 (FromUnix 50) (mkSqlite toy_tables [])).1 = Ok tt.
Proof.
  destruct (@ClaimNode sorted_order toy_x509 toy_url toy_request 0 (FromUnix 50) (mkSqlite toy_tables []))
    as [r s'] eqn:E.
  apply (@ClaimNode_spec sorted_order toy_x509 toy_url _ _ _ _ _ _ E); [reflexivity|exact toy_accepted].
Defined.

(** An issued token is the one that claims.  When [Reenroll] returns a
    bundle, the bundle encodes a document with that token, this node's id and
    key and an expiry 24 hours away, and from then on exactly that token is
    claimable, until the second in which it expires; every older token is void. *)
Theorem reenroll_issues_token {MO : MapOrder} {XC : X509} {UP : UrlParser} domain version identity uuid token now
    s b s1 :
  Reenroll domain version identity uuid (Ok token) now s = (Ok b, s1) ->
  (exists nodeID pub e, t_state (db s1) !! "node_id" = Some nodeID
     /\ t_state (db s1) !! "node_public_key" = Some pub
     /\ encode_Bundle (mkBundle 1 nodeID domain ("https://" +:+ domain +:+ ":8443/v1/enrollment/claim")
          pub token (now + 24 * hour) version) = Some e
     /\ b = BundlePrefix +:+ Encode (print e))
  /\ (forall token' now', is_Some (claimable (db s1) (Hash token') now')
        <-> Hash token' = Hash token /\ Unix now' <= Unix (now + 24 * hour)).
Proof.
  unfold Reenroll, bind, lift. destruct (ensureIdentity identity uuid s) as [[[]|] s0]; [|done].
  destruct (ReplaceEnrollment _ _ _ s0) as [[[]|] s2] eqn:E; [|done].
  apply update_cases in E as [(e & ? & _)|[_ E]]; [done|].
  unfold bundle, bind.
  destruct (require_state "node_id" _ s2) as [[i|] s3] eqn:E3; [|done].
  apply require_state_cases in E3 as [H3 V3]. specialize (V3 _ eq_refl).
  destruct (require_state "node_public_key" _ s3) as [[p|] s4] eqn:E4; [|done].
  apply require_state_cases in E4 as [H4 V4]. specialize (V4 _ eq_refl).
  destruct (encode_Bundle _) as [payload|] eqn:Ee; [|done]. intros [= <- <-].
  assert (Hdb : db s4 = db s2) by congruence. rewrite Hdb. split.
  - exists i, p, payload. rewrite H3 in V4. split_and!; [done|done|exact Ee|done].
  - intros token' now'. rewrite E. unfold claimable.
    cbn [t_enrollment with_enrollment er_token_hash er_claimed_at er_expires_at].
    generalize (Hash token), (Hash token'). intros h h'.
    destruct (String.eqb_spec h h') as [He|He]; cbn [andb].
    + unfold TimeAdd. destruct (Z.leb_spec (Unix now') (Unix (now + 24 * hour))).
      * split; [done|]. eauto.
      * split; [by intros []|]. intros [_ ?]. lia.
    + split; [by intros []|]. intros [? _]. congruence.
Qed.

Lemma reenroll_issues_token_witness :
  let p := @Reenroll sorted_order "node.example" "dev" (Ok (toy_key, toy_key)) (Ok "node-1") (Ok "token")
             (FromUnix 1786215600) (mkSqlite empty_tables []) in
  is_Some (claimable (db p.2) (Hash "token") (FromUnix 1786215700)).
Proof.
  intros p.
  assert (E : exists b, p = (Ok b, p.2)) by (eexists; vm_compute; reflexivity).
  destruct E as [b E].
  apply (@reenroll_issues_token sorted_order toy_x509 toy_url _ _ _ _ _ _ _ _ _ E).
  split; [reflexivity|vm_compute; congruence].
Defined.

(** A claim can be spent without its keys.  The token is consumed and the
    controller stored before the quota and compliance keys are written in a
    second transaction: when that one fails the caller sees an error, the quota
    key is missing, and the same request can never be repeated. *)
Theorem claim_spent_without_keys :
  let run := @ClaimNode sorted_order toy_x509 toy_url in
  exists e s1,
    run toy_request 0 (FromUnix 50) (mkSqlite toy_tables (replicate 8 false ++ [true])) = (Err e, s1)
    /\ t_state (db s1) !! "controller_url" = Some "wss://controller.example"
    /\ t_state (db s1) !! "quota_public_key" = None
    /\ forall now1 now2, exists e', (run toy_request now1 now2 (mkSqlite (db s1) [])).1 = Err e'.
Proof.
  intros run.
  set (p := run toy_request 0 (FromUnix 50) (mkSqlite toy_tables (replicate 8 false ++ [true]))).
  exists (SqlErr SqlFault), p.2. split_and!; [vm_compute; reflexivity..|].
  assert (He : t_enrollment (db p.2) = Some (mkEnrollmentRow "token" (Hash "token") 100 (Some 50)))
    by (vm_compute; reflexivity).
  intros now1 now2. destruct (run toy_request now1 now2 (mkSqlite (db p.2) [])) as [r s'] eqn:E.
  apply (@ClaimNode_cases sorted_order toy_x509 toy_url) in E as [[? _]|([_ _ _ _ _ _ [x Hx]] & _)]; [done|].
  unfold claimable in Hx. cbn [db] in Hx. rewrite He in Hx.
  cbn [er_claimed_at] in Hx. by rewrite andb_false_r in Hx.
Qed.
