(* ===== verification/Control.v ===== *)
(** * The control channel of the node

    src/internal/control/client.go: the messages of the controller, their
    handling and acknowledgement, and what the node reports.  The components that
    the client drives through interfaces - the provisioner and the kickers - are
    the record [Provisioner] with the class of its promises, [ProvisionerSpec],
    and a list of kick functions, over any state [W] that has a database. *)

From S2P Require Import Prelude GoStrings Base64 Json Model Store Crypto Compliance Protocol Enrollment.
From stdpp Require Import base gmap strings list.
From Stdlib Require Import ZArith Lia.
Open Scope Z_scope.

(** ** Interfaces *)

Record Provisioner (W : Type) := mkProvisioner {
  pv_Upsert : Device -> prog W unit;
  pv_Revoke : string -> prog W unit;
  pv_Kick : string -> prog W unit }.
Arguments mkProvisioner {W}. Arguments pv_Upsert {W}. Arguments pv_Revoke {W}. Arguments pv_Kick {W}.

(** ** Payloads *)

Record upsert_payload := mkUpsertPayload {
  up_DeviceID : string; up_CredentialHash : string; up_Plan : string; up_Active : bool;
  up_SubscriptionEnds : time; up_PeriodEnds : time; up_QuotaBytes : Z;
  up_LeaseBytes : Z; up_LeaseExpires : time }.

Definition decode_upsert (j : json) : option upsert_payload :=
  dec_struct (fun m old =>
    d ← field "deviceId" dec_string m (up_DeviceID old);
    c ← field "credentialHash" dec_string m (up_CredentialHash old);
    p ← field "plan" dec_string m (up_Plan old);
    a ← field "active" dec_bool m (up_Active old);
    s ← field "subscriptionEnds" dec_time m (up_SubscriptionEnds old);
    e ← field "periodEnds" dec_time m (up_PeriodEnds old);
    q ← field "quotaBytes" dec_int m (up_QuotaBytes old);
    l ← field "leaseBytes" dec_int m (up_LeaseBytes old);
    x ← field "leaseExpires" dec_time m (up_LeaseExpires old);
    Some (mkUpsertPayload d c p a s e q l x)) j
    (mkUpsertPayload "" "" "" false zero_time zero_time 0 0 zero_time).

Definition decode_revoke (j : json) : option string :=
  dec_struct (fun m old => field "deviceId" dec_string m old) j "".

Definition decode_ack_ids (j : json) : option (list (option json)) :=
  dec_struct (fun m old => field "eventIds" (dec_list None dec_raw) m old) j [].

Definition decode_SignedFeed (j : json) : option SignedFeed :=
  dec_struct (fun m old =>
    v ← field "version" dec_string m (sf_Version old);
    u ← field "updatedAt" dec_time m (sf_UpdatedAt old);
    e ← field "expiresAt" dec_time m (sf_ExpiresAt old);
    r ← field "rules" dec_raw m (sf_Rules old);
    s ← field "signature" dec_string m (sf_Signature old);
    Some (mkSignedFeed v u e r s)) j (mkSignedFeed "" zero_time zero_time None "").

(** An identifier is a text with a number in it or a number; anything else is
    skipped. *)
Definition ack_id (raw : option json) : list Z :=
  match raw with
  | None => []
  | Some j =>
      match dec_string j "" with
      | Some text => let '(id, ok) := ParseInt text in if ok then [id] else []
      | None => match dec_int j 0 with Some id => [id] | None => [] end
      end
  end.

Definition device_of_payload (p : upsert_payload) : Device :=
  mkDevice (up_DeviceID p) (up_CredentialHash p) (up_Plan p) (up_Active p) (up_SubscriptionEnds p)
    (up_PeriodEnds p) (up_QuotaBytes p) 0 (up_LeaseBytes p) (up_LeaseExpires p) 0 0 false zero_time.

Definition with_lease (d : Device) (bytes : Z) (expires : time) : Device :=
  mkDevice (ID d) (CredentialHash d) (Plan d) (Active d) (SubscriptionEnds d) (PeriodEnds d)
    (QuotaBytes d) (UsedBytes d) bytes expires (OverrideUpBPS d) (OverrideDownBPS d)
    (OverrideP2P d) (OverrideExpires d).

Section Client.
Context {UT : UnicodeTables} {FF : Float64Format} {ED : Ed25519} {XC : X509} {MO : MapOrder}.
Context {W : Type} {WS : Part sqlite W}.
Context (provisioner : option (Provisioner W)) (kickers : list (string -> prog W unit)).

(** ** Handling of one message *)

(** [json.Unmarshal(message.Data, &payload)] *)
Definition unmarshal {A} (d : json -> option A) (data : option json) : prog W A :=
  match data ≫= d with
  | Some a => ret a
  | None => fail (LibErr "encoding/json")
  end.

(** [errors.Join(result, err)] over the kickers, which are all called. *)
Fixpoint kick_all (ks : list (string -> prog W unit)) (deviceID : string) (acc : option error)
    : W -> option error * W := fun w =>
  match ks with
  | [] => (acc, w)
  | k :: ks' =>
      let '(r, w') := k deviceID w in
      let acc' := match r, acc with
                  | Ok _, _ => acc
                  | Err e, None => Some e
                  | Err e, Some e0 => Some (Prelude.Join e0 e)
                  end in
      kick_all ks' deviceID acc' w'
  end.

Definition kick (deviceID : string) : prog W unit := fun w =>
  match kick_all kickers deviceID None w with
  | (None, w') => (Ok tt, w')
  | (Some e, w') => (Err e, w')
  end.

Definition provision (f : Provisioner W -> prog W unit) : prog W unit :=
  match provisioner with Some p => f p | None => ret tt end.

(** A state key, or another one when it is absent or cannot be read. *)
Definition state_or (key fallback : string) : prog W (option string) :=
  let* first := try (on (State key)) in
  match first with
  | Ok (Some v) => ret (Some v)
  | _ => let* second := try (on (State fallback)) in
         match second with Ok (Some v) => ret (Some v) | _ => ret None end
  end.

Definition handle_upsert (payload : upsert_payload) : prog W unit :=
  if String.eqb (up_DeviceID payload) "" || String.eqb (up_CredentialHash payload) ""
  then fail (Msg "deviceId and credentialHash are required") else
  match Policy (up_Plan payload) with
  | None => fail (Msg "unknown plan")
  | Some _ =>
      let* previous := try (on (DeviceByID (up_DeviceID payload))) in
      on (UpsertDevice (device_of_payload payload)) ;;;
      (match previous with
       | Ok (Some old) =>
           if negb (String.eqb (CredentialHash old) (up_CredentialHash payload))
           then let* _ := try (kick (up_DeviceID payload)) in ret tt else ret tt
       | _ => ret tt
       end) ;;;
      provision (fun p =>
        let* stored := on (DeviceByID (up_DeviceID payload)) in
        match stored with Some d => pv_Upsert p d | None => ret tt end)
  end.

Definition handle_lease (lease : QuotaLease) (now : time) : prog W unit :=
  let* key := state_or "quota_public_key" "controller_public_key" in
  match key with
  | None => fail (Msg "quota verification key is missing")
  | Some keyEncoded =>
      match Decode keyEncoded with
      | None => fail (Msg "invalid quota verification key")
      | Some keyRaw =>
          if negb (String.length keyRaw =? PublicKeySize)%nat
          then fail (Msg "invalid quota verification key") else
          lift (VerifyLease lease keyRaw now) ;;;
          let* node := try (on (State "node_id")) in
          let nodeID := match node with Ok (Some v) => v | _ => "" end in
          if negb (String.eqb (ql_NodeID lease) nodeID)
          then fail (Msg "quota lease belongs to another node") else
          let* found := try (on (DeviceByID (ql_DeviceID lease))) in
          match found with
          | Ok (Some device) =>
              let device := with_lease device (ql_Bytes lease) (ql_ExpiresAt lease) in
              on (UpsertDevice device) ;;;
              provision (fun p => pv_Upsert p device)
          | _ => fail (Msg "quota lease device is missing")
          end
      end
  end.

Definition handle_revoke (deviceID : string) : prog W unit :=
  on (RevokeDevice deviceID) ;;;
  provision (fun p => pv_Revoke p deviceID) ;;;
  kick deviceID.

Definition handle_kick (deviceID : string) : prog W unit :=
  if String.eqb deviceID "" then fail (Msg "deviceId is required") else
  (match provisioner, kickers with
   | None, [] => fail (Msg "traffic API kicker is unavailable")
   | _, _ => provision (fun p => pv_Kick p deviceID) ;;; kick deviceID
   end).

Definition handle_override (o : PolicyOverride) (now : time) : prog W unit :=
  if String.eqb (po_DeviceID o) "" || negb (After (po_ExpiresAt o) now)
  then fail (Msg "invalid policy override")
  else on (ApplyPolicyOverride (po_DeviceID o) (po_UpBPS o) (po_DownBPS o) (po_P2P o) (po_ExpiresAt o)).

Definition handle_feed (feed : SignedFeed) (now1 now2 : time) : prog W unit :=
  let* key := state_or "compliance_public_key" "controller_public_key" in
  match key with
  | None => fail (Msg "controller public key is missing")
  | Some controllerKey => on (Apply now1 now2 feed controllerKey)
  end.

Definition handle_usage_ack (eventIDs : list (option json)) (now : time) : prog W unit :=
  if (5000 <? length eventIDs)%nat then fail (Msg "too many usage event IDs")
  else on (MarkUsageSent (concat (ack_id <$> eventIDs)) now).

Definition handle_rotate (rotation : CertificateRotate) (now : time) : prog W unit :=
  match pem_decode (cert_CertificatePEM rotation) with
  | None => fail (Msg "certificate PEM is invalid")
  | Some (_, bytes) =>
      match parse_certificate bytes with
      | None => fail (LibErr "crypto/x509")
      | Some certificate =>
          let* public := try (on (State "node_public_key")) in
          match public with
          | Ok (Some publicEncoded) =>
              match Decode publicEncoded with
              | None => fail (LibErr "encoding/base64")
              | Some publicRaw =>
                  if negb (match cert_public_key certificate with
                           | Some k => String.eqb k publicRaw | None => false end)
                  then fail (Msg "rotated certificate does not match node identity") else
                  if negb (After (cert_not_after certificate) (TimeAdd now (7 * 24 * hour)))
                  then fail (Msg "rotated certificate validity is too short") else
                  let states := {["node_certificate" := cert_CertificatePEM rotation]} in
                  let states := if negb (String.eqb (cert_ControllerCA rotation) "")
                                then <["controller_ca" := cert_ControllerCA rotation]> states else states in
                  on (SetStates (range states))
              end
          | _ => fail (Msg "node public key is missing")
          end
      end
  end.

(** [now1] and [now2] are the first and second reading of the clock; only a
    compliance feed needs two. *)
Definition handle (message : Envelope) (now1 now2 : time) : prog W unit :=
  let data := env_Data message in
  let type := env_Type message in
  if String.eqb type "device.upsert" then
    let* payload := unmarshal decode_upsert data in handle_upsert payload
  else if String.eqb type "quota.lease" then
    let* lease := unmarshal decode_QuotaLease data in handle_lease lease now1
  else if String.eqb type "device.revoke" then
    let* deviceID := unmarshal decode_revoke data in handle_revoke deviceID
  else if String.eqb type "session.kick" then
    let* payload := unmarshal decode_DeviceRef data in handle_kick (ref_DeviceID payload)
  else if String.eqb type "policy.override" then
    let* payload := unmarshal decode_PolicyOverride data in handle_override payload now1
  else if String.eqb type "compliance.feed" then
    let* feed := unmarshal decode_SignedFeed data in handle_feed feed now1 now2
  else if String.eqb type "usage.ack" then
    let* ids := unmarshal decode_ack_ids data in handle_usage_ack ids now1
  else if String.eqb type "certificate.rotate" then
    let* rotation := unmarshal decode_CertificateRotate data in handle_rotate rotation now1
  else if String.eqb type "drain" || String.eqb type "update" then
    fail (Msg (type +:+ " is acknowledged but requires the privileged updater helper"))
  else fail (Wrap "unsupported message type" (Msg type)).

(** ** The read loop *)

(** What the client writes to the connection; a failed write is ignored by the
    code that handles messages. *)
Inductive outgoing :=
  | OAck (replyTo : string) (ack : Ack)
  | ONack (replyTo : string) (reason : error)
  | OError (requestType : string) (reason : error).

(** [Client], with the state it works on and what it has written. *)
Record client := mkClient { cl_world : W; cl_seen : gset string; cl_sent : list outgoing }.

Definition wasSeen (id : string) (c : client) : bool := bool_decide (id ∈ cl_seen c).

Definition markSeen (id : string) (seen : gset string) : gset string :=
  (if (2048 <? Z.of_nat (size seen)) then ∅ else seen) ∪ {[id]}.

Definition send (o : outgoing) (c : client) : client :=
  mkClient (cl_world c) (cl_seen c) (cl_sent c ++ [o]).

(** [t.UTC().Format(time.RFC3339)] *)
Definition seconds_text (t : time) : string := FormatRFC3339 (FromUnix (Unix t)).

Inductive frame :=
  | Binary
  | Text (payload : option json).

(** One round of [readLoop] on a frame that was read; an error ends the loop.
    [now3] is the clock reading of the reply. *)
Definition read_message (message : Envelope) (now1 now2 now3 : time) (c : client) : client :=
  let id := env_MessageID message in
  if negb (String.eqb id "") && wasSeen id c
  then send (OAck id (mkAck true "duplicate" "" (seconds_text now3))) c
  else
  match handle message now1 now2 (cl_world c) with
  | (Err e, w) =>
      send (if negb (String.eqb id "") then ONack id e else OError (env_Type message) e)
        (mkClient w (cl_seen c) (cl_sent c))
  | (Ok _, w) =>
      if negb (String.eqb id "")
      then send (OAck id (mkAck true "" "" (seconds_text now3)))
             (mkClient w (markSeen id (cl_seen c)) (cl_sent c))
      else mkClient w (cl_seen c) (cl_sent c)
  end.

Definition read_frame (f : frame) (now1 now2 now3 : time) : prog client unit :=
  match f with
  | Binary => ret tt
  | Text payload => fun c =>
      match payload ≫= decode_Envelope with
      | None => (Err (LibErr "encoding/json"), c)
      | Some message => (Ok tt, read_message message now1 now2 now3 c)
      end
  end.

Definition readLoop (frames : list (frame * time * time * time)) : prog client unit :=
  for_each (fun x => let '(f, now1, now2, now3) := x in read_frame f now1 now2 now3) frames.

(** ** What the node reports *)

Definition stateInt (key : string) : prog W Z :=
  let* value := try (on (State key)) in
  match value with
  | Ok (Some v) => ret (fst (ParseInt v))
  | _ => ret 0
  end.

(** [v, _, _ := State(key)] *)
Definition stateText (key : string) : prog W string :=
  let* value := try (on (State key)) in
  match value with Ok (Some v) => ret v | _ => ret "" end.

Definition hello (version : string) : prog W Hello :=
  let* nodeID := stateText "node_id" in
  let* realityPublicKey := stateText "reality_public_key" in
  let* realityShortID := stateText "reality_short_id" in
  let* xrayTransport := stateText "xray_transport" in
  let capabilities := [CapabilityACK; CapabilityQuotaLease; CapabilitySessionKick;
                       CapabilityPolicyOverride; CapabilityCertRotate; CapabilityAtomicUpdate] in
  let capabilities :=
    if String.eqb xrayTransport "ws-tls" then capabilities ++ [CapabilityCDNWebSocket]
    else if negb (String.eqb realityPublicKey "") && negb (String.eqb realityShortID "")
    then capabilities ++ [CapabilityTCPFallback] else capabilities in
  ret (mkHello nodeID version [1; 2] capabilities realityPublicKey realityShortID).

Definition convert_event (e : Store.UsageEvent) : Protocol.UsageEvent :=
  Protocol.mkUsageEvent (FormatInt (ue_ID e)) (ue_DeviceID e) (ue_RXBytes e) (ue_TXBytes e)
    (ue_RecordedAt e) (ue_RecordedAt e).

(** The data of one heartbeat: the alerts, the online counters and the batch of
    usage events that precedes it. *)
Record report := mkReport {
  rp_alerts : list Alert; rp_rttMillis : Z; rp_onlineDevices : Z; rp_onlineConnections : Z;
  rp_usage : list Protocol.UsageEvent }.

(** One tick of [connect]; [ping] is the outcome of the ping with its round-trip
    time in nanoseconds. *)
Definition heartbeat (ping : result Z) : prog W report :=
  let* alerts := try (on ActiveAlerts) in
  let* rtt := lift ping in
  let* onlineDevices := stateInt "online_devices" in
  let* onlineConnections := stateInt "online_connections" in
  let* usageEvents := on (PendingUsage 1000) in
  ret (mkReport (match alerts with Ok l => l | Err _ => [] end) (Z.quot rtt 1000000)
         onlineDevices onlineConnections (convert_event <$> usageEvents)).

(** The address that [connect] dials. *)
Definition controller_address : prog W string :=
  let* found := on GetEnrollment in
  match found with
  | Some e =>
      match en_ClaimedAt e with
      | None => fail (Msg "node is not claimed")
      | Some _ =>
          let* url := try (on (State "controller_url")) in
          match url with
          | Ok (Some controllerURL) =>
              ret (if HasPrefix controllerURL "https://"
                   then "wss://" +:+ TrimPrefix controllerURL "https://" else controllerURL)
          | _ => fail (Msg "controller URL is missing")
          end
      end
  | None => fail (Msg "node is not claimed")
  end.
End Client.

Arguments client : clear implicits.
Arguments mkClient {W}. Arguments cl_world {W}. Arguments cl_seen {W}. Arguments cl_sent {W}.

(** The pause after the [n]-th connection attempt of [Run]. *)
Fixpoint backoff (n : nat) : Z :=
  match n with
  | O => 2 * second
  | S n' => if backoff n' <? minute then mul64 (backoff n') 2 else backoff n'
  end.

(** ** What a provisioner promises the client

    [connected id w]: the device [id] has access through the provisioner.  A
    provisioner does not change the database, a revoked or kicked device has no
    access, and access does not come from a change of the database alone. *)
Class ProvisionerSpec {W} {WS : Part sqlite W} (p : Provisioner W) := {
  connected : string -> W -> Prop;
  pv_Upsert_db : forall d, keeps (on_part (on_db (same (fun t => t)))) (pv_Upsert p d);
  pv_Revoke_db : forall id, keeps (on_part (on_db (same (fun t => t)))) (pv_Revoke p id);
  pv_Kick_db : forall id, keeps (on_part (on_db (same (fun t => t)))) (pv_Kick p id);
  pv_Revoke_out : forall id w w', pv_Revoke p id w = (Ok tt, w') -> ~ connected id w';
  pv_Kick_out : forall id w w', pv_Kick p id w = (Ok tt, w') -> ~ connected id w' }.

(** What the client expects of a kicker: it does not change the database and
    gives nobody access. *)
Definition kicker_ok {W} {WS : Part sqlite W} (R : relation W) (k : string -> prog W unit) : Prop :=
  forall id, keeps (on_part (on_db (same (fun t => t)))) (k id) /\ keeps R (k id).

(** The invariant of the agent's database. *)
Definition node_ok (t : tables) : Prop := db_ok t /\ feed_ok t.

(** ** Lemmas *)

Lemma run_op_compliance op :
  (forall f, op <> OpSaveCompliance f) -> keeps (on_db (same t_compliance)) (run_op op).
Proof.
  assert (Hset : forall l, keeps (on_db (same t_compliance)) (for_each (fun kv => SetState kv.1 kv.2) l)).
  { intros l. apply keeps_for_each; [apply _|]. intros kv. apply keeps_update; [apply _|done]. }
  intros Hop. destruct op; simpl in *; try (apply keeps_update; [apply _|done]).
  - by apply keeps_transaction; [apply _|].
  - intros s. unfold on_db, same. destruct (Claim _ _ _ _ _ _ s) as [r s'] eqn:E.
    apply Claim_cases in E as [(e & _ & H)|(_ & Hs & H)]; simpl; rewrite H; [done|].
    unfold claim_effect, claim_row. by destruct (claimable _ _ _).
  - apply keeps_exec; [apply _|]. intros t. by destruct (hash_taken _ _ _).
  - apply keeps_bind; [apply _| |intros; apply keeps_ret, _].
    intros s. unfold on_db, same. destruct (AddUsage _ _ _ _ s) as [r s'] eqn:E.
    by apply AddUsage_cases in E as [(e & _ & H)|(row & _ & _ & _ & H)]; simpl; rewrite H.
  - unfold MarkUsageSent. destruct (_ =? _)%nat; [apply keeps_ret, _|].
    by apply keeps_update; [apply _|].
  - by destruct (Hop f).
Qed.

Lemma run_op_node_ok op :
  typed_op op -> (forall f, op <> OpSaveCompliance f) -> keeps (on_db (preserves node_ok)) (run_op op).
Proof.
  intros Hty Hop s [H1 H2]. split; [by apply (run_op_preserves op Hty s)|].
  pose proof (run_op_compliance op Hop s) as Hc. unfold on_db, same in Hc.
  intros c. rewrite Hc. apply H2.
Qed.

Lemma Apply_node_ok {UT : UnicodeTables} {FF : Float64Format} {ED : Ed25519} now1 now2 feed key :
  keeps (on_db (preserves node_ok)) (Apply now1 now2 feed key).
Proof.
  intros s [H1 H2]. split; [|by apply (Apply_feed_ok now1 now2 feed key s)].
  assert (Hk : keeps (on_db (preserves db_ok)) (Apply now1 now2 feed key)); [|by apply (Hk s)].
  apply keeps_bind; [apply _|apply keeps_lift, _|intros raw].
  apply keeps_bind; [apply _|apply (run_op_preserves (OpSaveCompliance _) I)|intros _].
  apply (run_op_preserves (OpResolveAlert staleAlert) I).
Qed.

(** An invariant of the agent holds across every message when the statements,
    the kickers and the provisioner keep it and when the two messages that write
    devices do. *)
Section Messages.
Context {UT : UnicodeTables} {FF : Float64Format} {ED : Ed25519} {XC : X509} {MO : MapOrder}.
Context {W : Type} {WS : Part sqlite W}.
Context (provisioner : option (Provisioner W)) (kickers : list (string -> prog W unit)).
Context (I : W -> Prop).
Context (HQ : forall A (f : tables -> result A), keeps (preserves I) (on (query f))).
Context (HO : forall op, (forall d, op <> OpUpsertDevice d) -> (forall f, op <> OpSaveCompliance f) ->
                keeps (preserves I) (on (run_op op))).
Context (HA : forall n1 n2 feed key, keeps (preserves I) (on (Apply n1 n2 feed key))).
Context (HK : forall id, keeps (preserves I) (kick kickers id)).
Context (HP : forall p id, provisioner = Some p ->
                keeps (preserves I) (pv_Revoke p id) /\ keeps (preserves I) (pv_Kick p id)).

Lemma provision_preserves f :
  (forall p, provisioner = Some p -> keeps (preserves I) (f p)) -> keeps (preserves I) (provision provisioner f).
Proof. intros Hf. unfold provision. destruct provisioner; [by apply Hf|apply keeps_ret, _]. Qed.

Lemma handle_revoke_preserves id : keeps (preserves I) (handle_revoke provisioner kickers id).
Proof.
  apply keeps_bind; [apply _|by apply (HO (OpRevokeDevice id))|intros _].
  apply keeps_bind; [apply _| |intros _; apply HK].
  apply provision_preserves. intros p Hp. by apply HP.
Qed.

Lemma handle_kick_preserves id : keeps (preserves I) (handle_kick provisioner kickers id).
Proof.
  unfold handle_kick. apply keeps_if; [apply keeps_fail, _|].
  assert (H : keeps (preserves I) (provision provisioner (fun p => pv_Kick p id) ;;; kick kickers id)).
  { apply keeps_bind; [apply _| |intros _; apply HK]. apply provision_preserves. intros p Hp. by apply HP. }
  by destruct provisioner, kickers.
Qed.

Lemma state_or_preserves key fallback : keeps (preserves I) (state_or key fallback).
Proof.
  apply keeps_bind; [apply _|apply keeps_try, HQ|intros [[v|]|e]]; [apply keeps_ret, _| |];
    (apply keeps_bind; [apply _|apply keeps_try, HQ|intros [[v'|]|e']]); apply keeps_ret, _.
Qed.

Lemma handle_rotate_preserves rotation now : keeps (preserves I) (handle_rotate rotation now).
Proof.
  unfold handle_rotate. destruct (pem_decode _) as [[kind bytes]|]; [|apply keeps_fail, _].
  destruct (parse_certificate bytes) as [cert|]; [|apply keeps_fail, _].
  apply keeps_bind; [apply _|apply keeps_try, HQ|intros [[pub|]|e]]; try apply keeps_fail, _.
  destruct (Decode pub) as [raw|]; [|apply keeps_fail, _].
  do 2 (apply keeps_if; [apply keeps_fail, _|]). by apply (HO (OpSetStates (range _))).
Qed.

(** A payload that was decoded is handled. *)
Lemma unmarshal_preserves {A} (d : json -> option A) data (k : A -> prog W unit) :
  (forall a, data ≫= d = Some a -> keeps (preserves I) (k a)) ->
  keeps (preserves I) (bind (unmarshal d data) k).
Proof.
  intros Hk. unfold unmarshal. destruct (data ≫= d) as [a|] eqn:E; [|intros w; exact (fun H => H)].
  intros w. exact (Hk a eq_refl w).
Qed.

Lemma handle_preserves message now1 now2 :
  (env_Type message = "device.upsert" -> forall payload, env_Data message ≫= decode_upsert = Some payload ->
     keeps (preserves I) (handle_upsert provisioner kickers payload)) ->
  (forall lease, keeps (preserves I) (handle_lease provisioner lease now1)) ->
  keeps (preserves I) (handle provisioner kickers message now1 now2).
Proof.
  intros Hup Hlease. unfold handle. destruct (String.eqb_spec (env_Type message) "device.upsert").
  { apply unmarshal_preserves. by apply Hup. }
  repeat match goal with
    | |- keeps _ (if _ then fail _ else _) => apply keeps_if; [apply keeps_fail, _|]
    | |- keeps _ (if _ then _ else _) => apply keeps_if; [apply unmarshal_preserves; intros payload _|]
    end.
  - apply Hlease.
  - apply handle_revoke_preserves.
  - apply handle_kick_preserves.
  - unfold handle_override. apply keeps_if; [apply keeps_fail, _|].
    by apply (HO (OpApplyPolicyOverride _ _ _ _ _)).
  - apply keeps_bind; [apply _|apply state_or_preserves|intros [key|]]; [|apply keeps_fail, _]. apply HA.
  - unfold handle_usage_ack. destruct (_ <? _)%nat; [apply keeps_fail, _|]. by apply (HO (OpMarkUsageSent _ _)).
  - apply handle_rotate_preserves.
  - apply keeps_fail, _.
Qed.
End Messages.

Section Invariant.
Context {UT : UnicodeTables} {FF : Float64Format} {ED : Ed25519} {XC : X509} {MO : MapOrder}.
Context {W : Type} {WS : Part sqlite W}.
Context (provisioner : option (Provisioner W)) (kickers : list (string -> prog W unit)).
Context (Hprov : forall p, provisioner = Some p -> exists _ : ProvisionerSpec p, True).
Context (Hkick : Forall (fun k => forall id, keeps (on_part (on_db (same (fun t => t)))) (k id)) kickers).

Abbreviation node_keeps := (keeps (on_part (on_db (preserves node_ok)))).

Lemma keeps_same_db {A} (m : prog W A) (R : relation tables) `{!Reflexive R} :
  keeps (on_part (on_db (same (fun t => t)))) m -> keeps (on_part (on_db R)) m.
Proof. intros Hm w. specialize (Hm w). unfold on_part, on_db, same in *. by rewrite Hm. Qed.

Lemma kick_db id : keeps (on_part (on_db (same (fun t => t)))) (kick kickers id).
Proof.
  intros w. unfold kick.
  assert (H : forall acc w, on_part (on_db (same (fun t => t))) w (kick_all kickers id acc w).2).
  { clear w. clear Hprov. revert Hkick. generalize kickers as ks. intros ks Hks.
    induction Hks as [|k ks Hk _ IH]; intros acc w; simpl; [reflexivity|].
    pose proof (Hk id w) as H1. destruct (k id w) as [r w']. simpl in *. etransitivity; [exact H1|apply IH]. }
  specialize (H None w). by destruct (kick_all kickers id None w) as [[e|] w'].
Qed.

Lemma provision_db (f : Provisioner W -> prog W unit) :
  (forall p, provisioner = Some p -> keeps (on_part (on_db (same (fun t => t)))) (f p)) ->
  keeps (on_part (on_db (same (fun t => t)))) (provision provisioner f).
Proof. intros Hf. unfold provision. destruct provisioner; [by apply Hf|apply keeps_ret, _]. Qed.

Lemma node_query {A} (f : tables -> result A) : node_keeps (on (query f)).
Proof. apply keeps_on, keeps_query, _. Qed.
Lemma node_op op :
  typed_op op -> (forall f, op <> OpSaveCompliance f) -> node_keeps (on (run_op op)).
Proof. intros. apply keeps_on. by apply run_op_node_ok. Qed.
Lemma node_kick id : node_keeps (kick kickers id).
Proof. apply keeps_same_db; [apply _|apply kick_db]. Qed.

Lemma node_upsert d : in_int64 (UsedBytes d) = true -> node_keeps (on (UpsertDevice d)).
Proof. intros Hd. by apply (node_op (OpUpsertDevice d)). Qed.

Lemma upsert_db p d : provisioner = Some p -> keeps (on_part (on_db (same (fun t => t)))) (pv_Upsert p d).
Proof. intros Hp. destruct (Hprov p Hp). apply pv_Upsert_db. Qed.

Lemma state_or_keeps R `{!PreOrder R} key fallback : keeps (on_part (on_db R)) (state_or key fallback).
Proof.
  apply keeps_bind; [apply _|apply keeps_try, keeps_on, keeps_query, _|intros [[v|]|e]];
    [apply keeps_ret, _| |];
    (apply keeps_bind; [apply _|apply keeps_try, keeps_on, keeps_query, _|intros [[v'|]|e']]);
    apply keeps_ret, _.
Qed.

Lemma handle_upsert_keeps payload : node_keeps (handle_upsert provisioner kickers payload).
Proof.
  unfold handle_upsert. apply keeps_if; [apply keeps_fail, _|].
  destruct (Policy (up_Plan payload)) as [pol|]; [|apply keeps_fail, _].
  apply keeps_bind; [apply _|apply keeps_try, node_query|intros previous].
  apply keeps_bind; [apply _|by apply node_upsert|intros _].
  apply keeps_bind; [apply _| |intros _].
  - destruct previous as [[old|]|e]; try apply keeps_ret, _.
    apply keeps_if; [|apply keeps_ret, _].
    apply keeps_bind; [apply _|apply keeps_try, node_kick|intros; apply keeps_ret, _].
  - apply keeps_same_db; [apply _|]. apply provision_db. intros p Hp.
    apply keeps_bind; [apply _|apply keeps_on, keeps_query, _|intros [d|]]; [apply upsert_db, Hp|apply keeps_ret, _].
Qed.

Lemma DeviceByID_cases id s r s' :
  DeviceByID id s = (r, s') ->
  db s' = db s /\ (forall d, r = Ok (Some d) ->
    exists row, t_devices (db s) !! id = Some row /\ scanDevice row = Ok d).
Proof.
  intros H. apply exec_cases in H as [[-> ->]|H]; [done|]. injection H as <- <-. split; [done|].
  intros d Hd. destruct (t_devices (db s) !! id) as [row|]; [|done]. exists row. split; [done|].
  simpl in Hd. destruct (scanDevice row); [|done]. by injection Hd as ->.
Qed.

Lemma handle_lease_keeps lease now : node_keeps (handle_lease provisioner lease now).
Proof.
  apply keeps_bind; [apply _|apply state_or_keeps, _|intros [key|]]; [|apply keeps_fail, _].
  destruct (Decode key) as [raw|]; [|apply keeps_fail, _].
  apply keeps_if; [apply keeps_fail, _|].
  apply keeps_bind; [apply _|apply keeps_lift, _|intros _].
  apply keeps_bind; [apply _|apply keeps_try, node_query|intros node].
  apply keeps_if; [apply keeps_fail, _|].
  intros w Hw. unfold bind, try. destruct (on (DeviceByID (ql_DeviceID lease)) w) as [r w1] eqn:E.
  apply on_cases in E as (s & E & ->). apply DeviceByID_cases in E as [Hs Hd].
  assert (Hw1 : node_ok (db (part (with_part s w)))) by (by rewrite part_with, Hs).
  destruct r as [[d|]|e]; [|done|done]. destruct (Hd d eq_refl) as (row & Hrow & Hscan).
  assert (Hu : in_int64 (UsedBytes (with_lease d (ql_Bytes lease) (ql_ExpiresAt lease))) = true).
  { unfold scanDevice in Hscan. destruct (in_int64 (dr_used_bytes row)) eqn:Hin; [|done].
    by injection Hscan as <-. }
  revert Hw1. generalize (with_part s w). clear - Hprov Hu. intros w1 Hw1.
  refine (keeps_bind _ _ _ (node_upsert _ Hu) _ w1 Hw1).
  intros _. apply keeps_same_db; [apply _|]. apply provision_db. intros p Hp. by apply upsert_db.
Qed.

Lemma handle_keeps message now1 now2 : node_keeps (handle provisioner kickers message now1 now2).
Proof.
  apply (handle_preserves provisioner kickers (fun w => node_ok (db (part w)))).
  - intros A f. apply node_query.
  - intros op Hu Hs. apply node_op; [|done]. destruct op; try done. by destruct (Hu d).
  - intros. exact (keeps_on (on_db (preserves node_ok)) _ (Apply_node_ok _ _ _ _)).
  - apply node_kick.
  - intros p id Hp. destruct (Hprov p Hp) as [PS _].
    split; apply (keeps_same_db _ (preserves node_ok)); [apply pv_Revoke_db|apply pv_Kick_db].
  - intros _ payload _. apply handle_upsert_keeps.
  - intros lease. apply handle_lease_keeps.
Qed.

Lemma readLoop_keeps frames (c : client W) :
  node_ok (db (part (cl_world c))) ->
  node_ok (db (part (cl_world (readLoop provisioner kickers frames c).2))).
Proof.
  enough (H : keeps (preserves (fun c : client W => node_ok (db (part (cl_world c)))))
                (readLoop provisioner kickers frames)) by apply H.
  apply keeps_for_each; [apply _|]. intros [[[[|payload] n1] n2] n3]; [apply keeps_ret, _|].
  intros c' Hc. simpl. destruct (payload ≫= decode_Envelope) as [m|]; [|done]. simpl.
  unfold read_message. destruct (_ && _); [done|].
  pose proof (handle_keeps m n1 n2 (cl_world c') Hc) as Hh.
  destruct (handle _ _ m n1 n2 (cl_world c')) as [[u|e] w]; simpl in *; [|done].
  by destruct (negb _).
Qed.
End Invariant.

(** ** The memory of handled messages *)

Lemma markSeen_size id seen : (size (markSeen id seen) <= 2049)%nat.
Proof.
  unfold markSeen. destruct (Z.ltb_spec 2048 (Z.of_nat (size seen))).
  - rewrite union_empty_l_L, size_singleton. lia.
  - pose proof (size_union_alt seen {[id]}) as Hs. rewrite Hs.
    pose proof (subseteq_size ({[id]} ∖ seen) {[id]} ltac:(set_solver)) as H1. rewrite size_singleton in H1. lia.
Qed.

Section Seen.
Context {UT : UnicodeTables} {FF : Float64Format} {ED : Ed25519} {XC : X509} {MO : MapOrder}.
Context {W : Type} {WS : Part sqlite W}.
Context (provisioner : option (Provisioner W)) (kickers : list (string -> prog W unit)).

Lemma read_message_seen m n1 n2 n3 (c : client W) :
  cl_seen (read_message provisioner kickers m n1 n2 n3 c) = cl_seen c
  \/ cl_seen (read_message provisioner kickers m n1 n2 n3 c) = markSeen (env_MessageID m) (cl_seen c).
Proof.
  unfold read_message. destruct (_ && _); [by left|].
  destruct (handle _ _ m n1 n2 (cl_world c)) as [[u|e] w]; [|by left].
  destruct (negb _); [by right|by left].
Qed.

Lemma read_frame_seen x (c : client W) :
  let c' := (let '(f, n1, n2, n3) := x in read_frame provisioner kickers f n1 n2 n3) c in
  cl_seen c'.2 = cl_seen c \/ exists id, cl_seen c'.2 = markSeen id (cl_seen c).
Proof.
  destruct x as [[[[|payload] n1] n2] n3]; [by left|]. simpl.
  destruct (payload ≫= decode_Envelope) as [m|]; [|by left]. simpl.
  destruct (read_message_seen m n1 n2 n3 c) as [->| ->]; eauto.
Qed.

Lemma readLoop_seen_bound frames (c : client W) :
  (size (cl_seen c) <= 2049)%nat -> (size (cl_seen (readLoop provisioner kickers frames c).2) <= 2049)%nat.
Proof.
  enough (H : keeps (preserves (fun c : client W => size (cl_seen c) <= 2049)%nat)
                (readLoop provisioner kickers frames)) by apply H.
  apply keeps_for_each; [apply _|]. intros x c' Hc.
  destruct (read_frame_seen x c') as [H|[id H]]; simpl in *; rewrite H; [done|apply markSeen_size].
Qed.

(** Until the memory fills up it only grows, by at most one entry per frame. *)
Lemma readLoop_remembers frames : forall c : client W,
  (size (cl_seen c) + length frames <= 2049)%nat ->
  cl_seen c ⊆ cl_seen (readLoop provisioner kickers frames c).2.
Proof.
  induction frames as [|x frames IH]; intros c Hsz; [done|].
  unfold readLoop in *. cbn [for_each length] in *. unfold bind.
  pose proof (read_frame_seen x c) as Hx. cbn zeta in Hx.
  set (r := (let '(f, n1, n2, n3) := x in read_frame provisioner kickers f n1 n2 n3) c) in *.
  assert (Hr : cl_seen c ⊆ cl_seen r.2 /\ (size (cl_seen r.2) <= S (size (cl_seen c)))%nat).
  { destruct Hx as [->|[id ->]]; [split; [done|lia]|]. unfold markSeen.
    rewrite (proj2 (Z.ltb_ge 2048 (Z.of_nat (size (cl_seen c))))) by lia. split; [set_solver|].
    rewrite size_union_alt.
    pose proof (subseteq_size ({[id]} ∖ cl_seen c) {[id]} ltac:(set_solver)) as H1.
    rewrite size_singleton in H1. lia. }
  destruct Hr as [Hr1 Hr2]. fold r. destruct r as [[u|e] c1]; cbn [snd] in *; [|done].
  etransitivity; [exact Hr1|]. apply IH. lia.
Qed.
End Seen.

(** ** Quota leases *)

Definition lease_row (lease : QuotaLease) (r : device_row) : device_row :=
  mkDeviceRow (dr_device_id r) (dr_credential_hash r) (dr_plan r) (boolInt (dr_active r =? 1))
    (dr_subscription_ends r) (dr_period_ends r) (dr_quota_bytes r) (dr_used_bytes r)
    (ql_Bytes lease) (Unix (ql_ExpiresAt lease)) (dr_override_up_bps r) (dr_override_down_bps r)
    (dr_override_p2p r) (dr_override_expires r).

Lemma upsert_row_lease lease row d :
  scanDevice row = Ok d -> dr_device_id row = ID d ->
  upsert_row (with_lease d (ql_Bytes lease) (ql_ExpiresAt lease)) (Some row) = lease_row lease row.
Proof.
  unfold scanDevice. destruct (in_int64 _); [|done]. intros [= <-] _.
  unfold upsert_row, with_lease, lease_row. cbn. rewrite !Unix_FromUnix.
  by rewrite Z.eqb_refl.
Qed.

Lemma own_hash_free t id row :
  db_ok t -> t_devices t !! id = Some row -> hash_taken t (dr_credential_hash row) id = false.
Proof.
  intros Hok Hrow. unfold hash_taken. apply bool_decide_eq_false. intros (k & r & Hk & Hh & Hne).
  apply Hne. by apply (ok_hash _ Hok k id r row).
Qed.

Section Lease.
Context {UT : UnicodeTables} {FF : Float64Format} {ED : Ed25519} {XC : X509} {MO : MapOrder}.
Context {W : Type} {WS : Part sqlite W}.
Context (provisioner : option (Provisioner W)).
Context (Hprov : forall p, provisioner = Some p -> exists _ : ProvisionerSpec p, True).

Lemma on_State_cases k (w w' : W) r :
  try (on (State k)) w = (Ok r, w') ->
  db (part w') = db (part w) /\ (forall v, r = Ok v -> v = t_state (db (part w)) !! k).
Proof.
  unfold try. destruct (on (State k) w) as [r0 w0] eqn:E. intros [= <- <-].
  apply on_cases in E as (s & E & ->). apply State_cases in E as [Hs Hv]. by rewrite part_with.
Qed.

Lemma try_ok {A} (m : prog W A) w : exists r w', try m w = (Ok r, w').
Proof. unfold try. destruct (m w). eauto. Qed.

Lemma state_or_cases key fallback (w w' : W) r :
  state_or key fallback w = (r, w') ->
  db (part w') = db (part w)
  /\ exists o, r = Ok o /\ (forall v, o = Some v ->
       t_state (db (part w)) !! key = Some v \/ t_state (db (part w)) !! fallback = Some v).
Proof.
  unfold state_or, bind.
  destruct (try_ok (on (State key)) w) as (r1 & w1 & E1). rewrite E1.
  apply on_State_cases in E1 as [Hs1 Hv1].
  destruct (try_ok (on (State fallback)) w1) as (r2 & w2 & E2).
  assert (Hsecond : match r1 with Ok (Some _) => False | _ => True end ->
    (match r2 with Ok (Some v) => ret (Some v) | _ => ret None end) w2 = (r, w') ->
    db (part w') = db (part w)
    /\ exists o, r = Ok o /\ (forall v, o = Some v ->
         t_state (db (part w)) !! key = Some v \/ t_state (db (part w)) !! fallback = Some v)).
  { intros _ H. apply on_State_cases in E2 as [Hs2 Hv2]. rewrite Hs1 in Hs2, Hv2.
    destruct r2 as [[v|]|e]; injection H as <- <-; (split; [done|]); eexists; (split; [done|]);
      intros v' [= <-]. right. symmetry. by apply Hv2. }
  destruct r1 as [[v|]|e]; [|rewrite E2; by apply Hsecond|rewrite E2; by apply Hsecond].
  intros [= <- <-]. split; [done|]. eexists. split; [done|]. intros v' [= <-]. left. symmetry. by apply Hv1.
Qed.

Lemma on_upsert_lease lease d row (w : W) r w' :
  db_ok (db (part w)) -> t_devices (db (part w)) !! ID d = Some row -> scanDevice row = Ok d ->
  on (UpsertDevice (with_lease d (ql_Bytes lease) (ql_ExpiresAt lease))) w = (r, w') ->
  ((exists e, r = Err e) /\ db (part w') = db (part w))
  \/ (r = Ok tt
      /\ db (part w') = with_devices (insert (ID d) (lease_row lease row)) (db (part w))).
Proof.
  intros Hok Hrow Hscan H. apply on_cases in H as (s & H & ->). rewrite part_with.
  apply exec_cases in H as [[-> Hs]|H]; [left; eauto|].
  assert (Hh : dr_credential_hash row = CredentialHash d).
  { unfold scanDevice in Hscan. destruct (in_int64 _); [|done]. by injection Hscan as <-. }
  cbn [with_lease CredentialHash ID] in H. rewrite <- Hh, own_hash_free in H by done.
  injection H as <- <-. right. split; [done|]. unfold with_devices. rewrite Hrow.
  erewrite upsert_row_lease; [done|done|]. by apply (ok_keys _ Hok).
Qed.

(** The lease that [handle_lease] accepted, and what it stores. *)
Record lease_installed (lease : QuotaLease) (now : time) (t t' : tables) : Prop := {
  li_verified : exists key keyRaw,
    (t_state t !! "quota_public_key" = Some key \/ t_state t !! "controller_public_key" = Some key)
    /\ Decode key = Some keyRaw /\ String.length keyRaw = PublicKeySize
    /\ VerifyLease lease keyRaw now = Ok tt;
  li_node : t_state t !! "node_id" = Some (ql_NodeID lease);
  li_device : exists row, t_devices t !! ql_DeviceID lease = Some row
    /\ t' = with_devices (insert (ql_DeviceID lease) (lease_row lease row)) t }.

Lemma handle_lease_cases lease now (w : W) r w' :
  handle_lease provisioner lease now w = (r, w') -> db_ok (db (part w)) ->
  (db (part w') = db (part w) /\ (exists e, r = Err e))
  \/ lease_installed lease now (db (part w)) (db (part w')).
Proof.
  intros H Hok. unfold handle_lease, bind in H.
  destruct (state_or _ _ w) as [r1 w1] eqn:E1. apply state_or_cases in E1 as (Hs1 & o & -> & Hkey).
  destruct o as [key|]; [|injection H as <- <-; left; eauto]. specialize (Hkey key eq_refl).
  destruct (Decode key) as [keyRaw|] eqn:Ed; [|injection H as <- <-; left; eauto].
  destruct (String.length keyRaw =? PublicKeySize)%nat eqn:El; [|injection H as <- <-; left; eauto].
  apply Nat.eqb_eq in El. cbn [negb] in H. unfold lift in H.
  destruct (VerifyLease lease keyRaw now) as [[]|e] eqn:Ev; [|injection H as <- <-; left; eauto].
  destruct (try_ok (on (State "node_id")) w1) as (r2 & w2 & E2). rewrite E2 in H.
  apply on_State_cases in E2 as [Hs2 Hv2]. rewrite Hs1 in Hs2, Hv2.
  destruct (String.eqb_spec (ql_NodeID lease) (match r2 with Ok (Some v) => v | _ => "" end)) as [Hn|Hn];
    cbn [negb] in H; [|injection H as <- <-; left; eauto].
  destruct (try_ok (on (DeviceByID (ql_DeviceID lease))) w2) as (r3 & w3 & E3). rewrite E3 in H.
  unfold try in E3. destruct (on (DeviceByID (ql_DeviceID lease)) w2) as [r3' w3'] eqn:E3'.
  injection E3 as -> ->. apply on_cases in E3' as (s & E3 & Hw3). apply DeviceByID_cases in E3 as [Hs3 Hd].
  assert (Hdb : db (part w3) = db (part w)) by (rewrite Hw3, part_with; congruence).
  destruct r3 as [[d|]|e]; [|injection H as <- <-; left; eauto..].
  destruct (Hd d eq_refl) as (row & Hrow & Hscan). rewrite Hs2 in Hrow.
  assert (Hid : ql_DeviceID lease = ID d).
  { rewrite <- (ok_keys _ Hok _ _ Hrow). unfold scanDevice in Hscan.
    destruct (in_int64 _); [|done]. by injection Hscan as <-. }
  destruct (on (UpsertDevice _) w3) as [r4 w4] eqn:E4.
  apply (on_upsert_lease lease d row) in E4; [|by rewrite Hdb|by rewrite Hdb, <- Hid|done].
  rewrite Hdb in E4. destruct E4 as [[[e ->] Hs4]|[-> Hs4]]; [injection H as <- <-; left; eauto|].
  assert (Hw' : db (part w') = db (part w4)).
  { unfold provision in H. destruct provisioner as [p|]; [|by injection H as _ <-].
    destruct (Hprov p eq_refl). pose proof (pv_Upsert_db (with_lease d (ql_Bytes lease) (ql_ExpiresAt lease)) w4) as Hp.
    by rewrite H in Hp. }
  right. rewrite Hw', Hs4. split; [eauto 10| |rewrite <- Hid; eauto].
  destruct (VerifyLease_ok lease keyRaw now) as [Hver _]. destruct (Hver Ev) as [[_ _ Hnode _ _ _ _] _].
  destruct r2 as [[v|]|e]; [|done|done]. rewrite Hn. symmetry. by apply Hv2.
Qed.
End Lease.

(** ** Device updates *)

(** A document that the controller made from [protocol.DeviceUpsert] has no lease. *)
Lemma decode_update_no_lease d data p :
  encode_DeviceUpsert d = Some data -> decode_upsert data = Some p ->
  up_DeviceID p = du_DeviceID d /\ up_LeaseBytes p = 0.
Proof.
  intros He Hp. unfold encode_DeviceUpsert in He.
  destruct (jtime (du_SubscriptionEnds d)) as [ts|] eqn:Ets; [|done].
  destruct (jtime (du_PeriodEnds d)) as [tp|] eqn:Etp; [|done]. injection He as <-.
  unfold decode_upsert, dec_struct in Hp.
  apply bind_Some in Hp as (i & Hi & Hp). rewrite field_first in Hi by reflexivity. injection Hi as <-.
  do 6 apply bind_Some in Hp as (? & _ & Hp).
  apply bind_Some in Hp as (l & Hl & Hp). rewrite field_absent in Hl by reflexivity. injection Hl as <-.
  apply bind_Some in Hp as (? & _ & Hp). by injection Hp as <-.
Qed.

Section Updates.
Context {UT : UnicodeTables} {FF : Float64Format} {ED : Ed25519} {XC : X509} {MO : MapOrder}.
Context {W : Type} {WS : Part sqlite W}.
Context (provisioner : option (Provisioner W)) (kickers : list (string -> prog W unit)).
Context (Hprov : forall p, provisioner = Some p -> exists _ : ProvisionerSpec p, True).
Context (Hkick : Forall (fun k => forall id, keeps (on_part (on_db (same (fun t => t)))) (k id)) kickers).

(** What follows the statement in [handle_upsert] leaves the tables alone. *)
Lemma handle_upsert_stores payload (w w' : W) :
  handle_upsert provisioner kickers payload w = (Ok tt, w') ->
  exists old, t_devices (db (part w')) !! up_DeviceID payload
              = Some (upsert_row (device_of_payload payload) old).
Proof.
  unfold handle_upsert. destruct (_ || _); [done|]. destruct (Policy _) as [pol|]; [|done].
  unfold bind at 1.
  destruct (try_ok (on (DeviceByID (up_DeviceID payload))) w) as (r1 & w1 & E1). rewrite E1.
  unfold bind at 1. intros H.
  destruct (on (UpsertDevice (device_of_payload payload)) w1) as [[[]|e] w2] eqn:E2; [|done].
  apply on_cases in E2 as (s & E2 & ->).
  assert (Hdb : db (part w') = db s).
  { match type of H with ?m _ = _ =>
      assert (Hm : keeps (on_part (on_db (same (fun t => t)))) m) end.
    { apply keeps_bind; [apply _| |intros _].
      - destruct r1 as [[old|]|]; try apply keeps_ret, _. apply keeps_if; [|apply keeps_ret, _].
        apply keeps_bind; [apply _|by apply keeps_try, kick_db|intros; apply keeps_ret, _].
      - apply (provision_db provisioner Hprov). intros p Hp. destruct (Hprov p Hp) as [PS _].
        apply keeps_bind; [apply _|apply keeps_on, keeps_query, _|intros [d|]];
          [apply pv_Upsert_db|apply keeps_ret, _]. }
    specialize (Hm (with_part s w1)). rewrite H in Hm. unfold on_part, on_db, same in Hm.
    by rewrite part_with in Hm. }
  rewrite Hdb. apply exec_cases in E2 as [[? _]|E2]; [done|].
  destruct (hash_taken _ _ _); [done|]. injection E2 as <-. simpl. rewrite lookup_insert_eq. eauto.
Qed.
End Updates.

(** ** Usage acknowledgements *)

Lemma unmarshal_some {W A} (d : json -> option A) j a : d j = Some a -> @unmarshal W A d (Some j) = ret a.
Proof. intros H. unfold unmarshal. cbn [mbind option_bind]. by rewrite H. Qed.

Lemma ack_id_text z : in_int64 z = true -> ack_id (Some (JStr (FormatInt z))) = [z].
Proof. intros Hz. unfold ack_id. cbn [dec_string]. by rewrite ParseInt_FormatInt. Qed.

Lemma ack_ids_text ids :
  Forall (fun z => in_int64 z = true) ids ->
  concat (ack_id <$> (Some <$> (JStr <$> (FormatInt <$> ids)))) = ids.
Proof.
  induction 1 as [|z ids Hz _ IH]; [done|]. cbn [fmap list_fmap concat]. rewrite ack_id_text by done.
  cbn [app]. f_equal. exact IH.
Qed.

Lemma decode_ack_ids_texts ids :
  decode_ack_ids (JObj [("eventIds", JArr (JStr <$> ids))]) = Some (Some <$> (JStr <$> ids)).
Proof.
  unfold decode_ack_ids, dec_struct. cbn [field]. rewrite String.eqb_refl. cbn [dec_list].
  assert (H : mapM (fun x => dec_raw x None) (JStr <$> ids) = Some (Some <$> (JStr <$> ids))).
  { induction ids as [|s ids IH]; [done|]. cbn. cbn in IH. by rewrite IH. }
  rewrite H. done.
Qed.

(** ** Properties *)

Section Properties.
Context {UT : UnicodeTables} {FF : Float64Format} {ED : Ed25519} {XC : X509} {MO : MapOrder}.
Context {W : Type} {WS : Part sqlite W}.
Context (provisioner : option (Provisioner W)) (kickers : list (string -> prog W unit)).

(** C5 - No controller message breaks the node's database.  Whatever frames
    arrive in whatever order, valid or not, and whichever operations fail on the
    way, the database keeps its invariant: unique credential hashes, int64
    counters, numbered usage events and only validated compliance rules; and the
    memory of handled messages holds at most 2049 entries. *)
Theorem frames_keep_invariant frames (c : client W) :
  (forall p, provisioner = Some p -> exists _ : ProvisionerSpec p, True) ->
  Forall (fun k => forall id, keeps (on_part (on_db (same (fun t => t)))) (k id)) kickers ->
  node_ok (db (part (cl_world c))) -> (size (cl_seen c) <= 2049)%nat ->
  let c' := (readLoop provisioner kickers frames c).2 in
  node_ok (db (part (cl_world c'))) /\ (size (cl_seen c') <= 2049)%nat.
Proof. intros Hp Hk Hc Hs. split; [by apply readLoop_keeps|by apply readLoop_seen_bound]. Qed.

(** Redelivery is harmless while the message is remembered.  A message
    with an identifier that was accepted is, when it arrives again, acknowledged
    as a duplicate and not applied, as long as no more frames came in between
    than the memory has room for.  But the memory is emptied when it is full:
    with more than 2048 entries, accepting one further message forgets every
    other one. *)
Theorem redelivery_window m n1 n2 n3 frames m1 m2 m3 (c : client W) :
  let c1 := read_message provisioner kickers m n1 n2 n3 c in
  let c2 := (readLoop provisioner kickers frames c1).2 in
  env_MessageID m <> "" ->
  ((handle provisioner kickers m n1 n2 (cl_world c)).1 = Ok tt ->
   (size (cl_seen c1) + length frames <= 2049)%nat ->
   read_message provisioner kickers m m1 m2 m3 c2
   = send (OAck (env_MessageID m) (mkAck true "duplicate" "" (seconds_text m3))) c2)
  /\ (forall id, (2048 < size (cl_seen c))%nat -> id <> env_MessageID m ->
      env_MessageID m ∉ cl_seen c -> (handle provisioner kickers m n1 n2 (cl_world c)).1 = Ok tt ->
      wasSeen id c1 = false).
Proof.
  intros c1 c2 Hid. split.
  - intros Hh Hsz. unfold read_message. rewrite (proj2 (String.eqb_neq _ _) Hid).
    assert (Hin : env_MessageID m ∈ cl_seen c2).
    { apply (readLoop_remembers provisioner kickers frames c1 Hsz). unfold c1, read_message.
      rewrite (proj2 (String.eqb_neq _ _) Hid). cbn [negb andb]. unfold wasSeen.
      case_bool_decide as Hs; [done|].
      destruct (handle provisioner kickers m n1 n2 (cl_world c)) as [[u|e] w]; [|done].
      simpl. unfold markSeen. set_solver. }
    unfold wasSeen. rewrite bool_decide_true by done. done.
  - intros id Hsz Hne Hns Hh. unfold c1, read_message, wasSeen.
    rewrite (proj2 (String.eqb_neq _ _) Hid), (bool_decide_false (env_MessageID m ∈ _)) by done. cbn [negb andb].
    destruct (handle provisioner kickers m n1 n2 (cl_world c)) as [[u|e] w]; [|done].
    apply bool_decide_eq_false. simpl. unfold markSeen.
    rewrite (proj2 (Z.ltb_lt 2048 (Z.of_nat (size (cl_seen c))))) by lia. set_solver.
Qed.

(** C15 - A quota lease is installed only when it is genuine and for this node.
    Handling a lease either leaves the database as it was and reports an error,
    or the lease was verified under the stored quota (or controller) key, names
    this node's id and a stored device, and the device's lease size and expiry -
    and nothing else of the database - became the lease's, its traffic counter
    and policy override included. *)
Theorem lease_is_genuine lease now (w : W) r w' :
  (forall p, provisioner = Some p -> exists _ : ProvisionerSpec p, True) ->
  handle_lease provisioner lease now w = (r, w') -> db_ok (db (part w)) ->
  (db (part w') = db (part w) /\ (exists e, r = Err e))
  \/ lease_installed lease now (db (part w)) (db (part w')).
Proof. intros Hp H Hok. by apply (handle_lease_cases provisioner Hp lease now w r w'). Qed.

(** A device update from the controller removes the lease.  The controller
    sends device updates without lease fields; after such a message has been
    handled the device's lease is 0 bytes, which admission reads as unlimited,
    until another lease arrives. *)
Theorem device_update_drops_lease d data (w : W) w' :
  (forall p, provisioner = Some p -> exists _ : ProvisionerSpec p, True) ->
  Forall (fun k => forall id, keeps (on_part (on_db (same (fun t => t)))) (k id)) kickers ->
  encode_DeviceUpsert d = Some data ->
  (let* payload := unmarshal decode_upsert (Some data) in handle_upsert provisioner kickers payload) w
    = (Ok tt, w') ->
  exists row, t_devices (db (part w')) !! du_DeviceID d = Some row /\ dr_lease_bytes row = 0.
Proof.
  intros Hprov Hkick He H. unfold bind at 1, unmarshal in H. simpl in H.
  destruct (decode_upsert data) as [payload|] eqn:Ed; [|done].
  destruct (decode_update_no_lease d data payload He Ed) as [<- Hl].
  destruct (handle_upsert_stores provisioner kickers Hprov Hkick payload w w' H) as [old ->].
  eexists. split; [done|]. exact Hl.
Qed.

(** C28 - Usage events make the round trip.  The node reports its pending events
    under the decimal text of their numbers; when the controller acknowledges
    those texts, exactly the reported events leave the queue and all others
    stay. *)
Theorem usage_round_trip now (w w' : W) events r :
  node_ok (db (part w)) ->
  (on (PendingUsage 1000) w).1 = Ok events ->
  Forall (fun e => in_int64 (ue_ID e) = true) events ->
  let texts := pu_EventID <$> (convert_event <$> events) in
  (let* ids := unmarshal decode_ack_ids (Some (JObj [("eventIds", JArr (JStr <$> texts))])) in
   handle_usage_ack ids now) w = (r, w') ->
  r = Ok tt ->
  pending_rows (db (part w'))
  = filter (fun row => ur_id row ∉ ue_ID <$> events) (pending_rows (db (part w))).
Proof.
  intros Hok Hev Hint texts H ->.
  assert (Hlen : (length events <= 5000)%nat).
  { destruct (on (PendingUsage 1000) w) as [r0 w0] eqn:E. simpl in Hev. subst r0.
    apply on_cases in E as (s & E & _). apply exec_cases in E as [[? _]|E]; [done|].
    injection E as <- _. rewrite length_fmap, length_take. lia. }
  assert (Ht : texts = FormatInt <$> (ue_ID <$> events)).
  { unfold texts. rewrite <- !list_fmap_compose. done. }
  rewrite (unmarshal_some _ _ _ (decode_ack_ids_texts texts)) in H. unfold bind at 1, ret in H.
  unfold handle_usage_ack in H. rewrite !length_fmap in H.
  assert (Hl : length texts = length events) by (rewrite Ht, !length_fmap; done). rewrite Hl in H.
  rewrite (proj2 (Nat.ltb_ge _ _) Hlen), Ht, ack_ids_text in H by (by apply Forall_fmap).
  apply on_cases in H as (s & H & ->). rewrite part_with.
  unfold MarkUsageSent in H. destruct (length (ue_ID <$> events) =? 0)%nat eqn:E.
  - injection H as <-. apply Nat.eqb_eq, length_zero_iff_nil in E as ->. symmetry.
    apply filter_all. intros. apply not_elem_of_nil.
  - apply update_cases in H as [(e & ? & _)|[_ ->]]; [done|]. apply pending_mark.
Qed.
End Properties.

(** ** The properties at work: a client on a bare database *)

Module Samples.
#[local] Existing Instances plain_unicode plain_floats toy_ed25519 toy_ed25519_laws toy_x509 sorted_order.

Definition no_provisioner : option (Provisioner sqlite) := None.
Definition no_kickers : list (string -> prog sqlite unit) := [].

Lemma no_provisioner_ok : forall p, no_provisioner = Some p -> exists _ : ProvisionerSpec p, True.
Proof. intros p H. discriminate H. Qed.
Lemma no_kickers_ok : Forall (fun k => forall id, keeps (on_part (on_db (same (fun t => t)))) (k id)) no_kickers.
Proof. constructor. Qed.

Definition revoke_message : Envelope :=
  mkEnvelope 2 "message-1" "" "device.revoke" 0 (Some (JObj [("deviceId", JStr "device-1")])).
Definition sample_client : client sqlite := mkClient (mkSqlite empty_tables []) ∅ [].

Lemma empty_node_ok : node_ok empty_tables.
Proof. split; [apply db_ok_empty|]. intros c H. discriminate H. Qed.

Lemma frames_keep_invariant_witness :
  node_ok (db (part (cl_world (readLoop no_provisioner no_kickers
    [(Text (Some (JObj [("type", JStr "device.revoke"); ("messageId", JStr "m")])), 0, 0, 0); (Text None, 0, 0, 0)]
    sample_client).2))).
Proof.
  apply (frames_keep_invariant no_provisioner no_kickers).
  - exact no_provisioner_ok.
  - exact no_kickers_ok.
  - exact empty_node_ok.
  - vm_compute. lia.
Defined.

Lemma redelivery_window_witness :
  let c1 := read_message no_provisioner no_kickers revoke_message 0 0 0 sample_client in
  let c2 := (readLoop no_provisioner no_kickers [(Binary, 0, 0, 0)] c1).2 in
  read_message no_provisioner no_kickers revoke_message 0 0 0 c2
  = send (OAck "message-1" (mkAck true "duplicate" "" (seconds_text 0))) c2.
Proof.
  apply (redelivery_window no_provisioner no_kickers revoke_message 0 0 0 [(Binary, 0, 0, 0)] 0 0 0 sample_client).
  - discriminate.
  - vm_compute. reflexivity.
  - vm_compute. lia.
Defined.

(** A node with a quota key and one device. *)
Definition leasing_tables : tables :=
  with_state (fun _ => {["quota_public_key" := Encode (ed_public sample_private); "node_id" := "node-1"]})
    (db (UpsertDevice sample_device (mkSqlite empty_tables [])).2).
Definition signed_lease : QuotaLease :=
  match SignLease sample_lease sample_private with Ok l => l | Err _ => sample_lease end.

Lemma leasing_tables_ok : db_ok leasing_tables.
Proof.
  destruct (UpsertDevice_preserves sample_device eq_refl (mkSqlite empty_tables []) db_ok_empty) as [H1 H2 H3 H4 H5].
  split; assumption.
Qed.

Lemma lease_is_genuine_witness :
  let p := handle_lease no_provisioner signed_lease (FromUnix 1786215700) (mkSqlite leasing_tables []) in
  lease_installed signed_lease (FromUnix 1786215700) leasing_tables (db (part p.2)).
Proof.
  intros p.
  destruct (lease_is_genuine no_provisioner signed_lease (FromUnix 1786215700) (mkSqlite leasing_tables []) p.1 p.2)
    as [[_ [e He]]|H].
  - exact no_provisioner_ok.
  - exact (surjective_pairing p).
  - exact leasing_tables_ok.
  - vm_compute in He. discriminate He.
  - exact H.
Defined.

Definition sample_update : DeviceUpsert :=
  mkDeviceUpsert "device-1" "hash-1" Plus true (FromUnix 1786219200) (FromUnix 1786219200) 600000000000.

Definition sample_update_data : json := default JNull (encode_DeviceUpsert sample_update).
Definition update_run : result unit * sqlite :=
  (let* payload := unmarshal decode_upsert (Some sample_update_data) in
   handle_upsert no_provisioner no_kickers payload) (mkSqlite leasing_tables []).

Lemma device_update_drops_lease_witness :
  (exists old, t_devices leasing_tables !! "device-1" = Some old /\ dr_lease_bytes old = 1000000)
  /\ exists row, t_devices (db (part update_run.2)) !! "device-1" = Some row /\ dr_lease_bytes row = 0.
Proof.
  split; [eexists; split; vm_compute; reflexivity|].
  apply (device_update_drops_lease no_provisioner no_kickers sample_update sample_update_data
           (mkSqlite leasing_tables []) update_run.2).
  - exact no_provisioner_ok.
  - exact no_kickers_ok.
  - vm_compute. reflexivity.
  - vm_compute. reflexivity.
Defined.

Definition metered_tables : tables :=
  with_usage (fun _ => [mkUsageRow 1 "d" 1 2 0 None; mkUsageRow 2 "d" 3 4 0 None]) 2 empty_tables.

Lemma usage_round_trip_witness :
  let s := mkSqlite metered_tables [] in
  let ack := (let* ids := unmarshal decode_ack_ids (Some (JObj [("eventIds", JArr [JStr "1"; JStr "2"])])) in
              handle_usage_ack ids 0) s in
  pending_rows (db (part ack.2)) = [].
Proof.
  intros s ack.
  rewrite (usage_round_trip 0 s ack.2
    [Store.mkUsageEvent 1 "d" 1 2 0; Store.mkUsageEvent 2 "d" 3 4 0] (Ok tt)).
  - vm_compute. reflexivity.
  - split; [|intros c H; discriminate H].
    split; simpl; try (intros *; rewrite lookup_empty; discriminate).
    + repeat constructor.
    + split; [repeat constructor; simpl; lia|lia].
  - vm_compute. reflexivity.
  - repeat constructor.
  - vm_compute. reflexivity.
  - reflexivity.
Defined.
End Samples.
