(* ===== verification/Agent.v ===== *)
(** * The node agent as a whole

    src/cmd/risevpn-node/main.go, [serve]: one database shared by the control
    client, the Xray manager and the traffic collector.  The Xray manager is the
    client's provisioner and the collector its kicker; this file discharges the
    promises of those interfaces and proves what holds of the composition. *)

From S2P Require Import Prelude GoStrings Base64 Json Model Store Crypto Compliance Policy Protocol Xray Usage Enrollment Control.
From stdpp Require Import base gmap strings list.
From Stdlib Require Import ZArith Lia.
Open Scope Z_scope.

Record agent (X H : Type) := mkAgent { ag_manager : manager X; ag_api : H }.
Arguments mkAgent {X H}. Arguments ag_manager {X H}. Arguments ag_api {X H}.

#[export] Instance agent_manager X H : Part (manager X) (agent X H).
Proof. refine {| part := ag_manager; with_part m w := mkAgent m (ag_api w) |}; [done|by intros []]. Defined.
#[export] Instance agent_store X H : Part sqlite (agent X H).
Proof.
  refine {| part w := mg_store (ag_manager w);
            with_part s w := mkAgent (with_part s (ag_manager w)) (ag_api w) |}; [done|by intros [[]]].
Defined.
#[export] Instance agent_collector X H : Part (collector H) (agent X H).
Proof.
  refine {| part w := mkCollector (mg_store (ag_manager w)) (ag_api w);
            with_part c w := mkAgent (with_part (co_store c) (ag_manager w)) (co_api c) |};
    [by intros []|by intros [[]]].
Defined.

Section Agent.
Context {UT : UnicodeTables} {FF : Float64Format} {ED : Ed25519} {XC : X509} {MO : MapOrder} {US : UuidSha1}.
Context {X : Type} {XA : XrayApi X} {H : Type} {TA : TrafficApi H}.
Context (address : string).

(** [control.New(database, complianceService, version, collector, xrayManager)]:
    the manager has the three methods of a provisioner, the collector only
    [Kick].  [now] is the clock reading of the manager's admission test. *)
Definition xray_provisioner (now : time) : Provisioner (agent X H) :=
  mkProvisioner (fun d => on (Xray.Upsert address d now))
                (fun id => on (Xray.Revoke address id)) (fun id => on (Xray.Kick address id)).
Definition hysteria_kicker (id : string) : prog (agent X H) unit := on (Usage.Kick id).

(** The steps of the running agent: a message of the controller ([n3] is the
    clock of the provisioner), the periodic tasks, and the other operations on
    the database (enrollment, alerts, devices issued on the command line). *)
Inductive agent_step :=
  | SMessage (m : Envelope) (n1 n2 n3 : time)
  | SReconcile (clock : string -> time)
  | SCollectUsage (clock1 clock2 : string -> time)
  | SCollect (clock : string -> time)
  | SStore (op : store_op).

Definition run_step (st : agent_step) : prog (agent X H) unit :=
  match st with
  | SMessage m n1 n2 n3 => handle (Some (xray_provisioner n3)) [hysteria_kicker] m n1 n2
  | SReconcile clock => on (Reconcile address clock)
  | SCollectUsage c1 c2 => on (CollectUsage address c1 c2)
  | SCollect clock => on (Collect clock)
  | SStore op => on (run_op op)
  end.

Definition run_steps (l : list agent_step) (w : agent X H) : agent X H :=
  foldl (fun w st => (run_step st w).2) w l.
End Agent.

(** ** The manager keeps its promises *)

Section Discharge.
Context {UT : UnicodeTables} {US : UuidSha1} {MO : MapOrder} {X : Type} {XA : XrayApi X} {XL : XrayLaws X}.
Context (address : string).

Definition mdb (w : manager X) : tables := db (mg_store w).

Lemma local_mdb {A} (m : prog (manager X) A) :
  (forall w r w', m w = (r, w') -> mg_store w' = mg_store w) -> keeps (same mdb) m.
Proof. intros Hm w. destruct (m w) as [r w'] eqn:E. unfold same, mdb. simpl. by rewrite (Hm _ _ _ E). Qed.

Lemma dial_mdb : keeps (same mdb) (dial address).
Proof. apply local_mdb. intros w r w' E. by apply dial_effect in E as ([? _] & _). Qed.
Lemma remove_mdb d : keeps (same mdb) (Xray.remove address d).
Proof. apply local_mdb. intros w r w' E. by apply remove_effect in E as ([? _] & _). Qed.
Lemma add_mdb d : keeps (same mdb) (Xray.add address d).
Proof. apply local_mdb. intros w r w' E. by apply add_effect in E as ([? _] & _). Qed.
Lemma current_mdb : keeps (same mdb) (current address).
Proof. apply local_mdb. intros w r w' E. by apply current_effect in E as ([? _] & _). Qed.
Lemma setBlocked_mdb f : keeps (same mdb) (setBlocked f : prog (manager X) unit).
Proof. by intros w. Qed.
Lemma query_mdb {A} (f : tables -> result A) : keeps (same mdb) (on (query f) : prog (manager X) A).
Proof. intros w. exact (keeps_on (W := manager X) (on_db (same (fun t => t))) _ (keeps_query _ f) w). Qed.

Lemma Revoke_mdb d : keeps (same mdb) (Revoke address d).
Proof. apply keeps_bind; [apply _|apply setBlocked_mdb|intros _; apply remove_mdb]. Qed.

Lemma Upsert_mdb d now : keeps (same mdb) (Upsert address d now).
Proof.
  apply keeps_bind; [apply _|apply setBlocked_mdb|intros _]. apply keeps_if; [apply remove_mdb|].
  apply keeps_bind; [apply _|apply current_mdb|intros c].
  apply keeps_bind; [apply _|apply keeps_lift, _|intros i]. apply keeps_if; [apply keeps_ret, _|].
  apply keeps_bind; [apply _| |intros _; apply add_mdb].
  destruct (c !! ID d); [apply remove_mdb|apply keeps_ret, _].
Qed.

Lemma reconcile_current_mdb l : forall D, keeps (same mdb) (reconcile_current address l D).
Proof.
  induction l as [|[d i] l IH]; intros D; cbn [reconcile_current]; [apply keeps_ret, _|].
  destruct (D !! d); [|apply keeps_bind; [apply _|apply remove_mdb|intros _; apply IH]].
  apply keeps_bind; [apply _|apply keeps_lift, _|intros x].
  apply keeps_bind; [apply _| |intros _; apply IH]. apply keeps_if; [|apply keeps_ret, _].
  apply keeps_bind; [apply _|apply remove_mdb|intros _; apply add_mdb].
Qed.

Lemma Reconcile_mdb clock : keeps (same mdb) (Reconcile address clock).
Proof.
  apply keeps_bind; [apply _| |intros plan].
  - apply keeps_bind; [apply _|apply query_mdb|intros ds].
    apply keeps_bind; [apply _|apply current_mdb|intros c].
    apply keeps_bind; [apply _|by intros w|intros b; apply keeps_ret, _].
  - apply keeps_bind; [apply _|apply reconcile_current_mdb|intros rest].
    apply keeps_for_each; [apply _|]. intros kv. apply add_mdb.
Qed.

(** An inactive device, or another one, does not make [id] a user. *)
Lemma Upsert_absent id d now :
  ID d <> id \/ Active d = false -> keeps (preserves (absent id)) (Upsert address d now).
Proof.
  intros Hd. apply keeps_bind; [apply _|by intros w Hw|intros _].
  destruct (allowed d now) eqn:Ea; cbn [negb]; [|apply keeps_absent_quiet, quiet_remove].
  destruct Hd as [Hd|Hd]; [by apply keeps_absent_quiet, quiet_ensure|].
  unfold allowed in Ea. by rewrite Hd in Ea.
Qed.

Lemma Revoke_absent id d : keeps (preserves (absent id)) (Revoke address d).
Proof. apply keeps_bind; [apply _|by intros w Hw|intros _; apply keeps_absent_quiet, quiet_remove]. Qed.

(** With the device revoked in the database, reconciliation does not add it. *)
Lemma Reconcile_absent id clock w :
  db_ok (mdb w) -> revoked id (mdb w) -> absent id w -> absent id (Reconcile address clock w).2.
Proof.
  intros Hok Hrev Ha. unfold Reconcile, bind.
  destruct (reconcile_plan address clock w) as [r w1] eqn:E.
  pose proof (keeps_absent_quiet id _ (reconcile_plan_quiet address id clock) w Ha) as Ha1. rewrite E in Ha1.
  destruct r as [plan|e]; [|done].
  apply (keeps_absent_quiet id _); [|done]. apply reconcile_apply_quiet. intros k dev Hk Hid.
  apply reconcile_plan_devices in E as (ds & Hds & Hp). rewrite Hp in Hk.
  destruct (listed_unique _ _ Hok Hds) as [Hin Huniq].
  apply desired_lookup in Hk as (Hdev & _ & Hal & _); [|done].
  apply Hin in Hdev as (row & Hrow & Hscan). rewrite Hid in Hrow.
  destruct (scanDevice_id _ _ Hscan) as [_ Hact]. rewrite (Hrev _ Hrow) in Hact.
  unfold allowed in Hal. by rewrite Hact in Hal.
Qed.
End Discharge.

(** A program of the manager, run in the agent. *)
Lemma on_manager_mdb {X H A} (m : prog (manager X) A) :
  keeps (same mdb) m -> keeps (on_part (on_db (same (fun t => t)))) (on m : prog (agent X H) A).
Proof.
  intros Hm w. specialize (Hm (ag_manager w)). unfold on, on_part, on_db, same, mdb in *. simpl.
  by destruct (m (ag_manager w)).
Qed.

#[export] Instance xray_provisioner_spec {UT : UnicodeTables} {US : UuidSha1} {X} {XA : XrayApi X} {XL : XrayLaws X}
    {H} address now : ProvisionerSpec (xray_provisioner (X := X) (H := H) address now).
Proof.
  refine {| connected id w := ~ absent id (ag_manager w) |}.
  - intros d. apply on_manager_mdb, Upsert_mdb.
  - intros id. apply on_manager_mdb, Revoke_mdb.
  - intros id. apply on_manager_mdb, Revoke_mdb.
  - intros id w w' E Hc. apply on_cases in E as (m & E & ->). apply Hc. by apply (Revoke_out address) in E as [_ ?].
  - intros id w w' E Hc. apply on_cases in E as (m & E & ->). apply Hc. by apply (Revoke_out address) in E as [_ ?].
Defined.

(** ** A revoked device stays locked out *)

Definition barred (id : string) (t : tables) : Prop := db_ok t /\ revoked id t.

Lemma UpsertDevice_barred id d :
  in_int64 (UsedBytes d) = true -> ID d <> id \/ Active d = false ->
  keeps (on_db (preserves (barred id))) (UpsertDevice d).
Proof.
  intros Hu Hd s [Hok Hr]. split; [by apply (UpsertDevice_preserves d Hu s)|].
  destruct (UpsertDevice d s) as [r s'] eqn:E. apply exec_cases in E as [[_ E]|E]; simpl; [by rewrite E|].
  destruct (hash_taken _ _ _); injection E as _ E; rewrite <- E; [done|].
  intros row. simpl. rewrite lookup_insert. case_decide as Hid; [|by apply Hr].
  intros [= <-]. simpl. destruct Hd as [Hd|Hd]; [done|by rewrite Hd].
Qed.

Lemma run_op_barred id op :
  typed_op op -> is_upsert_of id op = false -> keeps (on_db (preserves (barred id))) (run_op op).
Proof.
  intros Ht Hu s [Hok Hr]. split; [by apply (run_op_preserves op Ht s)|by apply (run_op_revoked id op Hu s)].
Qed.

Lemma AddUsage_barred id d tx rx now : keeps (on_db (preserves (barred id))) (AddUsage d tx rx now).
Proof.
  intros s Hs. pose proof (run_op_barred id (OpAddUsage d tx rx now) I eq_refl s Hs) as Hk. simpl in Hk.
  unfold bind, on_db in *. destruct (AddUsage d tx rx now s) as [[n|e] s']; exact Hk.
Qed.

Lemma Apply_barred {UT : UnicodeTables} {FF : Float64Format} {ED : Ed25519} id now1 now2 feed key :
  keeps (on_db (preserves (barred id))) (Apply now1 now2 feed key).
Proof.
  apply keeps_bind; [apply _|apply keeps_lift, _|intros raw].
  apply keeps_bind; [apply _|by apply (run_op_barred id (OpSaveCompliance _))|intros _].
  by apply (run_op_barred id (OpResolveAlert staleAlert)).
Qed.

Section Locked.
Context {UT : UnicodeTables} {FF : Float64Format} {ED : Ed25519} {XC : X509} {MO : MapOrder} {US : UuidSha1}.
Context {X : Type} {XA : XrayApi X} {XL : XrayLaws X} {H : Type} {TA : TrafficApi H}.
Context (address : string) (id : string).

(** The device is inactive in the database and not an Xray user. *)
Definition locked (w : agent X H) : Prop := barred id (mdb (ag_manager w)) /\ absent id (ag_manager w).

Abbreviation stays := (keeps (preserves locked)).

Lemma stays_store {A} (m : prog sqlite A) : keeps (on_db (preserves (barred id))) m -> stays (on m).
Proof.
  intros Hm w [Hb Ha]. specialize (Hm (mg_store (ag_manager w)) Hb). unfold on.
  cbn [part agent_store]. destruct (m (mg_store (ag_manager w))) as [r s]. by split.
Qed.

Lemma stays_query {A} (f : tables -> result A) : stays (on (query f)).
Proof. apply stays_store, keeps_query, _. Qed.

Lemma stays_manager {A} (m : prog (manager X) A) :
  keeps (same mdb) m -> keeps (preserves (absent id)) m -> stays (on m).
Proof.
  intros Hm Ha w [Hb Hw]. specialize (Hm (ag_manager w)). specialize (Ha (ag_manager w) Hw). unfold on.
  cbn [part agent_manager]. destruct (m (ag_manager w)) as [r m']. unfold same in Hm. simpl in *.
  split; simpl; [by rewrite Hm|done].
Qed.

Lemma stays_collector {A} (m : prog (collector H) A) :
  keeps (preserves (fun c => barred id (db (co_store c)))) m -> stays (on m).
Proof.
  intros Hm w [Hb Ha]. specialize (Hm (mkCollector (mg_store (ag_manager w)) (ag_api w)) Hb). unfold on.
  cbn [part agent_collector]. destruct (m _) as [r c]. by split.
Qed.

Lemma Usage_Kick_barred d : keeps (preserves (fun c : collector H => barred id (db (co_store c)))) (Usage.Kick d).
Proof.
  apply keeps_bind; [apply _| |intros status; apply keeps_if; [apply keeps_fail, _|apply keeps_ret, _]].
  intros c Hc. unfold on. simpl. by destruct (ta_kick d (co_api c)).
Qed.

Lemma stays_kick d : stays (kick [hysteria_kicker] d).
Proof.
  intros w Hw. unfold kick. cbn [kick_all].
  pose proof (stays_collector _ (Usage_Kick_barred d) w Hw) as Hk. unfold hysteria_kicker.
  by destruct (on (Usage.Kick d) w) as [[u|e] w'].
Qed.

Lemma stays_Upsert d now : ID d <> id \/ Active d = false -> stays (pv_Upsert (xray_provisioner address now) d).
Proof. intros Hd. apply stays_manager; [apply Upsert_mdb|by apply Upsert_absent]. Qed.

(** A device that was read has the key of its row. *)
Lemma read_device k w r w' :
  on (DeviceByID k) w = (r, w') -> locked w ->
  locked w' /\ (forall d, r = Ok (Some d) -> ID d = k /\ in_int64 (UsedBytes d) = true
                  /\ (k = id -> Active d = false)).
Proof.
  intros E Hw. split.
  { pose proof (stays_query (fun t => scan_option (t_devices t !! k)) w Hw) as Hk.
    unfold DeviceByID in E. by rewrite E in Hk. }
  intros d ->. apply on_cases in E as (s & E & _). apply DeviceByID_cases in E as [_ Hd].
  destruct (Hd d eq_refl) as (row & Hrow & Hscan). destruct Hw as [[Hok Hrev] _].
  destruct (scanDevice_id _ _ Hscan) as [Hid Hact]. rewrite (ok_keys _ Hok _ _ Hrow) in Hid.
  split_and!; [done| |intros ->; by rewrite Hact, (Hrev _ Hrow)].
  unfold scanDevice in Hscan. destruct (in_int64 (dr_used_bytes row)) eqn:Hin; [|done]. by injection Hscan as <-.
Qed.

Lemma stays_upsert now payload :
  up_DeviceID payload <> id ->
  stays (handle_upsert (Some (xray_provisioner address now)) [hysteria_kicker] payload).
Proof.
  intros Hne. unfold handle_upsert. apply keeps_if; [apply keeps_fail, _|].
  destruct (Policy (up_Plan payload)) as [pol|]; [|apply keeps_fail, _].
  apply keeps_bind; [apply _|apply keeps_try, stays_query|intros previous].
  apply keeps_bind; [apply _|apply stays_store, UpsertDevice_barred; [done|by left]|intros _].
  apply keeps_bind; [apply _| |intros _].
  - destruct previous as [[old|]|e]; try apply keeps_ret, _. apply keeps_if; [|apply keeps_ret, _].
    apply keeps_bind; [apply _|apply keeps_try, stays_kick|intros; apply keeps_ret, _].
  - intros w Hw. unfold provision, bind. destruct (on (DeviceByID (up_DeviceID payload)) w) as [r w1] eqn:E.
    destruct (read_device _ _ _ _ E Hw) as [Hw1 Hd]. destruct r as [[d|]|e]; [|done|done].
    destruct (Hd d eq_refl) as [Hid _]. apply stays_Upsert; [left; congruence|done].
Qed.

Lemma stays_lease now n1 lease : stays (handle_lease (Some (xray_provisioner address now)) lease n1).
Proof.
  apply keeps_bind; [apply _|apply (state_or_preserves locked); intros; apply stays_query|intros [key|]];
    [|apply keeps_fail, _].
  destruct (Decode key) as [raw|]; [|apply keeps_fail, _]. apply keeps_if; [apply keeps_fail, _|].
  apply keeps_bind; [apply _|apply keeps_lift, _|intros _].
  apply keeps_bind; [apply _|apply keeps_try, stays_query|intros node]. apply keeps_if; [apply keeps_fail, _|].
  intros w Hw. unfold bind at 1, try.
  destruct (on (DeviceByID (ql_DeviceID lease)) w) as [r w1] eqn:E.
  destruct (read_device _ _ _ _ E Hw) as [Hw1 Hd]. destruct r as [[d|]|e]; [|done|done].
  destruct (Hd d eq_refl) as (Hid & Hu & Hact).
  set (d' := with_lease d (ql_Bytes lease) (ql_ExpiresAt lease)).
  assert (Hor : ID d' <> id \/ Active d' = false).
  { destruct (decide (ql_DeviceID lease = id)) as [He|He]; [right; by apply Hact|left; simpl; congruence]. }
  revert w1 E Hw1. intros w1 _ Hw1.
  refine (keeps_bind _ _ _ (stays_store _ (UpsertDevice_barred id d' Hu Hor)) _ w1 Hw1).
  intros _. by apply stays_Upsert.
Qed.

(** A message that updates the device [id] itself. *)
Definition updates (m : Envelope) : Prop :=
  env_Type m = "device.upsert"
  /\ exists payload, env_Data m ≫= decode_upsert = Some payload /\ up_DeviceID payload = id.

Lemma stays_message now m n1 n2 :
  ~ updates m -> stays (handle (Some (xray_provisioner address now)) [hysteria_kicker] m n1 n2).
Proof.
  intros Hm. apply (handle_preserves _ _ locked).
  - intros A f. apply stays_query.
  - intros op Hu Hs. apply stays_store, run_op_barred; destruct op; try done; by destruct (Hu d).
  - intros. apply stays_store, Apply_barred.
  - apply stays_kick.
  - intros p d [= <-]. split; apply stays_manager; first [apply Revoke_mdb|apply Revoke_absent].
  - intros Ht payload Hp. apply stays_upsert. intros Hid. apply Hm. split; [done|]. eauto.
  - intros lease. apply stays_lease.
Qed.

Lemma counters_mdb d l : forall up down, keeps (same mdb) (read_counters d l up down : prog (manager X) _).
Proof.
  induction l as [|[dir []] l IH]; intros up down w; [done|]. cbn [read_counters].
  destruct (xr_get_stats _ (mg_xray w)) as [[v|e] x].
  - destruct (String.eqb dir "uplink"); apply (IH _ _ (mkManager (mg_store w) (mg_blocked w) x)).
  - destruct (grpc_code e =? NotFound); [apply (IH _ _ (mkManager (mg_store w) (mg_blocked w) x))|done].
Qed.

(** The manager's own invariant, for the loops that also write the database. *)
Definition mlocked (w : manager X) : Prop := barred id (mdb w) /\ absent id w.

Lemma mlocked_frame {A} (m : prog (manager X) A) :
  keeps (same mdb) m -> keeps (preserves (absent id)) m -> keeps (preserves mlocked) m.
Proof.
  intros Hm Ha w [Hb Hw]. specialize (Hm w). unfold same in Hm. split; [by rewrite Hm|by apply (Ha w)].
Qed.
Lemma mlocked_store {A} (m : prog sqlite A) :
  keeps (on_db (preserves (barred id))) m -> keeps (preserves mlocked) (on m).
Proof.
  intros Hm w [Hb Ha]. specialize (Hm (mg_store w) Hb). unfold on. cbn [part manager_store].
  destruct (m (mg_store w)) as [r s]. by split.
Qed.
Lemma mlocked_Revoke d : keeps (preserves mlocked) (Revoke address d).
Proof. apply mlocked_frame; [apply Revoke_mdb|apply Revoke_absent]. Qed.

Lemma mlocked_collect c1 c2 : keeps (preserves mlocked) (CollectUsage address c1 c2).
Proof.
  apply keeps_bind; [apply _|apply mlocked_store, keeps_query, _|intros ds].
  apply keeps_bind; [apply _|apply mlocked_frame; [apply dial_mdb|apply keeps_absent_quiet, quiet_dial]|intros _].
  apply keeps_for_each; [apply _|]. intros d.
  apply keeps_bind; [apply _|apply mlocked_frame; [apply counters_mdb|apply keeps_absent_quiet, quiet_counters]|].
  intros [up down]. apply keeps_if; [|apply keeps_ret, _].
  apply keeps_bind; [apply _|apply mlocked_store, AddUsage_barred|intros _].
  apply keeps_bind; [apply _|apply mlocked_store, keeps_query, _|intros [u|]]; [|apply keeps_ret, _].
  apply keeps_if; [|apply keeps_ret, _].
  apply keeps_bind; [apply _|apply keeps_try, mlocked_Revoke|intros; apply keeps_ret, _].
Qed.

Abbreviation cbarred := (keeps (preserves (fun c : collector H => barred id (db (co_store c))))).

Lemma cbarred_store {A} (m : prog sqlite A) : keeps (on_db (preserves (barred id))) m -> cbarred (on m).
Proof.
  intros Hm c Hc. specialize (Hm (co_store c) Hc). unfold on. cbn [part collector_store].
  by destruct (m (co_store c)).
Qed.
Lemma cbarred_api {A} (m : prog H A) : cbarred (on m).
Proof. intros c Hc. unfold on. cbn [part collector_api]. by destruct (m (co_api c)). Qed.

Lemma cbarred_Collect clock : cbarred (Collect clock).
Proof.
  apply keeps_bind; [apply _|apply cbarred_api|intros resp]. apply keeps_if; [apply keeps_fail, _|].
  apply keeps_bind; [apply _|apply keeps_lift, _|intros counters].
  apply keeps_bind; [apply _|apply keeps_for_each; [apply _|intros [d c]]|intros _].
  - unfold collect_one. apply keeps_if; [apply keeps_ret, _|].
    apply keeps_bind; [apply _|apply keeps_try, cbarred_store, AddUsage_barred|intros [used|e]];
      [|apply keeps_fail, _].
    apply keeps_bind; [apply _|apply keeps_try, cbarred_store, keeps_query, _|intros [[dev|]|e]];
      try apply keeps_ret, _.
    apply keeps_if; [|apply keeps_ret, _].
    apply keeps_bind; [apply _|apply keeps_try, Usage_Kick_barred|intros; apply keeps_ret, _].
  - apply keeps_bind; [apply _|apply cbarred_api|intros online]. apply keeps_if; [apply keeps_fail, _|].
    apply keeps_bind; [apply _|apply keeps_lift, _|intros m].
    apply keeps_bind; [apply _|by apply cbarred_store, (run_op_barred id (OpSetState _ _))|intros _].
    by apply cbarred_store, (run_op_barred id (OpSetState _ _)).
Qed.

(** Steps that do not bring the device back. *)
Definition keeps_out (st : agent_step) : Prop :=
  match st with
  | SMessage m _ _ _ => ~ updates m
  | SStore op => typed_op op /\ is_upsert_of id op = false
  | _ => True
  end.

Lemma stays_step st : keeps_out st -> stays (run_step address st).
Proof.
  destruct st as [m n1 n2 n3|clock|c1 c2|clock|op]; simpl.
  - apply stays_message.
  - intros _ w [[Hok Hr] Ha]. unfold on. cbn [part agent_manager].
    pose proof (Reconcile_mdb address clock (ag_manager w)) as Hm.
    pose proof (Reconcile_absent address id clock (ag_manager w) Hok Hr Ha) as Ha'. unfold same in Hm.
    destruct (Reconcile address clock (ag_manager w)) as [r m']. simpl in *. split; simpl; [|done].
    rewrite Hm. by split.
  - intros _ w Hw. pose proof (mlocked_collect c1 c2 (ag_manager w) Hw) as Hm. unfold on. cbn [part agent_manager].
    by destruct (CollectUsage address c1 c2 (ag_manager w)).
  - intros _. apply stays_collector, cbarred_Collect.
  - intros [Ht Hu]. by apply stays_store, run_op_barred.
Qed.

Lemma stays_steps l w : Forall keeps_out l -> locked w -> locked (run_steps address l w).
Proof.
  intros Hl. revert w. induction Hl as [|st l Hst _ IH]; intros w Hw; [done|].
  simpl. apply IH. by apply (stays_step st Hst w).
Qed.
End Locked.

(** A revocation that was acknowledged has locked the device out. *)
Lemma revoke_locks {UT : UnicodeTables} {FF : Float64Format} {ED : Ed25519} {XC : X509} {MO : MapOrder}
    {US : UuidSha1} {X} {XA : XrayApi X} {XL : XrayLaws X} {H} {TA : TrafficApi H}
    address id now (w w' : agent X H) :
  db_ok (mdb (ag_manager w)) ->
  handle_revoke (Some (xray_provisioner address now)) [hysteria_kicker] id w = (Ok tt, w') ->
  locked id w'.
Proof.
  intros Hok E. unfold handle_revoke, bind in E.
  destruct (on (RevokeDevice id) w) as [[[]|e] w1] eqn:E1; [|done]. apply on_cases in E1 as (s & E1 & ->).
  assert (Hb : barred id (db s)).
  { change (part w) with (mg_store (ag_manager w)) in E1. split; [|by eapply RevokeDevice_revoked].
    pose proof (run_op_preserves (OpRevokeDevice id) I _ Hok) as Hk. simpl in Hk. by rewrite E1 in Hk. }
  simpl in E. destruct (on (Revoke address id) _) as [[[]|e] w2] eqn:E2; [|done].
  apply on_cases in E2 as (m & E2 & ->).
  assert (Hm : mdb m = db s).
  { match type of E2 with Revoke _ _ ?x = _ => pose proof (Revoke_mdb address id x) as Hk end.
    unfold same in Hk. by rewrite E2 in Hk. }
  apply (Revoke_out address) in E2 as [_ Ha].
  match type of E with kick _ _ ?x = _ => pose proof (stays_kick id id x) as Hk end.
  rewrite E in Hk. apply Hk.
  split; [|done]. change (barred id (mdb m)). by rewrite Hm.
Qed.

(** ** Properties *)


Module Samples.
#[local] Existing Instances plain_unicode plain_floats toy_ed25519 toy_x509 sorted_order toy_uuid.

Definition sample_agent : agent toy_xray toy_traffic :=
  mkAgent (sample_manager ∅ {[email "device-1" := VlessAccount "x"]}) (mkToyTraffic (JObj []) []).

End Samples.
