(* ===== verification/Server.v ===== *)
(** * The node's HTTP interface

    src/internal/server/http.go: the internal API that the VPN server asks before
    it opens a session or a connection, and the enrollment endpoint.  Routing,
    listening and shutdown are left to the library; a handler takes the decoded
    body and returns the status and the JSON document it writes. *)

From S2P Require Import Prelude GoStrings Base64 Json Model Store Crypto Compliance Policy Enrollment.
From stdpp Require Import base gmap strings list.
From Stdlib Require Import ZArith Lia Ascii.
Open Scope Z_scope.

Record response := mkHttpResponse { rp_status : Z; rp_body : json }.

Definition error_body (message : string) : json := JObj [("error", JStr message)].

(** ** Request bodies *)

(** The body as the JSON decoder sees it: unreadable, or a first value and
    whether anything but white space follows. *)
Inductive request_body := Malformed | Document (first : json) (more : bool).

(** The request, or the answer that [decodeJSON] has already written (without the
    decoder's own words). *)
Definition decodeJSON {A} (names : list string) (d : json -> option A) (body : request_body) : A + response :=
  match body with
  | Malformed => inr (mkHttpResponse 400 (error_body "invalid JSON"))
  | Document j more =>
      match (if known_fields names j then d j else None) with
      | None => inr (mkHttpResponse 400 (error_body "invalid JSON"))
      | Some a => if more then inr (mkHttpResponse 400 (error_body "request must contain one JSON object"))
                  else inl a
      end
  end.

(** [encoding/json] reads a byte slice from padded standard base64. *)
Definition url_char (c : ascii) : option ascii :=
  if Ascii.eqb c "+" then Some "-"%char else if Ascii.eqb c "/" then Some "_"%char
  else if Ascii.eqb c "-" || Ascii.eqb c "_" then None else Some c.
Fixpoint url_text (s : string) : option string :=
  match s with
  | "" => Some ""
  | String c s' => if is_newline c then url_text s' else c' ← url_char c; s'' ← url_text s'; Some (String c' s'')
  end.
Definition StdDecode (s : string) : option string :=
  t ← url_text s;
  if negb (String.length t mod 4 =? 0)%nat then None else
  Decode (if HasSuffix t "==" then TrimSuffix t "==" else TrimSuffix t "=").

Definition dec_bytes : dec string := fun j old =>
  match j with JStr s => StdDecode s | JNull => Some "" | _ => None end.

(** ** Handlers *)

Record auth_request := mkAuthRequest { aq_Address : string; aq_Auth : string; aq_TX : Z }.
Definition decode_auth (j : json) : option auth_request :=
  dec_struct (fun m old =>
    a ← field "addr" dec_string m (aq_Address old);
    c ← field "auth" dec_string m (aq_Auth old);
    t ← field "tx" dec_int m (aq_TX old);
    Some (mkAuthRequest a c t)) j (mkAuthRequest "" "" 0).

Record authorize_request := mkAuthorizeRequest {
  zq_ID : string; zq_UDP : bool; zq_Address : string; zq_InitialPayload : string }.
Definition decode_authorize (j : json) : option authorize_request :=
  dec_struct (fun m old =>
    i ← field "id" dec_string m (zq_ID old);
    u ← field "udp" dec_bool m (zq_UDP old);
    a ← field "addr" dec_string m (zq_Address old);
    p ← field "initialPayload" dec_bytes m (zq_InitialPayload old);
    Some (mkAuthorizeRequest i u a p)) j (mkAuthorizeRequest "" false "" "").

Definition encode_SessionPolicy (p : SessionPolicy) : json :=
  JObj [("upBps", jint (sp_UpBPS p)); ("downBps", jint (sp_DownBPS p)); ("priority", jint (sp_Priority p));
        ("p2pAllowed", JBool (sp_P2PAllowed p)); ("deviceId", JStr (sp_DeviceID p));
        ("throttled", JBool (sp_Throttled p)); ("complianceRequired", JBool (sp_Compliance p))].

Definition omit_text (name value : string) : list (string * json) :=
  if String.eqb value "" then [] else [(name, JStr value)].

Definition encode_AuthDecision (d : AuthDecision) : json :=
  JObj ([("ok", JBool (ad_OK d))] ++ omit_text "id" (ad_ID d)
        ++ (match ad_Policy d with Some p => [("policy", encode_SessionPolicy p)] | None => [] end)
        ++ omit_text "reason" (ad_Reason d)).

Section Servers.
Context {UT : UnicodeTables} {MO : MapOrder} {XC : X509} {UP : UrlParser}.

Definition auth (body : request_body) (now : time) : sqlite -> response * sqlite := fun s =>
  match decodeJSON ["addr"; "auth"; "tx"] decode_auth body with
  | inr r => (r, s)
  | inl request =>
      match Authenticate (aq_Auth request) now s with
      | (Err _, s') => (mkHttpResponse 500 (error_body "authentication backend failed"), s')
      | (Ok decision, s') => (mkHttpResponse 200 (encode_AuthDecision decision), s')
      end
  end.

Definition authorize (body : request_body) (now : time) : sqlite -> response * sqlite := fun s =>
  match decodeJSON ["id"; "udp"; "addr"; "initialPayload"] decode_authorize body with
  | inr r => (r, s)
  | inl request =>
      if 64 * 1024 <? Z.of_nat (String.length (zq_InitialPayload request))
      then (mkHttpResponse 400 (error_body "initial payload is too large"), s) else
      match Authorize (zq_ID request) (zq_Address request) (zq_InitialPayload request) now s with
      | (Ok (ok, reason, None), s') =>
          (mkHttpResponse 200 (JObj [("ok", JBool ok); ("reason", JStr reason)]), s')
      | (_, s') => (mkHttpResponse 500 (error_body "authorization backend failed"), s')
      end
  end.

(** The documents of [status] and [rules], up to the encoding of the alerts. *)
Record status_report := mkStatus { st_nodeID : string; st_claimed : bool; st_alerts : list Alert }.

Definition status : prog sqlite status_report :=
  let* node := try (State "node_id") in
  let nodeID := match node with Ok (Some v) => v | _ => "" end in
  let* e := GetEnrollment in
  let* alerts := ActiveAlerts in
  ret (mkStatus nodeID (match e with Some e => match en_ClaimedAt e with Some _ => true | None => false end
                                  | None => false end) alerts).

(** The handler: an error document, or the report. *)
Definition status_handler : sqlite -> (response + status_report) * sqlite := fun s =>
  match status s with
  | (Err e, s') => (inl (mkHttpResponse 500 (error_body (error_text e))), s')
  | (Ok report, s') => (inr report, s')
  end.

Definition rules : sqlite -> response * sqlite := fun s =>
  match CurrentRules s with
  | (Err e, s') => (mkHttpResponse 500 (error_body (error_text e)), s')
  | (Ok None, s') => (mkHttpResponse 404 (error_body "compliance feed is unavailable"), s')
  | (Ok (Some (raw, version)), s') =>
      (mkHttpResponse 200 (JObj [("rules", raw); ("version", JStr version)]), s')
  end.

Definition decode_ClaimRequest (j : json) : option ClaimRequest :=
  dec_struct (fun m old =>
    t ← field "claimToken" dec_string m (rq_ClaimToken old);
    u ← field "controllerUrl" dec_string m (rq_ControllerURL old);
    k ← field "controllerPublicKey" dec_string m (rq_ControllerPublicKey old);
    q ← field "quotaPublicKey" dec_string m (rq_QuotaPublicKey old);
    c ← field "compliancePublicKey" dec_string m (rq_CompliancePublicKey old);
    n ← field "nodeCertificatePem" dec_string m (rq_NodeCertificatePEM old);
    a ← field "controllerCaPem" dec_string m (rq_ControllerCAPEM old);
    Some (mkClaimRequest t u k q c n a)) j (mkClaimRequest "" "" "" "" "" "" "").

Definition claim_fields : list string :=
  ["claimToken"; "controllerUrl"; "controllerPublicKey"; "quotaPublicKey"; "compliancePublicKey";
   "nodeCertificatePem"; "controllerCaPem"].

(** The claim endpoint; the flag says that the endpoint is closed afterwards. *)
Definition claim (body : request_body) (now1 now2 : time) : sqlite -> response * bool * sqlite := fun s =>
  match decodeJSON claim_fields decode_ClaimRequest body with
  | inr r => (r, false, s)
  | inl request =>
      match ClaimNode request now1 now2 s with
      | (Err e, s') => (mkHttpResponse 401 (error_body (error_text e)), false, s')
      | (Ok _, s') =>
          (mkHttpResponse 200 (JObj [("message", JStr "node claimed; enrollment endpoint is closing");
                                     ("ok", JBool true)]), true, s')
      end
  end.
End Servers.

(** ** Lemmas *)

Definition read_only {A} (m : prog sqlite A) : Prop := forall s, db (m s).2 = db s.
Lemma read_only_keeps {A} (m : prog sqlite A) : keeps (on_db (same (fun t => t))) m -> read_only m.
Proof. intros H s. exact (H s). Qed.
Lemma Authenticate_reads credential now : read_only (Authenticate credential now).
Proof.
  apply read_only_keeps. unfold Authenticate. apply keeps_if; [apply keeps_ret, _|].
  apply keeps_bind; [apply _|apply keeps_query, _|intros [d|]; apply keeps_ret, _].
Qed.
Lemma Authorize_reads {UT : UnicodeTables} id address payload now : read_only (Authorize id address payload now).
Proof.
  apply read_only_keeps. unfold Authorize. apply keeps_bind; [apply _|apply keeps_try, keeps_query, _|intros [[d|]|e]];
    try apply keeps_ret, _. apply keeps_if; [apply keeps_ret, _|].
  apply keeps_bind; [apply _|apply keeps_try, Blocked_keeps, _|intros [[]|e]]; try apply keeps_ret, _.
  destruct (Policy (Plan d)); [|apply keeps_ret, _]. apply keeps_if; apply keeps_ret, _.
Qed.
Lemma status_reads : read_only status.
Proof.
  apply read_only_keeps. unfold status. apply keeps_bind; [apply _|apply keeps_try, keeps_query, _|intros node].
  apply keeps_bind; [apply _|apply keeps_query, _|intros e]. apply keeps_bind; [apply _|apply keeps_query, _|intros a; apply keeps_ret, _].
Qed.

(** An error document with the given status. *)
Definition error_answer (r : response) (code : Z) : Prop := rp_status r = code /\ exists message, rp_body r = error_body message.
(** A read that [Authorize] or [Authenticate] needs fails. *)
Definition authorize_fails {UT : UnicodeTables} (q : authorize_request) (s : sqlite) : Prop :=
  (exists e s1, DeviceByID (zq_ID q) s = (Err e, s1))
  \/ exists d s1 e s2, DeviceByID (zq_ID q) s = (Ok (Some d), s1) /\ Active d = true
       /\ Blocked (zq_Address q) s1 = (Err e, s2).
Definition authenticate_fails (q : auth_request) (s : sqlite) : Prop :=
  aq_Auth q <> "" /\ exists e s1, DeviceByCredentialHash (Hash (aq_Auth q)) s = (Err e, s1).
(** What a permission requires of the stored state. *)
Definition permitted {UT : UnicodeTables} (q : authorize_request) (now : time) (s : sqlite) : Prop :=
  exists row d p, t_devices (db s) !! zq_ID q = Some row /\ scanDevice row = Ok d /\ Active d = true
    /\ Policy (Plan d) = Some p
    /\ (exists s1 s2, Blocked (zq_Address q) s1 = (Ok false, s2) /\ db s1 = db s)
    /\ ((if After (OverrideExpires d) now then OverrideP2P d else pp_P2PAllowed p) = true
        \/ isP2P (zq_Address q) (zq_InitialPayload q) = false).

Lemma decodeJSON_error {A} names (d : json -> option A) body r : decodeJSON names d body = inr r -> error_answer r 400.
Proof.
  unfold decodeJSON. destruct body as [|j more]; [intros [= <-]; split; [done|by eexists]|].
  destruct (if known_fields names j then d j else None); [|intros [= <-]; split; [done|by eexists]].
  destruct more; [intros [= <-]; split; [done|by eexists]|done].
Qed.
(** The decision of [Authorize]: an error exactly when a read fails, and a
    permission only when everything is in order. *)
Lemma Authorize_outcome {UT : UnicodeTables} q now s :
  match (Authorize (zq_ID q) (zq_Address q) (zq_InitialPayload q) now s).1 with
  | Ok (ok, _, None) => ~ authorize_fails q s /\ (ok = true -> permitted q now s)
  | _ => authorize_fails q s
  end.
Proof.
  unfold Authorize, bind, try. destruct (DeviceByID (zq_ID q) s) as [[[d|]|e] s1] eqn:E1; cycle 1.
  { split; [|done]. intros [(e & s' & H)|(d & s' & e & s2 & H & _)]; congruence. }
  { left. eauto. }
  assert (Hs1 : db s1 = db s /\ exists row, t_devices (db s) !! zq_ID q = Some row /\ scanDevice row = Ok d).
  { pose proof E1 as H. apply exec_cases in H as [[? _]|H]; [done|]. injection H as H <-. split; [done|].
    destruct (t_devices (db s) !! zq_ID q) as [row|]; [|done]. exists row. split; [done|].
    simpl in H. destruct (scanDevice row); [|done]. by injection H as ->. }
  destruct Hs1 as [Hs1 (row & Hrow & Hscan)].
  assert (Hcalm : (Active d = true -> exists b s2, Blocked (zq_Address q) s1 = (Ok b, s2)) -> ~ authorize_fails q s).
  { intros H [(e & s' & H')|(d' & s' & e & s2 & H' & Ha & Hb)]; [congruence|]. rewrite E1 in H'. injection H' as <- <-.
    destruct (H Ha) as (b & s3 & H3). congruence. }
  destruct (Active d) eqn:Ha; cbn [negb]; [|split; [by apply Hcalm|done]].
  destruct (Blocked (zq_Address q) s1) as [[[]|e] s2] eqn:E2; [split; [apply Hcalm; eauto|done]| |right; by exists d, s1, e, s2].
  destruct (Policy (Plan d)) as [p|] eqn:Hp; [|split; [apply Hcalm; eauto|done]].
  destruct (negb _ && isP2P _ _) eqn:Ep; (split; [apply Hcalm; eauto|]); [done|]. intros _.
  exists row, d, p. split_and!; [done|done|done|done|eauto|].
  apply andb_false_iff in Ep as [Ep|Ep]; [left; by apply negb_false_iff|by right].
Qed.
Lemma Authenticate_outcome q now s :
  match (Authenticate (aq_Auth q) now s).1 with Ok _ => ~ authenticate_fails q s | Err _ => authenticate_fails q s end.
Proof.
  unfold Authenticate, authenticate_fails. destruct (String.eqb_spec (aq_Auth q) ""); [by intros [? _]|]. unfold bind.
  destruct (DeviceByCredentialHash _ s) as [[[d|]|e] s1] eqn:E; cbn [ret fst]; [|..|by eauto]; intros (_ & e & s' & H); congruence.
Qed.

(** ** Properties *)

(** C40 - The internal API fails closed and only reads.  A request of [auth] or
    [authorize] that is malformed, or that carries too large a payload, is answered
    with an error document of status 400; when a read of the database that the
    decision needs fails, or the stored rules can not be evaluated, the answer is
    an error document of status 500; otherwise it is 200 with the decision.  A
    permission is given only when the request named a stored, active device of a
    known plan, the rules were readable and did not block the destination, and
    peer-to-peer traffic is allowed or was not recognised.  [status] answers 500
    when one of its reads fails, [rules] answers 500 when the read fails and 404
    when there are no rules, and none of the four changes the database. *)
Theorem internal_api_fails_closed {UT : UnicodeTables} body now s :
  match decodeJSON ["id"; "udp"; "addr"; "initialPayload"] decode_authorize body with
  | inr _ => error_answer (authorize body now s).1 400
  | inl q =>
      let answer := (authorize body now s).1 in
      if 64 * 1024 <? Z.of_nat (String.length (zq_InitialPayload q)) then error_answer answer 400 else
      (authorize_fails q s -> error_answer answer 500)
      /\ (~ authorize_fails q s -> rp_status answer = 200
            /\ exists ok reason, rp_body answer = JObj [("ok", JBool ok); ("reason", JStr reason)] /\ (ok = true -> permitted q now s))
  end
  /\ match decodeJSON ["addr"; "auth"; "tx"] decode_auth body with
     | inr _ => error_answer (auth body now s).1 400
     | inl q =>
         let answer := (auth body now s).1 in
         (authenticate_fails q s -> error_answer answer 500)
         /\ (~ authenticate_fails q s -> rp_status answer = 200
               /\ exists decision, (Authenticate (aq_Auth q) now s).1 = Ok decision /\ rp_body answer = encode_AuthDecision decision)
     end
  /\ (forall e s1 s2, (State "node_id" s).2 = s1 -> GetEnrollment s1 = (Err e, s2) -> exists r, (status_handler s).1 = inl r /\ error_answer r 500)
  /\ (forall e s1, Compliance s = (Err e, s1) -> error_answer (rules s).1 500)
  /\ (forall s1, Compliance s = (Ok None, s1) -> error_answer (rules s).1 404)
  /\ db (authorize body now s).2 = db s /\ db (auth body now s).2 = db s
  /\ db (status_handler s).2 = db s /\ db (rules s).2 = db s.
Proof.
  assert (He : forall code message, error_answer (mkHttpResponse code (error_body message)) code) by (intros; split; [done|by eexists]).
  split_and!.
  - unfold authorize. destruct (decodeJSON _ decode_authorize body) as [q|r] eqn:Ed; [|by eapply decodeJSON_error].
    cbv zeta. destruct (64 * 1024 <? _); [apply He|]. pose proof (Authorize_outcome q now s) as H.
    destruct (Authorize _ _ _ now s) as [[[[ok reason] [e|]]|e] s']; cbn [fst] in *; (split; [intros Hf|intros Hn]); try done; try apply He.
    + by destruct H.
    + split; [done|]. exists ok, reason. by destruct H.
  - unfold auth. destruct (decodeJSON _ decode_auth body) as [q|r] eqn:Ed; [|by eapply decodeJSON_error].
    cbv zeta. pose proof (Authenticate_outcome q now s) as H.
    destruct (Authenticate _ now s) as [[d|e] s']; cbn [fst] in *; (split; [intros Hf|intros Hn]); try done; try apply He.
    split; [done|]. by exists d.
  - intros e s1 s2 Hs1 Hg. unfold status_handler, status, bind at 1, try. destruct (State "node_id" s) as [x y]. cbn in Hs1. subst y.
    unfold bind at 1. rewrite Hg. eexists. split; [reflexivity|apply He].
  - intros e s1 Hc. unfold rules, CurrentRules, bind. rewrite Hc. apply He.
  - intros s1 Hc. unfold rules, CurrentRules, bind. rewrite Hc. apply He.
  - unfold authorize. destruct (decodeJSON _ decode_authorize body) as [q|r]; [|done]. destruct (64 * 1024 <? _); [done|].
    pose proof (Authorize_reads (zq_ID q) (zq_Address q) (zq_InitialPayload q) now s) as H.
    destruct (Authorize _ _ _ now s) as [[[[ok reason] [e|]]|e] s']; exact H.
  - unfold auth. destruct (decodeJSON _ decode_auth body) as [q|r]; [|done].
    pose proof (Authenticate_reads (aq_Auth q) now s) as H. by destruct (Authenticate _ now s) as [[d|e] s'].
  - pose proof (status_reads s) as H. unfold status_handler. by destruct (status s) as [[r|e] s'].
  - assert (H : read_only CurrentRules).
    { apply read_only_keeps. unfold CurrentRules. apply keeps_bind; [apply _|apply keeps_query, _|intros found; apply keeps_ret, _]. }
    specialize (H s). unfold rules. by destruct (CurrentRules s) as [[[[raw version]|]|e] s'].
Qed.

(** A device that is permitted, and the same request while the database fails. *)
Lemma internal_api_fails_closed_witness :
  let s := (UpsertDevice sample_credential_device (mkSqlite empty_tables [])).2 in
  let body := Document (JObj [("id", JStr "device-1"); ("addr", JStr "example.org:443")]) false in
  let q := mkAuthorizeRequest "device-1" false "example.org:443" "" in
  @permitted plain_unicode q (FromUnix 1000) s
  /\ error_answer (@authorize plain_unicode body (FromUnix 1000) (mkSqlite (db s) [true])).1 500.
Proof.
  intros s body q.
  assert (Ed : decodeJSON ["id"; "udp"; "addr"; "initialPayload"] decode_authorize body = inl q) by (vm_compute; reflexivity). split.
  - destruct (@internal_api_fails_closed plain_unicode body (FromUnix 1000) s) as [H _]. rewrite Ed in H. cbv zeta in H.
    change (64 * 1024 <? Z.of_nat (String.length (zq_InitialPayload q))) with false in H. destruct H as [_ H].
    destruct H as (_ & ok & reason & Hbody & Hok).
    + intros [(e & s1 & H)|(d & s1 & e & s2 & H1 & _ & H3)]; [vm_compute in H; discriminate|].
      vm_compute in H1. injection H1 as _ <-. vm_compute in H3. discriminate.
    + apply Hok. vm_compute in Hbody. by injection Hbody as <- _.
  - destruct (@internal_api_fails_closed plain_unicode body (FromUnix 1000) (mkSqlite (db s) [true])) as [H _]. rewrite Ed in H. cbv zeta in H.
    change (64 * 1024 <? Z.of_nat (String.length (zq_InitialPayload q))) with false in H. apply H.
    left. vm_compute. by eexists _, _.
Defined.
