(* ===== verification/Config.v ===== *)
(** * The agent's configuration file

    src/internal/config/config.go.  The file is a list of [key=value] lines with
    comments; [Load] reads it through [bufio.Scanner], fills in the defaults and
    insists on three settings. *)

From S2P Require Import Prelude GoStrings.
From stdpp Require Import base gmap strings list.
From Stdlib Require Import ZArith Lia Ascii.
Open Scope Z_scope.

Record Config := mkConfig {
  Domain : string; MasqueradeURL : string; DatabasePath : string; InternalListen : string;
  EnrollmentListen : string; TLSCertFile : string; TLSKeyFile : string; TrafficStatsURL : string;
  TrafficStatsSecret : string; XrayAPIAddress : string; XrayTransport : string;
  RealityPrivateKey : string; RealityPublicKey : string; RealityShortID : string; AgentVersion : string }.

Definition newline : ascii := byte_of 10.
Definition carriage_return : string := String (byte_of 13) "".

(** The lines of [bufio.ScanLines] before the carriage return is dropped: a final
    line needs no newline, and no empty line follows the last newline. *)
Fixpoint raw_lines (s : string) : list string :=
  match s with
  | "" => []
  | String c s' =>
      if Ascii.eqb c newline then "" :: raw_lines s'
      else match raw_lines s' with
           | l :: ls => String c l :: ls
           | [] => [String c ""]
           end
  end.

(** [strings.Cut(s, "=")] *)
Definition cut_equals (s : string) : option (string * string) :=
  match IndexByte s "=" with
  | Some i => Some (stake i s, sdrop (S i) s)
  | None => None
  end.

Definition MaxScanTokenSize : Z := 65536.

(** The scanning loop of [Load] with the error check after it.  The scanner fails
    when its buffer of [MaxScanTokenSize] bytes is full without a newline.  The
    error text shows the line without Go's quoting. *)
Fixpoint scan_lines (lines : list string) (read_error : option error) (values : gmap string string)
    : result (gmap string string) :=
  match lines with
  | [] => match read_error with Some e => Err e | None => Ok values end
  | raw :: rest =>
      if MaxScanTokenSize <=? Z.of_nat (String.length raw) then Err (LibErr "bufio") else
      let line := TrimSpace (TrimSuffix raw carriage_return) in
      if String.eqb line "" || HasPrefix line "#" then scan_lines rest read_error values else
      match cut_equals line with
      | None => Err (Wrap "invalid config line" (Msg line))
      | Some (key, value) => scan_lines rest read_error (<[TrimSpace key := TrimSpace value]> values)
      end
  end.

Definition fallback (value defaultValue : string) : string :=
  if String.eqb value "" then defaultValue else value.

Definition config_of (values : gmap string string) : Config :=
  let get key := default "" (values !! key) in
  mkConfig (get "domain") (get "masquerade_url")
    (fallback (get "database_path") "/var/lib/risevpn/node.db")
    (fallback (get "internal_listen") "127.0.0.1:9080")
    (fallback (get "enrollment_listen") ":8443")
    (fallback (get "tls_cert_file") ("/etc/letsencrypt/live/" +:+ get "domain" +:+ "/fullchain.pem"))
    (fallback (get "tls_key_file") ("/etc/letsencrypt/live/" +:+ get "domain" +:+ "/privkey.pem"))
    (fallback (get "traffic_stats_url") "http://127.0.0.1:9999")
    (get "traffic_stats_secret")
    (fallback (get "xray_api_address") "127.0.0.1:10085")
    (fallback (get "xray_transport") "reality")
    (get "reality_private_key") (get "reality_public_key") (get "reality_short_id")
    (fallback (get "agent_version") "dev").

(** [file] is the outcome of [os.Open] and of reading: the bytes read and the
    error that ended the reading early, if any. *)
Definition Load (file : result (string * option error)) : result Config :=
  match file with
  | Err e => Err e
  | Ok (text, read_error) =>
      match scan_lines (raw_lines text) read_error ∅ with
      | Err e => Err e
      | Ok values =>
          let cfg := config_of values in
          if String.eqb (Domain cfg) "" || String.eqb (MasqueradeURL cfg) ""
             || String.eqb (TrafficStatsSecret cfg) ""
          then Err (Msg "domain, masquerade_url and traffic_stats_secret are required")
          else Ok cfg
      end
  end.

Definition ParsePort (address : string) : result Z :=
  match LastIndexByte address ":" with
  | None => Err (Msg ("address has no port: " +:+ address))
  | Some index =>
      let '(port, ok) := Atoi (sdrop (S index) address) in
      if ok then Ok port else Err (LibErr "strconv")
  end.

(** ** Configuration files as written *)

Inductive entry :=
  | Setting (key value : string)
  | Comment (text : string)
  | Blank.

Definition render_entry (e : entry) : string :=
  match e with
  | Setting key value => key +:+ String "=" value
  | Comment text => String "#" text
  | Blank => ""
  end.
Definition render (entries : list entry) : string :=
  foldr (fun e text => render_entry e +:+ String newline text) "" entries.

(** What a written entry must look like: one line of admissible length, keys and
    values without surrounding white space, keys that are not read as comments. *)
Definition entry_ok (e : entry) : bool :=
  negb (contains_byte (render_entry e) newline)
  && (Z.of_nat (String.length (render_entry e)) <? MaxScanTokenSize)
  && match e with
     | Setting key value =>
         String.eqb (TrimSpace key) key && String.eqb (TrimSpace value) value
         && negb (contains_byte key "=") && negb (HasPrefix key "#")
     | _ => true
     end.

Definition settings (entries : list entry) : gmap string string :=
  foldl (fun m e => match e with Setting key value => <[key := value]> m | _ => m end) ∅ entries.

Example load_ex :
  let lf := String newline "" in
  Load (Ok ("# node" +:+ lf +:+ lf +:+ " domain = a.example" +:+ carriage_return +:+ lf
            +:+ "masquerade_url=https://b.example/?x=1" +:+ lf +:+ "traffic_stats_secret=s", None))
  = Ok (config_of {["domain" := "a.example"; "masquerade_url" := "https://b.example/?x=1";
                    "traffic_stats_secret" := "s"]}).
Proof. vm_compute. reflexivity. Qed.

(** ** White space *)

Ltac find_space i w E :=
  match goal with
  | |- context [@list_find ?A ?P ?D spaces] => destruct (@list_find A P D spaces) as [[i w]|] eqn:E
  end.

Definition bare (s : string) : Prop :=
  Forall (fun w => HasPrefix s w = false /\ HasSuffix s w = false) spaces.

(** No white space contains the two separators, and none is empty. *)
Lemma spaces_plain w :
  w ∈ spaces -> contains_byte w "=" = false /\ contains_byte w "#" = false /\ w <> "".
Proof.
  assert (H : forallb (fun w => negb (contains_byte w "=") && negb (contains_byte w "#")
                                && negb (String.eqb w "")) spaces = true) by (vm_compute; reflexivity).
  intros Hw. rewrite forallb_forall in H. specialize (H w ltac:(by apply list_elem_of_In)).
  destruct (contains_byte w "="), (contains_byte w "#"), (String.eqb_spec w ""); done.
Qed.

Lemma found_space (P : string -> Prop) `{forall w, Decision (P w)} i w :
  list_find P spaces = Some (i, w) -> w ∈ spaces /\ P w.
Proof. intros (Hw & HP & _)%list_find_Some. split; [by eapply list_elem_of_lookup_2|done]. Qed.

Lemma length_TrimPrefix s w :
  HasPrefix s w = true -> w <> "" -> (String.length (TrimPrefix s w) < String.length s)%nat.
Proof.
  intros [r ->]%HasPrefix_spec Hw. rewrite TrimPrefix_app, length_sapp. destruct w; [done|]. simpl. lia.
Qed.
Lemma length_TrimSuffix s w :
  HasSuffix s w = true -> w <> "" -> (String.length (TrimSuffix s w) < String.length s)%nat.
Proof.
  intros [r ->]%HasSuffix_spec Hw. rewrite TrimSuffix_app, length_sapp. destruct w; [done|]. simpl. lia.
Qed.

Lemma length_trim_left n s : (String.length (trim_left n s) <= String.length s)%nat.
Proof.
  revert s. induction n as [|n IH]; intros s; cbn [trim_left trim_right]; [lia|].
  find_space i w E; [|lia].
  apply found_space in E as [(_ & _ & Hw)%spaces_plain Hp].
  pose proof (length_TrimPrefix s w Hp Hw). specialize (IH (TrimPrefix s w)). lia.
Qed.
Lemma length_trim_right n s : (String.length (trim_right n s) <= String.length s)%nat.
Proof.
  revert s. induction n as [|n IH]; intros s; cbn [trim_left trim_right]; [lia|].
  find_space i w E; [|lia].
  apply found_space in E as [(_ & _ & Hw)%spaces_plain Hp].
  pose proof (length_TrimSuffix s w Hp Hw). specialize (IH (TrimSuffix s w)). lia.
Qed.

Lemma bare_trimmed s : bare s -> TrimSpace s = s.
Proof.
  intros H. unfold bare in H. rewrite Forall_forall in H.
  assert (Hl : forall n, trim_left n s = s).
  { intros [|n]; [done|]. cbn [trim_left]. find_space i w E; [|done].
    apply found_space in E as [[]%H Hp]. congruence. }
  unfold TrimSpace. rewrite Hl.
  destruct (String.length s) as [|n]; [done|]. cbn [trim_right].
  find_space i w E; [|done].
  apply found_space in E as [[]%H Hp]. congruence.
Qed.

Lemma trim_left_shorter s w :
  w ∈ spaces -> HasPrefix s w = true -> (String.length (trim_left (String.length s) s) < String.length s)%nat.
Proof.
  intros Hw Hp. destruct (String.length s) as [|n] eqn:El; cbn [trim_left trim_right].
  { destruct s; [|done]. destruct w; [|done]. by apply spaces_plain in Hw as (_ & _ & ?). }
  find_space i w' E.
  - apply found_space in E as [(_ & _ & Hn)%spaces_plain Hp'].
    pose proof (length_TrimPrefix s w' Hp' Hn). pose proof (length_trim_left n (TrimPrefix s w')). lia.
  - apply list_find_None in E. rewrite Forall_forall in E. by destruct (E w Hw).
Qed.
Lemma trim_right_shorter s w :
  w ∈ spaces -> HasSuffix s w = true -> (String.length (trim_right (String.length s) s) < String.length s)%nat.
Proof.
  intros Hw Hp. destruct (String.length s) as [|n] eqn:El; cbn [trim_left trim_right].
  { destruct s; [|done]. apply spaces_plain in Hw as (_ & _ & ?). destruct w; [done|]. by vm_compute in Hp. }
  find_space i w' E.
  - apply found_space in E as [(_ & _ & Hn)%spaces_plain Hp'].
    pose proof (length_TrimSuffix s w' Hp' Hn). pose proof (length_trim_right n (TrimSuffix s w')). lia.
  - apply list_find_None in E. rewrite Forall_forall in E. by destruct (E w Hw).
Qed.

Lemma trimmed_bare s : TrimSpace s = s -> bare s.
Proof.
  intros H. apply Forall_forall. intros w Hw. unfold TrimSpace in H.
  assert (Hl : forall n, (String.length (trim_right n (trim_left (String.length s) s))
                          <= String.length (trim_left (String.length s) s))%nat) by (intros; apply length_trim_right).
  destruct (HasPrefix s w) eqn:Ep.
  { pose proof (trim_left_shorter s w Hw Ep) as Hs.
    specialize (Hl (String.length (trim_left (String.length s) s))). rewrite H in Hl. lia. }
  split; [done|]. destruct (HasSuffix s w) eqn:Es; [|done].
  assert (E : trim_left (String.length s) s = s).
  { pose proof (length_trim_left (String.length s) s).
    assert (String.length (trim_left (String.length s) s) = String.length s).
    { specialize (Hl (String.length (trim_left (String.length s) s))). rewrite H in Hl. lia. }
    destruct (String.length s) as [|n] eqn:En; [done|]. cbn [trim_left] in *.
    find_space i w' E; [|done].
    apply found_space in E as [(_ & _ & Hn)%spaces_plain Hp'].
    pose proof (length_TrimPrefix s w' Hp' Hn). pose proof (length_trim_left n (TrimPrefix s w')). lia. }
  rewrite E in H. pose proof (trim_right_shorter s w Hw Es) as Hs. rewrite H in Hs. lia.
Qed.

(** A separator byte cuts white space off on either side of it. *)
Lemma prefix_before a c b w :
  contains_byte w c = false -> HasPrefix (a +:+ String c b) w = true -> HasPrefix a w = true.
Proof.
  revert w. induction a as [|x a IH]; intros [|y w]; simpl; try done.
  - intros [H _]%orb_false_iff [E _]%andb_true_iff. apply Ascii.eqb_eq in E as ->.
    by rewrite Ascii.eqb_refl in H.
  - intros [_ H]%orb_false_iff [-> E]%andb_true_iff. simpl. by apply IH.
Qed.
Lemma suffix_after a c b r w :
  contains_byte w c = false -> a +:+ String c b = r +:+ w -> exists r', b = r' +:+ w.
Proof.
  intros Hw. revert a. induction r as [|x r IH]; intros a; simpl.
  - intros <-. exfalso. revert Hw. induction a as [|y a IH]; simpl.
    + by rewrite Ascii.eqb_refl.
    + intros [_ ?]%orb_false_iff. auto.
  - destruct a as [|y a]; simpl; intros H; injection H; intros; subst; eauto.
Qed.

Lemma bare_setting key value : bare key -> bare value -> bare (key +:+ String "=" value).
Proof.
  intros Hk Hv. apply Forall_forall. intros w Hw. unfold bare in *. rewrite Forall_forall in Hk, Hv.
  destruct (Hk w Hw) as [Hkp _], (Hv w Hw) as [_ Hvs], (spaces_plain w Hw) as (He & _ & _). split.
  - destruct (HasPrefix (key +:+ String "=" value) w) eqn:E; [|done]. apply prefix_before in E; [congruence|done].
  - destruct (HasSuffix (key +:+ String "=" value) w) eqn:E; [|done]. apply HasSuffix_spec in E as [r E].
    apply suffix_after in E as [r' E]; [|done].
    rewrite <- Hvs. symmetry. apply HasSuffix_spec. eauto.
Qed.

Lemma trim_suffix_comment t w :
  contains_byte w "#" = false -> exists t', TrimSuffix (String "#" t) w = String "#" t'.
Proof.
  intros Hw. unfold TrimSuffix. destruct (HasSuffix (String "#" t) w) eqn:E; [|eauto].
  apply HasSuffix_spec in E as [r E]. destruct (suffix_after "" "#" t r w Hw E) as [r' ->].
  simpl. rewrite length_sapp.
  replace (S (String.length r' + String.length w) - String.length w)%nat with (S (String.length r')) by lia.
  simpl. eauto.
Qed.

Lemma trim_comment t : exists t', TrimSpace (String "#" t) = String "#" t'.
Proof.
  assert (Hl : forall n, trim_left n (String "#" t) = String "#" t).
  { intros [|n]; [done|]. cbn [trim_left]. find_space i w E; [|done].
    apply found_space in E as [(_ & Hw & Hn)%spaces_plain Hp].
    change (String "#" t) with ("" +:+ String "#" t) in Hp. apply prefix_before in Hp; [|done].
    by destruct w. }
  unfold TrimSpace. rewrite Hl. generalize (String.length (String "#" t)) as n. intros n. clear Hl.
  revert t. induction n as [|n IH]; intros t; cbn [trim_right]; [eauto|].
  find_space i w E; [|eauto]. apply found_space in E as [(_ & Hw & _)%spaces_plain _].
  destruct (trim_suffix_comment t w Hw) as [t' ->]. apply IH.
Qed.

(** ** Reading back what was written *)

Lemma raw_lines_line line text :
  contains_byte line newline = false -> raw_lines (line +:+ String newline text) = line :: raw_lines text.
Proof.
  induction line as [|c line IH]; cbn [raw_lines String.append contains_byte].
  - by rewrite Ascii.eqb_refl.
  - intros [-> H]%orb_false_iff. by rewrite (IH H).
Qed.

Lemma IndexByte_app a c b :
  contains_byte a c = false -> IndexByte (a +:+ String c b) c = Some (String.length a).
Proof.
  induction a as [|x a IH]; simpl.
  - by rewrite Ascii.eqb_refl.
  - intros [-> H]%orb_false_iff. by rewrite (IH H).
Qed.

Lemma cut_setting key value :
  contains_byte key "=" = false -> cut_equals (key +:+ String "=" value) = Some (key, value).
Proof.
  intros H. unfold cut_equals. rewrite (IndexByte_app _ _ _ H), stake_app.
  replace (key +:+ String "=" value) with ((key +:+ "=") +:+ value) by apply sapp_assoc.
  replace (S (String.length key)) with (String.length (key +:+ "=")) by (rewrite length_sapp; simpl; lia).
  by rewrite sdrop_app.
Qed.

(** One written line, read: a setting is stored, anything else is skipped. *)
Lemma scan_entry e rest m :
  entry_ok e = true ->
  scan_lines (render_entry e :: rest) None m
  = scan_lines rest None (match e with Setting key value => <[key := value]> m | _ => m end).
Proof.
  unfold entry_ok. rewrite !andb_true_iff, Z.ltb_lt. intros [[_ Hlen] He].
  cbn [scan_lines]. rewrite (proj2 (Z.leb_gt _ _) Hlen).
  destruct e as [key value|text|]; cbn [render_entry].
  - rewrite !andb_true_iff, !negb_true_iff, !String.eqb_eq in He. destruct He as [[[Hk Hv] Heq] Hc].
    pose proof (bare_setting key value (trimmed_bare _ Hk) (trimmed_bare _ Hv)) as Hb.
    assert (Hcr : HasSuffix (key +:+ String "=" value) carriage_return = false).
    { unfold bare in Hb. rewrite Forall_forall in Hb. apply Hb. apply list_elem_of_In. vm_compute. tauto. }
    unfold TrimSuffix. rewrite Hcr, (bare_trimmed _ Hb), (cut_setting _ _ Heq), Hk, Hv.
    assert (String.eqb (key +:+ String "=" value) "" = false) as -> by (by destruct key).
    assert (HasPrefix (key +:+ String "=" value) "#" = false) as -> by (destruct key as [|? []]; [done|exact Hc..]).
    done.
  - destruct (trim_suffix_comment text carriage_return eq_refl) as [t ->].
    destruct (trim_comment t) as [t' ->]. by destruct t'.
  - done.
Qed.

Lemma scan_render entries m :
  forallb entry_ok entries = true ->
  scan_lines (raw_lines (render entries)) None m
  = Ok (foldl (fun m e => match e with Setting key value => <[key := value]> m | _ => m end) m entries).
Proof.
  revert m. induction entries as [|e entries IH]; intros m; [done|].
  cbn [forallb]. intros [He Hes]%andb_true_iff. cbn [render foldr].
  rewrite raw_lines_line by (unfold entry_ok in He; destruct (contains_byte (render_entry e) newline); done).
  rewrite scan_entry by done. apply IH, Hes.
Qed.

Lemma fallback_nonempty value d : d <> "" -> fallback value d <> "".
Proof. unfold fallback. by destruct (String.eqb_spec value ""). Qed.

(** Configuration.  A written configuration file reads back as exactly its
    settings, the last one of a key winning, whatever comments and blank lines
    stand between them, and is accepted iff the three required settings are not
    empty; and no file is accepted that leaves a required setting or a path,
    address or transport of the agent empty. *)
Theorem Load_spec entries :
  forallb entry_ok entries = true ->
  let values := settings entries in
  let set key := default "" (values !! key) <> "" in
  ((exists cfg, Load (Ok (render entries, None)) = Ok cfg)
     <-> set "domain" /\ set "masquerade_url" /\ set "traffic_stats_secret")
  /\ (forall cfg, Load (Ok (render entries, None)) = Ok cfg -> cfg = config_of values)
  /\ (forall file cfg, Load file = Ok cfg ->
        Forall (fun field => field <> "")
          [Domain cfg; MasqueradeURL cfg; TrafficStatsSecret cfg; DatabasePath cfg; InternalListen cfg;
           EnrollmentListen cfg; TLSCertFile cfg; TLSKeyFile cfg; TrafficStatsURL cfg; XrayAPIAddress cfg;
           XrayTransport cfg; AgentVersion cfg]).
Proof.
  intros Hok values set. split_and!.
  - unfold Load. rewrite (scan_render _ _ Hok). fold (settings entries). fold values.
    unfold set. cbn [config_of Domain MasqueradeURL TrafficStatsSecret].
    destruct (String.eqb_spec (default "" (values !! "domain")) ""),
      (String.eqb_spec (default "" (values !! "masquerade_url")) ""),
      (String.eqb_spec (default "" (values !! "traffic_stats_secret")) ""); simpl; naive_solver.
  - intros cfg. unfold Load. rewrite (scan_render _ _ Hok). fold (settings entries). fold values.
    destruct (_ || _); [done|]. by intros [= <-].
  - intros [[text err]|e] cfg; [|done]. unfold Load.
    destruct (scan_lines _ _ _) as [v|]; [|done].
    destruct (String.eqb_spec (Domain (config_of v)) ""), (String.eqb_spec (MasqueradeURL (config_of v)) ""),
      (String.eqb_spec (TrafficStatsSecret (config_of v)) ""); simpl; try done.
    intros [= <-]. repeat constructor; try done; by apply fallback_nonempty.
Qed.

Lemma Load_spec_witness :
  let entries := [Comment " node"; Setting "domain" "old"; Blank; Setting "domain" "a.example";
                  Setting "masquerade_url" "https://b.example/?x=1"; Setting "traffic_stats_secret" "s"] in
  (exists cfg, Load (Ok (render entries, None)) = Ok cfg)
  /\ settings entries !! "domain" = Some "a.example".
Proof.
  intros entries. split; [|reflexivity].
  apply (Load_spec entries); [vm_compute; reflexivity|]. split_and!; discriminate.
Defined.
