(* ===== verification/Mfa.v ===== *)
(** * The second factor of administrators

    src/internal/controlplane/mfa.go: [validTOTP] (RFC 6238 with HMAC-SHA-1, six
    digits, a step of thirty seconds and one step of tolerance) and the base32
    encoding in which [adminMFASetup] hands out the secret. *)

From S2P Require Import Prelude GoStrings Base64 Sha.
From stdpp Require Import base strings list.
From Stdlib Require Import ZArith Lia Ascii.
Open Scope Z_scope.

(** ** base32.StdEncoding without padding *)

Module Base32.
Definition alphabet : string := "ABCDEFGHIJKLMNOPQRSTUVWXYZ234567".
Definition enc_char (i : Z) : ascii :=
  match String.get (Z.to_nat i) alphabet with Some c => c | None => "A"%char end.
Definition dec_char (c : ascii) : option Z := Z.of_nat <$> IndexByte alphabet c.

(** The 5-bit digits of up to five bytes, as [EncodeToString] shifts them. *)
Fixpoint digits (s : string) : list Z :=
  match s with
  | "" => []
  | String a "" => let a := byte_val a in [a / 8; a * 4 mod 32]
  | String a (String b "") =>
      let a := byte_val a in let b := byte_val b in
      [a / 8; (a * 4 + b / 64) mod 32; b / 2 mod 32; b * 16 mod 32]
  | String a (String b (String c "")) =>
      let a := byte_val a in let b := byte_val b in let c := byte_val c in
      [a / 8; (a * 4 + b / 64) mod 32; b / 2 mod 32; (b * 16 + c / 16) mod 32; c * 2 mod 32]
  | String a (String b (String c (String d ""))) =>
      let a := byte_val a in let b := byte_val b in let c := byte_val c in let d := byte_val d in
      [a / 8; (a * 4 + b / 64) mod 32; b / 2 mod 32; (b * 16 + c / 16) mod 32; (c * 2 + d / 128) mod 32;
       d / 4 mod 32; d * 8 mod 32]
  | String a (String b (String c (String d (String e s')))) =>
      let a := byte_val a in let b := byte_val b in let c := byte_val c in let d := byte_val d in
      let e := byte_val e in
      [a / 8; (a * 4 + b / 64) mod 32; b / 2 mod 32; (b * 16 + c / 16) mod 32; (c * 2 + d / 128) mod 32;
       d / 4 mod 32; (d * 8 + e / 32) mod 32; e mod 32] ++ digits s'
  end.
Definition EncodeToString (s : string) : string :=
  foldr (fun d text => String (enc_char d) text) "" (digits s).

(** The digits of a text; line breaks are stripped first. *)
Fixpoint read_digits (s : string) : option (list Z) :=
  match s with
  | "" => Some []
  | String c s' =>
      if is_newline c then read_digits s' else
      match dec_char c, read_digits s' with
      | Some d, Some ds => Some (d :: ds)
      | _, _ => None
      end
  end.

Definition byte8 (z : Z) : ascii := byte_of (z mod 256).
Definition b0 (d0 d1 : Z) : ascii := byte8 (d0 * 8 + d1 / 4).
Definition b1 (d1 d2 d3 : Z) : ascii := byte8 (d1 * 64 + d2 * 2 + d3 / 16).
Definition b2 (d3 d4 : Z) : ascii := byte8 (d3 * 16 + d4 / 2).
Definition b3 (d4 d5 d6 : Z) : ascii := byte8 (d4 * 128 + d5 * 4 + d6 / 8).
Definition b4 (d6 d7 : Z) : ascii := byte8 (d6 * 32 + d7).

(** The last quantum may be short; the decoder's [switch] has no case for one,
    three or six digits, which yield nothing and no error. *)
Fixpoint pack (ds : list Z) : string :=
  match ds with
  | [d0; d1] => String (b0 d0 d1) ""
  | [d0; d1; d2; d3] => String (b0 d0 d1) (String (b1 d1 d2 d3) "")
  | [d0; d1; d2; d3; d4] => String (b0 d0 d1) (String (b1 d1 d2 d3) (String (b2 d3 d4) ""))
  | [d0; d1; d2; d3; d4; d5; d6] =>
      String (b0 d0 d1) (String (b1 d1 d2 d3) (String (b2 d3 d4) (String (b3 d4 d5 d6) "")))
  | d0 :: d1 :: d2 :: d3 :: d4 :: d5 :: d6 :: d7 :: ds' =>
      String (b0 d0 d1) (String (b1 d1 d2 d3) (String (b2 d3 d4) (String (b3 d4 d5 d6)
        (String (b4 d6 d7) (pack ds')))))
  | _ => ""
  end.
Definition DecodeString (s : string) : option string := pack <$> read_digits s.
End Base32.

(** ** strings.ToUpper

    The case mapping above ASCII is a parameter.  Its output is valid UTF-8, so
    the byte 0xFF, which the decoder would take for padding, does not occur. *)
Class UpperTables := { upper_nonascii : string -> string }.
Definition upper_byte (a : ascii) : ascii :=
  let z := byte_val a in if (97 <=? z) && (z <=? 122) then byte_of (z - 32) else a.
Definition ToUpper `{UpperTables} (s : string) : string :=
  if is_ascii s then map_bytes upper_byte s else upper_nonascii s.

(** ** Codes *)

(** [fmt.Sprintf("%06d", value)] for a value below 1000000. *)
Definition six_digits (value : Z) : string :=
  String.string_of_list_ascii
    ((fun k => byte_of (48 + value / 10 ^ k mod 10)) <$> [5; 4; 3; 2; 1; 0]).

(** The code of a counter: dynamic truncation of its HMAC. *)
Definition totp_code (key : string) (counter : Z) : string :=
  let digest := hmac_sha1 key (be_bytes 8 counter) in
  let offset := Z.land (nth 19 digest 0) 15 in
  let value := Z.land (be_word (take 4 (drop (Z.to_nat offset) digest))) 0x7fffffff mod 1000000 in
  six_digits value.

(** [uint64(now.Unix()/30 + delta)]; Go's division truncates. *)
Definition counter_at (now : time) (delta : Z) : Z := wrap64 (Z.quot (Unix now) 30 + delta) mod 2 ^ 64.

Definition validTOTP `{UpperTables} (secret code : string) (now : time) : bool :=
  if negb (String.length code =? 6)%nat then false else
  match Base32.DecodeString (ToUpper secret) with
  | None => false
  | Some key => existsb (fun delta => String.eqb code (totp_code key (counter_at now delta))) [-1; 0; 1]
  end.

Definition plain_upper : UpperTables := {| upper_nonascii s := s |}.

(** RFC 6238, appendix B (the last six digits). *)
Example totp_rfc6238 :
  let key := "12345678901234567890" in
  totp_code key (counter_at (FromUnix 59) 0) = "287082"
  /\ totp_code key (counter_at (FromUnix 1111111109) 0) = "081804"
  /\ totp_code key (counter_at (FromUnix 20000000000) 0) = "353130"
  /\ Base32.EncodeToString key = "GEZDGNBVGY3TQOJQGEZDGNBVGY3TQOJQ".
Proof. vm_compute. repeat split; reflexivity. Qed.

(** ** Lemmas *)

Lemma dec_enc_digit i : 0 <= i < 32 -> Base32.dec_char (Base32.enc_char i) = Some i.
Proof.
  intros H.
  assert (Hall : forallb (fun n => bool_decide (Base32.dec_char (Base32.enc_char (Z.of_nat n)) = Some (Z.of_nat n)))
                   (seq 0 32) = true) by (vm_compute; reflexivity).
  rewrite forallb_forall in Hall.
  specialize (Hall (Z.to_nat i) ltac:(apply in_seq; lia)). rewrite Z2Nat.id in Hall by lia.
  by apply bool_decide_eq_true in Hall.
Qed.

(** The characters of an encoding are upper-case ASCII and no line breaks. *)
Lemma enc_char_plain i :
  0 <= i < 32 ->
  is_newline (Base32.enc_char i) = false /\ upper_byte (Base32.enc_char i) = Base32.enc_char i
  /\ byte_val (Base32.enc_char i) < 128.
Proof.
  intros H.
  assert (Hall : forallb (fun n => let c := Base32.enc_char (Z.of_nat n) in
                    negb (is_newline c) && Ascii.eqb (upper_byte c) c && (byte_val c <? 128))
                   (seq 0 32) = true) by (vm_compute; reflexivity).
  rewrite forallb_forall in Hall.
  specialize (Hall (Z.to_nat i) ltac:(apply in_seq; lia)). rewrite Z2Nat.id in Hall by lia.
  cbv zeta in Hall. rewrite !andb_true_iff, negb_true_iff, Ascii.eqb_eq, Z.ltb_lt in Hall. tauto.
Qed.

(** Induction five bytes at a time, as the encoder proceeds. *)
Lemma string_ind5 (P : string -> Prop) :
  P "" -> (forall a, P (String a "")) -> (forall a b, P (String a (String b ""))) ->
  (forall a b c, P (String a (String b (String c "")))) ->
  (forall a b c d, P (String a (String b (String c (String d ""))))) ->
  (forall a b c d e s, P s -> P (String a (String b (String c (String d (String e s)))))) -> forall s, P s.
Proof.
  intros H0 H1 H2 H3 H4 H5 s.
  assert (Hlen : forall n s, (String.length s <= n)%nat -> P s); [|by apply (Hlen (String.length s))].
  clear s. intros n. induction n as [|n IH]; intros s Hs.
  - destruct s; [done|simpl in Hs; lia].
  - destruct s as [|a [|b [|c [|d [|e s]]]]]; auto. apply H5, IH. simpl in Hs. lia.
Qed.

Lemma digits_range s : Forall (fun d => 0 <= d < 32) (Base32.digits s).
Proof.
  induction s using string_ind5; cbn [Base32.digits app];
    repeat (apply Forall_cons; split; [bytes_lia|]); try apply Forall_nil_2; done.
Qed.

Lemma read_digits_enc ds :
  Forall (fun d => 0 <= d < 32) ds ->
  Base32.read_digits (foldr (fun d text => String (Base32.enc_char d) text) "" ds) = Some ds.
Proof.
  induction 1 as [|d ds Hd _ IH]; [done|]. cbn [foldr Base32.read_digits].
  by rewrite (proj1 (enc_char_plain d Hd)), (dec_enc_digit d Hd), IH.
Qed.

Lemma pack_digits s : Base32.pack (Base32.digits s) = s.
Proof.
  induction s as [| a | a b | a b c | a b c d | a b c d e s IH] using string_ind5; [done|..];
    cbn [Base32.digits app Base32.pack];
    unfold Base32.b0, Base32.b1, Base32.b2, Base32.b3, Base32.b4, Base32.byte8.
  - f_equal. byte_eq a.
  - f_equal; [byte_eq a|]. f_equal. byte_eq b.
  - f_equal; [byte_eq a|]. f_equal; [byte_eq b|]. f_equal. byte_eq c.
  - f_equal; [byte_eq a|]. f_equal; [byte_eq b|]. f_equal; [byte_eq c|]. f_equal. byte_eq d.
  - f_equal; [byte_eq a|]. f_equal; [byte_eq b|]. f_equal; [byte_eq c|].
    f_equal; [byte_eq d|]. f_equal; [byte_eq e|]. exact IH.
Qed.

Lemma Base32_round_trip s : Base32.DecodeString (Base32.EncodeToString s) = Some s.
Proof.
  unfold Base32.DecodeString, Base32.EncodeToString. rewrite read_digits_enc by apply digits_range.
  simpl. by rewrite pack_digits.
Qed.

Lemma ToUpper_encoding {UT : UpperTables} s : ToUpper (Base32.EncodeToString s) = Base32.EncodeToString s.
Proof.
  unfold Base32.EncodeToString. pose proof (digits_range s) as H.
  assert (E : forall t, is_ascii t = true /\ map_bytes upper_byte t = t -> ToUpper t = t)
    by (unfold ToUpper; by intros t [-> ->]).
  apply E. induction H as [|d ds Hd _ [IH1 IH2]]; [done|]. cbn [foldr is_ascii map_bytes].
  destruct (enc_char_plain d Hd) as (_ & Hu & Hb). by rewrite (proj2 (Z.ltb_lt _ _) Hb), Hu, IH1, IH2.
Qed.

Lemma length_totp_code key counter : String.length (totp_code key counter) = 6%nat.
Proof. reflexivity. Qed.

(** One-time codes.  For a secret as [adminMFASetup] encodes it, a code is
    accepted exactly when it is the code of the current thirty-second step, the
    one before or the one after; so a code computed at most thirty seconds away
    from the server's clock is accepted. *)
Theorem validTOTP_spec {UT : UpperTables} key code now :
  let secret := Base32.EncodeToString key in
  (validTOTP secret code now = true
     <-> exists delta, -1 <= delta <= 1 /\ code = totp_code key (counter_at now delta))
  /\ (forall t, Z.abs (Unix now - Unix t) <= 30 -> validTOTP secret (totp_code key (counter_at t 0)) now = true).
Proof.
  intros secret.
  assert (Hiff : forall code, validTOTP secret code now = true
     <-> exists delta, -1 <= delta <= 1 /\ code = totp_code key (counter_at now delta)).
  { clear code. intros code. unfold validTOTP, secret. rewrite ToUpper_encoding, Base32_round_trip. split.
    - destruct (_ =? _)%nat; [|done]. cbn [negb]. rewrite existsb_exists.
      intros (delta & Hin & ->%String.eqb_eq). exists delta. split; [|done].
      destruct Hin as [<-|[<-|[<-|[]]]]; lia.
    - intros (delta & Hd & ->). rewrite length_totp_code. cbn [negb Nat.eqb]. rewrite existsb_exists.
      exists delta. rewrite String.eqb_refl. split; [|done]. simpl. lia. }
  split; [apply Hiff|]. intros t Ht. apply Hiff.
  exists (Z.quot (Unix t) 30 - Z.quot (Unix now) 30). split.
  - Z.quot_rem_to_equations. lia.
  - unfold counter_at. do 3 f_equal. lia.
Qed.
