(* ===== verification/Billing.v ===== *)
(** * Billing arithmetic of the control plane

    src/internal/controlplane/billing.go ([ProrateUpgrade]) and
    src/internal/controlplane/provisioning.go ([reservableBytes]), on int64. *)

From S2P Require Import Prelude.
From stdpp Require Import base strings.
From Stdlib Require Import ZArith Lia.
Open Scope Z_scope.

Record PlanTerms := mkPlanTerms {
  pt_Code : string; pt_PriceKopecks : Z; pt_QuotaBytes : Z; pt_Duration : Z }.

(** [None]: a plan shorter than a second divides by zero and panics. *)
Definition ProrateUpgrade (current next : PlanTerms) (now periodEnd : time) : option (Z * Z) :=
  if negb (After periodEnd now) || (pt_Duration current <=? 0)
  then Some (pt_PriceKopecks next, pt_QuotaBytes next) else
  let remaining := TimeSub periodEnd now in
  let remaining := if pt_Duration current <? remaining then pt_Duration current else remaining in
  let remainingSeconds := quot64 remaining second in
  let periodSeconds := quot64 (pt_Duration current) second in
  if periodSeconds =? 0 then None else
  let cost := quot64 (mul64 (sub64 (pt_PriceKopecks next) (pt_PriceKopecks current)) remainingSeconds)
                periodSeconds in
  let cost := if cost <? 0 then 0 else cost in
  let quota := quot64 (mul64 (sub64 (pt_QuotaBytes next) (pt_QuotaBytes current)) remainingSeconds)
                 periodSeconds in
  let quota := if quota <? 0 then 0 else quota in
  Some (cost, quota).

Definition reservableBytes (remaining activeReservations requested : Z) : Z :=
  let available := sub64 remaining activeReservations in
  if available <? 0 then 0 else
  if available <? requested then available else
  if requested <? 0 then 0 else requested.

(** ** What the two functions are for *)

(** The share of a price difference that belongs to the rest of the period. *)
Definition share (difference remaining period : Z) : Z := Z.max 0 difference * remaining / period.

(** The seconds left of the period, at most a whole one. *)
Definition seconds_left (current : PlanTerms) (now periodEnd : time) : Z :=
  Z.min (pt_Duration current) (periodEnd - now) / second.

(** Differences that cannot overflow when multiplied by a period. *)
Definition scalable (current next : PlanTerms) : Prop :=
  let period := pt_Duration current / second in
  second <= pt_Duration current <= int64_max
  /\ Z.abs (pt_PriceKopecks next - pt_PriceKopecks current) * period <= int64_max
  /\ Z.abs (pt_QuotaBytes next - pt_QuotaBytes current) * period <= int64_max.

Lemma in64 z : int64_min <= z <= int64_max -> wrap64 z = z.
Proof. intros Hz. apply wrap64_id. by apply in_int64_spec. Qed.

(** One prorated amount: the clamp at 0 makes the truncated quotient the share. *)
Lemma prorated_amount a b rem period :
  0 <= rem <= period -> 0 < period -> Z.abs (b - a) * period <= int64_max ->
  let x := quot64 (mul64 (sub64 b a) rem) period in
  (if x <? 0 then 0 else x) = share (b - a) rem period /\ 0 <= share (b - a) rem period <= Z.max 0 (b - a).
Proof.
  intros Hr Hp Hb. cbv zeta.
  assert (Hd : Z.abs (b - a) <= int64_max) by nia.
  assert (Hm : Z.abs ((b - a) * rem) <= int64_max) by nia.
  unfold sub64, mul64, quot64. rewrite (in64 (b - a)) by (unfold int64_min, int64_max in *; lia).
  rewrite (in64 ((b - a) * rem)) by (unfold int64_min, int64_max in *; lia).
  assert (Hq : Z.abs (Z.quot ((b - a) * rem) period) <= int64_max).
  { rewrite <- Z.quot_abs by lia. rewrite (Z.abs_eq period) by lia.
    etransitivity; [apply Z.quot_le_upper_bound with (q := Z.abs ((b - a) * rem)); nia|done]. }
  rewrite in64 by (unfold int64_min, int64_max in *; lia).
  unfold share. destruct (Z.le_gt_cases 0 (b - a)) as [Hs|Hs].
  - rewrite (Z.max_r 0 (b - a)) by lia. rewrite Z.quot_div_nonneg by nia.
    assert (0 <= (b - a) * rem / period) by (apply Z.div_pos; nia).
    assert ((b - a) * rem / period <= b - a) by (apply Z.div_le_upper_bound; nia).
    destruct (Z.ltb_spec ((b - a) * rem / period) 0); lia.
  - rewrite (Z.max_l 0 (b - a)) by lia. simpl. rewrite Z.div_0_l by lia.
    assert (Z.quot ((b - a) * rem) period <= 0).
    { replace ((b - a) * rem) with (- ((a - b) * rem)) by lia. rewrite Z.quot_opp_l by lia.
      assert (0 <= Z.quot ((a - b) * rem) period) by (apply Z.quot_pos; nia). lia. }
    destruct (Z.ltb_spec (Z.quot ((b - a) * rem) period) 0); lia.
Qed.

Lemma ProrateUpgrade_eq current next now periodEnd :
  scalable current next -> now < periodEnd ->
  let rem := seconds_left current now periodEnd in
  let period := pt_Duration current / second in
  ProrateUpgrade current next now periodEnd
  = Some (share (pt_PriceKopecks next - pt_PriceKopecks current) rem period,
          share (pt_QuotaBytes next - pt_QuotaBytes current) rem period)
  /\ 0 <= rem <= period /\ 0 < period.
Proof.
  intros (Hdur & Hprice & Hquota) Hnow rem period. unfold second in Hdur.
  assert (Hperiod : 0 < period <= int64_max).
  { unfold period, second. split; [apply Z.div_str_pos; lia|].
    apply Z.div_le_upper_bound; unfold int64_max in *; lia. }
  assert (Hrem : 0 <= rem <= period).
  { unfold rem, seconds_left, period. split; [apply Z.div_pos; unfold second; lia|].
    apply Z.div_le_mono; unfold second; lia. }
  assert (Hleft : (let r := TimeSub periodEnd now in if pt_Duration current <? r then pt_Duration current else r)
                  = Z.min (pt_Duration current) (periodEnd - now)).
  { cbv zeta. unfold TimeSub, int64_min, int64_max in *.
    destruct (Z.ltb_spec (pt_Duration current) (Z.max (- 2 ^ 63) (Z.min (2 ^ 63 - 1) (periodEnd - now)))); lia. }
  split; [|lia]. unfold ProrateUpgrade, After.
  rewrite (proj2 (Z.ltb_lt now periodEnd) Hnow), (proj2 (Z.leb_gt (pt_Duration current) 0)) by lia.
  cbv zeta in Hleft. cbn [negb orb]. rewrite Hleft.
  assert (Hq1 : quot64 (Z.min (pt_Duration current) (periodEnd - now)) second = rem).
  { unfold quot64. rewrite Z.quot_div_nonneg by (unfold second; lia). apply in64.
    fold (seconds_left current now periodEnd). fold rem. unfold int64_min, int64_max in *. lia. }
  assert (Hq2 : quot64 (pt_Duration current) second = period).
  { unfold quot64. rewrite Z.quot_div_nonneg by (unfold second; lia). apply in64.
    fold period. unfold int64_min, int64_max in *. lia. }
  rewrite Hq1, Hq2. rewrite (proj2 (Z.eqb_neq period 0)) by lia.
  destruct (prorated_amount (pt_PriceKopecks current) (pt_PriceKopecks next) rem period) as [-> _]; [lia..|done|].
  destruct (prorated_amount (pt_QuotaBytes current) (pt_QuotaBytes next) rem period) as [-> _]; [lia..|done|].
  done.
Qed.

Lemma share_bounds d rem period :
  0 <= rem <= period -> 0 < period -> 0 <= share d rem period <= Z.max 0 d.
Proof.
  intros Hr Hp. unfold share. split; [apply Z.div_pos; nia|]. apply Z.div_le_upper_bound; nia.
Qed.

Lemma share_mono d rem rem' period : rem <= rem' -> 0 < period -> share d rem period <= share d rem' period.
Proof. intros Hr Hp. unfold share. apply Z.div_le_mono; nia. Qed.

(** The plans of src/internal/controlplane/migrations/001_initial.sql. *)
Definition shipped_plans : list PlanTerms :=
  [mkPlanTerms "TRIAL" 0 20000000000 (259200 * second);
   mkPlanTerms "LITE" 14900 150000000000 (2592000 * second);
   mkPlanTerms "PLUS" 29900 600000000000 (2592000 * second);
   mkPlanTerms "ULTRA" 49900 2000000000000 (2592000 * second)].

Lemma shipped_scalable p q : In p shipped_plans -> In q shipped_plans -> scalable p q.
Proof.
  intros Hp Hq. simpl in Hp, Hq.
  destruct Hp as [<-|[<-|[<-|[<-|[]]]]]; destruct Hq as [<-|[<-|[<-|[<-|[]]]]];
    unfold scalable; vm_compute; repeat split; discriminate.
Qed.

(** ** Properties *)

(** C39 - Prorating is fair and does not overflow.  Inside a running period an
    upgrade costs, and adds to the quota, exactly the floor of the difference
    times the share of the period that is left, never less than nothing nor more
    than the full difference (nothing for a downgrade), and waiting never makes it
    dearer.  Between any two of the shipped plans no int64 operation of the
    computation overflows. *)
Theorem prorate_is_fair current next now periodEnd :
  scalable current next \/ (In current shipped_plans /\ In next shipped_plans) ->
  now < periodEnd ->
  exists cost quota, ProrateUpgrade current next now periodEnd = Some (cost, quota)
    /\ cost = share (pt_PriceKopecks next - pt_PriceKopecks current)
                (seconds_left current now periodEnd) (pt_Duration current / second)
    /\ quota = share (pt_QuotaBytes next - pt_QuotaBytes current)
                 (seconds_left current now periodEnd) (pt_Duration current / second)
    /\ 0 <= cost <= Z.max 0 (pt_PriceKopecks next - pt_PriceKopecks current)
    /\ 0 <= quota <= Z.max 0 (pt_QuotaBytes next - pt_QuotaBytes current)
    /\ (forall now' cost' quota', now <= now' < periodEnd ->
          ProrateUpgrade current next now' periodEnd = Some (cost', quota') -> cost' <= cost).
Proof.
  intros Hs Hnow.
  assert (Hsc : scalable current next) by (destruct Hs as [?|[? ?]]; [done|by apply shipped_scalable]).
  destruct (ProrateUpgrade_eq current next now periodEnd Hsc Hnow) as (Heq & Hr & Hp).
  eexists _, _. split; [exact Heq|]. split; [done|]. split; [done|].
  split; [by apply share_bounds|]. split; [by apply share_bounds|].
  intros now' cost' quota' Hn H'.
  destruct (ProrateUpgrade_eq current next now' periodEnd Hsc) as (Heq' & _ & _); [lia|].
  rewrite Heq' in H'. injection H' as <- _. apply share_mono; [|done].
  unfold seconds_left. apply Z.div_le_mono; unfold second; lia.
Qed.

Lemma prorate_is_fair_witness :
  exists cost quota,
    ProrateUpgrade (mkPlanTerms "LITE" 14900 150000000000 (2592000 * second))
      (mkPlanTerms "ULTRA" 49900 2000000000000 (2592000 * second)) 0 (1296000 * second) = Some (cost, quota)
    /\ cost = 17500.
Proof.
  destruct (prorate_is_fair (mkPlanTerms "LITE" 14900 150000000000 (2592000 * second))
              (mkPlanTerms "ULTRA" 49900 2000000000000 (2592000 * second)) 0 (1296000 * second))
    as (cost & quota & H1 & H2 & _).
  - right. split; simpl; tauto.
  - vm_compute. reflexivity.
  - exists cost, quota. split; [exact H1|]. rewrite H2. vm_compute. reflexivity.
Defined.

Lemma reservableBytes_bounds remaining active requested :
  0 <= requested ->
  0 <= reservableBytes remaining active requested <= requested
  /\ (in_int64 (remaining - active) = true ->
       reservableBytes remaining active requested <= Z.max 0 (remaining - active)).
Proof.
  intros Hr. unfold reservableBytes. split.
  - destruct (Z.ltb_spec (sub64 remaining active) 0); [lia|].
    destruct (Z.ltb_spec (sub64 remaining active) requested); [lia|].
    destruct (Z.ltb_spec requested 0); lia.
  - intros Hin. unfold sub64. rewrite wrap64_id by done.
    destruct (Z.ltb_spec (remaining - active) 0); [lia|].
    destruct (Z.ltb_spec (remaining - active) requested); [lia|].
    destruct (Z.ltb_spec requested 0); lia.
Qed.

(** A lease never promises more than is left.  The granted size is between
    0 and the request, and together with the reservations already made it stays
    within the remaining quota; when the remaining quota covers the request it is
    granted in full. *)
Theorem reservation_fits remaining active requested :
  in_int64 (remaining - active) = true ->
  let grant := reservableBytes remaining active requested in
  0 <= grant <= Z.max 0 requested
  /\ (0 < grant -> active + grant <= remaining)
  /\ (0 <= requested -> active + requested <= remaining -> grant = requested).
Proof.
  intros Hin. cbv zeta. unfold reservableBytes, sub64. rewrite wrap64_id by done.
  destruct (Z.ltb_spec (remaining - active) 0); [lia|].
  destruct (Z.ltb_spec (remaining - active) requested); [lia|].
  destruct (Z.ltb_spec requested 0); lia.
Qed.

Lemma reservation_fits_witness :
  let grant := reservableBytes 1500000000 600000000 1000000000 in 0 <= grant <= 1000000000.
Proof. apply (reservation_fits 1500000000 600000000 1000000000). reflexivity. Defined.
