(* ===== verification/Pg.v ===== *)
(** * The control plane's database

    src/internal/controlplane/migrations: the PostgreSQL tables that the modelled
    statements of src/internal/controlplane read and write, with their
    constraints, and the behaviour of statements and transactions.  A column
    that no modelled statement reads is left out, and timestamps are kept as
    given although the server rounds them to microseconds. *)

From S2P Require Import Prelude GoStrings Json.
From stdpp Require Import base gmap strings list.
From Stdlib Require Import ZArith Lia.
Open Scope Z_scope.

(** ** Tables *)

Record user_row := mkUserRow { us_subject : string; us_status : string; us_terms : option string }.
Record session_row := mkSessionRow {
  se_user : string; se_token_hash : string; se_expires_at : time; se_revoked_at : option time }.
Record totp_row := mkTotpRow { tp_secret : string; tp_enabled : bool; tp_verified_at : option time }.
Record plan_row := mkPlanRow {
  pl_price : Z; pl_period_seconds : Z; pl_device_limit : Z; pl_quota : Z }.
Record ledger_row := mkLedgerRow {
  lg_user : string; lg_amount : Z; lg_balance_after : Z; lg_reason : string; lg_actor : option string;
  lg_key : string }.
Record subscription_row := mkSubscriptionRow {
  sb_plan : string; sb_pending : option string; sb_status : string; sb_started : option time;
  sb_ends : option time; sb_grace : option time; sb_quota : Z; sb_used : Z }.
Record cdevice_row := mkCdeviceRow {
  cd_user : string; cd_slot : Z; cd_name : string; cd_hwid : option string; cd_credential : string;
  cd_credential_hash : string; cd_token_hash : string; cd_token : option string;
  cd_last_bound : option time; cd_last_seen : option time; cd_revoked_at : option time }.
(** How a node can be chosen for a device: its name, its health, the capabilities
    it has announced, its load in units of 2^-1074 and its round-trip time. *)
Record route_row := mkRouteRow {
  rt_domain : string; rt_status : string; rt_capabilities : json; rt_load : Z; rt_rtt : option Z }.
(** What a node has said of itself, its key and its last sign of life. *)
Record agent_row := mkAgentRow {
  ag_public_key : string; ag_version : string; ag_protocol : Z;
  ag_reality_key : option string; ag_reality_id : option string; ag_heartbeat : option time }.
Record node_row := mkNodeRow {
  nd_certificate_serial : option string; nd_certificate_not_after : option time;
  nd_next_serial : option string; nd_next_not_after : option time;
  nd_compliance_version : option string; nd_compliance_fetched_at : option time; nd_route : route_row; nd_agent : agent_row }.
Record assignment_row := mkAssignmentRow {
  as_node : string; as_provisioned_at : option time; as_updated_at : time }.
Record command_row := mkCommandRow {
  cm_id : string; cm_node : string; cm_type : string; cm_payload : json; cm_status : string;
  cm_attempts : Z; cm_not_before : time; cm_expires_at : time; cm_acked_at : option time;
  cm_error : option string; cm_created_at : time }.
Record lease_row := mkLeaseRow {
  ls_id : string; ls_device : string; ls_node : string; ls_bytes : Z; ls_consumed : Z;
  ls_issued_at : time; ls_expires_at : time; ls_signature : string }.
Record cusage_row := mkCusageRow {
  cu_node : string; cu_event : string; cu_device : string; cu_rx : Z; cu_tx : Z;
  cu_started_at : time; cu_ended_at : time }.
(** A notification is identified by its user, kind and time, which are unique. *)
Record notification_row := mkNotificationRow {
  no_user : string; no_kind : string; no_scheduled_at : time;
  no_sent_at : option time; no_attempts : Z; no_error : option string }.
Definition fresh_notification (user kind : string) (at_ : time) : notification_row :=
  mkNotificationRow user kind at_ None 0 None.
Definition notice_key (n : notification_row) : string * string * time := (no_user n, no_kind n, no_scheduled_at n).
Record snapshot_row := mkSnapshotRow {
  sn_version : string; sn_source : string; sn_etag : option string; sn_modified : option string;
  sn_domains : list string; sn_signature : string; sn_fetched_at : time }.
Record calert_row := mkCalertRow {
  ca_severity : string; ca_message : string; ca_active : bool; ca_resolved_at : option time }.
Record audit_row := mkAuditRow {
  au_actor : string; au_action : string; au_subject : string; au_reason : string }.

Record ctables := mkCtables {
  c_users : gmap string user_row;
  c_roles : list (string * string);   (* user and role *)
  c_sessions : list session_row;
  c_totp : gmap string totp_row;   (* by user *)
  c_plans : gmap string plan_row;
  c_wallets : gmap string Z;   (* balance by user *)
  c_ledger : list ledger_row;
  c_subscriptions : gmap string subscription_row;   (* by user *)
  c_fingerprints : list (string * string);   (* subject and HWID *)
  c_devices : gmap string cdevice_row;
  c_nodes : gmap string node_row;
  c_assignments : gmap string assignment_row;   (* by device *)
  c_commands : list command_row;
  c_leases : list lease_row;
  c_usage : list cusage_row;
  c_notifications : list notification_row;
  c_audit : list audit_row;
  c_snapshots : list snapshot_row;
  c_alerts : gmap string calert_row }.

Definition no_tables : ctables := mkCtables ∅ [] [] ∅ ∅ ∅ [] ∅ [] ∅ ∅ ∅ [] [] [] [] [] [] ∅.

Definition with_users f (t : ctables) : ctables :=
  mkCtables (f (c_users t)) (c_roles t) (c_sessions t) (c_totp t) (c_plans t) (c_wallets t) (c_ledger t) (c_subscriptions t)
    (c_fingerprints t) (c_devices t) (c_nodes t) (c_assignments t) (c_commands t) (c_leases t) (c_usage t) (c_notifications t) (c_audit t) (c_snapshots t) (c_alerts t).
Definition with_roles f (t : ctables) : ctables :=
  mkCtables (c_users t) (f (c_roles t)) (c_sessions t) (c_totp t) (c_plans t) (c_wallets t) (c_ledger t) (c_subscriptions t)
    (c_fingerprints t) (c_devices t) (c_nodes t) (c_assignments t) (c_commands t) (c_leases t) (c_usage t) (c_notifications t) (c_audit t) (c_snapshots t) (c_alerts t).
Definition with_sessions f (t : ctables) : ctables :=
  mkCtables (c_users t) (c_roles t) (f (c_sessions t)) (c_totp t) (c_plans t) (c_wallets t) (c_ledger t) (c_subscriptions t)
    (c_fingerprints t) (c_devices t) (c_nodes t) (c_assignments t) (c_commands t) (c_leases t) (c_usage t) (c_notifications t) (c_audit t) (c_snapshots t) (c_alerts t).
Definition with_totp f (t : ctables) : ctables :=
  mkCtables (c_users t) (c_roles t) (c_sessions t) (f (c_totp t)) (c_plans t) (c_wallets t) (c_ledger t) (c_subscriptions t)
    (c_fingerprints t) (c_devices t) (c_nodes t) (c_assignments t) (c_commands t) (c_leases t) (c_usage t) (c_notifications t) (c_audit t) (c_snapshots t) (c_alerts t).
Definition with_plans f (t : ctables) : ctables :=
  mkCtables (c_users t) (c_roles t) (c_sessions t) (c_totp t) (f (c_plans t)) (c_wallets t) (c_ledger t) (c_subscriptions t)
    (c_fingerprints t) (c_devices t) (c_nodes t) (c_assignments t) (c_commands t) (c_leases t) (c_usage t) (c_notifications t) (c_audit t) (c_snapshots t) (c_alerts t).
Definition with_wallets f (t : ctables) : ctables :=
  mkCtables (c_users t) (c_roles t) (c_sessions t) (c_totp t) (c_plans t) (f (c_wallets t)) (c_ledger t) (c_subscriptions t)
    (c_fingerprints t) (c_devices t) (c_nodes t) (c_assignments t) (c_commands t) (c_leases t) (c_usage t) (c_notifications t) (c_audit t) (c_snapshots t) (c_alerts t).
Definition with_ledger f (t : ctables) : ctables :=
  mkCtables (c_users t) (c_roles t) (c_sessions t) (c_totp t) (c_plans t) (c_wallets t) (f (c_ledger t)) (c_subscriptions t)
    (c_fingerprints t) (c_devices t) (c_nodes t) (c_assignments t) (c_commands t) (c_leases t) (c_usage t) (c_notifications t) (c_audit t) (c_snapshots t) (c_alerts t).
Definition with_subscriptions f (t : ctables) : ctables :=
  mkCtables (c_users t) (c_roles t) (c_sessions t) (c_totp t) (c_plans t) (c_wallets t) (c_ledger t) (f (c_subscriptions t))
    (c_fingerprints t) (c_devices t) (c_nodes t) (c_assignments t) (c_commands t) (c_leases t) (c_usage t) (c_notifications t) (c_audit t) (c_snapshots t) (c_alerts t).
Definition with_fingerprints f (t : ctables) : ctables :=
  mkCtables (c_users t) (c_roles t) (c_sessions t) (c_totp t) (c_plans t) (c_wallets t) (c_ledger t) (c_subscriptions t)
    (f (c_fingerprints t)) (c_devices t) (c_nodes t) (c_assignments t) (c_commands t) (c_leases t) (c_usage t) (c_notifications t) (c_audit t) (c_snapshots t) (c_alerts t).
Definition with_cdevices f (t : ctables) : ctables :=
  mkCtables (c_users t) (c_roles t) (c_sessions t) (c_totp t) (c_plans t) (c_wallets t) (c_ledger t) (c_subscriptions t)
    (c_fingerprints t) (f (c_devices t)) (c_nodes t) (c_assignments t) (c_commands t) (c_leases t) (c_usage t) (c_notifications t) (c_audit t) (c_snapshots t) (c_alerts t).
Definition with_nodes f (t : ctables) : ctables :=
  mkCtables (c_users t) (c_roles t) (c_sessions t) (c_totp t) (c_plans t) (c_wallets t) (c_ledger t) (c_subscriptions t)
    (c_fingerprints t) (c_devices t) (f (c_nodes t)) (c_assignments t) (c_commands t) (c_leases t) (c_usage t) (c_notifications t) (c_audit t) (c_snapshots t) (c_alerts t).
Definition with_assignments f (t : ctables) : ctables :=
  mkCtables (c_users t) (c_roles t) (c_sessions t) (c_totp t) (c_plans t) (c_wallets t) (c_ledger t) (c_subscriptions t)
    (c_fingerprints t) (c_devices t) (c_nodes t) (f (c_assignments t)) (c_commands t) (c_leases t) (c_usage t) (c_notifications t) (c_audit t) (c_snapshots t) (c_alerts t).
Definition with_commands f (t : ctables) : ctables :=
  mkCtables (c_users t) (c_roles t) (c_sessions t) (c_totp t) (c_plans t) (c_wallets t) (c_ledger t) (c_subscriptions t)
    (c_fingerprints t) (c_devices t) (c_nodes t) (c_assignments t) (f (c_commands t)) (c_leases t) (c_usage t) (c_notifications t) (c_audit t) (c_snapshots t) (c_alerts t).
Definition with_leases f (t : ctables) : ctables :=
  mkCtables (c_users t) (c_roles t) (c_sessions t) (c_totp t) (c_plans t) (c_wallets t) (c_ledger t) (c_subscriptions t)
    (c_fingerprints t) (c_devices t) (c_nodes t) (c_assignments t) (c_commands t) (f (c_leases t)) (c_usage t) (c_notifications t) (c_audit t) (c_snapshots t) (c_alerts t).
Definition with_cusage f (t : ctables) : ctables :=
  mkCtables (c_users t) (c_roles t) (c_sessions t) (c_totp t) (c_plans t) (c_wallets t) (c_ledger t) (c_subscriptions t)
    (c_fingerprints t) (c_devices t) (c_nodes t) (c_assignments t) (c_commands t) (c_leases t) (f (c_usage t)) (c_notifications t) (c_audit t) (c_snapshots t) (c_alerts t).
Definition with_audit f (t : ctables) : ctables :=
  mkCtables (c_users t) (c_roles t) (c_sessions t) (c_totp t) (c_plans t) (c_wallets t) (c_ledger t) (c_subscriptions t)
    (c_fingerprints t) (c_devices t) (c_nodes t) (c_assignments t) (c_commands t) (c_leases t) (c_usage t) (c_notifications t) (f (c_audit t)) (c_snapshots t) (c_alerts t).
Definition with_notifications f (t : ctables) : ctables :=
  mkCtables (c_users t) (c_roles t) (c_sessions t) (c_totp t) (c_plans t) (c_wallets t) (c_ledger t) (c_subscriptions t)
    (c_fingerprints t) (c_devices t) (c_nodes t) (c_assignments t) (c_commands t) (c_leases t) (c_usage t) (f (c_notifications t)) (c_audit t) (c_snapshots t) (c_alerts t).

Definition with_snapshots f (t : ctables) : ctables :=
  mkCtables (c_users t) (c_roles t) (c_sessions t) (c_totp t) (c_plans t) (c_wallets t) (c_ledger t) (c_subscriptions t)
    (c_fingerprints t) (c_devices t) (c_nodes t) (c_assignments t) (c_commands t) (c_leases t) (c_usage t) (c_notifications t) (c_audit t) (f (c_snapshots t)) (c_alerts t).
Definition with_calerts f (t : ctables) : ctables :=
  mkCtables (c_users t) (c_roles t) (c_sessions t) (c_totp t) (c_plans t) (c_wallets t) (c_ledger t) (c_subscriptions t)
    (c_fingerprints t) (c_devices t) (c_nodes t) (c_assignments t) (c_commands t) (c_leases t) (c_usage t) (c_notifications t) (c_audit t) (c_snapshots t) (f (c_alerts t)).

Definition notice_keys (t : ctables) : list (string * string * time) := notice_key <$> c_notifications t.

(** ** Statements

    A statement may fail, or take effect while its reply is lost; both are an
    error to the program.  [gen_random_uuid] draws from a supply. *)

Inductive outcome := Done | Failed | Lost.

Record pg := mkPg {
  cp : ctables; outcomes : list outcome; aborted : bool; uuids : list string }.

Definition next_outcome (s : pg) : outcome := default Done (head (outcomes s)).
Definition advance (s : pg) : pg := mkPg (cp s) (tail (outcomes s)) (aborted s) (uuids s).
Definition with_cp (t : ctables) (s : pg) : pg := mkPg t (outcomes s) (aborted s) (uuids s).
Definition abort (s : pg) : pg := mkPg (cp s) (outcomes s) true (uuids s).
(** The state in which the next statements end as given. *)
Definition with_outcomes (o : list outcome) (s : pg) : pg := mkPg (cp s) o (aborted s) (uuids s).

Definition pg_fault : error := SqlErr SqlFault.

(** A statement of the pool, committed on its own. *)
Definition pool {A} (f : ctables -> result (A * ctables)) : prog pg A := fun s =>
  let s1 := advance s in
  match next_outcome s with
  | Failed => (Err pg_fault, s1)
  | o => match f (cp s) with
         | Err e => (Err e, s1)
         | Ok (a, t) => (match o with Lost => Err pg_fault | _ => Ok a end, with_cp t s1)
         end
  end.

(** A statement of a transaction: after an error the server refuses everything
    but the rollback. *)
Definition stmt {A} (f : ctables -> result (A * ctables)) : prog pg A := fun s =>
  let s1 := advance s in
  if aborted s then (Err pg_fault, s1) else
  match next_outcome s with
  | Done => match f (cp s) with
            | Err e => (Err e, abort s1)
            | Ok (a, t) => (Ok a, with_cp t s1)
            end
  | _ => (Err pg_fault, abort s1)
  end.

(** [Begin], the body, and [Commit] or the deferred [Rollback].  The commit of an
    aborted transaction rolls back and reports an error. *)
Definition in_transaction {A} (body : prog pg A) : prog pg A := fun s =>
  let s1 := advance s in
  let undo s' := mkPg (cp s) (outcomes s') (aborted s) (uuids s') in
  let keep s' := mkPg (cp s') (outcomes s') (aborted s) (uuids s') in
  match next_outcome s with
  | Done =>
      match body (mkPg (cp s) (outcomes s1) false (uuids s)) with
      | (Err e, s2) => (Err e, undo s2)
      | (Ok a, s2) =>
          let s3 := advance s2 in
          if aborted s2 then (Err pg_fault, undo s3) else
          match next_outcome s2 with
          | Done => (Ok a, keep s3)
          | Failed => (Err pg_fault, undo s3)
          | Lost => (Err pg_fault, keep s3)
          end
      end
  | _ => (Err pg_fault, s1)
  end.

(** The transaction of an HTTP handler of type [R]: the body leaves early with an
    answer, or asks for the commit and says what to answer when it succeeds and
    when it fails; [none] is the answer when the transaction can not begin. *)
Inductive tx_step (R : Type) := Abandon (r : R) | Commit (done failed : R).
Arguments Abandon {R} r.
Arguments Commit {R} done failed.

Definition transact {R} (none : R) (body : prog pg (tx_step R)) : prog pg R := fun s =>
  let s1 := advance s in
  let undo s' := mkPg (cp s) (outcomes s') (aborted s) (uuids s') in
  let keep s' := mkPg (cp s') (outcomes s') (aborted s) (uuids s') in
  match next_outcome s with
  | Done =>
      match body (mkPg (cp s) (outcomes s1) false (uuids s)) with
      | (Err e, s2) => (Err e, undo s2)
      | (Ok (Abandon r), s2) => (Ok r, undo s2)
      | (Ok (Commit done failed), s2) =>
          let s3 := advance s2 in
          if aborted s2 then (Ok failed, undo s3) else
          match next_outcome s2 with
          | Done => (Ok done, keep s3)
          | Failed => (Ok failed, undo s3)
          | Lost => (Ok failed, keep s3)
          end
      end
  | _ => (Ok none, s1)
  end.

(** The statements of a handler before its commit, ending with the answer after
    it; any error ends the handler with the answer [failed]. *)
Definition committing {R} (m : prog pg R) (failed : R) : prog pg (tx_step R) :=
  let* r := try m in
  ret (match r with Ok done => Commit done failed | Err _ => Abandon failed end).

(** What a server does with a statement that has parameters and that the
    protocol or the type inference may refuse. *)
Inductive prepared := SeveralCommands | UntypedParameter.
Class PgServer := { accepts : prepared -> bool }.
(** PostgreSQL, as pgx talks to it: a prepared statement is one command, and a
    parameter whose type nothing determines is refused. *)
Definition postgres : PgServer := {| accepts kind := false |}.
Definition checked `{PgServer} {A} (kind : prepared) (f : ctables -> result (A * ctables))
    : ctables -> result (A * ctables) :=
  fun t => if accepts kind then f t else Err (SqlErr SqlFault).

(** A fresh identifier of [gen_random_uuid()]. *)
Definition random_uuid : prog pg string := fun s =>
  (Ok (default "" (head (uuids s))), mkPg (cp s) (outcomes s) (aborted s) (tail (uuids s))).

(** The identifiers of the rows that an INSERT ... SELECT is about to insert. *)
Definition random_uuids (count : ctables -> nat) : prog pg (list string) := fun s =>
  let n := count (cp s) in
  (Ok (take n (uuids s)), mkPg (cp s) (outcomes s) (aborted s) (drop n (uuids s))).

(** The uuid type reads several spellings of one value: the canonical spelling,
    if the text is a uuid. *)
Class PgUuid := { pg_uuid : string -> option string }.
Definition canonical_uuid `{PgUuid} (text : string) : result string :=
  match pg_uuid text with Some id => Ok id | None => Err (LibErr "uuid") end.

(** [payload->>'key'] *)
Definition json_text (j : json) (key : string) : option string :=
  match j with
  | JObj members =>
      match list_find (fun kv => kv.1 = key) (rev members) with
      | Some (_, (_, JStr s)) => Some s
      | Some (_, (_, JNull)) | None => None
      | Some (_, (_, v)) => Some (print v)
      end
  | _ => None
  end.

Definition bigint (z : Z) : result Z := if in_int64 z then Ok z else Err (SqlErr SqlScan).

(** ** Lemmas *)

(** What holds of the tables after a program, whatever its outcome. *)
Definition on_tables (R : relation ctables) : relation pg := fun s s' => R (cp s) (cp s').
#[export] Instance on_tables_preorder R `{!PreOrder R} : PreOrder (on_tables R).
Proof.
  split; [intros s; unfold on_tables; reflexivity|intros x y z H1 H2; unfold on_tables in *; by etransitivity].
Qed.

Section Frames.
Context (R : relation ctables) `{!PreOrder R}.

Lemma keeps_pool {A} (f : ctables -> result (A * ctables)) :
  (forall t a t', f t = Ok (a, t') -> R t t') -> keeps (on_tables R) (pool f).
Proof.
  intros H s. unfold on_tables, pool. destruct (next_outcome s); simpl; try reflexivity;
    destruct (f (cp s)) as [[a t]|e] eqn:E; simpl; try reflexivity; by eapply H.
Qed.

Lemma keeps_stmt {A} (f : ctables -> result (A * ctables)) :
  (forall t a t', f t = Ok (a, t') -> R t t') -> keeps (on_tables R) (stmt f).
Proof.
  intros H s. unfold on_tables, stmt. destruct (aborted s); [simpl; reflexivity|].
  destruct (next_outcome s); simpl; try reflexivity.
  destruct (f (cp s)) as [[a t]|e] eqn:E; simpl; try reflexivity. by eapply H.
Qed.

Lemma keeps_in_transaction {A} (body : prog pg A) :
  keeps (on_tables R) body -> keeps (on_tables R) (in_transaction body).
Proof.
  intros H s. unfold on_tables, in_transaction. destruct (next_outcome s); simpl; try reflexivity.
  specialize (H (mkPg (cp s) (outcomes (advance s)) false (uuids s))). unfold on_tables in H. simpl in H.
  destruct (body _) as [[a|e] s2]; simpl in *; [|reflexivity].
  destruct (aborted s2); simpl; [reflexivity|]. destruct (next_outcome s2); simpl; done || reflexivity.
Qed.

Lemma keeps_random_uuid : keeps (on_tables R) random_uuid.
Proof. intros s. unfold on_tables. reflexivity. Qed.
Lemma keeps_random_uuids count : keeps (on_tables R) (random_uuids count).
Proof. intros s. unfold on_tables. reflexivity. Qed.
End Frames.
#[export] Hint Resolve keeps_pool keeps_stmt keeps_in_transaction keeps_random_uuid keeps_random_uuids : risevpn.

(** A transaction that succeeds has run its body without a failed statement. *)
Lemma in_transaction_ok {A} (body : prog pg A) s a s' :
  in_transaction body s = (Ok a, s') ->
  exists s1 s2, cp s1 = cp s /\ aborted s1 = false /\ body s1 = (Ok a, s2) /\ aborted s2 = false
                /\ cp s' = cp s2 /\ aborted s' = aborted s.
Proof.
  unfold in_transaction. destruct (next_outcome s); [|done|done].
  set (s1 := mkPg (cp s) _ false _). destruct (body s1) as [[a'|e] s2] eqn:E; [|done].
  destruct (aborted s2) eqn:Ea; [done|]. destruct (next_outcome s2); [|done|done].
  intros [= -> <-]. exists s1, s2. done.
Qed.

(** An aborted transaction stays aborted, so a statement that succeeds found it
    running. *)
Lemma stmt_ok {A} (f : ctables -> result (A * ctables)) s a s' :
  stmt f s = (Ok a, s') ->
  aborted s = false /\ aborted s' = false /\ exists t, f (cp s) = Ok (a, t) /\ cp s' = t.
Proof.
  unfold stmt. destruct (aborted s) eqn:Ea; [done|]. destruct (next_outcome s); [|done|done].
  destruct (f (cp s)) as [[a' t]|e] eqn:E; [|done]. intros [= -> <-]. simpl. eauto.
Qed.

(** A failed statement leaves the transaction aborted. *)
Lemma stmt_err {A} (f : ctables -> result (A * ctables)) s e s' :
  stmt f s = (Err e, s') -> aborted s' = true.
Proof.
  unfold stmt. destruct (aborted s) eqn:Ea; [by intros [= _ <-]|].
  destruct (next_outcome s); [|by intros [= _ <-]..].
  destruct (f (cp s)) as [[a t]|e']; [done|]. by intros [= _ <-].
Qed.

(** The tables after a handler's transaction are those before it, or those that a
    body which asked for the commit has left. *)
Lemma transact_effect {R} (none : R) body s r s' :
  transact none body s = (r, s') ->
  cp s' = cp s
  \/ exists s1 s2 done failed, cp s1 = cp s /\ aborted s1 = false
       /\ body s1 = (Ok (Commit done failed), s2) /\ aborted s2 = false
       /\ cp s' = cp s2 /\ (r = Ok done \/ r = Ok failed).
Proof.
  unfold transact. destruct (next_outcome s); [|intros [= <- <-]; by left..].
  set (s1 := mkPg (cp s) _ false _).
  destruct (body s1) as [[[r0|done failed]|e] s2] eqn:E; [intros [= <- <-]; by left| |intros [= <- <-]; by left].
  destruct (aborted s2) eqn:Ea; [intros [= <- <-]; by left|].
  destruct (next_outcome s2); intros [= <- <-]; [right|by left|right]; exists s1, s2, done, failed; auto 10.
Qed.

(** A handler that answers as after a commit has committed. *)
Lemma transact_done {R} (none : R) body s r s' :
  transact none body s = (Ok r, s') ->
  (r = none /\ cp s' = cp s)
  \/ exists s1 s2 step, cp s1 = cp s /\ aborted s1 = false /\ body s1 = (Ok step, s2)
       /\ match step with
          | Abandon r0 => r = r0 /\ cp s' = cp s
          | Commit done failed => (r = done /\ cp s' = cp s2 /\ aborted s2 = false)
                                  \/ (r = failed /\ (cp s' = cp s \/ cp s' = cp s2 /\ aborted s2 = false))
          end.
Proof.
  unfold transact. destruct (next_outcome s); [|intros [= <- <-]; by left..].
  set (s1 := mkPg (cp s) _ false _). destruct (body s1) as [[step|e] s2] eqn:E; [|done].
  intros H. right. exists s1, s2, step. split_and!; [done..|]. destruct step as [r0|done failed].
  - by injection H as <- <-.
  - destruct (aborted s2) eqn:Ea; [injection H as <- <-; auto|].
    destruct (next_outcome s2); injection H as <- <-; auto 6.
Qed.

Lemma committing_commit {R} (m : prog pg R) (failed done' failed' : R) s s' :
  committing m failed s = (Ok (Commit done' failed'), s') -> m s = (Ok done', s') /\ failed' = failed.
Proof.
  unfold committing, bind, try. destruct (m s) as [[r|e] s1]; intros [= <- <- <-]; done.
Qed.

Lemma checked_ok `{PgServer} {A} kind (f : ctables -> result (A * ctables)) t r :
  checked kind f t = Ok r -> accepts kind = true /\ f t = Ok r.
Proof. unfold checked. by destruct (accepts kind). Qed.

(** A transaction whose statements are all required: it answers [none] or [failed]
    and nothing has changed, or its statements have succeeded and are committed. *)
Lemma transact_committing {R} (none : R) (m : prog pg R) failed s r s' :
  transact none (committing m failed) s = (r, s') ->
  (cp s' = cp s /\ (r = Ok none \/ r = Ok failed))
  \/ exists s1 s2 answer, cp s1 = cp s /\ m s1 = (Ok answer, s2) /\ cp s' = cp s2
       /\ (r = Ok answer \/ r = Ok failed).
Proof.
  unfold transact, committing, bind, try. destruct (next_outcome s); [|intros [= <- <-]; auto..].
  set (s1 := mkPg (cp s) _ false _). destruct (m s1) as [[answer|e] s2] eqn:E.
  - cbn [ret]. destruct (aborted s2); [intros [= <- <-]; auto|].
    destruct (next_outcome s2); intros [= <- <-]; [right|auto|right]; exists s1, s2, answer; auto 6.
  - cbn [ret]. intros [= <- <-]. auto.
Qed.

(** Every way in which a handler's transaction can end. *)
Lemma transact_cases {R} (none : R) body s r s' :
  transact none body s = (r, s') ->
  (cp s' = cp s /\ (r = Ok none \/ exists s1 s2, cp s1 = cp s
     /\ match body s1 with
        | (Ok (Abandon r0), s3) => r = Ok r0 /\ s3 = s2
        | (Ok (Commit _ failed), s3) => r = Ok failed /\ s3 = s2
        | (Err e, s3) => r = Err e /\ s3 = s2
        end))
  \/ exists s1 s2 answer failed, cp s1 = cp s /\ body s1 = (Ok (Commit answer failed), s2)
       /\ cp s' = cp s2 /\ (r = Ok answer \/ r = Ok failed).
Proof.
  unfold transact. destruct (next_outcome s); [|intros [= <- <-]; auto..].
  set (s1 := mkPg (cp s) _ false _). destruct (body s1) as [[[r0|answer failed]|e] s2] eqn:E.
  - intros [= <- <-]. left. split; [done|]. right. exists s1, s2. by rewrite E.
  - assert (Hf : Ok failed = Ok failed /\ s2 = s2) by done.
    destruct (aborted s2).
    { intros [= <- <-]. left. split; [done|]. right. exists s1, s2. by rewrite E. }
    destruct (next_outcome s2); intros [= <- <-]; [right|left|right]; [by exists s1, s2, answer, failed; auto| |by exists s1, s2, answer, failed; auto].
    split; [done|]. right. exists s1, s2. by rewrite E.
  - intros [= <- <-]. left. split; [done|]. right. exists s1, s2. by rewrite E.
Qed.

(** A statement of the pool takes effect or changes nothing. *)
Lemma pool_inv {A} (f : ctables -> result (A * ctables)) s r s' :
  pool f s = (r, s') -> cp s' = cp s \/ exists a, f (cp s) = Ok (a, cp s').
Proof.
  unfold pool. destruct (next_outcome s); [|by intros [= _ <-]; left|];
    (destruct (f (cp s)) as [[a t]|e]; intros [= _ <-]; [right; by exists a|by left]).
Qed.

(** Runs in which no statement fails. *)
Lemma stmt_run {A} (f : ctables -> result (A * ctables)) t ids a t' :
  f t = Ok (a, t') -> stmt f (mkPg t [] false ids) = (Ok a, mkPg t' [] false ids).
Proof. intros H. unfold stmt. cbn. by rewrite H. Qed.
Lemma transact_run {R} (none : R) body t ab ids answer failed t' ids' :
  body (mkPg t [] false ids) = (Ok (Commit answer failed), mkPg t' [] false ids') ->
  transact none body (mkPg t [] ab ids) = (Ok answer, mkPg t' [] ab ids').
Proof. intros H. unfold transact. cbn. by rewrite H. Qed.
Lemma committing_run {R} (m : prog pg R) failed t ids answer t' ids' :
  m (mkPg t [] false ids) = (Ok answer, mkPg t' [] false ids') ->
  committing m failed (mkPg t [] false ids) = (Ok (Commit answer failed), mkPg t' [] false ids').
Proof. intros H. unfold committing, bind, try. by rewrite H. Qed.
Lemma bind_run {A B} (m : prog pg A) (k : A -> prog pg B) s a s1 r :
  m s = (Ok a, s1) -> k a s1 = r -> bind m k s = r.
Proof. intros H <-. unfold bind. by rewrite H. Qed.

(** A program only takes identifiers from the supply. *)
Definition draws : relation pg := fun s s' => exists k, uuids s' = drop k (uuids s).
#[export] Instance draws_preorder : PreOrder draws.
Proof.
  split; [intros s; by exists 0%nat|]. intros s1 s2 s3 [k1 H1] [k2 H2]. exists (k1 + k2)%nat.
  by rewrite H2, H1, drop_drop.
Qed.
Lemma draws_pool {A} (f : ctables -> result (A * ctables)) : keeps draws (pool f).
Proof. intros s. exists 0%nat. unfold pool. by destruct (next_outcome s), (f (cp s)) as [[]|]. Qed.
Lemma draws_stmt {A} (f : ctables -> result (A * ctables)) : keeps draws (stmt f).
Proof.
  intros s. exists 0%nat. unfold stmt. destruct (aborted s); [done|]. by destruct (next_outcome s), (f (cp s)) as [[]|].
Qed.
Lemma draws_random_uuid : keeps draws random_uuid.
Proof. intros s. exists 1%nat. simpl. by destruct (uuids s). Qed.
Lemma draws_random_uuids count : keeps draws (random_uuids count).
Proof. intros s. by eexists. Qed.
Lemma draws_in_transaction {A} (body : prog pg A) : keeps draws body -> keeps draws (in_transaction body).
Proof.
  intros H s. unfold in_transaction. destruct (next_outcome s); [|by exists 0%nat..].
  specialize (H (mkPg (cp s) (outcomes (advance s)) false (uuids s))).
  destruct (body _) as [[a|e] s2]; [|exact H]. destruct (aborted s2); [exact H|]. by destruct (next_outcome s2).
Qed.
Lemma draws_transact {R} (none : R) body : keeps draws body -> keeps draws (transact none body).
Proof.
  intros H s. unfold transact. destruct (next_outcome s); [|by exists 0%nat..].
  specialize (H (mkPg (cp s) (outcomes (advance s)) false (uuids s))).
  destruct (body _) as [[[r|answer failed]|e] s2]; [exact H| |exact H].
  destruct (aborted s2); [exact H|]. by destruct (next_outcome s2).
Qed.
Lemma draws_committing {R} (m : prog pg R) failed : keeps draws m -> keeps draws (committing m failed).
Proof. intros H. unfold committing. apply keeps_bind; [apply _|by apply keeps_try|]. intros r. apply keeps_ret, _. Qed.
#[export] Hint Resolve draws_pool draws_stmt draws_random_uuid draws_random_uuids draws_in_transaction
  draws_transact draws_committing : risevpn.
Ltac draw := repeat first [progress keep | apply draws_transact | apply draws_committing | apply draws_in_transaction].
Lemma in_transaction_run {A} (body : prog pg A) t ab ids a t' ids' :
  body (mkPg t [] false ids) = (Ok a, mkPg t' [] false ids') ->
  in_transaction body (mkPg t [] ab ids) = (Ok a, mkPg t' [] ab ids').
Proof. intros H. unfold in_transaction. cbn. by rewrite H. Qed.

(** Inversion of a program that ended well, statement by statement. *)
Lemma bind_done {A B} (m : prog pg A) (k : A -> prog pg B) s r s' :
  bind m k s = (Ok r, s') -> exists a s1, m s = (Ok a, s1) /\ k a s1 = (Ok r, s').
Proof. unfold bind. destruct (m s) as [[a|e] s1]; [eauto|done]. Qed.
Lemma try_done {A} (m : prog pg A) s r s' : try m s = (Ok r, s') -> m s = (r, s').
Proof. unfold try. destruct (m s) as [r0 s0]. by intros [= -> ->]. Qed.
