(* ===== verification/Hub.v ===== *)
(** * The node hub

    src/internal/controlplane/nodehub.go and provisioning.go: intake of usage
    reports, delivery of commands to a node and their acknowledgement, the
    resynchronisation after a connect and the provisioning of a device with a
    signed quota lease.  The database is that of [Pg]. *)

From S2P Require Import Prelude GoStrings Base64 Json Crypto Protocol Billing Pg.
From stdpp Require Import base gmap strings list sorting.
From Stdlib Require Import ZArith Lia.
Open Scope Z_scope.

(** ** Commands *)

(** [INSERT INTO node_commands(node_id,type,payload,expires_at)]; a payload that
    could not be marshalled is NULL. *)
Definition insert_command (now : time) (id node kind : string) (payload : option json) (t : ctables)
    : result ctables :=
  match payload, c_nodes t !! node with
  | Some payload, Some _ =>
      if existsb (fun c => String.eqb (cm_id c) id) (c_commands t) then Err (SqlErr SqlConstraint) else
      Ok (with_commands (fun l => l ++ [mkCommandRow id node kind payload "pending" 0 now
            (TimeAdd now (24 * hour)) None None now]) t)
  | _, _ => Err (SqlErr SqlConstraint)
  end.

Definition is_open (c : command_row) : bool :=
  String.eqb (cm_status c) "pending" || String.eqb (cm_status c) "sent".

Definition set_status (status : string) (c : command_row) : command_row :=
  mkCommandRow (cm_id c) (cm_node c) (cm_type c) (cm_payload c) status (cm_attempts c) (cm_not_before c)
    (cm_expires_at c) (cm_acked_at c) (cm_error c) (cm_created_at c).

Section Hub.
Context {PU : PgUuid}.

(** ** Usage reports *)

Definition dec_UsageEvent : dec UsageEvent := dec_struct (fun m old =>
  i ← field "eventId" dec_string m (pu_EventID old);
  d ← field "deviceId" dec_string m (pu_DeviceID old);
  r ← field "rxBytes" dec_int m (pu_RXBytes old);
  x ← field "txBytes" dec_int m (pu_TXBytes old);
  s ← field "startedAt" dec_time m (pu_StartedAt old);
  e ← field "endedAt" dec_time m (pu_EndedAt old);
  Some (mkUsageEvent i d r x s e)).
Definition decode_usage (data : option json) : option (list UsageEvent) :=
  j ← data;
  dec_struct (fun m old => field "events" (dec_list (mkUsageEvent "" "" 0 0 zero_time zero_time) dec_UsageEvent) m old)
    j [].

(** [INSERT INTO usage_events ... ON CONFLICT DO NOTHING]: whether a row was
    inserted. *)
Definition record_usage (nodeID : string) (e : UsageEvent) (t : ctables) : result (bool * ctables) :=
  match canonical_uuid nodeID, canonical_uuid (pu_DeviceID e) with
  | Ok node, Ok device =>
      if (pu_RXBytes e <? 0) || (pu_TXBytes e <? 0) then Err (SqlErr SqlConstraint) else
      if existsb (fun r => String.eqb (cu_node r) node && String.eqb (cu_event r) (pu_EventID e)) (c_usage t)
      then Ok (false, t) else
      match c_nodes t !! node, c_devices t !! device with
      | Some _, Some _ =>
          Ok (true, with_cusage (fun l => l ++ [mkCusageRow node (pu_EventID e) device (pu_RXBytes e)
                (pu_TXBytes e) (pu_StartedAt e) (pu_EndedAt e)]) t)
      | _, _ => Err (SqlErr SqlConstraint)
      end
  | Err e, _ | _, Err e => Err e
  end.

Definition with_used (used : Z) (s : subscription_row) : subscription_row :=
  mkSubscriptionRow (sb_plan s) (sb_pending s) (sb_status s) (sb_started s) (sb_ends s) (sb_grace s) (sb_quota s) used.

(** [UPDATE subscriptions SET used_bytes=used_bytes+$1 WHERE user_id=(...)] *)
Definition charge (bytes : Z) (deviceID : string) (t : ctables) : result (unit * ctables) :=
  match canonical_uuid deviceID with
  | Err e => Err e
  | Ok device =>
      match c_devices t !! device with
      | None => Ok (tt, t)
      | Some d =>
          match c_subscriptions t !! cd_user d with
          | None => Ok (tt, t)
          | Some s =>
              match bigint (sb_used s + bytes) with
              | Err e => Err e
              | Ok used => Ok (tt, with_subscriptions (insert (cd_user d) (with_used used s)) t)
              end
          end
      end
  end.

(** The kick of a device whose subscription is used up, unless one is under way. *)
Definition kick_exhausted (now : time) (id deviceID : string) (t : ctables) : result (unit * ctables) :=
  match canonical_uuid deviceID with
  | Err e => Err e
  | Ok device =>
      match c_devices t !! device, c_assignments t !! device with
      | Some d, Some a =>
          match c_subscriptions t !! cd_user d with
          | Some s =>
              if (sb_quota s <=? sb_used s)
                 && negb (existsb (fun c => String.eqb (cm_node c) (as_node a)
                       && String.eqb (cm_type c) "session.kick" && is_open c
                       && bool_decide (json_text (cm_payload c) "deviceId" = Some device)) (c_commands t))
              then result_map (fun t' => (tt, t'))
                     (insert_command now id (as_node a) "session.kick"
                        (Some (JObj [("deviceId", JStr device); ("reason", JStr "quota exhausted")])) t)
              else Ok (tt, t)
          | None => Ok (tt, t)
          end
      | _, _ => Ok (tt, t)
      end
  end.

Definition take_event (now : time) (nodeID : string) (e : UsageEvent) : prog pg unit :=
  let* inserted := stmt (record_usage nodeID e) in
  if (inserted : bool) then
    stmt (charge (add64 (pu_RXBytes e) (pu_TXBytes e)) (pu_DeviceID e)) ;;;
    let* id := random_uuid in
    let* _ := try (stmt (kick_exhausted now id (pu_DeviceID e))) in
    ret tt
  else ret tt.

(** The event ids that the acknowledgement names once the batch is committed;
    [now] is the start of the transaction. *)
Definition usage (now : time) (nodeID : string) (data : option json) : prog pg (list string) :=
  match decode_usage data with
  | None => fail (Msg "invalid usage")
  | Some events =>
      in_transaction (for_each (take_event now nodeID) events) ;;;
      ret (pu_EventID <$> events)
  end.

(** ** Lemmas on usage *)

Definition usage_key (r : cusage_row) : string * string := (cu_node r, cu_event r).
Definition usage_keys (t : ctables) : list (string * string) := usage_key <$> c_usage t.

(** The bytes that rows charge to a user, by the owner of their devices. *)
Definition owner (devices : gmap string cdevice_row) (r : cusage_row) : option string :=
  cd_user <$> devices !! cu_device r.
Definition charged (devices : gmap string cdevice_row) (u : string) (rows : list cusage_row) : Z :=
  foldr (fun r acc => (if bool_decide (owner devices r = Some u) then add64 (cu_rx r) (cu_tx r) else 0) + acc)
    0 rows.

(** [t'] is [t] with [new] usage rows, each charged once to its owner. *)
Record accounted (t t' : ctables) (new : list cusage_row) : Prop := {
  ac_devices : c_devices t' = c_devices t;
  ac_rows : c_usage t' = c_usage t ++ new;
  ac_fresh : NoDup (usage_keys t) -> NoDup (usage_keys t');
  ac_used : forall u, sb_used <$> c_subscriptions t' !! u
                      = (fun s => sb_used s + charged (c_devices t) u new) <$> c_subscriptions t !! u }.

Lemma charged_app devices u l1 l2 :
  charged devices u (l1 ++ l2) = charged devices u l1 + charged devices u l2.
Proof. induction l1 as [|r l IH]; [done|]. simpl. rewrite IH. lia. Qed.

Lemma accounted_refl t : accounted t t [].
Proof.
  split; [done|by rewrite app_nil_r|done|]. intros u. unfold charged. destruct (c_subscriptions t !! u); simpl; [f_equal; lia|done].
Qed.
Lemma accounted_trans t1 t2 t3 n1 n2 :
  accounted t1 t2 n1 -> accounted t2 t3 n2 -> accounted t1 t3 (n1 ++ n2).
Proof.
  intros [D1 R1 F1 U1] [D2 R2 F2 U2]. split; [congruence|by rewrite R2, R1, app_assoc|auto|].
  intros u. specialize (U1 u). rewrite U2, D1, charged_app.
  destruct (c_subscriptions t1 !! u) as [s1|], (c_subscriptions t2 !! u) as [s2|]; try done.
  simpl in *. injection U1 as ->. f_equal. lia.
Qed.

(** Commands do not matter to the accounts. *)
Lemma accounted_commands t t' new f : accounted t t' new -> accounted t (with_commands f t') new.
Proof. by intros []. Qed.

Lemma insert_command_ok now id node kind payload t t' :
  insert_command now id node kind payload t = Ok t' -> exists f, t' = with_commands f t.
Proof.
  unfold insert_command. destruct payload, (c_nodes t !! node); try done.
  destruct (existsb _ _); [done|]. intros [= <-]. eauto.
Qed.

Lemma kick_exhausted_ok now id device t a t' :
  kick_exhausted now id device t = Ok (a, t') -> t' = t \/ exists f, t' = with_commands f t.
Proof.
  unfold kick_exhausted. destruct (canonical_uuid device) as [dev|]; [|done].
  destruct (c_devices t !! dev) as [d|]; [|intros [= _ <-]; auto].
  destruct (c_assignments t !! dev) as [asg|]; [|intros [= _ <-]; auto].
  destruct (c_subscriptions t !! cd_user d); [|intros [= _ <-]; auto].
  destruct (_ && _); [|intros [= _ <-]; auto].
  destruct (insert_command _ _ _ _ _ t) as [t1|] eqn:E; [|done].
  intros [= _ <-]. right. by eapply insert_command_ok.
Qed.

Definition recorded (nodeID : string) (e : UsageEvent) (t : ctables) : Prop :=
  exists node, canonical_uuid nodeID = Ok node /\ (node, pu_EventID e) ∈ usage_keys t.

Lemma recorded_exists node e t :
  existsb (fun r => String.eqb (cu_node r) node && String.eqb (cu_event r) (pu_EventID e)) (c_usage t) = true
  <-> (node, pu_EventID e) ∈ usage_keys t.
Proof.
  rewrite existsb_exists. unfold usage_keys. rewrite list_elem_of_fmap. split.
  - intros (r & Hr & [H1%String.eqb_eq H2%String.eqb_eq]%andb_true_iff). exists r.
    unfold usage_key. rewrite H1, H2. split; [done|by apply list_elem_of_In].
  - intros (r & [= -> ->] & Hr). exists r. rewrite !String.eqb_refl. split; [by apply list_elem_of_In|done].
Qed.

(** The insertion and the charge that follows it, together. *)
Lemma record_and_charge nodeID e t t1 t2 :
  record_usage nodeID e t = Ok (true, t1) ->
  charge (add64 (pu_RXBytes e) (pu_TXBytes e)) (pu_DeviceID e) t1 = Ok (tt, t2) ->
  recorded nodeID e t2 /\ exists new, accounted t t2 new.
Proof.
  unfold record_usage, charge, recorded. destruct (canonical_uuid nodeID) as [node|]; [|done].
  destruct (canonical_uuid (pu_DeviceID e)) as [device|]; [|done].
  destruct ((_ <? 0) || _); [done|]. destruct (existsb _ (c_usage t)) eqn:Ex; [done|].
  destruct (c_nodes t !! node); [|done]. destruct (c_devices t !! device) as [d|] eqn:Ed; [|done].
  intros [= <-]. cbn [c_devices with_cusage c_subscriptions]. rewrite Ed.
  set (row := mkCusageRow _ _ _ _ _ _ _). set (t1 := with_cusage _ t).
  assert (Hkey : usage_keys t1 = usage_keys t ++ [(node, pu_EventID e)]) by (unfold usage_keys; simpl; by rewrite fmap_app).
  assert (Hnd : NoDup (usage_keys t) -> NoDup (usage_keys t1)).
  { intros Hnd. rewrite Hkey, (comm (++)). apply NoDup_app. split_and!; [apply NoDup_singleton| |done].
    intros x ->%list_elem_of_singleton Hin. apply recorded_exists in Hin. congruence. }
  assert (Hin : (node, pu_EventID e) ∈ usage_keys t1).
  { rewrite Hkey, elem_of_app, list_elem_of_singleton. by right. }
  assert (Hown : forall u, charged (c_devices t) u [row]
    = if decide (u = cd_user d) then add64 (pu_RXBytes e) (pu_TXBytes e) else 0).
  { intros u. unfold charged, owner. cbn [foldr row cu_device]. rewrite Ed. simpl.
    destruct (decide (u = cd_user d)) as [->|Hne]; [rewrite bool_decide_true by done; lia|].
    rewrite bool_decide_false by congruence. lia. }
  destruct (c_subscriptions t !! cd_user d) as [s|] eqn:Es.
  - unfold bigint. destruct (in_int64 _); [|done]. intros [= <-]. split; [by exists node|].
    exists [row]. split; [done|done|exact Hnd|]. intros u. rewrite Hown. cbn [c_subscriptions with_subscriptions].
    destruct (decide (u = cd_user d)) as [->|Hne].
    + rewrite lookup_insert, decide_True by done. by rewrite Es.
    + rewrite lookup_insert_ne by done. change (c_subscriptions t1) with (c_subscriptions t).
      destruct (c_subscriptions t !! u); simpl; [f_equal; lia|done].
  - intros [= <-]. split; [by exists node|]. exists [row]. split; [done|done|exact Hnd|].
    intros u. rewrite Hown. change (c_subscriptions t1) with (c_subscriptions t).
    destruct (decide (u = cd_user d)) as [->|Hne]; [by rewrite Es|].
    destruct (c_subscriptions t !! u); simpl; [f_equal; lia|done].
Qed.

Lemma accounted_keys t t' new k : accounted t t' new -> k ∈ usage_keys t -> k ∈ usage_keys t'.
Proof. intros [_ R _ _]. unfold usage_keys. rewrite R, fmap_app, elem_of_app. auto. Qed.

Lemma record_usage_known nodeID e t t1 : record_usage nodeID e t = Ok (false, t1) -> t1 = t /\ recorded nodeID e t.
Proof.
  unfold record_usage, recorded. destruct (canonical_uuid nodeID) as [node|]; [|done].
  destruct (canonical_uuid (pu_DeviceID e)) as [device|]; [|done].
  destruct ((_ <? 0) || _); [done|]. destruct (existsb _ (c_usage t)) eqn:Ex.
  - intros [= <-]. split; [done|]. exists node. split; [done|]. by apply recorded_exists.
  - destruct (c_nodes t !! node), (c_devices t !! device); done.
Qed.
Lemma record_usage_recorded nodeID e t t1 : recorded nodeID e t -> record_usage nodeID e t <> Ok (true, t1).
Proof.
  intros (node & Hn & Hin%recorded_exists). unfold record_usage. rewrite Hn.
  destruct (canonical_uuid (pu_DeviceID e)) as [device|]; [|done].
  destruct ((_ <? 0) || _); [done|]. by rewrite Hin.
Qed.

Lemma take_event_ok now nodeID e s s' :
  take_event now nodeID e s = (Ok tt, s') ->
  recorded nodeID e (cp s') /\ exists new, accounted (cp s) (cp s') new.
Proof.
  unfold take_event, bind at 1. destruct (stmt (record_usage nodeID e) s) as [[inserted|] s1] eqn:E1; [|done].
  apply stmt_ok in E1 as (_ & _ & t1 & E1 & Ht1). destruct inserted.
  - unfold bind at 1. destruct (stmt (charge _ _) s1) as [[[]|] s2] eqn:E2; [|done].
    apply stmt_ok in E2 as (_ & _ & t2 & E2 & Ht2). subst t1 t2.
    destruct (record_and_charge _ _ _ _ _ E1 E2) as [(node & Hn & Hin) [new Hacc]].
    unfold bind at 1. cbn [random_uuid]. unfold bind at 1, try.
    destruct (stmt (kick_exhausted _ _ _) _) as [r s3] eqn:E3. intros [= <-].
    assert (Ht : cp s3 = cp s2 \/ exists f, cp s3 = with_commands f (cp s2)).
    { destruct r as [a|].
      - apply stmt_ok in E3 as (_ & _ & t & E3 & <-). by apply kick_exhausted_ok in E3.
      - left. unfold stmt in E3. cbn [aborted cp] in E3. destruct (aborted s2); [by injection E3 as _ <-|].
        destruct (next_outcome _); [|by injection E3 as _ <-..].
        destruct (kick_exhausted _ _ _ _) as [[]|]; [done|by injection E3 as _ <-]. }
    destruct Ht as [-> | [f ->]]; split; try (by exists node); exists new; [done|by apply accounted_commands].
  - apply record_usage_known in E1 as [-> Hr]. intros [= <-]. rewrite Ht1.
    split; [done|]. exists []. apply accounted_refl.
Qed.

Lemma take_events_ok now nodeID events s s' :
  for_each (take_event now nodeID) events s = (Ok tt, s') ->
  Forall (fun e => recorded nodeID e (cp s')) events /\ exists new, accounted (cp s) (cp s') new.
Proof.
  revert s. induction events as [|e events IH]; intros s; simpl.
  - intros [= <-]. split; [done|]. exists []. apply accounted_refl.
  - unfold bind. destruct (take_event now nodeID e s) as [[[]|] s1] eqn:E; [|done]. intros H.
    apply take_event_ok in E as [(node & Hn & Hin) [n1 H1]]. apply IH in H as [Hall [n2 H2]]. split.
    + constructor; [|done]. exists node. split; [done|]. by eapply accounted_keys.
    + exists (n1 ++ n2). by eapply accounted_trans.
Qed.

(** A committed batch is a batch that ran; otherwise nothing changed. *)
Lemma in_transaction_effect {A} (body : prog pg A) s r s' :
  in_transaction body s = (r, s') ->
  (cp s' = cp s /\ is_ok r = false)
  \/ exists a s1 s2, cp s1 = cp s /\ body s1 = (Ok a, s2) /\ cp s' = cp s2.
Proof.
  unfold in_transaction. destruct (next_outcome s); [|intros [= <- <-]; by left..].
  set (s1 := mkPg (cp s) _ false _). destruct (body s1) as [[a|e] s2] eqn:E; [|intros [= <- <-]; by left].
  destruct (aborted s2); [intros [= <- <-]; by left|].
  destruct (next_outcome s2); intros [= <- <-]; [right|by left|right]; by exists a, s1, s2.
Qed.

Lemma usage_effect now nodeID data s r s' :
  usage now nodeID data s = (r, s') ->
  (exists new, accounted (cp s) (cp s') new)
  /\ (forall ids, r = Ok ids -> exists events, decode_usage data = Some events /\ ids = pu_EventID <$> events
        /\ Forall (fun e => recorded nodeID e (cp s')) events).
Proof.
  unfold usage. destruct (decode_usage data) as [events|].
  2: { intros [= <- <-]. split; [exists []; apply accounted_refl|done]. }
  unfold bind. destruct (in_transaction _ s) as [r1 s1] eqn:E. intros H.
  assert (Hs : s' = s1 /\ (is_ok r = true -> is_ok r1 = true /\ r = Ok (pu_EventID <$> events)))
    by (destruct r1; injection H as <- <-; done).
  destruct Hs as [-> Hr].
  apply in_transaction_effect in E as [[-> Hno] | (a & sa & sb & Hsa & Hb & ->)].
  - split; [exists []; apply accounted_refl|]. intros ids ->. destruct (Hr eq_refl). congruence.
  - destruct a. apply take_events_ok in Hb as [Hall [new Hacc]]. rewrite Hsa in Hacc.
    split; [by exists new|]. intros ids ->. destruct (Hr eq_refl) as [_ [= ->]]. eauto.
Qed.

(** Events that are recorded already change nothing, whatever fails. *)
Lemma take_events_recorded now nodeID events s :
  Forall (fun e => recorded nodeID e (cp s)) events ->
  cp (for_each (take_event now nodeID) events s).2 = cp s.
Proof.
  revert s. induction events as [|e events IH]; intros s; [done|]. intros [He Hes]%Forall_cons. simpl. unfold bind at 1.
  assert (Hone : cp (take_event now nodeID e s).2 = cp s).
  { unfold take_event, bind at 1. destruct (stmt (record_usage nodeID e) s) as [[inserted|] s1] eqn:E1.
    - apply stmt_ok in E1 as (_ & _ & t1 & E1 & <-). destruct inserted.
      + by apply record_usage_recorded in E1.
      + apply record_usage_known in E1 as [E1 _]. exact E1.
    - unfold stmt in E1. destruct (aborted s); [by injection E1 as _ <-|].
      destruct (next_outcome s); [|by injection E1 as _ <-..].
      destruct (record_usage _ _ _) as [[]|]; [done|by injection E1 as _ <-]. }
  destruct (take_event now nodeID e s) as [[[]|] s1]; simpl in *; [|done]. rewrite IH; [done|]. by rewrite Hone.
Qed.
Lemma usage_recorded now nodeID data events s :
  decode_usage data = Some events -> Forall (fun e => recorded nodeID e (cp s)) events ->
  cp (usage now nodeID data s).2 = cp s.
Proof.
  intros Hd Hall. unfold usage. rewrite Hd. unfold bind.
  destruct (in_transaction _ s) as [r1 s1] eqn:E.
  assert (Hs : cp s1 = cp s).
  { apply in_transaction_effect in E as [[? _] | (a & sa & sb & Hsa & Hb & ->)]; [done|].
    pose proof (take_events_recorded now nodeID events sa) as H. rewrite Hb, Hsa in H. auto. }
  by destruct r1.
Qed.

(** Reports as the hub receives them: the time, the node and the payload. *)
Definition report : Type := time * string * option json.
Definition take_reports (reports : list report) (s : pg) : pg :=
  foldl (fun s '(now, node, data) => (usage now node data s).2) s reports.

Lemma take_reports_accounted reports s : exists new, accounted (cp s) (cp (take_reports reports s)) new.
Proof.
  revert s. induction reports as [|[[now node] data] l IH]; intros s; simpl; [exists []; apply accounted_refl|].
  destruct (usage now node data s) as [r s1] eqn:E. apply usage_effect in E as [[n1 H1] _].
  destruct (IH s1) as [n2 H2]. exists (n1 ++ n2). by eapply accounted_trans.
Qed.
End Hub.

(** C17 - Usage is counted once.  Whatever reports arrive, in whatever order,
    repeated or interrupted by failures of the database, including commits whose
    outcome the hub does not learn: each pair of node and event id is stored at
    most once, and every subscription's counter has grown by exactly the bytes of
    the rows stored for its devices.  The ids of an acknowledgement are stored,
    and sending the same report again, at any later point, changes nothing. *)
Theorem usage_counted_once {PU : PgUuid} reports s :
  let t := cp s in
  let s' := take_reports reports s in
  NoDup (usage_keys t) ->
  NoDup (usage_keys (cp s'))
  /\ (exists new, c_usage (cp s') = c_usage t ++ new
        /\ forall u sub, c_subscriptions t !! u = Some sub ->
             exists sub', c_subscriptions (cp s') !! u = Some sub'
               /\ sb_used sub' = sb_used sub + charged (c_devices t) u new)
  /\ (forall now node data ids s1, usage now node data s' = (Ok ids, s1) ->
        exists events, decode_usage data = Some events /\ ids = pu_EventID <$> events
          /\ Forall (fun e => recorded node e (cp s1)) events
          /\ forall later now', let s2 := take_reports later s1 in
               cp (usage now' node data s2).2 = cp s2).
Proof.
  intros t s' Hnd. destruct (take_reports_accounted reports s) as [new [D R F U]].
  split_and!; [by apply F| |].
  - exists new. split; [done|]. intros u sub Hu. specialize (U u). fold t in U. rewrite Hu in U.
    destruct (c_subscriptions (cp (take_reports reports s)) !! u) as [sub'|] eqn:E; [|done].
    injection U as U. exists sub'. done.
  - intros now node data ids s1 H. apply usage_effect in H as [_ H].
    destruct (H ids eq_refl) as (events & Hd & -> & Hall). exists events. split_and!; [done|done|done|].
    intros later now' s2. apply (usage_recorded now' node data events); [done|].
    eapply Forall_impl; [exact Hall|]. intros e (nd & Hn & Hin). exists nd. split; [done|].
    destruct (take_reports_accounted later s1) as [n2 H2]. by eapply accounted_keys.
Qed.

Definition toy_uuid_type : PgUuid := {| pg_uuid s := if String.eqb s "" then None else Some s |}.
Definition sample_route : route_row :=
  mkRouteRow "n1.example" "healthy" (JArr [JStr "fallback.vless-ws-tls"]) 0 (Some 40).
Definition sample_agent : agent_row := mkAgentRow "" "" 1 None None None.
Definition sample_subscription : subscription_row :=
  mkSubscriptionRow "LITE" None "active" None (Some (FromUnix 2000000)) None 150000000000 100.
Definition sample_device (user hash : string) : cdevice_row :=
  mkCdeviceRow user 1 "phone" None "" hash hash None None None None.
Definition sample_ctables : ctables :=
  with_users (fun _ => {["u1" := mkUserRow "tg1" "active" None]})
  (with_subscriptions (fun _ => {["u1" := sample_subscription]})
  (with_cdevices (fun _ => {["d1" := sample_device "u1" "hash"]})
  (with_nodes (fun _ => {["n1" := mkNodeRow None None None None None None sample_route sample_agent]})
  (with_assignments (fun _ => {["d1" := mkAssignmentRow "n1" None 0]}) no_tables)))).
Definition sample_report (id : string) (rx tx : Z) : option json :=
  j ← encode_UsageEvent (mkUsageEvent id "d1" rx tx (FromUnix 1000) (FromUnix 1000));
  Some (JObj [("events", JArr [j])]).

Lemma usage_counted_once_witness :
  let s := mkPg sample_ctables [] false [] in
  let reports := [(FromUnix 1001, "n1", sample_report "1" 7 5); (FromUnix 1002, "n1", sample_report "1" 7 5);
                  (FromUnix 1003, "n1", sample_report "2" 1 1)] in
  let t' := cp (@take_reports toy_uuid_type reports s) in
  (sb_used <$> c_subscriptions t' !! "u1" = Some 114 /\ length (c_usage t') = 2%nat) /\ NoDup (usage_keys t').
Proof.
  intros s reports t'. split; [vm_compute; split; reflexivity|].
  apply (@usage_counted_once toy_uuid_type reports s). apply NoDup_nil_2.
Defined.

(** ** Acknowledgements *)

(** [_ = json.Unmarshal(env.Data, &ack)]: a value of the wrong kind leaves its
    field as it is, and the others are still read. *)
Definition lenient {A} (d : dec A) : dec A := fun j old =>
  match d j old with Some a => Some a | None => Some old end.
Definition decode_ack (data : option json) : Ack :=
  let zero := mkAck false "" "" "" in
  match data with
  | Some j =>
      default zero (dec_struct (fun m old =>
        ok ← field "ok" (lenient dec_bool) m (ack_OK old);
        code ← field "code" (lenient dec_string) m (ack_Code old);
        message ← field "message" (lenient dec_string) m (ack_Message old);
        applied ← field "appliedAt" (lenient dec_string) m (ack_AppliedAt old);
        Some (mkAck ok code message applied)) j zero)
  | None => zero
  end.

(** [ORDER BY created_at]; the order of rows created at the same instant is the
    server's. *)
Class RowOrder := {
  by_created : list command_row -> list command_row;
  by_created_perm : forall l, by_created l ≡ₚ l;
  by_created_sorted : forall l, StronglySorted (fun a b => cm_created_at a <= cm_created_at b) (by_created l) }.

Section Delivery.
Context {PU : PgUuid} {RO : RowOrder}.

Definition answer (status : string) (message : string) (now : time) (c : command_row) : command_row :=
  mkCommandRow (cm_id c) (cm_node c) (cm_type c) (cm_payload c) status (cm_attempts c) (cm_not_before c)
    (cm_expires_at c) (Some now) (Some message) (cm_created_at c).

(** A statement on the command [$id] of the node [$node]. *)
Definition with_command {A} (nodeID id : string) (f : string -> string -> result A) : result A :=
  match canonical_uuid nodeID, canonical_uuid id with
  | Ok node, Ok cid => f node cid
  | Err e, _ | _, Err e => Err e
  end.
Definition answered_command (kind node id : string) (t : ctables) : option command_row :=
  snd <$> list_find (fun c => cm_id c = id /\ cm_node c = node /\ cm_type c = kind) (c_commands t).

Definition set_answer (now : time) (status message nodeID id : string) (t : ctables) : result (unit * ctables) :=
  with_command nodeID id (fun node cid =>
    Ok (tt, with_commands (fmap (fun c => if String.eqb (cm_id c) cid && String.eqb (cm_node c) node
                                          then answer status message now c else c)) t)).

Definition feed_applied (now : time) (nodeID id : string) (t : ctables) : result (unit * ctables) :=
  with_command nodeID id (fun node cid =>
    match answered_command "compliance.feed" node cid t with
    | Some c => Ok (tt, with_nodes (alter (fun n => mkNodeRow (nd_certificate_serial n) (nd_certificate_not_after n)
                    (nd_next_serial n) (nd_next_not_after n) (json_text (cm_payload c) "version") (Some now) (nd_route n) (nd_agent n)) node) t)
    | None => Ok (tt, t)
    end).

Definition certificate_rotated (nodeID id : string) (t : ctables) : result (unit * ctables) :=
  with_command nodeID id (fun node cid =>
    match answered_command "certificate.rotate" node cid t with
    | Some _ => Ok (tt, with_nodes (alter (fun n => mkNodeRow (nd_next_serial n) (nd_next_not_after n) None None
                    (nd_compliance_version n) (nd_compliance_fetched_at n) (nd_route n) (nd_agent n)) node) t)
    | None => Ok (tt, t)
    end).

Definition device_provisioned (now : time) (nodeID id : string) (t : ctables) : result (unit * ctables) :=
  with_command nodeID id (fun node cid =>
    match answered_command "device.upsert" node cid t with
    | Some c =>
        match json_text (cm_payload c) "deviceId" with
        | None => Ok (tt, t)
        | Some text =>
            match canonical_uuid text with
            | Err e => Err e
            | Ok device =>
                Ok (tt, with_assignments (alter (fun a => if String.eqb (as_node a) node
                          then mkAssignmentRow (as_node a) (Some now) now else a) device) t)
            end
        end
    | None => Ok (tt, t)
    end).

(** The cases "ack" and "nack" of [readLoop]; errors of the statements are
    ignored. *)
Definition acknowledge (now : time) (nodeID kind replyTo : string) (data : option json) : prog pg unit :=
  let ack := decode_ack data in
  let status := if String.eqb kind "nack" || negb (ack_OK ack) then "nacked" else "acked" in
  let* _ := try (pool (set_answer now status (ack_Message ack) nodeID replyTo)) in
  if String.eqb status "acked" then
    let* _ := try (pool (feed_applied now nodeID replyTo)) in
    let* _ := try (pool (certificate_rotated nodeID replyTo)) in
    let* _ := try (pool (device_provisioned now nodeID replyTo)) in
    ret tt
  else ret tt.

(** ** Delivery *)

Definition due (now : time) (node : string) (c : command_row) : bool :=
  String.eqb (cm_node c) node && is_open c && (cm_not_before c <=? now) && (now <? cm_expires_at c).
Definition due_commands (now : time) (nodeID : string) (t : ctables) : result (list command_row * ctables) :=
  match canonical_uuid nodeID with
  | Ok node => Ok (take 50 (by_created (filter (fun c => due now node c = true) (c_commands t))), t)
  | Err e => Err e
  end.

(** [LEAST(interval '5 minutes',interval '2 seconds'*(2^LEAST(attempts,7)))] *)
Definition retry_delay (attempts : Z) : Z := Z.min (5 * minute) (2 * second * 2 ^ Z.min attempts 7).

Definition sent (now : time) (c : command_row) : command_row :=
  mkCommandRow (cm_id c) (cm_node c) (cm_type c) (cm_payload c) "sent" (cm_attempts c + 1)
    (now + retry_delay (cm_attempts c)) (cm_expires_at c) (cm_acked_at c) (cm_error c) (cm_created_at c).
Definition mark_sent (now : time) (id : string) (t : ctables) : result (unit * ctables) :=
  Ok (tt, with_commands (fmap (fun c => if String.eqb (cm_id c) id then sent now c else c)) t).

Definition expire_row (now : time) (node : string) (c : command_row) : command_row :=
  if String.eqb (cm_node c) node && is_open c && (cm_expires_at c <=? now) then set_status "expired" c else c.
Definition expire_commands (now : time) (nodeID : string) (t : ctables) : result (unit * ctables) :=
  match canonical_uuid nodeID with
  | Ok node => Ok (tt, with_commands (fmap (expire_row now node)) t)
  | Err e => Err e
  end.

(** The socket of a node: what was written, and the outcome of the writes to
    come. *)
Record link := mkLink { ln_pg : pg; ln_written : list Envelope; ln_writes : list bool }.
#[export] Instance link_pg : Part pg link.
Proof. refine {| part := ln_pg; with_part s l := mkLink s (ln_written l) (ln_writes l) |}; [done|by intros []]. Defined.

Definition write (e : Envelope) : prog link unit := fun l =>
  if default true (head (ln_writes l)) then (Ok tt, mkLink (ln_pg l) (ln_written l ++ [e]) (tail (ln_writes l)))
  else (Err (LibErr "websocket"), mkLink (ln_pg l) (ln_written l) (tail (ln_writes l))).

Definition command_envelope (now : time) (c : command_row) : Envelope :=
  mkEnvelope Version (cm_id c) "" (cm_type c) now (Some (cm_payload c)).

(** [clock] gives the time at which each command is written and marked. *)
Definition deliver_one (clock : string -> time) (c : command_row) : prog link unit :=
  write (command_envelope (clock (cm_id c)) c) ;;;
  let* _ := try (on (pool (mark_sent (clock (cm_id c)) (cm_id c)))) in
  ret tt.
Definition deliver (now : time) (clock : string -> time) (now' : time) (nodeID : string) : prog link unit :=
  let* rows := on (pool (due_commands now nodeID)) in
  for_each (deliver_one clock) rows ;;;
  let* _ := try (on (pool (expire_commands now' nodeID))) in
  ret tt.

Definition commandDeliveryTimeout (kind : string) : Z :=
  if String.eqb kind "compliance.feed" then 2 * minute else 10 * second.

(** ** Lemmas on delivery *)

Definition due_list (now : time) (node : string) (t : ctables) : list command_row :=
  take 50 (by_created (filter (fun c => due now node c = true) (c_commands t))).
Definition mark_row (clock : string -> time) (marked : list string) (c : command_row) : command_row :=
  if bool_decide (cm_id c ∈ marked) then sent (clock (cm_id c)) c else c.

Lemma due_list_elem now node t c :
  c ∈ due_list now node t -> c ∈ c_commands t /\ due now node c = true.
Proof.
  intros H. apply elem_of_take in H as (i & H & _). apply list_elem_of_lookup_2 in H.
  rewrite by_created_perm in H. apply list_elem_of_filter in H. tauto.
Qed.
Lemma NoDup_due_list now node t :
  NoDup (cm_id <$> c_commands t) -> NoDup (cm_id <$> due_list now node t).
Proof.
  intros H. unfold due_list. rewrite fmap_take. eapply sublist_NoDup; [|apply sublist_take].
  rewrite by_created_perm. by apply NoDup_fmap_filter.
Qed.

Lemma pool_total f s :
  (forall t, exists t', f t = Ok (tt, t')) ->
  exists r s', pool f s = (r, s') /\ outcomes s' = tail (outcomes s)
    /\ (cp s' = cp s \/ f (cp s) = Ok (tt, cp s'))
    /\ (outcomes s = [] -> f (cp s) = Ok (tt, cp s')).
Proof.
  intros H. unfold pool, next_outcome. destruct (H (cp s)) as [t' E]. rewrite E.
  destruct (outcomes s) as [|[] l] eqn:Eo; simpl;
    (eexists _, _; split; [reflexivity|]); simpl; rewrite ?Eo; split_and!; intros; try discriminate; auto.
Qed.

Lemma mark_none clock t : with_commands (fmap (mark_row clock [])) t = t.
Proof.
  destruct t as [?? ?? ?? ?? ?? ?? cs ? ? ??]. unfold with_commands. simpl. f_equal.
  rewrite <- (list_fmap_id cs) at 2. by apply list_fmap_ext.
Qed.
Lemma mark_cons clock id marked t :
  id ∉ marked ->
  with_commands (fmap (mark_row clock marked))
    (with_commands (fmap (fun c => if String.eqb (cm_id c) id then sent (clock id) c else c)) t)
  = with_commands (fmap (mark_row clock (id :: marked))) t.
Proof.
  intros Hni. destruct t as [?? ?? ?? ?? ?? ?? cs ? ? ??]. unfold with_commands. simpl. f_equal.
  rewrite <- list_fmap_compose. apply list_fmap_ext. intros _ c _. simpl. unfold mark_row.
  destruct (String.eqb_spec (cm_id c) id) as [Hid|Hne]; simpl.
  - rewrite bool_decide_false by (by rewrite Hid). by rewrite bool_decide_true, Hid by (rewrite Hid; set_solver).
  - rewrite (bool_decide_ext (cm_id c ∈ id :: marked) (cm_id c ∈ marked)) by set_solver. done.
Qed.

Lemma deliver_loop clock rows l r l' :
  NoDup (cm_id <$> rows) ->
  for_each (deliver_one clock) rows l = (r, l') ->
  exists k marked,
    ln_written l' = ln_written l ++ ((fun c => command_envelope (clock (cm_id c)) c) <$> take k rows)
    /\ marked ⊆ cm_id <$> rows
    /\ cp (ln_pg l') = with_commands (fmap (mark_row clock marked)) (cp (ln_pg l))
    /\ (r = Ok tt -> (length rows <= k)%nat)
    /\ (outcomes (ln_pg l) = [] -> outcomes (ln_pg l') = [] /\ (r = Ok tt -> cm_id <$> rows ⊆ marked)).
Proof.
  revert l. induction rows as [|c rows IH]; intros l Hnd; simpl.
  - intros [= <- <-]. exists 0%nat, []. split_and!; [by rewrite app_nil_r|set_solver|by rewrite mark_none|simpl; lia|set_solver].
  - apply NoDup_cons in Hnd as [Hni Hnd]. unfold bind at 1, deliver_one at 1, bind at 1, write.
    destruct (default true (head (ln_writes l))).
    2: { intros [= <- <-]. exists 0%nat, []. simpl.
         split_and!; [by rewrite app_nil_r|set_solver|by rewrite mark_none|done|by intros ->]. }
    unfold bind at 1, try, on. cbn [part link_pg ln_pg].
    destruct (pool_total (mark_sent (clock (cm_id c)) (cm_id c)) (ln_pg l)) as (r0 & s0 & E & Ho & Hcp & Hall).
    { intros t. by eexists. }
    rewrite E. cbn [ret with_part link_pg ln_written ln_writes].
    intros H. apply IH in H as (k & marked & Hw & Hm & Ht & Hk & Hs); [|done]. cbn [ln_written ln_pg] in *.
    assert (Hnm : cm_id c ∉ marked) by set_solver.
    assert (Hcase : (cp s0 = cp (ln_pg l) /\ outcomes (ln_pg l) <> [])
                    \/ mark_sent (clock (cm_id c)) (cm_id c) (cp (ln_pg l)) = Ok (tt, cp s0)).
    { destruct (outcomes (ln_pg l)) eqn:Eo; [by right; apply Hall|]. destruct Hcp; [by left|by right]. }
    destruct Hcase as [[Hsame Hne] | [= Hms]]; rewrite Hw, <- app_assoc, Ht.
    + exists (S k), marked. rewrite Hsame. split_and!; [done|set_solver|done|intros Hr; specialize (Hk Hr); lia|done].
    + exists (S k), (cm_id c :: marked). rewrite <- Hms, (mark_cons _ _ _ _ Hnm).
      split_and!; [done|set_solver|done|intros Hr; specialize (Hk Hr); lia|].
      intros Hno. rewrite Hno in Ho. destruct (Hs Ho) as [H1 H2]. split; [done|]. intros Hr. specialize (H2 Hr). set_solver.
Qed.

Lemma expire_row_id now node c : cm_id (expire_row now node c) = cm_id c.
Proof. unfold expire_row. by destruct (_ && _ && _). Qed.
Lemma expire_row_other now node c : cm_node c <> node \/ is_open c = false -> expire_row now node c = c.
Proof.
  unfold expire_row. destruct (String.eqb_spec (cm_node c) node); [|done]. simpl.
  intros [?| ->]; [done|]. done.
Qed.

Lemma fmap_unique {A B} (f : A -> B) l x y : NoDup (f <$> l) -> x ∈ l -> y ∈ l -> f x = f y -> x = y.
Proof.
  intros Hnd [i Hi]%list_elem_of_lookup [j Hj]%list_elem_of_lookup E.
  assert (i = j); [|congruence].
  eapply (NoDup_lookup (f <$> l)); [done|by rewrite list_lookup_fmap, Hi|by rewrite list_lookup_fmap, Hj, E].
Qed.

(** What [deliver] does to a row, from the commands it has marked. *)
Lemma mark_row_spec clock now node t marked c :
  NoDup (cm_id <$> c_commands t) -> marked ⊆ cm_id <$> due_list now node t -> c ∈ c_commands t ->
  (c ∈ due_list now node t -> cm_id <$> due_list now node t ⊆ marked -> mark_row clock marked c = sent (clock (cm_id c)) c)
  /\ (c ∉ due_list now node t -> mark_row clock marked c = c)
  /\ (cm_node c <> node \/ is_open c = false -> mark_row clock marked c = c).
Proof.
  intros Hnd Hsub Hc.
  assert (Hno : c ∉ due_list now node t -> mark_row clock marked c = c).
  { intros Hn. unfold mark_row. rewrite bool_decide_false; [done|]. intros Hin%Hsub.
    apply list_elem_of_fmap in Hin as (d & Hid & Hd). destruct Hn.
    rewrite (fmap_unique cm_id (c_commands t) c d); [done|done|done| |done]. by eapply due_list_elem. }
  split_and!; [|done|].
  - intros Hd Hall. unfold mark_row. rewrite bool_decide_true; [done|]. apply Hall, list_elem_of_fmap. eauto.
  - intros Hout. apply Hno. intros [_ Hdue]%due_list_elem. unfold due in Hdue.
    rewrite !andb_true_iff, String.eqb_eq in Hdue. destruct Hout; naive_solver congruence.
Qed.

Lemma due_list_all now node t c :
  (length (filter (fun c => due now node c = true) (c_commands t)) <= 50)%nat ->
  c ∈ c_commands t -> due now node c = true -> c ∈ due_list now node t.
Proof.
  intros Hlen Hc Hd. unfold due_list. rewrite take_ge by (by rewrite by_created_perm).
  rewrite by_created_perm. by apply list_elem_of_filter.
Qed.

(** The outcome of a round over the list [D]: how many commands were written,
    which of them were marked and whether the expired ones were closed. *)
Definition round (clock : string -> time) (now' : time) (node : string) (D : list command_row)
    (l l' : link) (r : result unit) : Prop :=
  exists k marked last,
    ln_written l' = ln_written l ++ ((fun c => command_envelope (clock (cm_id c)) c) <$> take k D)
    /\ marked ⊆ cm_id <$> D
    /\ c_commands (cp (ln_pg l')) = (fun c => last (mark_row clock marked c)) <$> c_commands (cp (ln_pg l))
    /\ (last = (fun c => c) \/ last = expire_row now' node)
    /\ (r = Ok tt -> outcomes (ln_pg l) = [] ->
          (length D <= k)%nat /\ cm_id <$> D ⊆ marked /\ last = expire_row now' node).

Lemma round_nothing clock now' node D l l' e :
  ln_written l' = ln_written l -> cp (ln_pg l') = cp (ln_pg l) -> round clock now' node D l l' (Err e).
Proof.
  intros Hw Ht. exists 0%nat, [], (fun c => c). rewrite Hw, Ht.
  split_and!; [by rewrite app_nil_r|set_solver| |by left|done].
  exact (eq_sym (f_equal c_commands (mark_none clock (cp (ln_pg l))))).
Qed.

(** The loop and the final update, after the query. *)
Lemma round_rest clock now' nodeID node D l r l' :
  canonical_uuid nodeID = Ok node -> NoDup (cm_id <$> D) ->
  (for_each (deliver_one clock) D ;;;
   let* _ := try (on (pool (expire_commands now' nodeID))) in ret tt) l = (r, l') ->
  round clock now' node D l l' r.
Proof.
  intros Hn Hnd H. unfold bind at 1 in H. destruct (for_each (deliver_one clock) D l) as [r1 l2] eqn:E.
  apply deliver_loop in E as (k & marked & Hw & Hm & Ht & Hk & Hs); [|done].
  destruct r1 as [[]|e].
  2: { injection H as <- <-. exists k, marked, (fun c => c). rewrite Ht. split_and!; [done|done|done|by left|done]. }
  unfold bind, try, on in H. cbn [part with_part link_pg] in H.
  destruct (pool_total (expire_commands now' nodeID) (ln_pg l2)) as (r3 & s3 & E3 & _ & Hcp & Hall).
  { intros u. unfold expire_commands. rewrite Hn. by eexists. }
  rewrite E3 in H. injection H as <- <-. unfold expire_commands in Hcp, Hall. rewrite Hn in Hcp, Hall.
  assert (Hcase : (cp s3 = cp (ln_pg l2) /\ outcomes (ln_pg l) <> [])
                  \/ cp s3 = with_commands (fmap (expire_row now' node)) (cp (ln_pg l2))).
  { destruct (outcomes (ln_pg l)) as [|o os] eqn:Eol.
    - right. specialize (Hall (proj1 (Hs eq_refl))). by injection Hall.
    - destruct Hcp as [Hcp|Hcp]; [left; done|right; by injection Hcp]. }
  destruct Hcase as [[Hsame Hne]|Hexp].
  - exists k, marked, (fun c => c). split_and!; [done|done|simpl; by rewrite Hsame, Ht|by left|done].
  - exists k, marked, (expire_row now' node). split_and!; [done|done| |by right|].
    + simpl. rewrite Hexp, Ht. simpl. by rewrite <- list_fmap_compose.
    + intros Hr Ho. destruct (Hs Ho) as [_ Hs2]. split_and!; [by apply Hk|by apply Hs2|done].
Qed.

Lemma deliver_round now clock now' nodeID node l r l' :
  canonical_uuid nodeID = Ok node -> NoDup (cm_id <$> c_commands (cp (ln_pg l))) ->
  deliver now clock now' nodeID l = (r, l') ->
  round clock now' node (due_list now node (cp (ln_pg l))) l l' r.
Proof.
  intros Hn Hnd H. unfold deliver in H. unfold bind at 1, on at 1 in H. cbn [part with_part link_pg] in H.
  assert (Hquery : due_commands now nodeID (cp (ln_pg l)) = Ok (due_list now node (cp (ln_pg l)), cp (ln_pg l)))
    by (unfold due_commands; by rewrite Hn).
  unfold pool at 1 in H. rewrite Hquery in H.
  destruct (next_outcome (ln_pg l)) eqn:Eo; [|injection H as <- <-; by apply round_nothing..].
  apply (round_rest clock now' nodeID node) in H; [|done|by apply NoDup_due_list].
  destruct H as (k & marked & last & H1 & H2 & H3 & H4 & H5). exists k, marked, last.
  split_and!; [done|done|done|done|]. intros Hr Ho. apply H5; [done|]. simpl. by rewrite Ho.
Qed.

Lemma retry_delay_bounds a : 0 <= a -> 2 * second <= retry_delay a <= 256 * second.
Proof.
  intros Ha. unfold retry_delay.
  assert (2 ^ 0 <= 2 ^ Z.min a 7 <= 2 ^ 7) by (split; apply Z.pow_le_mono_r; lia).
  unfold minute, second in *. lia.
Qed.
End Delivery.

(** C29 - Delivery of commands.  One round writes to the node, oldest first, a
    prefix of its due commands (at most fifty: open, not expired, past their
    waiting time); a round without a failure writes all of them, and all that
    are due if there are no more than fifty.  Commands of other nodes and
    commands already answered or expired are never written and never change, also
    when statements or writes fail.  After a round without failures every command
    written is marked with one more attempt and waits between 2 and 256 seconds,
    and the node's open commands past their time are expired. *)
Theorem deliver_spec {PU : PgUuid} {RO : RowOrder} now clock now' nodeID node l r l' :
  canonical_uuid nodeID = Ok node ->
  let t := cp (ln_pg l) in
  let D := due_list now node t in
  NoDup (cm_id <$> c_commands t) ->
  deliver now clock now' nodeID l = (r, l') ->
  Forall (fun c => c ∈ c_commands t /\ due now node c = true) D
  /\ StronglySorted (fun a b => cm_created_at a <= cm_created_at b) D
  /\ ((length (filter (fun c => due now node c = true) (c_commands t)) <= 50)%nat ->
        forall c, c ∈ c_commands t -> due now node c = true -> c ∈ D)
  /\ exists k f,
       ln_written l' = ln_written l ++ ((fun c => command_envelope (clock (cm_id c)) c) <$> take k D)
       /\ c_commands (cp (ln_pg l')) = f <$> c_commands t
       /\ (forall c, c ∈ c_commands t -> cm_node c <> node \/ is_open c = false -> f c = c)
       /\ (r = Ok tt -> outcomes (ln_pg l) = [] ->
             (length D <= k)%nat
             /\ forall c, c ∈ c_commands t ->
                  (c ∈ D -> f c = expire_row now' node (sent (clock (cm_id c)) c)
                            /\ (0 <= cm_attempts c -> 2 * second <= retry_delay (cm_attempts c) <= 256 * second))
                  /\ (c ∉ D -> f c = expire_row now' node c)).
Proof.
  intros Hn t D Hnd H. split_and!.
  - apply Forall_forall. intros c. apply due_list_elem.
  - eapply StronglySorted_app_1_l. unfold D, due_list. rewrite take_drop. apply by_created_sorted.
  - intros Hlen c. by apply due_list_all.
  - apply (deliver_round now clock now' nodeID node) in H as (k & marked & last & Hw & Hm & Hc & Hl & Hok); [|done|done].
    exists k, (fun c => last (mark_row clock marked c)). split_and!; [done|done| |].
    + intros c Hin Hout. destruct (mark_row_spec clock now node t marked c) as (_ & _ & H3); [done..|].
      rewrite (H3 Hout). destruct Hl as [-> | ->]; [done|by apply expire_row_other].
    + intros Hr Ho. destruct (Hok Hr Ho) as (Hk & Hall & ->). split; [done|]. intros c Hin.
      destruct (mark_row_spec clock now node t marked c) as (H1 & H2 & _); [done..|]. split.
      * intros Hd. rewrite (H1 Hd Hall). split; [done|apply retry_delay_bounds].
      * intros Hd. by rewrite (H2 Hd).
Qed.

#[export] Instance created_total : Total (fun a b : command_row => cm_created_at a <= cm_created_at b).
Proof. intros a b. lia. Qed.
#[export] Instance created_transitive : Transitive (fun a b : command_row => cm_created_at a <= cm_created_at b).
Proof. intros a b c. lia. Qed.
Definition created_order : RowOrder.
Proof.
  refine {| by_created := merge_sort (fun a b => cm_created_at a <= cm_created_at b) |}.
  - apply merge_sort_Permutation.
  - intros l. apply (StronglySorted_merge_sort _).
Defined.

Definition sample_command (id node status : string) (created expires : Z) : command_row :=
  mkCommandRow id node "session.kick" (JObj [("deviceId", JStr "d1")]) status 0 (FromUnix created)
    (FromUnix expires) None None (FromUnix created).
Definition sample_queue : ctables :=
  with_commands (fun _ => [sample_command "c3" "n1" "pending" 30 9000; sample_command "c1" "n1" "sent" 10 9000;
                           sample_command "c2" "n1" "acked" 20 9000; sample_command "c4" "n2" "pending" 5 9000;
                           sample_command "c5" "n1" "pending" 1 50]) sample_ctables.

Lemma deliver_spec_witness :
  let l := mkLink (mkPg sample_queue [] false []) [] [] in
  let out := @deliver toy_uuid_type created_order (FromUnix 100) (fun _ => FromUnix 101) (FromUnix 102) "n1" l in
  (env_MessageID <$> ln_written out.2 = ["c1"; "c3"]
   /\ (cm_status <$> c_commands (cp (ln_pg out.2))) = ["sent"; "sent"; "acked"; "pending"; "expired"])
  /\ exists k f, ln_written out.2 = [] ++ ((fun c => command_envelope (FromUnix 101) c)
        <$> take k (@due_list created_order (FromUnix 100) "n1" sample_queue))
      /\ c_commands (cp (ln_pg out.2)) = f <$> c_commands sample_queue.
Proof.
  intros l out. split; [vm_compute; split; reflexivity|].
  destruct (@deliver_spec toy_uuid_type created_order (FromUnix 100) (fun _ => FromUnix 101) (FromUnix 102)
              "n1" "n1" l out.1 out.2) as (_ & _ & _ & k & f & H1 & H2 & _).
  - reflexivity.
  - apply (bool_decide_unpack _). vm_compute. exact I.
  - reflexivity.
  - exists k, f. split; [exact H1|exact H2].
Defined.

(** ** Provisioning *)

Definition valueTime (value : option time) : time := default zero_time value.

Definition device_upsert (deviceID : string) (d : cdevice_row) (s : subscription_row) : option json :=
  encode_DeviceUpsert (mkDeviceUpsert deviceID (Encode (cd_credential_hash d)) (sb_plan s) true
    (valueTime (sb_ends s)) (valueTime (sb_ends s)) (sb_quota s)).

Section Provisioning.
Context {PU : PgUuid} {ED : Ed25519} {MO : MapOrder}.

Definition provision_row (deviceID : string) (t : ctables)
    : result ((cdevice_row * subscription_row) * ctables) :=
  match canonical_uuid deviceID with
  | Err e => Err e
  | Ok device =>
      match c_devices t !! device with
      | Some d =>
          match cd_revoked_at d, c_subscriptions t !! cd_user d with
          | None, Some s => Ok ((d, s), t)
          | _, _ => Err (SqlErr SqlNoRows)
          end
      | None => Err (SqlErr SqlNoRows)
      end
  end.

(** [COALESCE(sum(bytes-consumed_bytes),0)] over the leases that have not expired. *)
Definition live_bytes (now : time) (device : string) (leases : list lease_row) : Z :=
  foldr (fun l acc => (if String.eqb (ls_device l) device && (now <? ls_expires_at l)
                       then ls_bytes l - ls_consumed l else 0) + acc) 0 leases.
Definition live_reservations (now : time) (deviceID : string) (t : ctables) : result (Z * ctables) :=
  match canonical_uuid deviceID with
  | Err e => Err e
  | Ok device => result_map (fun z => (z, t)) (bigint (live_bytes now device (c_leases t)))
  end.

Definition queue_command (now : time) (id nodeID kind : string) (payload : option json) (t : ctables)
    : result (unit * ctables) :=
  match canonical_uuid nodeID with
  | Err e => Err e
  | Ok node => result_map (fun t' => (tt, t')) (insert_command now id node kind payload t)
  end.
(** One INSERT of two rows. *)
Definition queue_both (now : time) (id1 id2 nodeID : string) (upsert lease : option json) (t : ctables)
    : result (unit * ctables) :=
  match queue_command now id1 nodeID "device.upsert" upsert t with
  | Ok (_, t1) => queue_command now id2 nodeID "quota.lease" lease t1
  | Err e => Err e
  end.

Definition insert_lease (l : QuotaLease) (t : ctables) : result (unit * ctables) :=
  match canonical_uuid (ql_LeaseID l), canonical_uuid (ql_DeviceID l), canonical_uuid (ql_NodeID l) with
  | Ok id, Ok device, Ok node =>
      if existsb (fun r => String.eqb (ls_id r) id) (c_leases t) || (ql_Bytes l <? 0)
      then Err (SqlErr SqlConstraint) else
      match c_devices t !! device, c_nodes t !! node with
      | Some _, Some _ =>
          Ok (tt, with_leases (fun ls => ls ++ [mkLeaseRow id device node (ql_Bytes l) 0 (ql_IssuedAt l)
                (ql_ExpiresAt l) (default "" (Decode (ql_Signature l)))]) t)
      | _, _ => Err (SqlErr SqlConstraint)
      end
  | Err e, _, _ | _, Err e, _ | _, _, Err e => Err e
  end.

(** A new lease of at most 1 GB, with the two commands that carry it to the node. *)
Definition issue_lease (quotaPrivateKey : string) (begun now : time) (leaseID deviceID nodeID : string)
    (s : subscription_row) (active : Z) (upsert : option json) : prog pg unit :=
  let grant := reservableBytes (sub64 (sb_quota s) (sb_used s)) active 1000000000 in
  if grant =? 0 then fail (Msg "no quota remains") else
  let lease := mkQuotaLease leaseID deviceID nodeID grant now (TimeAdd now (24 * hour)) "quota-v1" "" in
  let* lease := lift (SignLease lease quotaPrivateKey) in
  stmt (insert_lease lease) ;;;
  let* id1 := random_uuid in
  let* id2 := random_uuid in
  stmt (queue_both begun id1 id2 nodeID upsert (encode_QuotaLease lease)).

(** [begun] is the start of the transaction, which is PostgreSQL's [now()], and
    [now] the clock reading of the program; [leaseID] is the fresh uuid. *)
Definition provisionDevice (quotaPrivateKey : string) (begun now : time) (leaseID deviceID nodeID : string)
    : prog pg unit :=
  if negb (String.length quotaPrivateKey =? PrivateKeySize)%nat
  then fail (Msg "quota signing key is not configured") else
  in_transaction (
    let* row := stmt (provision_row deviceID) in
    let '(d, s) := row in
    if negb (String.eqb (sb_status s) "active") && negb (String.eqb (sb_status s) "grace")
    then fail (Msg "subscription is not active") else
    let* sum := try (stmt (live_reservations begun deviceID)) in
    let active := match sum with Ok z => z | Err _ => 0 end in
    let upsert := device_upsert deviceID d s in
    if 0 <? active then
      let* id := random_uuid in
      stmt (queue_command begun id nodeID "device.upsert" upsert)
    else
      issue_lease quotaPrivateKey begun now leaseID deviceID nodeID s active upsert).

(** A list of devices, one transaction each; the first error ends the loop. *)
Definition provision_all (quotaPrivateKey : string) (clock : string -> time * time) (leaseID : string -> string)
    (items : list (string * string)) : prog pg unit :=
  for_each (fun '(deviceID, nodeID) =>
    let '(begun, now) := clock deviceID in
    provisionDevice quotaPrivateKey begun now (leaseID deviceID) deviceID nodeID) items.

(** The devices that the quota-renewal worker finds without a live lease.  Rows
    of a query without ORDER BY come in any order, that of [range]. *)
Definition lease_due (now : time) (t : ctables) (device : string) (d : cdevice_row) : bool :=
  match cd_revoked_at d, c_users t !! cd_user d, c_subscriptions t !! cd_user d with
  | None, Some u, Some s =>
      String.eqb (us_status u) "active" && (String.eqb (sb_status s) "active" || String.eqb (sb_status s) "grace")
      && negb (existsb (fun l => String.eqb (ls_device l) device && (now <? ls_expires_at l)) (c_leases t))
  | _, _, _ => false
  end.
Definition due_assignments (now : time) (t : ctables) : result (list (string * string) * ctables) :=
  Ok (omap (fun '(device, d) =>
        if lease_due now t device d then (fun a => (device, as_node a)) <$> c_assignments t !! device else None)
      (range (c_devices t)), t).
Definition renewQuotaLeases (quotaPrivateKey : string) (now : time) (clock : string -> time * time)
    (leaseID : string -> string) : prog pg unit :=
  let* due := pool (due_assignments now) in
  provision_all quotaPrivateKey clock leaseID due.

Definition user_assignments (userID : string) (t : ctables) : result (list (string * string) * ctables) :=
  match canonical_uuid userID with
  | Err e => Err e
  | Ok user =>
      Ok (omap (fun '(device, d) =>
            match cd_revoked_at d with
            | None => if String.eqb (cd_user d) user
                      then (fun a => (device, as_node a)) <$> c_assignments t !! device else None
            | Some _ => None
            end) (range (c_devices t)), t)
  end.
Definition provisionUserDevices (quotaPrivateKey : string) (clock : string -> time * time)
    (leaseID : string -> string) (userID : string) : prog pg unit :=
  let* items := pool (user_assignments userID) in
  provision_all quotaPrivateKey clock leaseID items.

(** The devices that a node is told about when it connects. *)
Definition resync_rows (nodeID : string) (t : ctables)
    : result (list (string * cdevice_row * subscription_row) * ctables) :=
  match canonical_uuid nodeID with
  | Err e => Err e
  | Ok node =>
      Ok (omap (fun '(device, d) =>
            match cd_revoked_at d, c_assignments t !! device, c_users t !! cd_user d, c_subscriptions t !! cd_user d with
            | None, Some a, Some u, Some s =>
                if String.eqb (as_node a) node && String.eqb (us_status u) "active" && (String.eqb (sb_status s) "active" || String.eqb (sb_status s) "grace")
                then Some (device, d, s) else None
            | _, _, _, _ => None
            end) (range (c_devices t)), t)
  end.
Definition queueDeviceResync (now : time) (nodeID : string) : prog pg unit :=
  let* rows := pool (resync_rows nodeID) in
  for_each (fun '(device, d, s) =>
    let* id := random_uuid in
    pool (queue_command now id nodeID "device.upsert" (device_upsert device d s))) rows.

(** ** Lemmas on provisioning *)

(** What one successful call did: a further announcement of the device while a
    lease is live, or a new lease together with both commands. *)
Inductive provisioned (priv : string) (begun now : time) (leaseID deviceID nodeID : string)
    (device : string) (sub : subscription_row) (t t' : ctables) : Prop :=
  | Announced f :
      0 < live_bytes begun device (c_leases t) ->
      t' = with_commands f t ->
      provisioned priv begun now leaseID deviceID nodeID device sub t t'
  | Leased lease id node f :
      live_bytes begun device (c_leases t) <= 0 ->
      lease = mkQuotaLease leaseID deviceID nodeID
        (reservableBytes (sub64 (sb_quota sub) (sb_used sub)) (live_bytes begun device (c_leases t)) 1000000000)
        now (TimeAdd now (24 * hour)) "quota-v1" (ql_Signature lease) ->
      ql_Bytes lease <> 0 ->
      SignLease (with_signature lease "") priv = Ok lease ->
      t' = with_commands f (with_leases (fun ls => ls ++ [mkLeaseRow id device node (ql_Bytes lease) 0
             (ql_IssuedAt lease) (ql_ExpiresAt lease) (default "" (Decode (ql_Signature lease)))]) t) ->
      (exists c1 c2 j, f (c_commands t) = c_commands t ++ [c1; c2] /\ cm_type c1 = "device.upsert"
         /\ cm_type c2 = "quota.lease" /\ encode_QuotaLease lease = Some j /\ cm_payload c2 = j) ->
      provisioned priv begun now leaseID deviceID nodeID device sub t t'.

Lemma queue_command_ok now id nodeID kind payload t t' :
  queue_command now id nodeID kind payload t = Ok (tt, t') ->
  exists c, t' = with_commands (fun l => l ++ [c]) t /\ cm_type c = kind /\ payload = Some (cm_payload c).
Proof.
  unfold queue_command. destruct (canonical_uuid nodeID) as [node|]; [|done]. unfold insert_command.
  destruct payload, (c_nodes t !! node); try done. destruct (existsb _ _); [done|].
  intros [= <-]. by eexists.
Qed.
Lemma queue_both_ok now id1 id2 nodeID upsert lease t t' :
  queue_both now id1 id2 nodeID upsert lease t = Ok (tt, t') ->
  exists c1 c2, t' = with_commands (fun l => l ++ [c1; c2]) t /\ cm_type c1 = "device.upsert"
    /\ cm_type c2 = "quota.lease" /\ lease = Some (cm_payload c2).
Proof.
  unfold queue_both. destruct (queue_command now id1 _ _ _ t) as [[[] t1]|] eqn:E1; [|done]. intros E2.
  apply queue_command_ok in E1 as (c1 & -> & H1 & _). apply queue_command_ok in E2 as (c2 & -> & H2 & ->).
  exists c1, c2. split_and!; [|done..]. unfold with_commands. simpl. by rewrite <- app_assoc.
Qed.
Lemma insert_lease_ok l device t t' :
  canonical_uuid (ql_DeviceID l) = Ok device -> insert_lease l t = Ok (tt, t') ->
  exists id node, t' = with_leases (fun ls => ls ++ [mkLeaseRow id device node (ql_Bytes l) 0 (ql_IssuedAt l)
     (ql_ExpiresAt l) (default "" (Decode (ql_Signature l)))]) t.
Proof.
  unfold insert_lease. intros ->. destruct (canonical_uuid (ql_LeaseID l)) as [id|]; [|done].
  destruct (canonical_uuid (ql_NodeID l)) as [node|]; [|done]. destruct (_ || _); [done|].
  destruct (c_devices t !! device), (c_nodes t !! node); try done. intros [= <-]. eauto.
Qed.

Lemma issue_lease_ok priv begun now leaseID deviceID nodeID device sub upsert s s' :
  canonical_uuid deviceID = Ok device -> live_bytes begun device (c_leases (cp s)) <= 0 ->
  issue_lease priv begun now leaseID deviceID nodeID sub (live_bytes begun device (c_leases (cp s))) upsert s
    = (Ok tt, s') ->
  provisioned priv begun now leaseID deviceID nodeID device sub (cp s) (cp s').
Proof.
  intros Edev Hlive H. unfold issue_lease in H.
  destruct (Z.eqb_spec (reservableBytes (sub64 (sb_quota sub) (sb_used sub))
              (live_bytes begun device (c_leases (cp s))) 1000000000) 0) as [|Hg]; [done|].
  unfold bind at 1, lift in H. destruct (SignLease _ priv) as [lease|] eqn:Esig; [|done].
  unfold bind at 1 in H. destruct (stmt (insert_lease lease) s) as [[[]|] sc] eqn:E3; [|done].
  apply stmt_ok in E3 as (_ & _ & t3 & E3 & Ht3).
  unfold bind at 1 in H. cbn [random_uuid] in H. unfold bind at 1 in H. cbn [random_uuid] in H.
  apply stmt_ok in H as (_ & _ & t4 & H & ->). cbn [cp] in H. rewrite Ht3 in H.
  pose proof Esig as Esig'. unfold SignLease in Esig. destruct (signingBytes _) as [payload|]; [|done].
  injection Esig as Elease. apply queue_both_ok in H as (c1 & c2 & -> & H1 & H2 & H3).
  apply (insert_lease_ok _ device) in E3 as (id & node & ->); [|by rewrite <- Elease].
  eapply (Leased _ _ _ _ _ _ _ _ _ _ lease id node); [done| | | | reflexivity|].
  - rewrite <- Elease. reflexivity.
  - by rewrite <- Elease.
  - rewrite <- Esig'. by rewrite <- Elease.
  - exists c1, c2, (cm_payload c2). done.
Qed.
(** Nothing is issued in an aborted transaction. *)
Lemma issue_lease_aborted priv begun now leaseID deviceID nodeID sub active upsert s s' :
  aborted s = true -> issue_lease priv begun now leaseID deviceID nodeID sub active upsert s <> (Ok tt, s').
Proof.
  intros Ha H. unfold issue_lease in H. destruct (_ =? 0) in H; [done|].
  unfold bind at 1, lift in H. destruct (SignLease _ _); [|done].
  unfold bind at 1 in H. destruct (stmt (insert_lease _) s) as [[?|] ?] eqn:E3; [|done].
  apply stmt_ok in E3 as [? _]. congruence.
Qed.

Lemma provisionDevice_ok priv begun now leaseID deviceID nodeID s s' :
  provisionDevice priv begun now leaseID deviceID nodeID s = (Ok tt, s') ->
  String.length priv = PrivateKeySize
  /\ exists device d sub, canonical_uuid deviceID = Ok device /\ c_devices (cp s) !! device = Some d
       /\ cd_revoked_at d = None /\ c_subscriptions (cp s) !! cd_user d = Some sub
       /\ (sb_status sub = "active" \/ sb_status sub = "grace")
       /\ provisioned priv begun now leaseID deviceID nodeID device sub (cp s) (cp s').
Proof.
  unfold provisionDevice. destruct (Nat.eqb_spec (String.length priv) PrivateKeySize) as [Hlen|]; [|done].
  cbn [negb]. intros H. split; [done|]. apply in_transaction_ok in H as (s1 & s2 & <- & _ & H & _ & -> & _).
  unfold bind at 1 in H. destruct (stmt (provision_row deviceID) s1) as [[[d sub]|] sa] eqn:E1; [|done].
  apply stmt_ok in E1 as (_ & Ha & t1 & E1 & Ht1). unfold provision_row in E1.
  destruct (canonical_uuid deviceID) as [device|] eqn:Edev; [|done].
  destruct (c_devices (cp s1) !! device) as [d'|] eqn:Ed; [|done].
  destruct (cd_revoked_at d') eqn:Er; [done|]. destruct (c_subscriptions (cp s1) !! cd_user d') as [sub'|] eqn:Es; [|done].
  injection E1 as -> -> <-. exists device, d, sub.
  destruct (negb (String.eqb (sb_status sub) "active") && _) eqn:Est; [done|].
  split_and!; [done..| |].
  { destruct (String.eqb_spec (sb_status sub) "active"); [by left|].
    destruct (String.eqb_spec (sb_status sub) "grace"); [by right|done]. }
  unfold bind at 1, try in H. destruct (stmt (live_reservations begun deviceID) sa) as [rs sb] eqn:E2.
  destruct rs as [active|e].
  2: { apply stmt_err in E2. by apply issue_lease_aborted in H. }
  apply stmt_ok in E2 as (_ & Hb & t2 & E2 & Ht2). unfold live_reservations in E2. rewrite Edev in E2.
  unfold bigint in E2. destruct (in_int64 _); [|done]. injection E2 as <- <-. rewrite Ht1 in Ht2.
  assert (Hcp : cp sb = cp s1) by congruence. rewrite <- Hcp. rewrite Ht1, <- Hcp in H.
  destruct (Z.ltb_spec 0 (live_bytes begun device (c_leases (cp sb)))) as [Hlive|Hlive].
  - unfold bind at 1 in H. cbn [random_uuid] in H. apply stmt_ok in H as (_ & _ & t3 & H & ->).
    apply queue_command_ok in H as (c & -> & _). by eapply Announced.
  - by apply (issue_lease_ok _ _ _ _ _ _ _ _ _ _ _ Edev Hlive) in H.
Qed.
End Provisioning.

(** [hex.DecodeString] accepts digits and letters of either case. *)
Definition is_hex (c : Ascii.ascii) : bool :=
  let z := byte_val c in
  (48 <=? z) && (z <=? 57) || (97 <=? z) && (z <=? 102) || (65 <=? z) && (z <=? 70).
Definition validRealityHello (publicKey shortID : string) : bool :=
  match Decode publicKey with
  | None => false
  | Some decoded =>
      let n := String.length shortID in
      if negb (String.length decoded =? 32)%nat || (n =? 0)%nat || (16 <? n)%nat || negb (n mod 2 =? 0)%nat
      then false else forallb is_hex (String.list_ascii_of_string shortID)
  end.

Definition leases_ok (leases : list lease_row) : Prop :=
  Forall (fun l => 0 <= ls_consumed l <= ls_bytes l) leases.

Lemma live_bytes_app now device l1 l2 :
  live_bytes now device (l1 ++ l2) = live_bytes now device l1 + live_bytes now device l2.
Proof. induction l1 as [|l l1 IH]; [done|]. simpl. rewrite IH. lia. Qed.
Lemma live_bytes_nonneg now device leases : leases_ok leases -> 0 <= live_bytes now device leases.
Proof.
  induction 1 as [|l leases Hl _ IH]; simpl; [lia|]. destruct (_ && _); lia.
Qed.

Lemma live_bytes_new now device id node bytes issued expires signature :
  now < expires -> 0 + live_bytes now device [mkLeaseRow id device node bytes 0 issued expires signature] = bytes.
Proof. intros H. simpl. rewrite String.eqb_refl, (proj2 (Z.ltb_lt _ _) H). simpl. lia. Qed.

(** The size of a grant when nothing is reserved. *)
Lemma granted_bounds quota used :
  0 <= quota <= int64_max -> 0 <= used <= int64_max ->
  let grant := reservableBytes (sub64 quota used) 0 1000000000 in
  0 <= grant <= 1000000000 /\ grant <= Z.max 0 (quota - used).
Proof.
  intros Hq Hu grant. unfold int64_max in *.
  assert (Hin : in_int64 (quota - used) = true) by (apply in_int64_spec; unfold int64_min, int64_max; lia).
  destruct (reservableBytes_bounds (sub64 quota used) 0 1000000000 ltac:(lia)) as [H1 H2].
  unfold grant, sub64 in *. rewrite (wrap64_id _ Hin) in *. split; [done|].
  rewrite Z.sub_0_r in H2. auto.
Qed.



(** Two devices of one user with a gigabyte left. *)
Definition shared_subscription : subscription_row :=
  mkSubscriptionRow "PLUS" None "active" None (Some (FromUnix 2000000)) None 600000000000 599000000000.
Definition shared_ctables : ctables :=
  with_subscriptions (fun _ => {["u1" := shared_subscription]})
  (with_cdevices (fun _ => {["d1" := sample_device "u1" "hash1"; "d2" := sample_device "u1" "hash2"]})
  (with_assignments (fun _ => {["d1" := mkAssignmentRow "n1" None 0; "d2" := mkAssignmentRow "n1" None 0]})
     sample_ctables)).

(** Leases of one subscription add up.  Reservations are summed per device
    while the quota belongs to the user, so two devices of one user are each
    granted the same remaining gigabyte. *)
Theorem leases_oversubscribe :
  let now := FromUnix 1000 in
  let provision := @provisionDevice toy_uuid_type toy_ed25519 sample_private now now in
  exists s1 s2,
    provision "l1" "d1" "n1" (mkPg shared_ctables [] false ["c1"; "c2"; "c3"; "c4"]) = (Ok tt, s1)
    /\ provision "l2" "d2" "n1" s1 = (Ok tt, s2)
    /\ (forall sub, c_subscriptions shared_ctables !! "u1" = Some sub ->
          live_bytes now "d1" (c_leases (cp s2)) + live_bytes now "d2" (c_leases (cp s2))
          = 2 * (sb_quota sub - sb_used sub)).
Proof.
  intros now provision.
  exists (provision "l1" "d1" "n1" (mkPg shared_ctables [] false ["c1"; "c2"; "c3"; "c4"])).2,
    (provision "l2" "d2" "n1" (provision "l1" "d1" "n1" (mkPg shared_ctables [] false ["c1"; "c2"; "c3"; "c4"])).2).2.
  split; [vm_compute; reflexivity|]. split; [vm_compute; reflexivity|].
  intros sub Hsub. assert (E : sub = shared_subscription).
  { vm_compute in Hsub. by injection Hsub. }
  rewrite E. vm_compute. reflexivity.
Qed.
