(* ===== verification/Vault.v ===== *)
(** * The vault

    src/internal/controlplane/crypto.go: values are sealed with AES-GCM under the
    configured key and stored with their nonce in front; hardware identifiers are
    stored as HMAC-SHA-256.  The cipher is a parameter. *)

From S2P Require Import Prelude GoStrings Base64 Sha Crypto.
From stdpp Require Import base strings list.
From Stdlib Require Import ZArith Lia.
Open Scope Z_scope.

(** AES-GCM with the key, the nonce and the additional data. *)
Class Aead := {
  aead_seal : string -> string -> string -> string -> string;      (* key, nonce, plaintext, data *)
  aead_open : string -> string -> string -> string -> option string   (* key, nonce, ciphertext, data *) }.
Class AeadLaws `{!Aead} : Prop := {
  aead_open_seal : forall key nonce plain data, aead_open key nonce (aead_seal key nonce plain data) data = Some plain }.

Record Vault := mkVault { va_key : string; va_hwidKey : string }.
(** [aes.NewCipher] takes keys of 16, 24 and 32 bytes. *)
Definition NewVault (encryptionKey hwidKey : string) : result Vault :=
  if existsb (Nat.eqb (String.length encryptionKey)) [16; 24; 32]%nat
  then Ok (mkVault encryptionKey hwidKey) else Err (LibErr "crypto/aes").

Definition NonceSize : nat := 12.

Section Vault.
Context `{Aead}.

(** [nonce]: the bytes that the random source has delivered. *)
Definition Encrypt (v : Vault) (nonce value aad : string) : string :=
  nonce +:+ aead_seal (va_key v) nonce value aad.
Definition Decrypt (v : Vault) (value aad : string) : result string :=
  if (String.length value <? NonceSize)%nat then Err (Msg "ciphertext too short") else
  match aead_open (va_key v) (stake NonceSize value) (sdrop NonceSize value) aad with
  | Some plain => Ok plain
  | None => Err (LibErr "crypto/cipher")
  end.
Definition HWID (v : Vault) (value : string) : string := hmac_sha256 (va_hwidKey v) value.

Lemma stake_split n a b : String.length a = n -> stake n (a +:+ b) = a /\ sdrop n (a +:+ b) = b.
Proof.
  revert n. induction a as [|c a IH]; intros n <-; [done|]. cbn.
  destruct (IH _ eq_refl) as [-> ->]. done.
Qed.

(** What was encrypted is decrypted with the same additional data. *)
Lemma Decrypt_Encrypt `{!AeadLaws} v nonce value aad :
  String.length nonce = NonceSize -> Decrypt v (Encrypt v nonce value aad) aad = Ok value.
Proof.
  intros Hn. unfold Decrypt, Encrypt. destruct (stake_split NonceSize nonce (aead_seal (va_key v) nonce value aad) Hn) as [-> ->].
  rewrite (proj2 (Nat.ltb_ge _ _)); [by rewrite aead_open_seal|]. rewrite <- Hn.
  generalize (aead_seal (va_key v) nonce value aad). intros sealed. clear.
  induction nonce as [|c nonce IH]; cbn; lia.
Qed.
End Vault.

(** The laws are satisfiable: the data and the plaintext in the clear. *)
Definition toy_aead : Aead := {|
  aead_seal key nonce plain data := data +:+ plain;
  aead_open key nonce sealed data := if HasPrefix sealed data then Some (TrimPrefix sealed data) else None |}.
Lemma toy_aead_laws : @AeadLaws toy_aead.
Proof.
  split. intros key nonce plain data. cbn [aead_seal aead_open toy_aead]. rewrite HasPrefix_app. f_equal.
  unfold TrimPrefix. rewrite HasPrefix_app. by destruct (stake_split (String.length data) data plain eq_refl) as [_ ->].
Qed.

(** ** Random bytes *)

(** [n] bytes of a supply; a short draw is filled with zeros. *)
Fixpoint zeros (n : nat) : string := match n with O => "" | S n => String (byte_of 0) (zeros n) end.
Definition fit (n : nat) (raw : string) : string := stake n (raw +:+ zeros n).
Lemma length_fit n raw : String.length (fit n raw) = n.
Proof.
  unfold fit. apply length_stake. assert (Hz : String.length (zeros n) = n) by (induction n; cbn; congruence).
  assert (Happ : forall a b, String.length (a +:+ b) = (String.length a + String.length b)%nat)
    by (intros a b; induction a as [|c a IH]; cbn; [done|by rewrite IH]).
  rewrite Happ, Hz. lia.
Qed.
