(* ===== verification/Web.v ===== *)
(** * Requests of the control plane's HTTP interface

    The helpers of src/internal/controlplane/app.go that its handlers share:
    [decode], [jsonResponse], [problem], the session of a request, and the
    statements that several handlers issue.  A request body is the JSON value it
    holds, a reply its status and value; the titles and details of a problem
    document, which are prose for the user, are left out. *)

From S2P Require Import Prelude GoStrings Json Pg.
From stdpp Require Import base gmap strings list.
From Stdlib Require Import ZArith Lia Ascii.
Open Scope Z_scope.

Record session := mkSession {
  ss_UserID : string; ss_CSRF : string; ss_Role : string; ss_AdminMFA : bool; ss_ExpiresAt : time }.

(** [Answer]: the value of [jsonResponse], [None] when it can not be encoded. *)
Inductive reply :=
  | Problem (status : Z) (kind : string)
  | Answer (status : Z) (value : option json)
  | NoContent.

Definition problem (status : Z) (kind : string) : reply := Problem status kind.
Definition jsonResponse (status : Z) (value : option json) : reply := Answer status value.
Definition status_of (r : reply) : Z :=
  match r with Problem status _ | Answer status _ => status | NoContent => 204 end.

Definition is_problem (r : result reply) : Prop := exists status kind, r = Ok (Problem status kind).

(** [recoverer]: what a panic answers. *)
Definition panicked : reply := problem 500 "internal".

(** [decode]: [None] is a body that is too long or does not begin with a JSON
    value. *)
Definition decode_request {A} (names : list string) (d : dec A) (zero : A) (body : option json) : option A :=
  match body with
  | Some j => if known_fields names j then d j zero else None
  | None => None
  end.

(** ** Text columns *)

(** PostgreSQL stores no NUL byte, and [length] counts characters. *)
Definition nul : ascii := byte_of 0.
Definition pg_text (s : string) : bool := negb (contains_byte s nul).
Fixpoint char_length (s : string) : Z :=
  match s with
  | "" => 0
  | String a s' => (if (128 <=? byte_val a) && (byte_val a <=? 191) then 0 else 1) + char_length s'
  end.

(** ** Statements *)

Section Statements.
Context {PU : PgUuid}.

(** [INSERT INTO audit_events]; [subject] is stored as text. *)
Definition insert_audit (actor action subject reason : string) (t : ctables) : result (unit * ctables) :=
  match canonical_uuid actor with
  | Err e => Err e
  | Ok actor =>
      if negb (pg_text subject && pg_text reason) then Err (SqlErr SqlFault) else
      match c_users t !! actor with
      | Some _ => Ok (tt, with_audit (fun l => l ++ [mkAuditRow actor action subject reason]) t)
      | None => Err (SqlErr SqlConstraint)
      end
  end.

(** [COALESCE((SELECT role FROM user_roles WHERE user_id=$1 LIMIT 1),'')]: without
    an order, the first row of the table. *)
Definition first_role (userID : string) (t : ctables) : result string :=
  result_map (fun user => match list_find (fun ur => ur.1 = user) (c_roles t) with
                          | Some (_, (_, role)) => role
                          | None => ""
                          end) (canonical_uuid userID).

(** The same with the roles in order of precedence. *)
Definition role_rank (role : string) : Z :=
  if String.eqb role "owner" then 1 else if String.eqb role "operator" then 2
  else if String.eqb role "support" then 3 else 4.
Fixpoint best_role (roles : list string) : string :=
  match roles with
  | [] => ""
  | [role] => role
  | role :: more => let other := best_role more in if role_rank role <=? role_rank other then role else other
  end.
Definition current_role (userID : string) (t : ctables) : result string :=
  result_map (fun user => best_role (snd <$> filter (fun ur => ur.1 = user) (c_roles t)))
    (canonical_uuid userID).

Definition select {A} (f : ctables -> result A) (t : ctables) : result (A * ctables) :=
  result_map (fun a => (a, t)) (f t).

Lemma select_ok {A} (f : ctables -> result A) t a t' : select f t = Ok (a, t') -> f t = Ok a /\ t' = t.
Proof. unfold select. destruct (f t); [|done]. by intros [= -> ->]. Qed.

Lemma stmt_select_ok {A} (f : ctables -> result A) s a s' :
  stmt (select f) s = (Ok a, s') -> f (cp s) = Ok a /\ cp s' = cp s.
Proof. intros (_ & _ & t & H & Ht)%stmt_ok. apply select_ok in H as [H ->]. done. Qed.
Lemma pool_select_ok {A} (f : ctables -> result A) s r s' :
  pool (select f) s = (r, s') -> cp s' = cp s /\ forall a, r = Ok a -> f (cp s) = Ok a.
Proof.
  unfold pool, select. destruct (next_outcome s), (f (cp s)) as [x|e]; cbn; intros [= <- <-];
    (split; [done|]); intros a Ha; by simplify_eq.
Qed.
Lemma insert_audit_ok actor action subject reason t a t' :
  insert_audit actor action subject reason t = Ok (a, t') -> exists row, t' = with_audit (fun l => l ++ [row]) t.
Proof.
  unfold insert_audit. destruct (canonical_uuid actor) as [id|]; [|done]. destruct (negb _); [done|].
  destruct (c_users t !! id); [|done]. intros [= _ <-]. eauto.
Qed.
End Statements.

Lemma char_length_nonneg s : 0 <= char_length s.
Proof. induction s as [|a s IH]; simpl; [lia|]. destruct (_ && _); lia. Qed.
Lemma char_length_le s : char_length s <= Z.of_nat (String.length s).
Proof. induction s as [|a s IH]; cbn [char_length String.length]; [lia|]. destruct (_ && _); lia. Qed.

(** Two Cyrillic letters are four bytes. *)
Example char_length_ex : char_length "ок" = 2 /\ String.length "ок" = 4%nat.
Proof. split; reflexivity. Qed.
