(* ===== verification/Session.v ===== *)
(** * Sessions and access control

    src/internal/controlplane/app.go ([readSession], [requireSession],
    [requireRole], [requireTerms], [issueSession], [logout], the login through
    Telegram) with ratelimit.go and the handlers of mfa.go.  PostgreSQL is the
    record of sessions, Redis a cache with expiring entries; both may fail at any
    operation. *)

From S2P Require Import Prelude GoStrings GoUrl Base64 Sha Json Mfa Vault Pg Hub Web.
From stdpp Require Import base gmap strings list.
From Stdlib Require Import ZArith Lia Ascii Sorting.Sorted.
Open Scope Z_scope.

(** ** Redis *)

Record redis := mkRedis {
  rd_values : gmap string (json * option time);    (* value and expiry *)
  rd_counts : gmap string (Z * option time);
  rd_outcomes : list outcome }.
Definition with_values (f : gmap string (json * option time) -> gmap string (json * option time)) (r : redis) : redis :=
  mkRedis (f (rd_values r)) (rd_counts r) (rd_outcomes r).

Definition redis_fault : error := LibErr "redis".
(** One command: it fails, or it takes effect and its reply may be lost. *)
Definition redis_do {A} (f : redis -> A * redis) : prog redis A := fun r =>
  let r1 := mkRedis (rd_values r) (rd_counts r) (tail (rd_outcomes r)) in
  match default Done (head (rd_outcomes r)) with
  | Failed => (Err redis_fault, r1)
  | Done => let (a, r2) := f r1 in (Ok a, r2)
  | Lost => let (_, r2) := f r1 in (Err redis_fault, r2)
  end.

Definition live {A} (now : time) (entry : A * option time) : bool :=
  match entry.2 with Some expiry => now <? expiry | None => true end.
Definition lookup_live {A} (now : time) (m : gmap string (A * option time)) (key : string) : option A :=
  match m !! key with Some entry => if live now entry then Some entry.1 else None | None => None end.

(** [Get], [Set], [Del], [GetDel]; a missing key is [redis.Nil]. *)
Definition redis_get (now : time) (key : string) : prog redis (option json) :=
  redis_do (fun r => (lookup_live now (rd_values r) key, r)).
(** An expiration that is not positive means none, but -1 keeps the old one. *)
Definition expiry_of (now ttl : Z) (old : option (json * option time)) : option time :=
  if 0 <? ttl then Some (now + ttl) else
  if ttl =? -1 then (e ← old; e.2) else None.
Definition redis_set (now : time) (key : string) (value : json) (ttl : Z) : prog redis unit :=
  redis_do (fun r => (tt, with_values (fun m => <[key := (value, expiry_of now ttl (m !! key))]> m) r)).
Definition redis_del (key : string) : prog redis unit :=
  redis_do (fun r => (tt, with_values (delete key) r)).
Definition redis_get_del (now : time) (key : string) : prog redis (option json) :=
  redis_do (fun r => (lookup_live now (rd_values r) key, with_values (delete key) r)).
(** The transaction of [rateLimit]: [Incr] and [ExpireNX]. *)
Definition redis_count (now : time) (key : string) (window : Z) : prog redis Z :=
  redis_do (fun r =>
    let '(count, expiry) := match rd_counts r !! key with
                            | Some entry => if live now entry then entry else (0, None)
                            | None => (0, None)
                            end in
    let expiry := match expiry with Some e => Some e | None => Some (now + window) end in
    (count + 1, mkRedis (rd_values r) (<[key := (count + 1, expiry)]> (rd_counts r)) (rd_outcomes r))).

(** ** The state of the program *)

Record web := mkWeb { wb_pg : pg; wb_redis : redis; wb_random : list string }.
#[export] Instance web_pg : Part pg web.
Proof. refine {| part := wb_pg; with_part s w := mkWeb s (wb_redis w) (wb_random w) |}; [done|by intros []]. Defined.
#[export] Instance web_redis : Part redis web.
Proof. refine {| part := wb_redis; with_part r w := mkWeb (wb_pg w) r (wb_random w) |}; [done|by intros []]. Defined.

(** [rand.Read] of [n] bytes: the next ones of a supply. *)
Definition random_bytes (n : nat) : prog web string := fun w =>
  match wb_random w with
  | raw :: more => (Ok (fit n raw), mkWeb (wb_pg w) (wb_redis w) more)
  | [] => (Err (LibErr "crypto/rand"), w)
  end.
Definition RandomToken (n : nat) : prog web string :=
  let* raw := random_bytes n in ret (Encode raw).
(** [x, _ := RandomToken(n)] *)
Definition token_or_empty (n : nat) : prog web string :=
  let* r := try (RandomToken n) in ret (match r with Ok token => token | Err _ => "" end).

(** What the handlers read of a request. *)
Record request := mkRequest {
  rq_method : string; rq_session : option string; rq_csrf_cookie : option string; rq_csrf_header : string;
  rq_forwarded : string; rq_remote : string }.

(** What they use of the configuration. *)
Record settings := mkSettings { st_SessionSecret : string; st_DevAuth : bool; st_DevSubject : string }.

(** ** Sessions *)

Definition sessionTTL : Z := 30 * 24 * hour.

Definition encode_session (s : session) : option json :=
  expires ← jtime (ss_ExpiresAt s);
  Some (JObj [("UserID", JStr (ss_UserID s)); ("CSRF", JStr (ss_CSRF s)); ("Role", JStr (ss_Role s));
              ("AdminMFA", JBool (ss_AdminMFA s)); ("ExpiresAt", expires)]).
Definition decode_session (j : json) : option session :=
  dec_struct (fun m old =>
    user ← field "UserID" dec_string m (ss_UserID old);
    csrf ← field "CSRF" dec_string m (ss_CSRF old);
    role ← field "Role" dec_string m (ss_Role old);
    mfa ← field "AdminMFA" dec_bool m (ss_AdminMFA old);
    expires ← field "ExpiresAt" dec_time m (ss_ExpiresAt old);
    Some (mkSession user csrf role mfa expires)) j (mkSession "" "" "" false zero_time).

Definition sessionRedisKey (secret token : string) : string := "session:" +:+ Encode (hmac_sha256 secret token).

Section Session.
Context {PU : PgUuid} (cfg : settings).

(** The row of an open session of an active user. *)
Definition open_session (now : time) (hash : string) (t : ctables) (row : session_row) : bool :=
  String.eqb (se_token_hash row) hash && match se_revoked_at row with None => true | Some _ => false end
  && (now <? se_expires_at row)
  && match c_users t !! se_user row with Some u => String.eqb (us_status u) "active" | None => false end.
Definition select_session (now : time) (hash : string) (t : ctables) : result (string * time * string) :=
  match list_find (fun row => open_session now hash t row = true) (c_sessions t) with
  | Some (_, row) => Ok (se_user row, se_expires_at row,
                         best_role (snd <$> filter (fun ur => ur.1 = se_user row) (c_roles t)))
  | None => Err (SqlErr SqlNoRows)
  end.

(** The second half of [readSession]: the cache is rebuilt from the database,
    without the second factor. *)
Definition restore_session (now : time) (req : request) (token : string) : prog web session :=
  match rq_csrf_cookie req with
  | None => fail (Msg "session cache missing and CSRF cookie unavailable")
  | Some csrf =>
      if String.eqb csrf "" then fail (Msg "session cache missing and CSRF cookie unavailable") else
      let* row := try (on (pool (select (select_session now (sha256 token))))) in
      match row with
      | Err _ => fail (Msg "session is expired, revoked or unknown")
      | Ok (user, expires, role) =>
          let s := mkSession user csrf role false expires in
          match encode_session s with
          | None => fail (LibErr "json")
          | Some raw =>
              on (redis_set now (sessionRedisKey (st_SessionSecret cfg) token) raw (TimeSub expires now)) ;;;
              ret s
          end
      end
  end.
Definition readSession (now : time) (req : request) : prog web session :=
  match rq_session req with
  | None => fail (LibErr "net/http")
  | Some token =>
      let key := sessionRedisKey (st_SessionSecret cfg) token in
      let* cached := on (redis_get now key) in
      match cached with
      | None => restore_session now req token
      | Some raw =>
          match decode_session raw with
          | Some s => if now <? ss_ExpiresAt s then ret s else
                      let* _ := try (on (redis_del key)) in restore_session now req token
          | None => let* _ := try (on (redis_del key)) in restore_session now req token
          end
      end
  end.

(** ** Middleware *)

Definition select_active (userID : string) (t : ctables) : result bool :=
  match canonical_uuid userID with
  | Err e => Err e
  | Ok user => match c_users t !! user with
               | Some u => Ok (String.eqb (us_status u) "active")
               | None => Err (SqlErr SqlNoRows)
               end
  end.
Definition is_safe_method (m : string) : bool := String.eqb m "GET" || String.eqb m "HEAD" || String.eqb m "OPTIONS".

Definition requireSession (now : time) (req : request) (next : session -> prog web reply) : prog web reply :=
  let* s := try (readSession now req) in
  match s with
  | Err _ => ret (problem 401 "unauthorized")
  | Ok s =>
      let* active := try (on (pool (select (select_active (ss_UserID s))))) in
      match active with
      | Ok true =>
          if negb (is_safe_method (rq_method req)) && negb (String.eqb (rq_csrf_header req) (ss_CSRF s))
          then ret (problem 403 "csrf") else next s
      | _ => ret (problem 401 "account-blocked")
      end
  end.

Definition requireRole (roles : list string) (s : session) (next : prog web reply) : prog web reply :=
  let* role := try (on (pool (select (current_role (ss_UserID s))))) in
  let currentRole := match role with Ok r => r | Err _ => "" end in
  if existsb (String.eqb currentRole) roles then
    if negb (ss_AdminMFA s) && negb (st_DevAuth cfg) then ret (problem 403 "mfa-required") else next
  else ret (problem 403 "forbidden").

Definition currentTermsVersion : string := "2026-08-09".
Definition select_terms (userID : string) (t : ctables) : result bool :=
  match canonical_uuid userID with
  | Err e => Err e
  | Ok user => match c_users t !! user with
               | Some u => Ok (String.eqb (default "" (us_terms u)) currentTermsVersion)
               | None => Err (SqlErr SqlNoRows)
               end
  end.
Definition requireTerms (s : session) (next : prog web reply) : prog web reply :=
  let* accepted := try (on (pool (select (select_terms (ss_UserID s))))) in
  match accepted with
  | Ok true => next
  | _ => ret (problem 428 "terms-required")
  end.
Definition accept_terms (userID : string) (t : ctables) : result (unit * ctables) :=
  match canonical_uuid userID with
  | Err e => Err e
  | Ok user => Ok (tt, with_users (alter (fun u => mkUserRow (us_subject u) (us_status u) (Some currentTermsVersion)) user) t)
  end.
Definition acceptTerms (s : session) : prog web reply :=
  let* r := try (on (pool (accept_terms (ss_UserID s)))) in
  ret (match r with Ok _ => NoContent | Err _ => problem 500 "terms" end).

(** ** Routes

    The routes of [Handler] below /api/v1/admin that need a role of their own. *)
Inductive admin_endpoint :=
  | Users | UserStatus | WalletAdjust | Admins | SetRole | RemoveRole | Nodes | Alerts | Audit | LedgerList
  | EnrollNode | WalletCredit | NodeCommands.
Definition roles_for (e : admin_endpoint) : list string :=
  match e with
  | Users | UserStatus | WalletAdjust | WalletCredit => ["owner"; "support"]
  | Admins | SetRole | RemoveRole => ["owner"]
  | Nodes | Alerts | EnrollNode | NodeCommands => ["owner"; "operator"]
  | Audit => ["owner"; "auditor"]
  | LedgerList => ["owner"; "support"; "auditor"]
  end.
Definition admin_roles : list string := ["owner"; "operator"; "support"; "auditor"].
Definition admin_route (e : admin_endpoint) (now : time) (req : request) (handler : session -> prog web reply)
    : prog web reply :=
  requireSession now req (fun s => requireRole admin_roles s (requireRole (roles_for e) s (handler s))).
(** The routes of a user's own devices and subscription. *)
Definition user_route (now : time) (req : request) (handler : session -> prog web reply) : prog web reply :=
  requireSession now req (fun s => requireTerms s (handler s)).

(** ** Lemmas *)

#[local] Opaque sha256 hmac_sha256 Encode.

Definition tables_of (w : web) : ctables := cp (wb_pg w).

(** How a request comes to have the session [s]: from the cache, or from the
    database, then without the second factor. *)
Definition restored (now : time) (req : request) (t : ctables) (s : session) : Prop :=
  exists token csrf row, rq_session req = Some token /\ rq_csrf_cookie req = Some csrf /\ csrf <> ""
    /\ row ∈ c_sessions t /\ open_session now (sha256 token) t row = true
    /\ ss_UserID s = se_user row /\ ss_CSRF s = csrf /\ ss_AdminMFA s = false /\ ss_ExpiresAt s = se_expires_at row.
Inductive authenticated (now : time) (req : request) (w : web) (s : session) : Prop :=
  | Cached token raw :
      rq_session req = Some token ->
      lookup_live now (rd_values (wb_redis w)) (sessionRedisKey (st_SessionSecret cfg) token) = Some raw ->
      decode_session raw = Some s -> now < ss_ExpiresAt s -> authenticated now req w s
  | Restored : restored now req (tables_of w) s -> authenticated now req w s.

Lemma same_tables_redis {A} (m : prog redis A) : keeps (same tables_of) (on m : prog web A).
Proof. intros w. unfold on, same, tables_of. cbn. by destruct (m (wb_redis w)). Qed.
Lemma same_tables_select {A} (f : ctables -> result A) : keeps (same tables_of) (on (pool (select f)) : prog web A).
Proof.
  intros w. unfold on, same, tables_of. cbn. destruct (pool (select f) (wb_pg w)) as [r s] eqn:E. cbn.
  by apply pool_select_ok in E as [-> _].
Qed.
Hint Resolve same_tables_redis same_tables_select : risevpn.

Lemma restore_session_tables now req token : keeps (same tables_of) (restore_session now req token).
Proof. unfold restore_session. keep. Qed.
Lemma readSession_tables now req : keeps (same tables_of) (readSession now req).
Proof. pose proof (restore_session_tables now req). unfold readSession. keep. Qed.

Lemma select_session_ok now hash t user expires role :
  select_session now hash t = Ok (user, expires, role) ->
  exists row, row ∈ c_sessions t /\ open_session now hash t row = true /\ user = se_user row /\ expires = se_expires_at row.
Proof.
  unfold select_session. destruct (list_find _ _) as [[i row]|] eqn:E; [|done]. intros [= <- <- _].
  apply list_find_Some in E as (Hi & Ho & _). exists row. split_and!; [by eapply list_elem_of_lookup_2|done..].
Qed.
Lemma on_pool_select {A} (f : ctables -> result A) (w : web) r w1 :
  (on (pool (select f)) : prog web A) w = (r, w1) ->
  tables_of w1 = tables_of w /\ wb_redis w1 = wb_redis w /\ forall a, r = Ok a -> f (tables_of w) = Ok a.
Proof.
  unfold on, tables_of. cbn. destruct (pool (select f) (wb_pg w)) as [r0 s0] eqn:E. intros [= <- <-]. cbn.
  apply pool_select_ok in E as [-> Ha]. done.
Qed.

Lemma restore_session_ok now req token w s w1 :
  rq_session req = Some token -> restore_session now req token w = (Ok s, w1) -> restored now req (tables_of w) s.
Proof.
  intros Ht. unfold restore_session. destruct (rq_csrf_cookie req) as [csrf|] eqn:Ec; [|done].
  destruct (String.eqb_spec csrf ""); [done|]. unfold bind at 1, try.
  destruct (on (pool (select _)) w) as [row w2] eqn:E. apply on_pool_select in E as (_ & _ & Hrow). cbn [ret].
  destruct row as [[[user expires] role]|e]; [|done]. specialize (Hrow _ eq_refl).
  destruct (encode_session _); [|done]. unfold bind. destruct (on _ w2) as [[u|e] w3]; [|done]. intros [= <- _].
  apply select_session_ok in Hrow as (row & Hin & Hopen & -> & ->). by exists token, csrf, row.
Qed.
Lemma readSession_ok now req w s w1 : readSession now req w = (Ok s, w1) -> authenticated now req w s.
Proof.
  unfold readSession. destruct (rq_session req) as [token|] eqn:Et; [|done].
  set (key := sessionRedisKey _ token). unfold bind at 1.
  destruct (on (redis_get now key) w) as [[cached|e] w2] eqn:Eg; [|done].
  assert (Hget : tables_of w2 = tables_of w /\ cached = lookup_live now (rd_values (wb_redis w)) key).
  { unfold on, redis_get, redis_do in Eg. cbn in Eg. destruct (default Done _); [|done|done]. by injection Eg as <- <-. }
  destruct Hget as [Hw2 Hc].
  assert (Hrest : forall w3, tables_of w3 = tables_of w -> restore_session now req token w3 = (Ok s, w1) -> authenticated now req w s).
  { intros w3 Hw3 Hr. apply restore_session_ok in Hr; [|done]. apply Restored. by rewrite <- Hw3. }
  assert (Hdel : forall s0, (let* _ := try (on (redis_del key)) in restore_session now req token) w2 = (Ok s0, w1) ->
    exists w3, tables_of w3 = tables_of w /\ restore_session now req token w3 = (Ok s0, w1)).
  { intros s0 Hb. unfold bind, try in Hb. pose proof (same_tables_redis (redis_del key) w2) as Hd.
    destruct (on (redis_del key) w2) as [r w3]. exists w3. split; [|done]. unfold same in Hd. cbn in Hd. congruence. }
  destruct cached as [raw|]; [|by apply Hrest].
  destruct (decode_session raw) as [s0|] eqn:Ed; [|intros (w3 & ? & ?)%Hdel; by eapply Hrest].
  destruct (Z.ltb_spec now (ss_ExpiresAt s0)); [|intros (w3 & ? & ?)%Hdel; by eapply Hrest].
  intros [= <- _]. by eapply Cached.
Qed.

(** A refusal that leaves the tables as they are. *)
Definition refused_with (statuses : list Z) (w : web) (out : result reply * web) : Prop :=
  exists status kind, out.1 = Ok (Problem status kind) /\ status ∈ statuses /\ tables_of out.2 = tables_of w.

Lemma requireSession_spec now req next w out :
  requireSession now req next w = out ->
  refused_with [401; 403] w out
  \/ exists s w1, authenticated now req w s /\ select_active (ss_UserID s) (tables_of w) = Ok true
       /\ (is_safe_method (rq_method req) = true \/ rq_csrf_header req = ss_CSRF s)
       /\ tables_of w1 = tables_of w /\ out = next s w1.
Proof.
  unfold requireSession, bind at 1, try. pose proof (readSession_tables now req w) as Hk.
  destruct (readSession now req w) as [[s|e] w1] eqn:E; unfold same in Hk; cbn [fst snd] in Hk.
  2: { intros <-. left. eexists _, _. split; [reflexivity|]. split; [set_solver|exact Hk]. }
  apply readSession_ok in E. unfold bind at 1, try.
  destruct (on (pool (select (select_active (ss_UserID s)))) w1) as [active w2] eqn:Ea.
  apply on_pool_select in Ea as (Hw2 & _ & Hact). rewrite Hk in *. cbn [ret].
  intros <-. destruct active as [[]|e]; [|left; eexists _, _; split; [reflexivity|]; split; [set_solver|exact Hw2]..].
  specialize (Hact _ eq_refl). destruct (is_safe_method (rq_method req)) eqn:Em; cbn [negb andb].
  { right. exists s, w2. split_and!; auto. }
  destruct (String.eqb_spec (rq_csrf_header req) (ss_CSRF s)) as [Hc|Hc]; cbn [negb].
  { right. exists s, w2. split_and!; auto. }
  left. eexists _, _. split; [reflexivity|]. split; [set_solver|exact Hw2].
Qed.

Lemma requireRole_spec roles s next w out :
  "" ∉ roles -> requireRole roles s next w = out ->
  refused_with [403] w out
  \/ exists role w1, current_role (ss_UserID s) (tables_of w) = Ok role /\ role ∈ roles
       /\ (ss_AdminMFA s = true \/ st_DevAuth cfg = true) /\ tables_of w1 = tables_of w /\ out = next w1.
Proof.
  intros Hne. unfold requireRole, bind at 1, try.
  destruct (on (pool (select (current_role (ss_UserID s)))) w) as [role w1] eqn:E.
  apply on_pool_select in E as (Hw1 & _ & Hrole). cbn [ret]. intros <-.
  assert (Hno : forall kind, refused_with [403] w (ret (problem 403 kind) w1)).
  { intros kind. eexists _, _. split; [reflexivity|]. split; [set_solver|exact Hw1]. }
  destruct (existsb _ roles) eqn:Ex; [|by left].
  apply existsb_exists in Ex as (r & Hr%list_elem_of_In & Heq%String.eqb_eq).
  destruct role as [role|e]; [|by rewrite <- Heq in Hr]. cbn in Heq. subst r. specialize (Hrole _ eq_refl).
  destruct (ss_AdminMFA s) eqn:Em, (st_DevAuth cfg) eqn:Ed; cbn [negb andb]; [right|right|right|by left];
    exists role, w1; split_and!; auto.
Qed.
(** The same without faults, for a session of the cache. *)
Lemma on_pool_select_run {A} (f : ctables -> result A) (w : web) a :
  outcomes (wb_pg w) = [] -> f (tables_of w) = Ok a ->
  exists w1, (on (pool (select f)) : prog web A) w = (Ok a, w1) /\ tables_of w1 = tables_of w /\ outcomes (wb_pg w1) = [].
Proof.
  intros Ho Hf. unfold on, pool, select, tables_of in *. cbn. unfold next_outcome. rewrite Ho, Hf. cbn.
  eexists. split; [reflexivity|]. cbn. by rewrite Ho.
Qed.
Lemma readSession_run now req w token raw s :
  rd_outcomes (wb_redis w) = [] -> rq_session req = Some token ->
  lookup_live now (rd_values (wb_redis w)) (sessionRedisKey (st_SessionSecret cfg) token) = Some raw ->
  decode_session raw = Some s -> now < ss_ExpiresAt s ->
  exists w1, readSession now req w = (Ok s, w1) /\ wb_pg w1 = wb_pg w.
Proof.
  intros Ho Ht Hl Hd Hx. unfold readSession. rewrite Ht. revert Hl. generalize (sessionRedisKey (st_SessionSecret cfg) token).
  intros key Hl. unfold bind, on, redis_get, redis_do. cbn. rewrite Ho. cbn.
  rewrite Hl, Hd, (proj2 (Z.ltb_lt _ _) Hx). by eexists.
Qed.
Lemma requireRole_run roles s next w role :
  outcomes (wb_pg w) = [] -> current_role (ss_UserID s) (tables_of w) = Ok role -> role ∈ roles -> ss_AdminMFA s = true \/ st_DevAuth cfg = true ->
  exists w1, requireRole roles s next w = next w1 /\ tables_of w1 = tables_of w /\ outcomes (wb_pg w1) = [].
Proof.
  intros Ho Hr Hin Hm. destruct (on_pool_select_run _ w _ Ho Hr) as (w1 & E & Hw1 & Ho1). exists w1.
  split; [|done]. unfold requireRole, bind, try. rewrite E.
  replace (existsb _ _) with true; [by destruct Hm as [-> | ->]; rewrite ?andb_false_r|]. symmetry. apply existsb_exists. exists role.
  split; [by apply list_elem_of_In|apply String.eqb_refl].
Qed.
Lemma roles_for_nonempty e : "" ∉ roles_for e.
Proof. destruct e; set_solver. Qed.
Lemma roles_for_admin e : roles_for e ⊆ admin_roles.
Proof. unfold admin_roles. destruct e; set_solver. Qed.

(** A request that every check lets through reaches the handler. *)
Record entitled (e : admin_endpoint) (now : time) (req : request) (w : web) (s : session) : Prop := {
  en_session : exists token raw, rq_session req = Some token
    /\ lookup_live now (rd_values (wb_redis w)) (sessionRedisKey (st_SessionSecret cfg) token) = Some raw
    /\ decode_session raw = Some s /\ now < ss_ExpiresAt s;
  en_active : select_active (ss_UserID s) (tables_of w) = Ok true;
  en_role : exists role, current_role (ss_UserID s) (tables_of w) = Ok role /\ role ∈ roles_for e;
  en_csrf : is_safe_method (rq_method req) = true \/ rq_csrf_header req = ss_CSRF s;
  en_mfa : ss_AdminMFA s = true \/ st_DevAuth cfg = true }.
Lemma admin_route_run e now req handler w s :
  outcomes (wb_pg w) = [] -> rd_outcomes (wb_redis w) = [] -> entitled e now req w s ->
  exists w1, admin_route e now req handler w = handler s w1 /\ tables_of w1 = tables_of w.
Proof.
  intros Ho Hro [(token & raw & Ht & Hl & Hd & Hx) Hact (role & Hrole & Hin) Hcsrf Hmfa].
  destruct (readSession_run now req w token raw s) as (w1 & E1 & Hpg); [done..|].
  assert (Hw1 : tables_of w1 = tables_of w) by (unfold tables_of; by rewrite Hpg).
  rewrite <- Hw1 in Hact, Hrole. rewrite <- Hpg in Ho.
  destruct (on_pool_select_run _ w1 _ Ho Hact) as (w2 & E2 & Hw2 & Ho2). rewrite <- Hw2 in Hrole.
  destruct (requireRole_run admin_roles s (requireRole (roles_for e) s (handler s)) w2 role) as (w3 & E3 & Hw3 & Ho3);
    [done|done|by apply (roles_for_admin e)|done|]. rewrite <- Hw3 in Hrole.
  destruct (requireRole_run (roles_for e) s (handler s) w3 role) as (w4 & E4 & Hw4 & _); [done..|].
  exists w4. split; [|congruence]. unfold admin_route, requireSession, bind at 1, try. rewrite E1.
  unfold bind at 1, try. rewrite E2.
  destruct Hcsrf as [-> | ->]; [cbn [negb andb]|rewrite String.eqb_refl, andb_false_r]; by rewrite E3, E4.
Qed.
End Session.


(** ** Login and logout *)

Section Login.
Context {PU : PgUuid} (cfg : settings).

(** The text of an inet column. *)
Context (valid_inet : string -> bool).

(** [strings.Split(s, ",")[0]] *)
Fixpoint before_comma (s : string) : string :=
  match s with
  | "" => ""
  | String c s' => if Ascii.eqb c ","%char then "" else String c (before_comma s')
  end.
Definition clientIP (req : request) : string :=
  let forwarded := TrimSpace (before_comma (rq_forwarded req)) in
  if negb (String.eqb forwarded "") then forwarded else
  match SplitHostPort (rq_remote req) with Some (host, _) => host | None => rq_remote req end.

Definition insert_session (userID hash ip : string) (expires : time) (t : ctables) : result (unit * ctables) :=
  match canonical_uuid userID with
  | Err e => Err e
  | Ok user =>
      if negb (String.eqb ip "") && negb (valid_inet ip) then Err (SqlErr SqlFault) else
      if existsb (fun row => String.eqb (se_token_hash row) hash) (c_sessions t) then Err (SqlErr SqlConstraint) else
      match c_users t !! user with
      | Some _ => Ok (tt, with_sessions (fun l => l ++ [mkSessionRow user hash expires None]) t)
      | None => Err (SqlErr SqlConstraint)
      end
  end.

(** The cookies that a login sets: the session's and the CSRF token's. *)
Definition cookies : Type := string * string.

Definition issueSession (now : time) (req : request) (userID role : string) (adminMFA : bool) : prog web cookies :=
  let* token := RandomToken 32 in
  let* csrf := token_or_empty 24 in
  let s := mkSession userID csrf role adminMFA (TimeAdd now sessionTTL) in
  let raw := default JNull (encode_session s) in
  let key := sessionRedisKey (st_SessionSecret cfg) token in
  on (redis_set now key raw sessionTTL) ;;;
  let* stored := try (on (pool (insert_session userID (sha256 token) (clientIP req) (ss_ExpiresAt s)))) in
  match stored with
  | Err e => let* _ := try (on (redis_del key)) in fail e
  | Ok _ => ret (token, csrf)
  end.

Definition revoke_session (now : time) (hash : string) (t : ctables) : result (unit * ctables) :=
  Ok (tt, with_sessions (fmap (fun row =>
        if String.eqb (se_token_hash row) hash && match se_revoked_at row with None => true | Some _ => false end
        then mkSessionRow (se_user row) (se_token_hash row) (se_expires_at row) (Some now) else row)) t).
Definition logout (now : time) (req : request) : prog web reply :=
  match rq_session req with
  | Some token =>
      let* _ := try (on (redis_del (sessionRedisKey (st_SessionSecret cfg) token))) in
      let* _ := try (on (pool (revoke_session now (sha256 token)))) in
      ret NoContent
  | None => ret NoContent
  end.

(** The claims of an id token. *)
Record claims := mkClaims {
  cl_subject : string; cl_name : string; cl_username : string; cl_picture : string; cl_nonce : string }.
Definition dec_claims (payload : json) : option claims :=
  dec_struct (fun m old =>
    subject ← field "sub" dec_string m (cl_subject old);
    name ← field "name" dec_string m (cl_name old);
    username ← field "preferred_username" dec_string m (cl_username old);
    picture ← field "picture" dec_string m (cl_picture old);
    nonce ← field "nonce" dec_string m (cl_nonce old);
    Some (mkClaims subject name username picture nonce)) payload (mkClaims "" "" "" "" "").
(** What the provider makes of an authorization code with a verifier, a response
    in which the id token may be missing, and the payload of an id token whose
    signature and audience hold. *)
Context (exchange : string -> string -> option (option string)) (verify : string -> option json).

(** [INSERT INTO users ... ON CONFLICT(telegram_subject) DO UPDATE ... RETURNING id] *)
Definition user_of_subject (subject : string) (t : ctables) : option string :=
  fst <$> head (filter (fun '(_, u) => us_subject u = subject) (map_to_list (c_users t))).
Definition upsert_user (id : string) (c : claims) (t : ctables) : result (string * ctables) :=
  let subject := cl_subject c in
  if negb (forallb pg_text [subject; cl_name c; cl_username c; cl_picture c]) then Err (SqlErr SqlFault) else
  match user_of_subject subject t with
  | Some user => Ok (user, t)
  | None => match c_users t !! id with
            | Some _ => Err (SqlErr SqlConstraint)
            | None => Ok (id, with_users (insert id (mkUserRow subject "active" None)) t)
            end
  end.
(** [ON CONFLICT DO NOTHING] *)
Definition new_wallet (userID : string) (t : ctables) : result (unit * ctables) :=
  match canonical_uuid userID with
  | Err e => Err e
  | Ok user =>
      match c_wallets t !! user, c_users t !! user with
      | Some _, _ => Ok (tt, t)
      | None, Some _ => Ok (tt, with_wallets (insert user 0) t)
      | None, None => Err (SqlErr SqlConstraint)
      end
  end.
Definition new_subscription (userID : string) (t : ctables) : result (unit * ctables) :=
  match canonical_uuid userID with
  | Err e => Err e
  | Ok user =>
      match c_subscriptions t !! user, c_users t !! user, c_plans t !! "TRIAL" with
      | Some _, _, _ => Ok (tt, t)
      | None, Some _, Some _ =>
          Ok (tt, with_subscriptions (insert user (mkSubscriptionRow "TRIAL" None "pending_trial" None None None 0 0)) t)
      | _, _, _ => Err (SqlErr SqlConstraint)
      end
  end.

(** A redirect to the application with the cookies of the new session. *)
Inductive login := LoggedIn (c : cookies) | Refused (r : reply) | SentTo (state nonce challenge : string).

(** [SELECT u.id,COALESCE((SELECT role ... ORDER BY role LIMIT 1),'')]: the first
    role in alphabetical order. *)
Definition first_alphabetical (roles : list string) : string :=
  foldr (fun r acc => if String.eqb acc "" then r else if String.leb r acc then r else acc) "" roles.
Definition select_dev_user (t : ctables) : result (string * string) :=
  match user_of_subject (st_DevSubject cfg) t with
  | Some user => Ok (user, first_alphabetical (snd <$> filter (fun ur => ur.1 = user) (c_roles t)))
  | None => Err (SqlErr SqlNoRows)
  end.

Definition telegramStart (now : time) (req : request) : prog web login :=
  if st_DevAuth cfg then
    let* row := try (on (pool (select select_dev_user))) in
    match row with
    | Err _ => ret (Refused (problem 500 "dev-auth"))
    | Ok (user, role) =>
        let* c := try (issueSession now req user role true) in
        ret (match c with Ok c => LoggedIn c | Err _ => Refused (problem 500 "dev-auth") end)
    end
  else
    let* state := token_or_empty 24 in
    let* nonce := token_or_empty 24 in
    let* verifier := token_or_empty 32 in
    let* _ := try (on (redis_set now ("oidc:" +:+ state)
                         (JObj [("nonce", JStr nonce); ("verifier", JStr verifier)]) (10 * minute))) in
    ret (SentTo state nonce (Encode (sha256 verifier))).

(** [pending["key"]] of the decoded map, "" when it is missing. *)
Definition pending_value (j : json) (key : string) : string :=
  match j with
  | JObj members => match list_find (fun kv => kv.1 = key) (rev members) with Some (_, (_, JStr s)) => s | _ => "" end
  | _ => ""
  end.

Definition telegramCallback (now : time) (req : request) (state code : string) : prog web login :=
  let* raw := try (on (redis_get_del now ("oidc:" +:+ state))) in
  match raw with
  | Ok (Some pending) =>
      match exchange code (pending_value pending "verifier") with
      | None => ret (Refused (problem 401 "oidc-code"))
      | Some None => ret (Refused (problem 401 "oidc-token"))
      | Some (Some idToken) =>
          match verify idToken with
          | None => ret (Refused (problem 401 "oidc-token"))
          | Some payload =>
          match dec_claims payload with
          | None => ret (Refused (problem 401 "oidc-nonce"))
          | Some c =>
              if negb (String.eqb (cl_nonce c) (pending_value pending "nonce")) then ret (Refused (problem 401 "oidc-nonce")) else
              let* id := on random_uuid in
              let* user := try (on (pool (upsert_user id c))) in
              match user with
              | Err _ => ret (Refused (problem 500 "login"))
              | Ok user =>
                  let* _ := try (on (pool (new_wallet user))) in
                  let* _ := try (on (pool (new_subscription user))) in
                  let* role := try (on (pool (select (current_role user)))) in
                  let role := match role with Ok r => r | Err _ => "" end in
                  let* c := try (issueSession now req user role false) in
                  ret (match c with Ok c => LoggedIn c | Err _ => Refused (problem 500 "login") end)
              end
          end
          end
      end
  | _ => ret (Refused (problem 400 "oidc-state"))
  end.

(** ** The second factor *)

Context `{Aead} `{UpperTables} (vault : Vault).

Definition totp_aad (userID : string) : string := "admin-totp:" +:+ userID.
Definition select_totp (userID : string) (t : ctables) : result totp_row :=
  match canonical_uuid userID with
  | Err e => Err e
  | Ok user => match c_totp t !! user with Some row => Ok row | None => Err (SqlErr SqlNoRows) end
  end.
Definition adminMFAStatus (s : session) : prog web reply :=
  if String.eqb (ss_Role s) "" then ret (problem 403 "forbidden") else
  let* row := try (on (pool (select (select_totp (ss_UserID s))))) in
  let enabled := match row with Ok row => tp_enabled row | Err _ => false end in
  ret (jsonResponse 200 (Some (JObj [("enabled", JBool enabled); ("verified", JBool (ss_AdminMFA s || st_DevAuth cfg))]))).

(** Whether a row was inserted. *)
Definition insert_totp (userID secret : string) (t : ctables) : result (bool * ctables) :=
  match canonical_uuid userID with
  | Err e => Err e
  | Ok user =>
      match c_totp t !! user, c_users t !! user with
      | Some _, _ => Ok (false, t)
      | None, Some _ => Ok (true, with_totp (insert user (mkTotpRow secret false None)) t)
      | None, None => Err (SqlErr SqlConstraint)
      end
  end.
Definition otpauthUri (userID secret : string) : string :=
  "otpauth://totp/" +:+ QueryEscape ("RiseVPN:" +:+ userID) +:+ "?secret=" +:+ secret +:+ "&issuer=" +:+ QueryEscape "RiseVPN"
  +:+ "&algorithm=SHA1&digits=6&period=30".
Definition adminMFASetup (s : session) : prog web reply :=
  if String.eqb (ss_Role s) "" then ret (problem 403 "forbidden") else
  let* secretBytes := try (random_bytes 20) in
  match secretBytes with
  | Err _ => ret (problem 500 "mfa-random")
  | Ok secretBytes =>
      let secret := Base32.EncodeToString secretBytes in
      let* nonce := try (random_bytes NonceSize) in
      match nonce with
      | Err _ => ret (problem 500 "mfa-encrypt")
      | Ok nonce =>
          let* r := try (on (pool (insert_totp (ss_UserID s) (Encrypt vault nonce secret (totp_aad (ss_UserID s)))))) in
          ret (match r with
               | Err _ => problem 500 "mfa-store"
               | Ok false => problem 409 "mfa-exists"
               | Ok true => jsonResponse 201 (Some (JObj [("otpauthUri", JStr (otpauthUri (ss_UserID s) secret)); ("secret", JStr secret)]))
               end)
      end
  end.

Definition enable_totp (now : time) (userID : string) (t : ctables) : result (unit * ctables) :=
  match canonical_uuid userID with
  | Err e => Err e
  | Ok user => Ok (tt, with_totp (alter (fun row => mkTotpRow (tp_secret row) true (Some now)) user) t)
  end.
Definition updateCurrentSession (now : time) (req : request) (s : session) : prog web unit :=
  match rq_session req, encode_session s with
  | Some token, Some raw =>
      on (redis_set now (sessionRedisKey (st_SessionSecret cfg) token) raw (TimeSub (ss_ExpiresAt s) now))
  | None, _ => fail (LibErr "net/http")
  | _, None => fail (LibErr "json")
  end.
(** The body's [code]; unknown fields are allowed here. *)
Definition decode_code (body : option json) : option string :=
  j ← body; dec_struct (fun m old => field "code" dec_string m old) j "".
Definition with_mfa (s : session) : session :=
  mkSession (ss_UserID s) (ss_CSRF s) (ss_Role s) true (ss_ExpiresAt s).
Definition adminMFAVerify (now : time) (req : request) (s : session) (body : option json) : prog web reply :=
  if String.eqb (ss_Role s) "" then ret (problem 403 "forbidden") else
  match decode_code body with
  | None => ret (problem 400 "mfa-code")
  | Some code =>
      let* row := try (on (pool (select (select_totp (ss_UserID s))))) in
      match row with
      | Err _ => ret (problem 409 "mfa-setup")
      | Ok row =>
          let valid := match Decrypt vault (tp_secret row) (totp_aad (ss_UserID s)) with
                       | Ok secret => validTOTP secret (TrimSpace code) now
                       | Err _ => false
                       end in
          if negb valid then ret (problem 401 "mfa-code") else
          let* enabled := try (on (pool (enable_totp now (ss_UserID s)))) in
          match enabled with
          | Err _ => ret (problem 500 "mfa-store")
          | Ok _ =>
              let* updated := try (updateCurrentSession now req (with_mfa s)) in
              ret (match updated with
                   | Ok _ => jsonResponse 200 (Some (JObj [("verified", JBool true)]))
                   | Err _ => problem 500 "mfa-session"
                   end)
          end
      end
  end.

(** ** The rate limiter *)

Definition nul_byte : string := String (byte_of 0) "".
Definition rate_key (scope ip : string) : string :=
  "rate:" +:+ scope +:+ ":" +:+ Encode (hmac_sha256 (st_SessionSecret cfg) (scope +:+ nul_byte +:+ ip)).
Definition rateLimit (scope : string) (limit window : Z) (now : time) (req : request) (next : prog web reply)
    : prog web reply :=
  let* count := try (on (redis_count now (rate_key scope (clientIP req)) window)) in
  match count with
  | Ok count => if limit <? count then ret (problem 429 "rate-limit") else next
  | Err _ => next
  end.
End Login.

(** ** Lemmas on login and logout *)

Section Out.
Context {PU : PgUuid} (cfg : settings).
#[local] Opaque sha256 hmac_sha256 Encode.

(** No cache entry and no open row for a token. *)
Definition signed_out (token : string) (w : web) : Prop :=
  rd_values (wb_redis w) !! sessionRedisKey (st_SessionSecret cfg) token = None
  /\ forall row, row ∈ c_sessions (tables_of w) -> se_token_hash row = sha256 token -> se_revoked_at row <> None.

Lemma redis_del_run key w :
  rd_outcomes (wb_redis w) = [] ->
  exists w1, (on (redis_del key) : prog web unit) w = (Ok tt, w1) /\ wb_pg w1 = wb_pg w
    /\ rd_values (wb_redis w1) = delete key (rd_values (wb_redis w)) /\ rd_outcomes (wb_redis w1) = [].
Proof. intros Ho. unfold on, redis_del, redis_do. cbn. rewrite Ho. cbn. by eexists. Qed.

Lemma redis_try_del_run key w :
  rd_outcomes (wb_redis w) = [] ->
  exists w1, (try (on (redis_del key)) : prog web (result unit)) w = (Ok (Ok tt), w1) /\ wb_pg w1 = wb_pg w
    /\ rd_values (wb_redis w1) = delete key (rd_values (wb_redis w)).
Proof. intros Ho. destruct (redis_del_run key w Ho) as (w1 & E & H1 & H2 & _). unfold try. rewrite E. eauto. Qed.
Lemma revoke_session_run now hash w :
  outcomes (wb_pg w) = [] ->
  exists w1, (try (on (pool (revoke_session now hash))) : prog web (result unit)) w = (Ok (Ok tt), w1)
    /\ rd_values (wb_redis w1) = rd_values (wb_redis w)
    /\ forall row, row ∈ c_sessions (tables_of w1) -> se_token_hash row = hash -> se_revoked_at row <> None.
Proof.
  intros Ho. unfold try, on, pool, next_outcome. cbn [part web_pg with_part]. rewrite Ho. cbn [head default revoke_session].
  eexists. split; [reflexivity|]. split; [done|]. cbn. intros row (row0 & -> & _)%list_elem_of_fmap.
  destruct (String.eqb_spec (se_token_hash row0) hash) as [Heq|Hne]; cbn; [|done].
  destruct (se_revoked_at row0) eqn:E; cbn; [by rewrite E|done].
Qed.
Lemma logout_run now req token w :
  rq_session req = Some token -> outcomes (wb_pg w) = [] -> rd_outcomes (wb_redis w) = [] ->
  exists w', logout cfg now req w = (Ok NoContent, w') /\ signed_out token w'.
Proof.
  intros Ht Ho Hro. unfold logout, signed_out. rewrite Ht.
  generalize (sessionRedisKey (st_SessionSecret cfg) token) (sha256 token). intros key hash. unfold bind.
  destruct (redis_try_del_run key w Hro) as (w1 & -> & Hpg & Hv). rewrite <- Hpg in Ho.
  destruct (revoke_session_run now hash w1 Ho) as (w2 & -> & Hv2 & Hrows). exists w2. split; [done|].
  split; [|done]. by rewrite Hv2, Hv, lookup_delete, decide_True.
Qed.

Lemma signed_out_select now token t :
  (forall row, row ∈ c_sessions t -> se_token_hash row = sha256 token -> se_revoked_at row <> None) ->
  exists e, select_session now (sha256 token) t = Err e.
Proof.
  intros Hrows. destruct (select_session now (sha256 token) t) as [[[user expires] role]|e] eqn:E; [|by eexists].
  apply select_session_ok in E as (row & Hin & Hopen & _). exfalso. unfold open_session in Hopen.
  rewrite !andb_true_iff, String.eqb_eq in Hopen. destruct Hopen as (((Hh & Hr) & _) & _).
  apply (Hrows row Hin Hh). by destruct (se_revoked_at row).
Qed.

(** Reading a session writes at most the cache entry of its own token. *)
Lemma readSession_cache now req token w key :
  rq_session req = Some token -> sessionRedisKey (st_SessionSecret cfg) token <> key ->
  rd_values (wb_redis (readSession cfg now req w).2) !! key = rd_values (wb_redis w) !! key.
Proof.
  intros Ht Hne. set (V := fun w : web => rd_values (wb_redis w) !! key).
  assert (Hk : keeps (same V) (readSession cfg now req)); [|exact (Hk w)].
  assert (Hsel : forall A (f : ctables -> result A), keeps (same V) (on (pool (select f)) : prog web A)).
  { intros A f w0. unfold same, V, on. cbn. by destruct (pool _ _). }
  assert (Hset : forall v ttl, keeps (same V) (on (redis_set now (sessionRedisKey (st_SessionSecret cfg) token) v ttl) : prog web unit)).
  { intros v ttl w0. unfold same, V, on, redis_set, redis_do. cbn [part web_redis].
    destruct (default Done _); cbn -[sessionRedisKey]; by rewrite ?lookup_insert_ne. }
  assert (Hdel : keeps (same V) (on (redis_del (sessionRedisKey (st_SessionSecret cfg) token)) : prog web unit)).
  { intros w0. unfold same, V, on, redis_del, redis_do. cbn [part web_redis].
    destruct (default Done _); cbn -[sessionRedisKey]; by rewrite ?lookup_delete_ne. }
  assert (Hget : keeps (same V) (on (redis_get now (sessionRedisKey (st_SessionSecret cfg) token)) : prog web (option json))).
  { intros w0. unfold same, V, on, redis_get, redis_do. cbn [part web_redis]. by destruct (default Done _). }
  assert (Hrest : keeps (same V) (restore_session cfg now req token)) by (unfold restore_session; keep).
  unfold readSession. rewrite Ht. keep.
Qed.

Lemma restore_session_dead now req token w :
  (forall row, row ∈ c_sessions (tables_of w) -> se_token_hash row = sha256 token -> se_revoked_at row <> None) ->
  exists e w1, restore_session cfg now req token w = (Err e, w1) /\ rd_values (wb_redis w1) = rd_values (wb_redis w).
Proof.
  intros Hrows. unfold restore_session. destruct (rq_csrf_cookie req) as [csrf|]; [|by eexists _, _].
  destruct (String.eqb csrf ""); [by eexists _, _|]. unfold bind at 1, try.
  destruct (on (pool (select _)) w) as [r w2] eqn:Es. apply on_pool_select in Es as (_ & Hr & Hok).
  destruct r as [a|e]; cbn [ret]; [|exists (Msg "session is expired, revoked or unknown"), w2; by rewrite Hr].
  destruct (signed_out_select now token (tables_of w) Hrows) as [e He]. specialize (Hok _ eq_refl). congruence.
Qed.
Lemma redis_get_cases now key w :
  exists r w1, (on (redis_get now key) : prog web (option json)) w = (r, w1)
    /\ (r = Err redis_fault \/ r = Ok (lookup_live now (rd_values (wb_redis w)) key))
    /\ wb_pg w1 = wb_pg w /\ rd_values (wb_redis w1) = rd_values (wb_redis w).
Proof. unfold on, redis_get, redis_do. cbn. destruct (default Done _); cbn; eexists _, _; auto. Qed.
Lemma readSession_dead now req token w :
  signed_out token w -> rq_session req = Some token ->
  is_ok (readSession cfg now req w).1 = false
  /\ rd_values (wb_redis (readSession cfg now req w).2) = rd_values (wb_redis w).
Proof.
  intros [Hcache Hrows] Ht. unfold readSession. rewrite Ht. unfold bind.
  destruct (redis_get_cases now (sessionRedisKey (st_SessionSecret cfg) token) w) as (r & w1 & -> & Hr & Hpg & Hv).
  unfold lookup_live in Hr. rewrite Hcache in Hr. destruct Hr as [-> | ->]; [done|].
  destruct (restore_session_dead now req token w1) as (e & w2 & -> & Hv2); [by unfold tables_of; rewrite Hpg|].
  split; [done|]. cbn [snd]. congruence.
Qed.

Lemma signed_out_read token now req w :
  signed_out token w ->
  (forall token', rq_session req = Some token' -> token' = token
     \/ sessionRedisKey (st_SessionSecret cfg) token' <> sessionRedisKey (st_SessionSecret cfg) token) ->
  signed_out token (readSession cfg now req w).2.
Proof.
  intros Hout Hkeys. pose proof (readSession_tables cfg now req w) as Htab. unfold same in Htab.
  destruct (rq_session req) as [token'|] eqn:Et; [|unfold readSession in *; rewrite Et in *; done].
  destruct (decide (token' = token)) as [->|Hne].
  - destruct (readSession_dead now req token w Hout Et) as [_ Hv]. destruct Hout. split; [by rewrite Hv|by rewrite Htab].
  - destruct Hout as [Hcache Hrows]. destruct (Hkeys _ eq_refl) as [?|Hk]; [done|]. split; [|by rewrite Htab].
    by rewrite (readSession_cache now req token').
Qed.

(** Later requests, each with the faults of the databases during it. *)
Record attempt := mkAttempt {
  at_now : time; at_request : request; at_pg : list outcome; at_redis : list outcome }.
Definition with_faults (a : attempt) (w : web) : web :=
  mkWeb (mkPg (cp (wb_pg w)) (at_pg a) (aborted (wb_pg w)) (uuids (wb_pg w)))
    (mkRedis (rd_values (wb_redis w)) (rd_counts (wb_redis w)) (at_redis a)) (wb_random w).
Fixpoint attempts (l : list attempt) (w : web) : list (request * result session) :=
  match l with
  | [] => []
  | a :: l => let '(r, w1) := readSession cfg (at_now a) (at_request a) (with_faults a w) in
              (at_request a, r) :: attempts l w1
  end.

(** Tokens with different cache keys. *)
Definition no_collision (token : string) (l : list attempt) : Prop :=
  forall a token', a ∈ l -> rq_session (at_request a) = Some token' ->
    token' = token \/ sessionRedisKey (st_SessionSecret cfg) token' <> sessionRedisKey (st_SessionSecret cfg) token.

Lemma signed_out_attempts token l w :
  signed_out token w -> no_collision token l ->
  forall req r, (req, r) ∈ attempts l w -> rq_session req = Some token -> is_ok r = false.
Proof.
  revert w. induction l as [|a l IH]; intros w Hout Hk req r Hin Ht; [by apply elem_of_nil in Hin|]. cbn in Hin.
  assert (Hf : signed_out token (with_faults a w)) by exact Hout.
  pose proof (signed_out_read token (at_now a) (at_request a) _ Hf
                (fun token' => Hk a token' (list_elem_of_here a l))) as Hnext.
  destruct (readSession cfg (at_now a) (at_request a) (with_faults a w)) as [r1 w1] eqn:E.
  apply elem_of_cons in Hin as [[= -> ->]|Hin].
  - destruct (readSession_dead (at_now a) (at_request a) token _ Hf Ht) as [Hd _]. by rewrite E in Hd.
  - eapply (IH w1 Hnext); [|done..]. intros a' token' Ha'. apply Hk. by apply elem_of_cons; right.
Qed.
End Out.

(** Logging out is final.  When neither database fails during the logout,
    no later request with the same token gets a session, whatever fails then and
    however many other requests come in between. *)
Theorem logout_is_final {PU : PgUuid} cfg now req token w l :
  rq_session req = Some token -> outcomes (wb_pg w) = [] -> rd_outcomes (wb_redis w) = [] ->
  no_collision cfg token l ->
  exists w', logout cfg now req w = (Ok NoContent, w')
    /\ forall later r, (later, r) ∈ attempts cfg l w' -> rq_session later = Some token -> is_ok r = false.
Proof.
  intros Ht Ho Hro Hk. destruct (logout_run cfg now req token w Ht Ho Hro) as (w' & E & Hout).
  exists w'. split; [done|]. intros later r. by apply signed_out_attempts.
Qed.

Definition sample_settings : settings := mkSettings "secret" false "".
Definition sample_request (token : option string) : request := mkRequest "GET" token (Some "c") "" "" "10.0.0.1:5000".
Definition sample_web (values : gmap string (json * option time)) : web :=
  mkWeb (mkPg (with_sessions (fun _ => [mkSessionRow "u1" (sha256 "t1") (30 * 24 * hour) None; mkSessionRow "u1" (sha256 "t2") (30 * 24 * hour) None])
           (with_users (fun _ => {["u1" := mkUserRow "s1" "active" None]}) no_tables)) [] false [])
    (mkRedis values ∅ []) [].
Definition sample_attempts : list attempt :=
  [mkAttempt 6 (sample_request (Some "t1")) [] []; mkAttempt 7 (sample_request (Some "t2")) [] [];
   mkAttempt 8 (sample_request (Some "t1")) [] [Lost; Failed]; mkAttempt 9 (sample_request None) [] []].
(** The sessions of both tokens are open; after the first is closed, only the
    second one is read. *)
Lemma logout_is_final_witness :
  let w := sample_web ∅ in
  let read := attempts sample_settings sample_attempts in
  is_ok <$> (read w).*2 = [true; true; false; false]
  /\ exists w', logout sample_settings 5 (sample_request (Some "t1")) w = (Ok NoContent, w')
     /\ is_ok <$> (read w').*2 = [false; true; false; false]
     /\ forall later r, (later, r) ∈ read w' -> rq_session later = Some "t1" -> is_ok r = false.
Proof.
  intros w read. split; [vm_compute; reflexivity|].
  destruct (@logout_is_final toy_uuid_type sample_settings 5 (sample_request (Some "t1")) "t1" w sample_attempts)
    as (w' & E & H); [done..| |exists w'; split; [done|]; split; [|exact H]].
  - intros a token' Ha Ht. unfold sample_attempts in Ha. rewrite !elem_of_cons in Ha.
    assert (Hcases : token' = "t1" \/ token' = "t2").
    { destruct Ha as [->|[->|[->|[->|Ha]]]]; cbn in Ht; [left|right|left| |by apply elem_of_nil in Ha]; congruence. }
    clear Ha Ht. destruct Hcases as [->| ->]; [left; reflexivity|].
    right. apply String.eqb_neq. vm_compute. reflexivity.
  - assert (Hw : w' = (logout sample_settings 5 (sample_request (Some "t1")) w).2) by (by rewrite E).
    rewrite Hw. vm_compute. reflexivity.
Defined.

(** ** Lemmas on the rate limiter *)

Section Rate.
Context (cfg : settings) (scope : string) (limit window : Z).
#[local] Opaque hmac_sha256 Encode.

(** A stream of requests through the limiter; whether each one was let through. *)
Fixpoint stream (l : list (time * request)) (w : web) : list (request * bool) :=
  match l with
  | [] => []
  | (now, req) :: l =>
      let '(r, w1) := rateLimit cfg scope limit window now req (ret NoContent) w in
      (req, match r with Ok NoContent => true | _ => false end) :: stream l w1
  end.
Definition admitted (key : string) (log : list (request * bool)) : Z :=
  Z.of_nat (length (filter (fun e => rate_key cfg scope (clientIP e.1) = key /\ e.2 = true) log)).

(** The counter of a key after a request at [now]. *)
Definition bumped (now : time) (entry : option (Z * option time)) : Z * option time :=
  let '(count, expiry) := match entry with
                          | Some e => if live now e then e else (0, None)
                          | None => (0, None)
                          end in
  (count + 1, Some (default (now + window) expiry)).

Lemma rateLimit_run now req w :
  rd_outcomes (wb_redis w) = [] ->
  let key := rate_key cfg scope (clientIP req) in
  let entry := bumped now (rd_counts (wb_redis w) !! key) in
  exists w1, rateLimit cfg scope limit window now req (ret NoContent) w
      = (Ok (if limit <? entry.1 then problem 429 "rate-limit" else NoContent), w1)
    /\ rd_counts (wb_redis w1) = <[key := entry]> (rd_counts (wb_redis w)) /\ rd_outcomes (wb_redis w1) = [].
Proof.
  intros Ho key entry. unfold rateLimit. change (rate_key cfg scope (clientIP req)) with key. clearbody key.
  unfold bind, try, on, redis_count, redis_do. cbn [part web_redis with_part]. rewrite Ho. cbn [head default tail rd_counts].
  unfold entry, bumped.
  destruct (match rd_counts (wb_redis w) !! key with Some e => if live now e then e else (0, None) | None => (0, None) end) as [count expiry].
  cbn [fst snd rd_counts rd_outcomes]. assert (Hex : (match expiry with Some e => Some e | None => Some (now + window) end) = Some (default (now + window) expiry)) by by destruct expiry.
  rewrite Hex. destruct (limit <? count + 1); eexists; (split; [reflexivity|]); cbn; by rewrite ?Ho.
Qed.

Lemma admitted_cons key req b log :
  admitted key ((req, b) :: log)
  = (if decide (rate_key cfg scope (clientIP req) = key /\ b = true) then 1 else 0) + admitted key log.
Proof. unfold admitted. rewrite filter_cons. cbn [fst snd]. destruct (decide _); cbn [length]; lia. Qed.

(** What a counter still allows: its own window, and one more after it. *)
Definition remaining (now finish : time) (entry : option (Z * option time)) : Z :=
  match entry with
  | Some (count, expiry) => if live now (count, expiry) then Z.max 0 (limit - count)
      + match expiry with Some e => if finish <=? e then 0 else Z.max 0 limit | None => 0 end else Z.max 0 limit
  | None => Z.max 0 limit
  end.
Lemma remaining_later now now' finish entry :
  now <= now' -> remaining now' finish entry <= remaining now finish entry \/ finish <= now'.
Proof.
  intros Hle. destruct entry as [[count [e|]]|]; cbn; [|left; lia..]. unfold live. cbn.
  destruct (Z.ltb_spec now e), (Z.ltb_spec now' e), (Z.leb_spec finish e); lia.
Qed.

Lemma remaining_bumped t finish entry :
  t < finish -> finish <= t + window ->
  remaining t finish (Some (bumped t entry)) + (if limit <? (bumped t entry).1 then 0 else 1) <= remaining t finish entry.
Proof.
  intros H1 H2. unfold bumped. destruct entry as [[c [e|]]|]; cbn; unfold live; cbn.
  - destruct (Z.ltb_spec t e); cbn; [rewrite (proj2 (Z.ltb_lt t e)) by done|rewrite (proj2 (Z.ltb_lt t (t + window))) by lia].
    + destruct (Z.ltb_spec limit (c + 1)), (Z.leb_spec finish e); lia.
    + destruct (Z.ltb_spec limit (0 + 1)), (Z.leb_spec finish (t + window)); lia.
  - rewrite (proj2 (Z.ltb_lt t (t + window))) by lia. destruct (Z.ltb_spec limit (c + 1)), (Z.leb_spec finish (t + window)); lia.
  - rewrite (proj2 (Z.ltb_lt t (t + window))) by lia. destruct (Z.ltb_spec limit (0 + 1)), (Z.leb_spec finish (t + window)); lia.
Qed.
Lemma remaining_nonneg now finish entry : 0 <= remaining now finish entry.
Proof. destruct entry as [[c [e|]]|]; cbn; [|lia..]. unfold live; cbn. destruct (_ <? _); [|lia]. destruct (_ <=? _); lia. Qed.

Lemma stream_bound key start finish : finish <= start + window ->
  forall l now w, start <= now ->
  rd_outcomes (wb_redis w) = [] -> (forall e, e ∈ l -> now <= e.1 < finish) -> StronglySorted (fun a b => a.1 <= b.1) l ->
  admitted key (stream l w) <= remaining now finish (rd_counts (wb_redis w) !! key).
Proof.
  intros Hf. induction l as [|[t req] l IH]; intros now w Hs Ho Hin Hsort; [apply remaining_nonneg|].
  apply StronglySorted_inv in Hsort as [Hsort Hall]. cbn [stream].
  destruct (rateLimit_run t req w Ho) as (w1 & -> & Hc & Ho1).
  assert (Ht : now <= t < finish) by exact (Hin (t, req) (list_elem_of_here _ _)).
  assert (Hrest : forall e, e ∈ l -> t <= e.1 < finish).
  { intros e He. split; [by apply (proj1 (Forall_forall _ _) Hall e)|]. apply Hin. by apply elem_of_cons; right. }
  rewrite admitted_cons. specialize (IH t w1 ltac:(lia) Ho1 Hrest Hsort). rewrite Hc in IH.
  pose proof (remaining_later now t finish (rd_counts (wb_redis w) !! key) ltac:(lia)) as [Hlater|]; [|lia].
  destruct (decide (rate_key cfg scope (clientIP req) = key)) as [<-|Hne].
  2: { rewrite lookup_insert_ne in IH by done. destruct (decide (_ /\ _)) as [[? _]|]; [done|]. lia. }
  rewrite lookup_insert, decide_True in IH by done. revert IH Hlater Hc.
  generalize (rate_key cfg scope (clientIP req)). intros key. generalize (rd_counts (wb_redis w) !! key). intros entry IH Hlater Hc.
  pose proof (remaining_bumped t finish entry ltac:(lia) ltac:(lia)) as Hb.
  destruct (limit <? (bumped t entry).1); destruct (decide _) as [[_ ?]|Hd]; try discriminate; try lia.
Qed.
End Rate.

(** The bound of the rate limiter.  Whatever other clients do in between and
    whatever the counters are before (none is negative), the requests that one client gets through
    in an interval as long as the window are at most twice the limit, and at most
    the limit when no counter of the client is running at its start; as long as
    Redis answers. *)
Theorem rateLimit_bound cfg scope limit window start l w ip :
  0 <= limit -> rd_outcomes (wb_redis w) = [] -> map_Forall (fun _ entry => 0 <= entry.1) (rd_counts (wb_redis w)) ->
  (forall e, e ∈ l -> start <= e.1 < start + window) -> StronglySorted (fun a b => a.1 <= b.1) l ->
  let key := rate_key cfg scope ip in
  let passed := admitted cfg scope key (stream cfg scope limit window l w) in
  passed <= 2 * limit
  /\ (lookup_live start (rd_counts (wb_redis w)) key = None -> passed <= limit).
Proof.
  intros Hl Ho Hpos Hin Hsort key passed.
  pose proof (stream_bound cfg scope limit window key start (start + window) ltac:(lia) l start w ltac:(lia) Ho Hin Hsort) as H.
  fold passed in H. clearbody passed. clearbody key. unfold lookup_live. destruct (rd_counts (wb_redis w) !! key) as [[c e]|] eqn:Ec; cbn in *; [|split; lia].
  apply Hpos in Ec. cbn in Ec.
  destruct (live start (c, e)); [|split; lia]. split; [|done]. destruct e as [e|]; [|lia]. destruct (_ <=? e); lia.
Qed.
Definition sample_stream : list (time * request) := [(1, sample_request None); (2, sample_request None); (3, sample_request None)].
Lemma rateLimit_bound_witness :
  let log := stream sample_settings "login" 2 minute sample_stream (sample_web ∅) in
  log.*2 = [true; true; false]
  /\ admitted sample_settings "login" (rate_key sample_settings "login" "10.0.0.1") log <= 2.
Proof.
  intros log. split; [vm_compute; reflexivity|].
  destruct (rateLimit_bound sample_settings "login" 2 minute 1 sample_stream (sample_web ∅) "10.0.0.1") as [_ H].
  - lia.
  - done.
  - apply map_Forall_empty.
  - intros e He. unfold sample_stream in He. rewrite !elem_of_cons, elem_of_nil in He.
    assert (Hm : minute = 60000000000) by reflexivity. destruct He as [->|[->|[->|[]]]]; cbn [fst]; lia.
  - unfold sample_stream. repeat constructor; cbn [fst]; lia.
  - apply H. unfold lookup_live, sample_web. cbn [wb_redis rd_counts]. by rewrite lookup_empty.
Defined.

(** ** Lemmas on the login through Telegram *)

Section Callback.
Context {PU : PgUuid} (cfg : settings) (valid_inet : string -> bool)
  (exchange : string -> string -> option (option string)) (verify : string -> option json).
#[local] Opaque sha256 hmac_sha256 Encode.

Definition value_at (key : string) (w : web) : option (json * option time) := rd_values (wb_redis w) !! key.
Definition is_user (id subject : string) (w : web) : Prop :=
  exists u, c_users (tables_of w) !! id = Some u /\ us_subject u = subject.

Lemma on_pg_redis {A} (m : prog pg A) : keeps (same wb_redis) (on m : prog web A).
Proof. intros w. unfold on, same. cbn. by destruct (m (wb_pg w)). Qed.
Lemma on_redis_pg {A} (m : prog redis A) : keeps (same wb_pg) (on m : prog web A).
Proof. intros w. unfold on, same. cbn. by destruct (m (wb_redis w)). Qed.
Lemma random_redis n : keeps (same wb_redis) (random_bytes n).
Proof. intros w. unfold random_bytes, same. by destruct (wb_random w). Qed.

(** A program that ended well, step by step. *)
Lemma web_bind_done {A B} (m : prog web A) (k : A -> prog web B) w r w' :
  bind m k w = (Ok r, w') -> exists a w1, m w = (Ok a, w1) /\ k a w1 = (Ok r, w').
Proof. unfold bind. destruct (m w) as [[a|e] w1]; [eauto|done]. Qed.
Lemma web_try_done {A} (m : prog web A) w r w' : try m w = (Ok r, w') -> m w = (r, w').
Proof. unfold try. destruct (m w). by intros [= <- <-]. Qed.
Lemma on_pool_ok {A} (f : ctables -> result (A * ctables)) (w : web) a w1 :
  (on (pool f) : prog web A) w = (Ok a, w1) -> f (tables_of w) = Ok (a, tables_of w1) /\ wb_redis w1 = wb_redis w.
Proof.
  unfold on, pool, tables_of. cbn. destruct (next_outcome (wb_pg w)); [|done|]; destruct (f (cp (wb_pg w))) as [[x t]|e]; try done.
  by intros [= -> <-].
Qed.

Lemma session_key_prefix token state : sessionRedisKey (st_SessionSecret cfg) token <> "oidc:" +:+ state.
Proof. unfold sessionRedisKey. cbn. congruence. Qed.

Definition has_session (user token : string) (w : web) : Prop :=
  exists row, row ∈ c_sessions (tables_of w) /\ se_user row = user /\ se_token_hash row = sha256 token /\ se_revoked_at row = None.

Lemma insert_session_ok userID hash ip expires t u t' :
  insert_session valid_inet userID hash ip expires t = Ok (u, t') ->
  exists user, canonical_uuid userID = Ok user /\ c_users t' = c_users t
    /\ mkSessionRow user hash expires None ∈ c_sessions t'.
Proof.
  unfold insert_session. destruct (canonical_uuid userID) as [user|]; [|done]. destruct (_ && _); [done|].
  destruct (existsb _ _); [done|]. destruct (c_users t !! user); [|done]. intros [= _ <-]. exists user.
  split_and!; [done..|]. cbn. apply elem_of_app. right. by apply list_elem_of_singleton.
Qed.
Lemma issueSession_ok now req userID role mfa w token csrf w' state :
  issueSession cfg valid_inet now req userID role mfa w = (Ok (token, csrf), w') ->
  value_at ("oidc:" +:+ state) w' = value_at ("oidc:" +:+ state) w
  /\ c_users (tables_of w') = c_users (tables_of w)
  /\ exists user, canonical_uuid userID = Ok user /\ has_session user token w'.
Proof.
  unfold issueSession. intros (tok & w1 & Htok & H)%web_bind_done.
  apply web_bind_done in H as (cs & w2 & Hcs & H). apply web_bind_done in H as ([] & w3 & Hset & H).
  apply web_bind_done in H as (stored & w4 & Hst & H).
  apply web_try_done in Hst. destruct stored as [[]|e].
  2: { apply web_bind_done in H as (x & w5 & _ & H). done. }
  injection H as -> -> ->. apply on_pool_ok in Hst as [Hins Hr4].
  apply insert_session_ok in Hins as (user & Hu & Husers & Hrow).
  assert (Hr : keeps (same wb_redis) (RandomToken 32) /\ keeps (same wb_redis) (token_or_empty 24)
               /\ keeps (same wb_pg) (RandomToken 32) /\ keeps (same wb_pg) (token_or_empty 24)).
  { assert (Hp : forall n, keeps (same wb_pg) (random_bytes n))
      by (intros n w0; unfold random_bytes, same; by destruct (wb_random w0)).
    pose proof random_redis. unfold token_or_empty, RandomToken. split_and!; keep. }
  destruct Hr as (H1 & H2 & H3 & H4). specialize (H1 w). specialize (H2 w1). specialize (H3 w). specialize (H4 w1).
  rewrite Htok in H1, H3. rewrite Hcs in H2, H4. unfold same in H1, H2, H3, H4. cbn [snd] in H1, H2, H3, H4.
  pose proof (on_redis_pg (redis_set now (sessionRedisKey (st_SessionSecret cfg) token)
    (default JNull (encode_session (mkSession userID csrf role mfa (TimeAdd now sessionTTL)))) sessionTTL) w2) as H5.
  unfold same in H5. rewrite Hset in H5. cbn [snd] in H5.
  assert (Hpg3 : tables_of w3 = tables_of w) by (unfold tables_of; congruence).
  assert (Hv : rd_values (wb_redis w') !! ("oidc:" +:+ state) = rd_values (wb_redis w2) !! ("oidc:" +:+ state)).
  { rewrite Hr4. revert Hset. pose proof (session_key_prefix token state) as Hne. revert Hne.
    generalize (sessionRedisKey (st_SessionSecret cfg) token) ("oidc:" +:+ state). intros key other Hne.
    unfold on, redis_set, redis_do. cbn [part web_redis with_part]. destruct (default Done _); [|done|done]. cbn.
    intros [= <-]. cbn. by rewrite lookup_insert_ne. }
  split; [unfold value_at; congruence|]. split; [congruence|].
  exists user. split; [done|]. by eexists (mkSessionRow user (sha256 token) _ None).
Qed.

Lemma user_of_subject_ok subject t user :
  user_of_subject subject t = Some user -> exists u, c_users t !! user = Some u /\ us_subject u = subject.
Proof.
  unfold user_of_subject. destruct (head _) as [[id u]|] eqn:E; [|done]. intros [= <-]. exists u.
  apply head_Some_elem_of, list_elem_of_filter in E as [Hs Hin%elem_of_map_to_list]. done.
Qed.
Lemma upsert_user_ok id c t user t' :
  upsert_user id c t = Ok (user, t') -> exists u, c_users t' !! user = Some u /\ us_subject u = cl_subject c.
Proof.
  unfold upsert_user. destruct (negb _); [done|]. destruct (user_of_subject (cl_subject c) t) as [known|] eqn:E.
  - intros [= <- <-]. by apply user_of_subject_ok.
  - destruct (c_users t !! id); [done|]. intros [= <- <-]. eexists. split; [apply lookup_insert_eq|done].
Qed.
Lemma new_rows_users {A} (f : ctables -> result (A * ctables)) :
  (forall t a t', f t = Ok (a, t') -> c_users t' = c_users t) ->
  keeps (same (fun w => c_users (tables_of w))) (on (pool f) : prog web A).
Proof.
  intros Hf w. unfold on, pool, same, tables_of. cbn. destruct (next_outcome (wb_pg w)), (f (cp (wb_pg w))) as [[a t]|e] eqn:E; cbn; try done;
    by eapply Hf.
Qed.
Lemma new_wallet_users userID t a t' : new_wallet userID t = Ok (a, t') -> c_users t' = c_users t.
Proof. unfold new_wallet. repeat case_match; intros; simplify_eq; done. Qed.
Lemma new_subscription_users userID t a t' : new_subscription userID t = Ok (a, t') -> c_users t' = c_users t.
Proof. unfold new_subscription. repeat case_match; intros; simplify_eq; done. Qed.

(** The state is taken from the cache by the first callback. *)
Lemma take_state now key w raw w1 :
  (try (on (redis_get_del now key)) : prog web (result (option json))) w = (raw, w1) ->
  exists r, raw = Ok r /\ wb_pg w1 = wb_pg w
    /\ forall pending, r = Ok (Some pending) -> lookup_live now (rd_values (wb_redis w)) key = Some pending /\ value_at key w1 = None.
Proof.
  unfold try, on, redis_get_del, redis_do, value_at. cbn. destruct (default Done _); cbn; intros [= <- <-]; (eexists; split; [done|]; split; [done|]).
  - intros pending [= H]. split; [done|]. cbn. by rewrite lookup_delete_eq.
  - done.
  - done.
Qed.
Lemma callback_without_state now req state code w :
  value_at ("oidc:" +:+ state) w = None ->
  exists w1, telegramCallback cfg valid_inet exchange verify now req state code w = (Ok (Refused (problem 400 "oidc-state")), w1).
Proof.
  intros Hv. unfold telegramCallback, bind. revert Hv. generalize ("oidc:" +:+ state). intros key Hv.
  unfold try at 1, on at 1, redis_get_del, redis_do. cbn [part web_redis with_part]. unfold value_at in Hv.
  destruct (default Done _); cbn; [|by eexists..]. unfold lookup_live. cbn. rewrite Hv. by eexists.
Qed.

Lemma callback_tail now req state userID role w w1 w2 w3 x1 x2 r c token csrf w' w4 :
  (try (on (pool (new_wallet userID))) : prog web _) w = (x1, w1) ->
  (try (on (pool (new_subscription userID))) : prog web _) w1 = (x2, w2) ->
  (try (on (pool (select (current_role userID)))) : prog web _) w2 = (r, w3) ->
  try (issueSession cfg valid_inet now req userID role false) w3 = (Ok c, w4) ->
  (ret (match c with Ok c => LoggedIn c | Err _ => Refused (problem 500 "login") end) : prog web login) w4
    = (Ok (LoggedIn (token, csrf)), w') ->
  value_at ("oidc:" +:+ state) w' = value_at ("oidc:" +:+ state) w
  /\ c_users (tables_of w') = c_users (tables_of w)
  /\ exists user, canonical_uuid userID = Ok user /\ has_session user token w'.
Proof.
  intros E1 E2 E3 E4 E5. set (V := fun w => (wb_redis w, c_users (tables_of w))).
  assert (HV : forall A (f : ctables -> result (A * ctables)), (forall t a t', f t = Ok (a, t') -> c_users t' = c_users t) ->
             keeps (same V) (try (on (pool f)) : prog web _)).
  { intros A f Hf. apply keeps_try. intros w0. unfold same, V. f_equal; [apply on_pg_redis|by apply new_rows_users]. }
  pose proof (HV _ _ (new_wallet_users userID) w) as H1. pose proof (HV _ _ (new_subscription_users userID) w1) as H2.
  pose proof (HV _ (select (current_role userID)) (fun t a t' H => f_equal c_users (proj2 (select_ok _ _ _ _ H))) w2) as H3.
  rewrite E1 in H1. rewrite E2 in H2. rewrite E3 in H3. unfold same, V in H1, H2, H3. cbn [snd] in H1, H2, H3.
  destruct c as [c|e]; [|done]. injection E5 as -> <-. apply web_try_done in E4.
  apply (issueSession_ok now req userID role false w3 token csrf w4 state) in E4 as (Hv & Hu & Hs).
  injection H1 as Hr1 Hu1. injection H2 as Hr2 Hu2. injection H3 as Hr3 Hu3.
  split; [rewrite Hv; unfold value_at; congruence|]. split; [congruence|done].
Qed.
End Callback.

(** C21 - A login through Telegram.  Whatever fails, a callback opens a session
    only when its state is pending and not expired, the provider has exchanged the
    code with the verifier stored under it, the id token is valid and names the
    stored nonce; the session belongs to the account of the token's subject.  The
    state is spent: every later callback with it is refused. *)
Theorem telegram_login {PU : PgUuid} cfg valid_inet exchange verify now req state code w token csrf w' :
  telegramCallback cfg valid_inet exchange verify now req state code w = (Ok (LoggedIn (token, csrf)), w') ->
  (exists pending idToken payload c userID user,
     lookup_live now (rd_values (wb_redis w)) ("oidc:" +:+ state) = Some pending
     /\ exchange code (pending_value pending "verifier") = Some (Some idToken)
     /\ verify idToken = Some payload /\ dec_claims payload = Some c /\ cl_nonce c = pending_value pending "nonce"
     /\ is_user userID (cl_subject c) w' /\ canonical_uuid userID = Ok user /\ has_session user token w')
  /\ forall a code', exists w'',
       telegramCallback cfg valid_inet exchange verify (at_now a) (at_request a) state code' (with_faults a w')
       = (Ok (Refused (problem 400 "oidc-state")), w'').
Proof.
  intros H. assert (Hgoal : value_at ("oidc:" +:+ state) w' = None /\ exists pending idToken payload c userID user,
     lookup_live now (rd_values (wb_redis w)) ("oidc:" +:+ state) = Some pending
     /\ exchange code (pending_value pending "verifier") = Some (Some idToken)
     /\ verify idToken = Some payload /\ dec_claims payload = Some c /\ cl_nonce c = pending_value pending "nonce"
     /\ is_user userID (cl_subject c) w' /\ canonical_uuid userID = Ok user /\ has_session user token w').
  2: { destruct Hgoal as [Hv Hgoal]. split; [done|]. intros a code'. apply callback_without_state, Hv. }
  unfold telegramCallback in H. apply web_bind_done in H as (r & w1 & Et & H).
  apply take_state in Et as (r0 & [= <-] & _ & Hstate).
  destruct r as [[pending|]|e]; [|done..]. destruct (Hstate _ eq_refl) as [Hpend Hv1]. clear Hstate.
  destruct (exchange _ _) as [[idToken|]|] eqn:Ex; [|done..]. destruct (verify idToken) as [payload|] eqn:Ev; [|done].
  destruct (dec_claims payload) as [c|] eqn:Ec; [|done].
  destruct (String.eqb_spec (cl_nonce c) (pending_value pending "nonce")) as [Hn|]; [|done]. cbn [negb] in H.
  apply web_bind_done in H as (id & w2 & Eid & H). apply web_bind_done in H as (user & w3 & Eu & H).
  apply web_try_done in Eu. destruct user as [userID|e]; [|done].
  apply web_bind_done in H as (x1 & w4 & E1 & H). apply web_bind_done in H as (x2 & w5 & E2 & H).
  apply web_bind_done in H as (role & w6 & E3 & H). apply web_bind_done in H as (cs & w7 & E4 & H).
  destruct (callback_tail cfg valid_inet now req state userID _ w3 w4 w5 w6 _ _ _ cs token csrf w' w7 E1 E2 E3 E4 H)
    as (Hv & Husers & user & Hcu & Hs).
  apply on_pool_ok in Eu as [Eu Hr3]. apply upsert_user_ok in Eu as (u & Hu & Hsub).
  pose proof (on_pg_redis random_uuid w1) as Hr2. rewrite Eid in Hr2. unfold same in Hr2. cbn [snd] in Hr2.
  split; [rewrite Hv; unfold value_at in *; congruence|].
  exists pending, idToken, payload, c, userID, user. split_and!; try done. exists u. by rewrite Husers.
Qed.

Definition sample_exchange (code verifier : string) : option (option string) :=
  if String.eqb code "code" && String.eqb verifier "v" then Some (Some "token") else None.
Definition sample_verify (token : string) : option json :=
  if String.eqb token "token" then Some (JObj [("sub", JStr "s9"); ("name", JStr "Anna"); ("nonce", JStr "n")]) else None.
Definition pending_login : web :=
  let w := sample_web {["oidc:st" := (JObj [("nonce", JStr "n"); ("verifier", JStr "v")], Some (10 * minute))]} in
  mkWeb (mkPg (with_plans (fun _ => {["TRIAL" := mkPlanRow 0 259200 1 20000000000]}) (tables_of w)) [] false ["u9"])
    (wb_redis w) ["r1"; "r2"].
Lemma telegram_login_witness :
  let callback now := @telegramCallback toy_uuid_type sample_settings (fun _ => true) sample_exchange sample_verify now
                        (sample_request None) "st" in
  let w' := (callback 5 "code" pending_login).2 in
  (exists token csrf, (callback 5 "code" pending_login).1 = Ok (LoggedIn (token, csrf))
     /\ exists userID user, is_user userID "s9" w' /\ @canonical_uuid toy_uuid_type userID = Ok user /\ has_session user token w')
  /\ (exists w'', callback 6 "code" w' = (Ok (Refused (problem 400 "oidc-state")), w''))
  /\ (callback 5 "other" pending_login).1 = Ok (Refused (problem 401 "oidc-code")).
Proof.
  intros callback w'.
  assert (Hrun : match (callback 5 "code" pending_login).1 with Ok (LoggedIn _) => true | _ => false end = true)
    by (vm_compute; reflexivity).
  destruct (callback 5 "code" pending_login) as [r w1] eqn:E. subst w'. cbn [fst snd] in *.
  destruct r as [[[token csrf]| |]|e]; [|discriminate..].
  destruct (@telegram_login toy_uuid_type _ _ _ _ _ _ _ _ _ _ _ _ E)
    as [(pending & idToken & payload & c & userID & user & Hp & Hx & Hv & Hc & _ & Hu & Hcu & Hs) Hlater].
  split_and!.
  - exists token, csrf. split; [done|]. exists userID, user. split_and!; [|done..].
    assert (Hpend : pending = JObj [("nonce", JStr "n"); ("verifier", JStr "v")]).
    { assert (Hl : lookup_live 5 (rd_values (wb_redis pending_login)) "oidc:st"
                   = Some (JObj [("nonce", JStr "n"); ("verifier", JStr "v")])) by (vm_compute; reflexivity).
      change ("oidc:" +:+ "st") with "oidc:st" in Hp. congruence. }
    subst pending. assert (Hid : idToken = "token") by (vm_compute in Hx; congruence). subst idToken.
    assert (Hcl : c = mkClaims "s9" "Anna" "" "" "n").
    { injection Hv as <-. assert (Hd : dec_claims (JObj [("sub", JStr "s9"); ("name", JStr "Anna"); ("nonce", JStr "n")])
        = Some (mkClaims "s9" "Anna" "" "" "n")) by (vm_compute; reflexivity). congruence. }
    by rewrite Hcl in Hu.
  - specialize (Hlater (mkAttempt 6 (sample_request None) (outcomes (wb_pg w1)) (rd_outcomes (wb_redis w1))) "code").
    by destruct w1 as [[] [] ?].
  - vm_compute. reflexivity.
Defined.
