(* ===== verification/Wallet.v ===== *)
(** * Wallets, the ledger and plan changes

    src/internal/controlplane/admin.go [creditWallet] and [adjustWallet] and
    src/internal/controlplane/app.go [changePlan]: every change of a balance is
    written to an append-only ledger in the same transaction.  The user of a
    request and the path parameters are arguments, and so is the clock. *)

From S2P Require Import Prelude GoStrings Json Crypto Protocol Billing Pg Hub Web.
From stdpp Require Import base gmap strings list.
From Stdlib Require Import ZArith Lia.
Open Scope Z_scope.

Section Wallet.
Context {PU : PgUuid} {SV : PgServer}.

(** ** Statements *)

(** [INSERT INTO ledger_entries(...)], with the table's constraints. *)
Definition ledger_checks (r : ledger_row) (t : ctables) : bool :=
  negb (lg_amount r =? 0) && (0 <=? lg_balance_after r) && (3 <=? char_length (lg_reason r))
  && bool_decide (is_Some (c_users t !! lg_user r))
  && match lg_actor r with Some actor => bool_decide (is_Some (c_users t !! actor)) | None => true end.
Definition key_taken (key : string) (t : ctables) : bool :=
  existsb (fun r => String.eqb (lg_key r) key) (c_ledger t).
Definition insert_ledger (userID : string) (amount balance_after : Z) (reason actorID key : string) (t : ctables)
    : result (unit * ctables) :=
  match canonical_uuid userID, canonical_uuid actorID with
  | Ok user, Ok actor =>
      if negb (pg_text reason && pg_text key) then Err (SqlErr SqlFault) else
      let row := mkLedgerRow user amount balance_after reason (Some actor) key in
      if ledger_checks row t && negb (key_taken key t) then Ok (tt, with_ledger (fun l => l ++ [row]) t) else Err (SqlErr SqlConstraint)
  | Err e, _ | _, Err e => Err e
  end.

(** [UPDATE wallets SET balance_kopecks=balance_kopecks+$1 ... RETURNING] *)
Definition credit_balance (amount : Z) (userID : string) (t : ctables) : result (Z * ctables) :=
  match canonical_uuid userID with
  | Err e => Err e
  | Ok user =>
      match c_wallets t !! user with
      | None => Err (SqlErr SqlNoRows)
      | Some balance =>
          match bigint (balance + amount) with
          | Err e => Err e
          | Ok updated => if updated <? 0 then Err (SqlErr SqlConstraint)
                          else Ok (updated, with_wallets (insert user updated) t)
          end
      end
  end.

Definition select_balance (userID : string) (t : ctables) : result Z :=
  match canonical_uuid userID with
  | Err e => Err e
  | Ok user => match c_wallets t !! user with Some balance => Ok balance | None => Err (SqlErr SqlNoRows) end
  end.

(** [UPDATE wallets SET balance_kopecks=$1] *)
Definition set_balance (balance : Z) (userID : string) (t : ctables) : result (unit * ctables) :=
  match canonical_uuid userID with
  | Err e => Err e
  | Ok user =>
      match c_wallets t !! user with
      | None => Ok (tt, t)
      | Some _ => if balance <? 0 then Err (SqlErr SqlConstraint)
                  else Ok (tt, with_wallets (insert user balance) t)
      end
  end.

(** ** Credits and adjustments by an administrator *)

Record credit := mkCredit { cr_amount : Z; cr_reason : string; cr_key : string }.
Definition decode_credit : option json -> option credit :=
  decode_request ["amountKopecks"; "reason"; "idempotencyKey"] (dec_struct (fun m old =>
    amount ← field "amountKopecks" dec_int m (cr_amount old);
    reason ← field "reason" dec_string m (cr_reason old);
    key ← field "idempotencyKey" dec_string m (cr_key old);
    Some (mkCredit amount reason key))) (mkCredit 0 "" "").

Definition balance_reply (status balance : Z) : reply :=
  jsonResponse status (Some (JObj [("balanceKopecks", jint balance)])).

Definition creditWallet (s : session) (userID : string) (body : option json) : prog pg reply :=
  match decode_credit body with
  | None => ret (problem 400 "invalid-credit")
  | Some c =>
      if (cr_amount c <=? 0) || (String.length (TrimSpace (cr_reason c)) <? 3)%nat
      then ret (problem 400 "invalid-credit") else
      let* key := (if String.eqb (cr_key c) "" then random_uuid else ret (cr_key c)) in
      transact (problem 500 "db") (committing (
        let* balance := stmt (credit_balance (cr_amount c) userID) in
        stmt (insert_ledger userID (cr_amount c) balance (TrimSpace (cr_reason c)) (ss_UserID s) key) ;;;
        stmt (insert_audit (ss_UserID s) "wallet.credit" userID (TrimSpace (cr_reason c))) ;;;
        ret (balance_reply 201 balance)) (problem 409 "ledger"))
  end.

Record adjustment := mkAdjustment { aj_amount : Z; aj_reason : string }.
Definition decode_adjustment : option json -> option adjustment :=
  decode_request ["amountKopecks"; "reason"] (dec_struct (fun m old =>
    amount ← field "amountKopecks" dec_int m (aj_amount old);
    reason ← field "reason" dec_string m (aj_reason old);
    Some (mkAdjustment amount reason))) (mkAdjustment 0 "").

(** Both roles, from one statement. *)
Definition two_roles (actorID userID : string) (t : ctables) : result (string * string) :=
  match first_role actorID t, first_role userID t with
  | Ok actor, Ok target => Ok (actor, target)
  | Err e, _ | _, Err e => Err e
  end.

(** The transaction of an adjustment. *)
Definition adjust_tx (s : session) (userID : string) (b : adjustment) : prog pg (tx_step reply) :=
  let* current := try (stmt (select (select_balance userID))) in
  match current with
  | Err _ => ret (Abandon (problem 404 "user"))
  | Ok current =>
      let updated := add64 current (aj_amount b) in
      if updated <? 0 then ret (Abandon (problem 409 "negative-balance")) else
      let reason := TrimSpace (aj_reason b) in
      let* id := random_uuid in
      let key := "admin-adjustment:" +:+ id in
      committing (
        stmt (set_balance updated userID) ;;;
        stmt (insert_ledger userID (aj_amount b) updated reason (ss_UserID s) key) ;;;
        stmt (insert_audit (ss_UserID s) "wallet.adjust" userID reason) ;;;
        ret (balance_reply 200 updated)) (problem 500 "ledger")
  end.

Definition adjustWallet (s : session) (userID : string) (body : option json) : prog pg reply :=
  let* roles := try (pool (select (two_roles (ss_UserID s) userID))) in
  let '(actorRole, targetRole) := match roles with Ok p => p | Err _ => ("", "") end in
  if String.eqb actorRole "support" && negb (String.eqb targetRole "") then ret (problem 403 "admin-wallet") else
  match decode_adjustment body with
  | None => ret (problem 400 "wallet-adjustment")
  | Some b =>
      if (aj_amount b =? 0) || (String.length (TrimSpace (aj_reason b)) <? 3)%nat
      then ret (problem 400 "wallet-adjustment")
      else transact (problem 500 "db") (adjust_tx s userID b)
  end.

(** ** Changing the plan *)

(** The body's [plan]. *)
Definition decode_plan : option json -> option string :=
  decode_request ["plan"] (dec_struct (fun m old => field "plan" dec_string m old)) "".

Definition select_subscription (userID : string) (t : ctables) : result (subscription_row * Z) :=
  match canonical_uuid userID with
  | Err e => Err e
  | Ok user =>
      match c_subscriptions t !! user, c_wallets t !! user with
      | Some sub, Some balance => Ok (sub, balance)
      | _, _ => Err (SqlErr SqlNoRows)
      end
  end.
Definition select_plan (code : string) (t : ctables) : result plan_row :=
  if negb (pg_text code) then Err (SqlErr SqlFault) else
  match c_plans t !! code with Some p => Ok p | None => Err (SqlErr SqlNoRows) end.

Definition terms (code : string) (p : plan_row) : PlanTerms :=
  mkPlanTerms code (pl_price p) (pl_quota p) (mul64 (pl_period_seconds p) second).

Definition update_subscription (f : subscription_row -> subscription_row) (user : string) (t : ctables) : ctables :=
  with_subscriptions (alter f user) t.

(** The two commands of one statement: the balance and the subscription. *)
Definition pay (balance : Z) (userID : string) (f : subscription_row -> subscription_row) (t : ctables)
    : result (unit * ctables) :=
  match set_balance balance userID t, canonical_uuid userID with
  | Ok (_, t1), Ok user => Ok (tt, update_subscription f user t1)
  | Err e, _ | _, Err e => Err e
  end.

Definition renew_row (ends : time) (quota : Z) (s : subscription_row) : subscription_row :=
  mkSubscriptionRow (sb_plan s) None "active" (sb_started s) (Some ends) None quota (sb_used s).
Definition upgrade_row (plan : string) (started ends : time) (quota : Z) (currentCode : string)
    (s : subscription_row) : subscription_row :=
  mkSubscriptionRow plan None "active" (Some started) (Some ends) None quota
    (if String.eqb currentCode "TRIAL" then 0 else sb_used s).

Definition pending_row (plan : string) (s : subscription_row) : subscription_row :=
  mkSubscriptionRow (sb_plan s) (Some plan) (sb_status s) (sb_started s) (sb_ends s) (sb_grace s) (sb_quota s) (sb_used s).
(** [UPDATE subscriptions SET pending_plan_code=$1]; the plan must exist. *)
Definition set_pending (plan userID : string) (t : ctables) : result (unit * ctables) :=
  match canonical_uuid userID, c_plans t !! plan with
  | Ok user, Some _ =>
      Ok (tt, update_subscription (pending_row plan) user t)
  | Ok _, None => Err (SqlErr SqlConstraint)
  | Err e, _ => Err e
  end.

Definition paidPeriod : Z := 30 * 24 * hour.

Definition plan_reply (action plan : string) (charged balance quota : Z) (ends : time) : reply :=
  jsonResponse 200 (ends ← jtime ends;
    Some (JObj [("action", JStr action); ("balanceKopecks", jint balance); ("chargedKopecks", jint charged);
                ("periodEndsAt", ends); ("plan", JStr plan); ("quotaBytes", jint quota)])).
Definition pending_reply (plan pending : string) (applies : option time) : reply :=
  jsonResponse 202 (applies ← match applies with Some a => jtime a | None => Some JNull end;
    Some (JObj [("appliesAt", applies); ("pendingPlan", JStr pending); ("plan", JStr plan)])).

(** The answer of the transaction, and whether the devices are to be provisioned
    after it. *)
Abbreviation plan_step := (tx_step (reply * bool)).
Definition refuse (status : Z) (kind : string) : prog pg plan_step := ret (Abandon (problem status kind, false)).

(** The same paid plan while it is running: one more period. *)
Definition renew_plan (s : session) (now : time) (sub : subscription_row) (balance : Z) (next : PlanTerms)
    : prog pg plan_step :=
  if balance <? pt_PriceKopecks next then refuse 409 "balance" else
  let periodEnd := match sb_ends sub with
                   | Some ends => if After ends now then ends else now
                   | None => now
                   end in
  let periodEnd := TimeAdd periodEnd (pt_Duration next) in
  let newBalance := sub64 balance (pt_PriceKopecks next) in
  let newQuota := add64 (sb_quota sub) (pt_QuotaBytes next) in
  let* id := random_uuid in
  committing (
    stmt (checked SeveralCommands (pay newBalance (ss_UserID s) (renew_row periodEnd newQuota))) ;;;
    stmt (insert_ledger (ss_UserID s) (wrap64 (- pt_PriceKopecks next)) newBalance
            ("Продление тарифа " +:+ sb_plan sub) (ss_UserID s) ("plan-renewal:" +:+ id)) ;;;
    stmt (checked UntypedParameter (insert_audit (ss_UserID s) "subscription.renew" (ss_UserID s) "user request")) ;;;
    ret (plan_reply "renewed" (sb_plan sub) (pt_PriceKopecks next) newBalance newQuota periodEnd, false))
    (problem 500 "billing", false).

(** A cheaper plan while one is running: taken at the end of the period. *)
Definition schedule_downgrade (s : session) (plan : string) (sub : subscription_row) : prog pg plan_step :=
  committing (
    stmt (set_pending plan (ss_UserID s)) ;;;
    stmt (checked UntypedParameter (insert_audit (ss_UserID s) "subscription.downgrade" (ss_UserID s) "user request")) ;;;
    ret (pending_reply (sb_plan sub) plan (sb_ends sub), false)) (problem 500 "db", false).

(** The price, the quota and the period of an upgrade or a first purchase; [None]
    when the computation panics. *)
Definition offer (now : time) (sub : subscription_row) (current next : PlanTerms)
    : option (Z * Z * time * time) :=
  match sb_ends sub with
  | Some ends =>
      if String.eqb (sb_status sub) "active" && negb (String.eqb (sb_plan sub) "TRIAL") then
        '(cost, quota) ← ProrateUpgrade current next now ends;
        Some (cost, add64 (sb_quota sub) quota, default now (sb_started sub), ends)
      else Some (pt_PriceKopecks next, pt_QuotaBytes next, now, TimeAdd now paidPeriod)
  | None => Some (pt_PriceKopecks next, pt_QuotaBytes next, now, TimeAdd now paidPeriod)
  end.

Definition upgrade_plan (s : session) (now : time) (plan : string) (sub : subscription_row) (balance : Z)
    (current next : PlanTerms) : prog pg plan_step :=
  match offer now sub current next with
  | None => ret (Abandon (panicked, false))
  | Some (cost, quota, periodStart, periodEnd) =>
      if balance <? cost then refuse 409 "balance" else
      let newBalance := sub64 balance cost in
      let* id := random_uuid in
      committing (
        stmt (checked SeveralCommands (pay newBalance (ss_UserID s)
                (upgrade_row plan periodStart periodEnd quota (sb_plan sub)))) ;;;
        stmt (insert_ledger (ss_UserID s) (wrap64 (- cost)) newBalance
                ("Смена тарифа " +:+ sb_plan sub +:+ " → " +:+ plan) (ss_UserID s) ("plan:" +:+ id)) ;;;
        stmt (checked UntypedParameter (insert_audit (ss_UserID s) "subscription.upgrade" (ss_UserID s) "user request")) ;;;
        ret (plan_reply "upgraded" plan cost newBalance quota periodEnd, true)) (problem 500 "billing", false)
  end.

(** The transaction of [changePlan]; [now] is the clock reading of the program. *)
Definition change_plan_tx (s : session) (now : time) (plan : string) : prog pg plan_step :=
  let* row := try (stmt (select (select_subscription (ss_UserID s)))) in
  match row with
  | Err _ => refuse 404 "subscription"
  | Ok (sub, balance) =>
      let* plans := try (let* current := stmt (select (select_plan (sb_plan sub))) in
                         let* next := stmt (select (select_plan plan)) in
                         ret (current, next)) in
      match plans with
      | Err _ => refuse 400 "plan"
      | Ok (p, q) =>
          let current := terms (sb_plan sub) p in
          let next := terms plan q in
          if String.eqb plan (sb_plan sub) && negb (String.eqb (sb_plan sub) "TRIAL")
             && String.eqb (sb_status sub) "active"
          then renew_plan s now sub balance next else
          if (pt_PriceKopecks next <? pt_PriceKopecks current) && String.eqb (sb_status sub) "active"
          then schedule_downgrade s plan sub
          else upgrade_plan s now plan sub balance current next
      end
  end.

Context {ED : Ed25519} {MO : MapOrder}.

Definition changePlan (quotaPrivateKey : string) (clock : string -> time * time) (leaseID : string -> string)
    (s : session) (now : time) (body : option json) : prog pg reply :=
  match decode_plan body with
  | None => ret (problem 400 "plan")
  | Some plan =>
      if String.eqb plan "" || String.eqb plan "TRIAL" then ret (problem 400 "plan") else
      let* out := transact (problem 500 "db", false) (change_plan_tx s now plan) in
      let '(answer, provision) := out in
      if (provision : bool) then
        let* _ := try (provisionUserDevices quotaPrivateKey clock leaseID (ss_UserID s)) in ret answer
      else ret answer
  end.

(** ** The books *)

(** The rows of a user, and the balance that they run to from [b]: [None] when a
    row does not continue from the one before it or goes below zero. *)
Definition entries (u : string) (t : ctables) : list ledger_row := filter (fun r => lg_user r = u) (c_ledger t).
Fixpoint running (b : Z) (rows : list ledger_row) : option Z :=
  match rows with
  | [] => Some b
  | r :: rows => if (lg_balance_after r =? b + lg_amount r) && (0 <=? lg_balance_after r)
                 then running (lg_balance_after r) rows else None
  end.
Definition ledger_total (rows : list ledger_row) : Z := foldr (fun r acc => lg_amount r + acc) 0 rows.

Record books (t : ctables) : Prop := {
  bk_running : forall u, running 0 (entries u t) = Some (default 0 (c_wallets t !! u));
  bk_range : forall u b, c_wallets t !! u = Some b -> 0 <= b <= int64_max;
  bk_amounts : Forall (fun r => lg_amount r <> 0) (c_ledger t);
  bk_keys : NoDup (lg_key <$> c_ledger t) }.

(** [t'] is [t] with one row posted: the balance of its user moved by its amount. *)
Record posted (row : ledger_row) (t t' : ctables) : Prop := {
  po_balance : exists b, c_wallets t !! lg_user row = Some b /\ lg_balance_after row = b + lg_amount row;
  po_range : 0 <= lg_balance_after row <= int64_max;
  po_amount : lg_amount row <> 0;
  po_fresh : lg_key row ∉ lg_key <$> c_ledger t;
  po_wallets : c_wallets t' = <[lg_user row := lg_balance_after row]> (c_wallets t);
  po_ledger : c_ledger t' = c_ledger t ++ [row] }.

Lemma running_app b rows1 rows2 : running b (rows1 ++ rows2) = running b rows1 ≫= fun b' => running b' rows2.
Proof. revert b. induction rows1 as [|r rows1 IH]; intros b; simpl; [done|]. destruct (_ && _); [apply IH|done]. Qed.
Lemma running_total b rows b' : running b rows = Some b' -> b' = b + ledger_total rows.
Proof.
  revert b. induction rows as [|r rows IH]; intros b; simpl; [intros [= <-]; lia|].
  destruct (_ =? _) eqn:E; [|done]. simpl. destruct (0 <=? _); [|done]. intros H%IH. lia.
Qed.

Lemma posted_books row t t' : books t -> posted row t t' -> books t'.
Proof.
  intros [Hrun Hrange Ham Hkeys] [(b & Hb & Hafter) Hr Hne Hfresh Hw Hl]. split.
  - intros u. unfold entries. rewrite Hl, Hw, filter_app, running_app. specialize (Hrun u).
    unfold entries in Hrun. rewrite Hrun. simpl. destruct (decide (u = lg_user row)) as [->|Hu].
    + rewrite Hb, filter_cons_True, filter_nil by done. simpl.
      rewrite (proj2 (Z.eqb_eq _ _) Hafter), (proj2 (Z.leb_le _ _)) by lia. simpl. by rewrite lookup_insert, decide_True.
    + rewrite filter_cons_False, filter_nil by done. simpl. by rewrite lookup_insert_ne.
  - intros u b'. rewrite Hw. destruct (decide (u = lg_user row)) as [->|Hu].
    + rewrite lookup_insert, decide_True by done. intros [= <-]. done.
    + rewrite lookup_insert_ne by done. apply Hrange.
  - rewrite Hl. apply Forall_app. by split; [|apply Forall_singleton].
  - rewrite Hl, fmap_app, (comm (++)). simpl. apply NoDup_cons. done.
Qed.

(** What the books are about, and the rest that matters to them. *)
Definition money (t : ctables) := (c_wallets t, c_ledger t).
Lemma money_books t t' : money t' = money t -> books t -> books t'.
Proof.
  unfold money. intros [= Hw Hl] [H1 H2 H3 H4]. split; [|by rewrite Hw|by rewrite Hl|by rewrite Hl].
  intros u. unfold entries. rewrite Hl, Hw. apply H1.
Qed.

(** [moved t t']: nothing happened to the money, or one row was posted. *)
Definition moved (t t' : ctables) : Prop := money t' = money t \/ exists row, posted row t t'.
Lemma moved_books t t' : moved t t' -> books t -> books t'.
Proof. intros [H|[row H]] Hb; [by eapply money_books|by eapply posted_books]. Qed.

(** ** What the statements do *)

Lemma key_taken_spec key t : key_taken key t = false <-> key ∉ lg_key <$> c_ledger t.
Proof.
  unfold key_taken. rewrite <- not_true_iff_false, existsb_exists, list_elem_of_fmap. apply not_iff_compat. split.
  - intros (r & Hr & Hk%String.eqb_eq). exists r. split; [done|by apply list_elem_of_In].
  - intros (r & -> & Hr). exists r. rewrite String.eqb_refl. split; [by apply list_elem_of_In|done].
Qed.
Lemma ledger_checks_ok r t :
  ledger_checks r t = true <->
  lg_amount r <> 0 /\ 0 <= lg_balance_after r /\ 3 <= char_length (lg_reason r) /\ is_Some (c_users t !! lg_user r)
  /\ (forall actor, lg_actor r = Some actor -> is_Some (c_users t !! actor)).
Proof.
  unfold ledger_checks. rewrite !andb_true_iff, negb_true_iff, Z.eqb_neq, !Z.leb_le, bool_decide_eq_true.
  destruct (lg_actor r) as [actor|]; [rewrite bool_decide_eq_true|]; naive_solver.
Qed.
Lemma insert_ledger_ok userID amount after reason actorID key t a t' :
  insert_ledger userID amount after reason actorID key t = Ok (a, t') ->
  exists user actor, canonical_uuid userID = Ok user /\ canonical_uuid actorID = Ok actor
    /\ amount <> 0 /\ 0 <= after /\ 3 <= char_length reason /\ key ∉ lg_key <$> c_ledger t
    /\ t' = with_ledger (fun l => l ++ [mkLedgerRow user amount after reason (Some actor) key]) t.
Proof.
  unfold insert_ledger. destruct (canonical_uuid userID) as [user|]; [|done].
  destruct (canonical_uuid actorID) as [actor|]; [|done]. destruct (negb (pg_text _ && _)); [done|].
  destruct (ledger_checks _ t && negb _) eqn:E; [|done]. intros [= _ <-]. exists user, actor.
  apply andb_true_iff in E as [E Hkey%negb_true_iff]. apply ledger_checks_ok in E as (H1 & H2 & H3 & _).
  split_and!; [done..| |done]. by apply key_taken_spec.
Qed.

(** A balance that a statement has set, and the row posted for it. *)
Lemma post_ok userID user b amount after reason actorID key t t1 t2 a :
  canonical_uuid userID = Ok user -> c_wallets t !! user = Some b -> after = b + amount -> after <= int64_max ->
  c_ledger t1 = c_ledger t -> c_wallets t1 = <[user := after]> (c_wallets t) ->
  insert_ledger userID amount after reason actorID key t1 = Ok (a, t2) ->
  exists actor, canonical_uuid actorID = Ok actor
    /\ posted (mkLedgerRow user amount after reason (Some actor) key) t t2
    /\ t2 = with_ledger (fun l => l ++ [mkLedgerRow user amount after reason (Some actor) key]) t1.
Proof.
  intros Hu Hb Hafter Hmax Hl Hw H.
  apply insert_ledger_ok in H as (user' & actor & Hu' & Ha & Hne & Hpos & _ & Hfresh & ->).
  rewrite Hu in Hu'. injection Hu' as <-. rewrite Hl in Hfresh. exists actor. split_and!; [done| |done].
  split; simpl; [by exists b|lia|done|done|done|by rewrite Hl].
Qed.

Lemma credit_balance_ok amount userID t after t' :
  credit_balance amount userID t = Ok (after, t') ->
  exists user b, canonical_uuid userID = Ok user /\ c_wallets t !! user = Some b /\ after = b + amount
    /\ 0 <= after <= int64_max /\ t' = with_wallets (insert user after) t.
Proof.
  unfold credit_balance. destruct (canonical_uuid userID) as [user|]; [|done].
  destruct (c_wallets t !! user) as [b|] eqn:Eb; [|done]. unfold bigint. destruct (in_int64 _) eqn:Ei; [|done].
  destruct (Z.ltb_spec (b + amount) 0); [done|]. intros [= <- <-]. exists user, b.
  apply in_int64_spec in Ei. split_and!; done || lia.
Qed.
Lemma select_balance_ok userID t b :
  select_balance userID t = Ok b -> exists user, canonical_uuid userID = Ok user /\ c_wallets t !! user = Some b.
Proof.
  unfold select_balance. destruct (canonical_uuid userID) as [user|]; [|done].
  destruct (c_wallets t !! user) eqn:E; [|done]. intros [= <-]. eauto.
Qed.
Lemma set_balance_ok balance userID user t a t' :
  canonical_uuid userID = Ok user -> is_Some (c_wallets t !! user) ->
  set_balance balance userID t = Ok (a, t') -> 0 <= balance /\ t' = with_wallets (insert user balance) t.
Proof.
  unfold set_balance. intros -> [b ->]. destruct (Z.ltb_spec balance 0); [done|]. by intros [= _ <-].
Qed.
Lemma pay_ok balance userID user f t a t' :
  canonical_uuid userID = Ok user -> is_Some (c_wallets t !! user) -> pay balance userID f t = Ok (a, t') ->
  0 <= balance /\ t' = update_subscription f user (with_wallets (insert user balance) t).
Proof.
  intros Hu Hw. unfold pay. destruct (set_balance balance userID t) as [[a' t1]|] eqn:E; [|done].
  apply (set_balance_ok _ _ user) in E as [H ->]; [|done..]. rewrite Hu. by intros [= _ <-].
Qed.


(** ** What the handlers do to the books *)

(** The tables that plan changes read beside the money. *)
Definition catalogue (t : ctables) := (c_users t, c_plans t, c_subscriptions t).

Lemma creditWallet_effect s userID body st r st' :
  creditWallet s userID body st = (r, st') ->
  (cp st' = cp st /\ (r = Ok (problem 400 "invalid-credit") \/ r = Ok (problem 500 "db") \/ r = Ok (problem 409 "ledger")))
  \/ exists c user actor key row, decode_credit body = Some c /\ 0 < cr_amount c
       /\ canonical_uuid userID = Ok user /\ canonical_uuid (ss_UserID s) = Ok actor
       /\ (cr_key c <> "" -> key = cr_key c) /\ (cr_key c = "" -> key = default "" (head (uuids st)))
       /\ row = mkLedgerRow user (cr_amount c) (lg_balance_after row) (TrimSpace (cr_reason c)) (Some actor) key
       /\ posted row (cp st) (cp st') /\ catalogue (cp st') = catalogue (cp st)
       /\ (r = Ok (balance_reply 201 (lg_balance_after row)) \/ r = Ok (problem 409 "ledger")).
Proof.
  unfold creditWallet. destruct (decode_credit body) as [c|]; [|intros [= <- <-]; auto].
  destruct (Z.leb_spec (cr_amount c) 0); [intros [= <- <-]; auto|]. cbn [orb].
  destruct (_ <? 3)%nat; [intros [= <- <-]; auto|].
  set (pick := if String.eqb (cr_key c) "" then random_uuid else ret (cr_key c)).
  assert (Hp : exists key s0, pick st = (Ok key, s0) /\ cp s0 = cp st /\ (cr_key c <> "" -> key = cr_key c)
             /\ (cr_key c = "" -> key = default "" (head (uuids st)))).
  { unfold pick. destruct (String.eqb_spec (cr_key c) ""); eexists _, _; split_and!; done. }
  destruct Hp as (key & s0 & Hp & Hcp & Hk1 & Hk2). intros Hrun. unfold bind at 1 in Hrun. rewrite Hp in Hrun.
  apply transact_committing in Hrun as [[Ht Hr] | (s1 & s2 & answer & Hs1 & Hm & Ht & Hr)]; rewrite Hcp in *.
  - left. split; [done|]. destruct Hr; auto.
  - apply bind_done in Hm as (balance & sa & E1%stmt_ok & Hm). destruct E1 as (_ & _ & t1 & E1 & Ht1).
    apply credit_balance_ok in E1 as (user & b & Hu & Hb & Hafter & Hrange & ->).
    apply bind_done in Hm as ([] & sb & E2%stmt_ok & Hm). destruct E2 as (_ & _ & t2 & E2 & Ht2). rewrite Ht1 in E2.
    apply bind_done in Hm as ([] & sc & E3%stmt_ok & [= <- <-]). destruct E3 as (_ & _ & t3 & E3 & Ht3).
    eapply (post_ok _ user b) in E2 as (actor & Hactor & Hpost & ->); [|done..|lia|done|done].
    rewrite Ht2 in E3. apply insert_audit_ok in E3 as [row ->]. rewrite Hs1 in *. right.
    exists c, user, actor, key, (mkLedgerRow user (cr_amount c) balance (TrimSpace (cr_reason c)) (Some actor) key).
    split_and!; [done|lia|done..| | |exact Hr]; [|by rewrite Ht, Ht3].
    rewrite Ht, Ht3. destruct Hpost. by split.
Qed.

Lemma committing_cases {R} (m : prog pg R) failed s :
  match committing m failed s with
  | (Ok (Commit answer f), s') => m s = (Ok answer, s') /\ f = failed
  | (Ok (Abandon r), _) => r = failed
  | (Err _, _) => False
  end.
Proof. unfold committing, bind, try. destruct (m s) as [[r|e] s1]; done. Qed.

Lemma add64_id a b : int64_min <= a + b <= int64_max -> add64 a b = a + b.
Proof. intros H. apply wrap64_id. by apply in_int64_spec. Qed.

(** Sums of two int64 that wrap change sign, so a wrapped balance is refused. *)
Lemma add64_nonneg a b : 0 <= a <= int64_max -> in_int64 b = true -> 0 <= add64 a b ->
  add64 a b = a + b.
Proof.
  intros Ha Hb%in_int64_spec H. unfold int64_min, int64_max in *.
  destruct (Z.le_gt_cases (a + b) int64_max) as [Hle|Hgt].
  - apply add64_id. unfold int64_min, int64_max in *. lia.
  - exfalso. unfold int64_max in Hgt. revert H. unfold add64, wrap64.
    replace ((a + b + 2 ^ 63) mod 2 ^ 64) with (a + b + 2 ^ 63 - 2 ^ 64); [lia|].
    apply Zmod_unique with (q := 1); lia.
Qed.

Lemma decode_adjustment_range body b : decode_adjustment body = Some b -> in_int64 (aj_amount b) = true.
Proof.
  unfold decode_adjustment, decode_request. destruct body as [j|]; [|done]. destruct (known_fields _ _); [|done].
  destruct j; try done; cbn [dec_struct]; [by intros [= <-]|].
  destruct (field "amountKopecks" _ _ _) as [amount|] eqn:E; [|done]. cbn.
  destruct (field "reason" _ _ _); [|done]. intros [= <-]. cbn.
  eapply (field_inv (fun z => in_int64 z = true)); [apply dec_int_range|exact E|done].
Qed.

Lemma adjust_tx_commit s userID b s1 answer failed s2 :
  books (cp s1) -> in_int64 (aj_amount b) = true ->
  adjust_tx s userID b s1 = (Ok (Commit answer failed), s2) ->
  exists user actor row, canonical_uuid userID = Ok user /\ canonical_uuid (ss_UserID s) = Ok actor
    /\ row = mkLedgerRow user (aj_amount b) (lg_balance_after row) (TrimSpace (aj_reason b)) (Some actor)
               ("admin-adjustment:" +:+ default "" (head (uuids s1)))
    /\ posted row (cp s1) (cp s2) /\ catalogue (cp s2) = catalogue (cp s1)
    /\ answer = balance_reply 200 (lg_balance_after row) /\ failed = problem 500 "ledger".
Proof.
  intros Hbooks Hin H. unfold adjust_tx in H. apply bind_done in H as (current & sa & E1%try_done & H).
  destruct current as [current|e]; [|done].
  assert (Hu1 : uuids sa = uuids s1).
  { unfold stmt in E1. destruct (aborted s1); [done|]. destruct (next_outcome s1); [|done|done].
    destruct (select _ _) as [[? ?]|]; [|done]. by injection E1 as _ <-. }
  apply stmt_select_ok in E1 as [E1 Hsa]. apply select_balance_ok in E1 as (user & Hu & Hw).
  destruct (Z.ltb_spec (add64 current (aj_amount b)) 0) as [|Hpos]; [done|].
  pose proof (bk_range _ Hbooks _ _ Hw) as Hrange.
  pose proof (add64_nonneg current (aj_amount b) Hrange Hin Hpos) as Hsum.
  pose proof (wrap64_range (current + aj_amount b)) as Hmax%in_int64_spec.
  fold (add64 current (aj_amount b)) in Hmax. rewrite Hsum in *.
  apply bind_done in H as (id & sb & [= <- <-] & H). apply committing_commit in H as [H ->].
  apply bind_done in H as ([] & sc & E2%stmt_ok & H). destruct E2 as (_ & _ & t1 & E2 & Ht1). cbn [cp] in E2.
  rewrite Hsa in E2. eapply (set_balance_ok _ _ user) in E2 as [_ ->]; [|done|by rewrite Hw].
  apply bind_done in H as ([] & sd & E3%stmt_ok & H). destruct E3 as (_ & _ & t2 & E3 & Ht2). rewrite Ht1 in E3.
  eapply (post_ok _ user current) in E3 as (actor & Ha & Hpost & ->); [|done|done|done|lia|done|done].
  apply bind_done in H as ([] & se & E4%stmt_ok & [= <- <-]). destruct E4 as (_ & _ & t3 & E4 & Ht3).
  rewrite Ht2 in E4. apply insert_audit_ok in E4 as [row ->].
  eexists user, actor, _. split_and!; [done|done| |destruct Hpost; rewrite Ht3; by split| |done|done];
    [by rewrite Hu1|by rewrite Ht3].
Qed.


Lemma adjustWallet_effect s userID body st r st' :
  books (cp st) -> adjustWallet s userID body st = (r, st') ->
  (cp st' = cp st /\ is_problem r)
  \/ exists b user actor id row, decode_adjustment body = Some b
       /\ canonical_uuid userID = Ok user /\ canonical_uuid (ss_UserID s) = Ok actor
       /\ row = mkLedgerRow user (aj_amount b) (lg_balance_after row) (TrimSpace (aj_reason b)) (Some actor)
                  ("admin-adjustment:" +:+ id)
       /\ posted row (cp st) (cp st') /\ catalogue (cp st') = catalogue (cp st)
       /\ (r = Ok (balance_reply 200 (lg_balance_after row)) \/ r = Ok (problem 500 "ledger")).
Proof.
  intros Hbooks H. assert (Hp : forall status kind, is_problem (Ok (problem status kind))) by (intros; eexists _, _; reflexivity).
  unfold adjustWallet in H. unfold bind at 1, try in H. destruct (pool _ st) as [roles s0] eqn:E0.
  apply pool_select_ok in E0 as [Hs0 _]. destruct (match roles with Ok p => p | Err _ => _ end) as [ar tr].
  destruct (String.eqb ar "support" && _); [injection H as <- <-; auto|].
  destruct (decode_adjustment body) as [b|] eqn:Eb; [|injection H as <- <-; auto].
  pose proof (decode_adjustment_range _ _ Eb) as Hin.
  destruct (_ || _) in H; [injection H as <- <-; auto|]. rewrite <- Hs0 in *.
  apply transact_cases in H as [[Ht Hr] | (s1 & s2 & answer & failed & Hs1 & Hm & Ht & Hr)].
  - left. split; [done|]. destruct Hr as [->|(s1 & s2 & Hs1 & Hr)]; [done|]. unfold adjust_tx, bind at 1, try in Hr.
    destruct (stmt _ s1) as [[current|e] sa]; cbn [ret] in Hr; [|by destruct Hr as [-> _]].
    destruct (_ <? 0) in Hr; [by destruct Hr as [-> _]|]. unfold bind at 1, random_uuid in Hr.
    match type of Hr with context [committing ?m ?f ?s] => pose proof (committing_cases m f s) as Hc;
      destruct (committing m f s) as [[[r0|answer failed]|e] s3] end; [| |done].
    + destruct Hr as [-> _]. by rewrite Hc.
    + destruct Hr as [-> _]. destruct Hc as [_ ->]. done.
  - rewrite <- Hs1, Ht in *. eapply adjust_tx_commit in Hm as (user & actor & row & Hu & Ha & Hrow & Hpost & Hcat & -> & ->);
      [|done..]. right. exists b, user, actor, (default "" (head (uuids s1))), row. done.
Qed.

(** ** What a plan change does *)

(** The CHECK on the price, and the range of the column. *)
Definition plans_ok (t : ctables) : Prop := forall code p, c_plans t !! code = Some p -> 0 <= pl_price p <= int64_max.

Definition renewal_end (now : time) (sub : subscription_row) (q : plan_row) : time :=
  Z.max now (default now (sb_ends sub)) + mul64 (pl_period_seconds q) second.

Lemma renewal_end_eq now sub q :
  TimeAdd (match sb_ends sub with Some ends => if After ends now then ends else now | None => now end)
    (mul64 (pl_period_seconds q) second) = renewal_end now sub q.
Proof.
  unfold TimeAdd, renewal_end. f_equal. destruct (sb_ends sub) as [e|]; simpl; [|lia].
  unfold After. destruct (Z.ltb_spec now e); lia.
Qed.

(** The effects of a committed plan change on the subscription [sub] of [user],
    with [balance] in the wallet, [p] the current and [q] the chosen plan. *)
Inductive plan_changed (now : time) (plan user : string) (sub : subscription_row) (balance : Z) (p q : plan_row)
    (t t' : ctables) : Prop :=
  | Renewed row :
      plan = sb_plan sub -> plan <> "TRIAL" -> sb_status sub = "active" ->
      posted row t t' -> lg_user row = user -> lg_amount row = - pl_price q -> HasPrefix (lg_key row) "plan" = true ->
      c_subscriptions t' = <[user := renew_row (renewal_end now sub q) (add64 (sb_quota sub) (pl_quota q)) sub]> (c_subscriptions t) ->
      plan_changed now plan user sub balance p q t t'
  | Scheduled :
      sb_status sub = "active" -> pl_price q < pl_price p -> money t' = money t ->
      c_subscriptions t' = <[user := pending_row plan sub]> (c_subscriptions t) ->
      plan_changed now plan user sub balance p q t t'
  | Upgraded row cost quota started ends :
      offer now sub (terms (sb_plan sub) p) (terms plan q) = Some (cost, quota, started, ends) ->
      (sb_status sub = "active" -> plan <> sb_plan sub /\ pl_price p <= pl_price q) ->
      posted row t t' -> lg_user row = user -> lg_amount row = - cost -> HasPrefix (lg_key row) "plan" = true ->
      c_subscriptions t' = <[user := upgrade_row plan started ends quota (sb_plan sub) sub]> (c_subscriptions t) ->
      plan_changed now plan user sub balance p q t t'.

Lemma ProrateUpgrade_cost current next now ends cost quota :
  0 <= pt_PriceKopecks next -> ProrateUpgrade current next now ends = Some (cost, quota) -> 0 <= cost.
Proof.
  intros Hp. unfold ProrateUpgrade. destruct (_ || _); [by intros [= <- _]|].
  destruct (_ =? 0); [done|]. intros [= <- _]. by destruct (Z.ltb_spec (quot64 (mul64 (sub64 (pt_PriceKopecks next) (pt_PriceKopecks current))
    (quot64 (if pt_Duration current <? TimeSub ends now then pt_Duration current else TimeSub ends now) second)) (quot64 (pt_Duration current) second)) 0).
Qed.
Lemma offer_cost now sub current next cost quota started ends :
  0 <= pt_PriceKopecks next -> offer now sub current next = Some (cost, quota, started, ends) -> 0 <= cost.
Proof.
  intros Hp. unfold offer. destruct (sb_ends sub) as [e|]; [|by intros [= <- _ _ _]].
  destruct (_ && _); [|by intros [= <- _ _ _]].
  destruct (ProrateUpgrade _ _ _ _) as [[c0 q0]|] eqn:E; [|done]. intros [= <- _ _ _].
  by eapply ProrateUpgrade_cost.
Qed.

(** A payment and its row: the balance goes from [b] to [b - cost]. *)
Lemma pay_and_post s s1 s2 s3 user b cost f reason key a1 a2 :
  canonical_uuid (ss_UserID s) = Ok user -> c_wallets (cp s1) !! user = Some b ->
  0 <= b <= int64_max -> 0 <= cost <= b ->
  stmt (checked SeveralCommands (pay (sub64 b cost) (ss_UserID s) f)) s1 = (Ok a1, s2) ->
  stmt (insert_ledger (ss_UserID s) (wrap64 (- cost)) (sub64 b cost) reason (ss_UserID s) key) s2 = (Ok a2, s3) ->
  accepts SeveralCommands = true
  /\ exists row, posted row (cp s1) (cp s3) /\ lg_user row = user /\ lg_amount row = - cost /\ lg_key row = key
       /\ cp s3 = with_ledger (fun l => l ++ [row])
            (update_subscription f user (with_wallets (insert user (b - cost)) (cp s1))).
Proof.
  intros Hu Hb Hrange Hcost (_ & _ & t1 & [Hacc E1]%checked_ok & H1)%stmt_ok (_ & _ & t2 & E2 & H2)%stmt_ok.
  assert (Hsub : sub64 b cost = b - cost).
  { apply wrap64_id, in_int64_spec. unfold int64_min, int64_max in *. lia. }
  assert (Hneg : wrap64 (- cost) = - cost).
  { apply wrap64_id, in_int64_spec. unfold int64_min, int64_max in *. lia. }
  rewrite Hsub in *. rewrite Hneg in *. split; [done|].
  eapply (pay_ok _ _ user) in E1 as [Hpos ->]; [|done|by rewrite Hb]. subst t2. rewrite H1 in E2.
  eapply (post_ok _ user b) in E2 as (actor & _ & Hpost & E); [|done|done|lia|lia|done|done].
  eexists. split_and!; [exact Hpost|done..|exact E].
Qed.

Lemma alter_present {A} (f : A -> A) k (m : gmap string A) x : m !! k = Some x -> alter f k m = <[k := f x]> m.
Proof.
  intros Hk. apply map_eq. intros k'. destruct (decide (k' = k)) as [->|Hne].
  - by rewrite lookup_alter, decide_True, Hk, lookup_insert, decide_True.
  - by rewrite lookup_alter_ne, lookup_insert_ne.
Qed.

Section Commits.
Context (s : session) (now : time) (plan user : string) (sub : subscription_row) (balance : Z) (p q : plan_row).
Context (s1 s2 : pg) (answer failed : reply * bool).
Context (Huser : canonical_uuid (ss_UserID s) = Ok user).
Context (Hsub : c_subscriptions (cp s1) !! user = Some sub).
Context (Hbal : c_wallets (cp s1) !! user = Some balance) (Hrange : 0 <= balance <= int64_max).
Context (Hq : 0 <= pl_price q).

Definition same_catalogue (t t' : ctables) : Prop := c_users t' = c_users t /\ c_plans t' = c_plans t.

Lemma renew_plan_commit :
  plan = sb_plan sub -> plan <> "TRIAL" -> sb_status sub = "active" ->
  renew_plan s now sub balance (terms plan q) s1 = (Ok (Commit answer failed), s2) ->
  accepts SeveralCommands = true /\ plan_changed now plan user sub balance p q (cp s1) (cp s2)
  /\ same_catalogue (cp s1) (cp s2)
  /\ answer = (plan_reply "renewed" plan (pl_price q) (balance - pl_price q) (add64 (sb_quota sub) (pl_quota q))
                 (renewal_end now sub q), false).
Proof.
  intros Hp Ht Ha H. unfold renew_plan in H. cbn [pt_PriceKopecks pt_Duration pt_QuotaBytes terms] in H.
  destruct (Z.ltb_spec balance (pl_price q)) as [|Hle]; [done|].
  apply bind_done in H as (id & sb & [= <- <-] & H). apply committing_commit in H as [H _].
  apply bind_done in H as (a1 & sc & E1 & H). apply bind_done in H as (a2 & sd & E2 & H).
  apply bind_done in H as (a3 & se & E3 & [= <- <-]).
  eapply pay_and_post in E2 as (Hacc & row & Hpost & Hu & Ham & Hk & Hcp); [|exact Huser| |done|lia|exact E1]; [|exact Hbal].
  apply stmt_ok in E3 as (_ & _ & t3 & [_ E3]%checked_ok & Ht3). apply insert_audit_ok in E3 as [arow ->].
  rewrite renewal_end_eq in *. cbn [cp] in *. split; [done|]. split_and!; [|split; by rewrite Ht3, Hcp|].
  - eapply (Renewed _ _ _ _ _ _ _ _ _ row); [done..| | | | |].
    + rewrite Ht3. destruct Hpost. by split.
    + done.
    + done.
    + by rewrite Hk.
    + rewrite Ht3, Hcp. unfold update_subscription. cbn [c_subscriptions with_audit with_ledger with_subscriptions with_wallets].
      by apply alter_present.
  - rewrite <- Hp. do 2 f_equal. apply wrap64_id, in_int64_spec. unfold int64_min, int64_max in *. lia.
Qed.

Lemma schedule_downgrade_commit :
  sb_status sub = "active" -> pl_price q < pl_price p ->
  schedule_downgrade s plan sub s1 = (Ok (Commit answer failed), s2) ->
  plan_changed now plan user sub balance p q (cp s1) (cp s2) /\ same_catalogue (cp s1) (cp s2)
  /\ money (cp s2) = money (cp s1) /\ answer = (pending_reply (sb_plan sub) plan (sb_ends sub), false).
Proof.
  intros Ha Hlt H. unfold schedule_downgrade in H. apply committing_commit in H as [H _].
  apply bind_done in H as (a1 & sc & E1 & H). apply bind_done in H as (a2 & sd & E2 & [= <- <-]).
  apply stmt_ok in E1 as (_ & _ & t1 & E1 & Ht1). apply stmt_ok in E2 as (_ & _ & t2 & [_ E2]%checked_ok & Ht2).
  apply insert_audit_ok in E2 as [arow ->]. unfold set_pending in E1. rewrite Huser in E1.
  destruct (c_plans (cp s1) !! plan); [|done]. injection E1 as _ <-. rewrite Ht2, Ht1. split_and!; [|done..].
  eapply Scheduled; [done|done|done|].
  unfold update_subscription. cbn [c_subscriptions with_audit with_subscriptions]. by apply alter_present.
Qed.

Lemma upgrade_plan_commit :
  (sb_status sub = "active" -> plan <> sb_plan sub /\ pl_price p <= pl_price q) ->
  upgrade_plan s now plan sub balance (terms (sb_plan sub) p) (terms plan q) s1 = (Ok (Commit answer failed), s2) ->
  accepts SeveralCommands = true /\ plan_changed now plan user sub balance p q (cp s1) (cp s2)
  /\ same_catalogue (cp s1) (cp s2)
  /\ exists cost quota ends, answer = (plan_reply "upgraded" plan cost (balance - cost) quota ends, true).
Proof.
  intros Hcase H. unfold upgrade_plan in H.
  destruct (offer now sub _ _) as [[[[cost quota] started] ends]|] eqn:Eo; [|done].
  pose proof (offer_cost _ _ _ (terms plan q) _ _ _ _ Hq Eo) as Hcost.
  destruct (Z.ltb_spec balance cost) as [|Hle]; [done|].
  apply bind_done in H as (id & sb & [= <- <-] & H). apply committing_commit in H as [H _].
  apply bind_done in H as (a1 & sc & E1 & H). apply bind_done in H as (a2 & sd & E2 & H).
  apply bind_done in H as (a3 & se & E3 & [= <- <-]).
  eapply pay_and_post in E2 as (Hacc & row & Hpost & Hu & Ham & Hk & Hcp); [|exact Huser| |done|lia|exact E1]; [|exact Hbal].
  apply stmt_ok in E3 as (_ & _ & t3 & [_ E3]%checked_ok & Ht3). apply insert_audit_ok in E3 as [arow ->].
  cbn [cp] in *. split; [done|]. split_and!; [|split; by rewrite Ht3, Hcp|].
  - eapply (Upgraded _ _ _ _ _ _ _ _ _ row); [exact Eo|done|rewrite Ht3; destruct Hpost; by split|done|done|by rewrite Hk|].
    rewrite Ht3, Hcp. unfold update_subscription. cbn [c_subscriptions with_audit with_ledger with_subscriptions with_wallets].
    by apply alter_present.
  - exists cost, quota, ends. do 2 f_equal. apply wrap64_id, in_int64_spec. unfold int64_min, int64_max in *. lia.
Qed.
End Commits.

Lemma select_subscription_ok userID t sub b :
  select_subscription userID t = Ok (sub, b) ->
  exists user, canonical_uuid userID = Ok user /\ c_subscriptions t !! user = Some sub /\ c_wallets t !! user = Some b.
Proof.
  unfold select_subscription. destruct (canonical_uuid userID) as [user|]; [|done].
  destruct (c_subscriptions t !! user) eqn:E1, (c_wallets t !! user) eqn:E2; try done. intros [= -> ->]. eauto.
Qed.
Lemma select_plan_ok code t p : select_plan code t = Ok p -> c_plans t !! code = Some p.
Proof. unfold select_plan. destruct (negb _); [done|]. destruct (c_plans t !! code); [|done]. by intros [= ->]. Qed.

(** A committed change of plan, in the terms of [plan_changed]. *)
Definition planned (s : session) (now : time) (plan : string) (t t' : ctables) : Prop :=
  exists user sub balance p q, canonical_uuid (ss_UserID s) = Ok user
    /\ c_subscriptions t !! user = Some sub /\ c_wallets t !! user = Some balance
    /\ c_plans t !! sb_plan sub = Some p /\ c_plans t !! plan = Some q
    /\ plan_changed now plan user sub balance p q t t' /\ same_catalogue t t'
    /\ (money t' = money t \/ accepts SeveralCommands = true).

Lemma change_plan_tx_commit s now plan s1 answer failed s2 :
  plan <> "TRIAL" -> books (cp s1) -> plans_ok (cp s1) ->
  change_plan_tx s now plan s1 = (Ok (Commit answer failed), s2) -> planned s now plan (cp s1) (cp s2).
Proof.
  intros Htrial Hbooks Hplans H. unfold change_plan_tx in H.
  apply bind_done in H as (row & sa & E1%try_done & H). destruct row as [[sub balance]|e]; [|done].
  apply stmt_select_ok in E1 as [E1 Hsa]. apply select_subscription_ok in E1 as (user & Hu & Hs & Hw).
  apply bind_done in H as (plans & sb & E2%try_done & H). destruct plans as [[p q]|e]; [|done].
  apply bind_done in E2 as (p' & sc & [E3 Hsc]%stmt_select_ok & E2).
  apply bind_done in E2 as (q' & sd & [E4 Hsd]%stmt_select_ok & [= -> -> ->]).
  rewrite Hsc, Hsa in E4. rewrite Hsa in E3. apply select_plan_ok in E3, E4.
  assert (Hcp : cp sb = cp s1) by congruence. rewrite <- Hcp in *.
  pose proof (bk_range _ Hbooks _ _ Hw) as Hrange. pose proof (Hplans _ _ E4) as [Hq _].
  exists user, sub, balance, p, q. do 5 (split; [done|]).
  destruct (String.eqb plan (sb_plan sub) && negb (String.eqb (sb_plan sub) "TRIAL") && String.eqb (sb_status sub) "active") eqn:Er.
  - rewrite !andb_true_iff, negb_true_iff, !String.eqb_eq, String.eqb_neq in Er. destruct Er as [[Hp Ht] Ha].
    eapply renew_plan_commit in H as (Hacc & H1 & H2 & _); [|done..|congruence|done]. by split_and!; [| |right].
  - destruct ((pl_price q <? pl_price p) && String.eqb (sb_status sub) "active") eqn:Ed; cbn [pt_PriceKopecks terms] in H; rewrite Ed in H.
    + rewrite andb_true_iff, String.eqb_eq, Z.ltb_lt in Ed. destruct Ed as [Hlt Ha].
      eapply schedule_downgrade_commit in H as (H1 & H2 & H3 & _); [|done..]. split_and!; [done|done|by left].
    + eapply upgrade_plan_commit in H as (Hacc & H1 & H2 & _); [by split_and!; [| |right]|done..|].
      intros Ha. rewrite Ha in *. cbn [String.eqb] in *. rewrite !andb_true_r in *. split; [|lia].
      intros Hp. rewrite <- Hp, String.eqb_refl, (proj2 (String.eqb_neq plan "TRIAL")) in Er; done.
Qed.

(** Provisioning writes commands and leases, and nothing else. *)
Lemma provisionDevice_frame {V} (v : ctables -> V) priv begun now leaseID deviceID nodeID :
  (forall f t, v (with_commands f t) = v t) -> (forall f t, v (with_leases f t) = v t) ->
  keeps (on_tables (same v)) (provisionDevice priv begun now leaseID deviceID nodeID).
Proof.
  intros Hc Hl.
  assert (Hq : forall id kind payload t a t', queue_command begun id nodeID kind payload t = Ok (a, t') -> same v t t').
  { intros id kind payload t [] t' (c & -> & _)%queue_command_ok. apply Hc. }
  unfold provisionDevice, issue_lease. destruct (negb _); [keep|]. apply keeps_in_transaction; [apply _|]. keep;
    (apply keeps_stmt; [apply _|]); intros t x t'.
  - unfold provision_row. intros E. by go_cases E.
  - unfold live_reservations, bigint. intros E. by go_cases E.
  - apply Hq.
  - intros E. unfold insert_lease in E. go_cases E. apply Hl.
  - intros E. destruct x. apply queue_both_ok in E as (c1 & c2 & -> & _). apply Hc.
Qed.
Definition accounts (t : ctables) := (c_users t, c_plans t, c_wallets t, c_ledger t, c_subscriptions t).
Lemma provisionDevice_accounts priv begun now leaseID deviceID nodeID :
  keeps (on_tables (same accounts)) (provisionDevice priv begun now leaseID deviceID nodeID).
Proof. by apply provisionDevice_frame. Qed.
Lemma provisionUserDevices_accounts priv clock leaseID userID :
  keeps (on_tables (same accounts)) (provisionUserDevices priv clock leaseID userID).
Proof.
  unfold provisionUserDevices, provision_all. apply keeps_bind; [apply _| |].
  - apply keeps_pool; [apply _|]. intros t a t' E. unfold user_assignments in E. by go_cases E.
  - intros items. apply keeps_for_each; [apply _|]. intros [d n]. destruct (clock d). apply provisionDevice_accounts.
Qed.

Lemma changePlan_effect priv clock leaseID s now body st r st' :
  books (cp st) -> plans_ok (cp st) -> changePlan priv clock leaseID s now body st = (r, st') ->
  accounts (cp st') = accounts (cp st)
  \/ exists plan t, decode_plan body = Some plan /\ plan <> "TRIAL" /\ planned s now plan (cp st) t
       /\ accounts (cp st') = accounts t.
Proof.
  intros Hb Hp H. unfold changePlan in H. destruct (decode_plan body) as [plan|]; [|injection H as <- <-; auto].
  destruct (_ || String.eqb plan "TRIAL") eqn:Et; [injection H as <- <-; auto|].
  apply orb_false_iff in Et as [_ Et%String.eqb_neq].
  unfold bind at 1 in H. destruct (transact _ _ st) as [out s1] eqn:E.
  assert (Hcp : accounts (cp st') = accounts (cp s1)).
  { destruct out as [[answer provision]|e]; [|by injection H as <- <-]. destruct provision; [|by injection H as <- <-].
    unfold bind, try in H. pose proof (provisionUserDevices_accounts priv clock leaseID (ss_UserID s) s1) as Hk.
    destruct (provisionUserDevices _ _ _ _ s1) as [r1 s2]. injection H as <- <-. exact Hk. }
  apply transact_effect in E as [Hs1|(sa & sb & d & f & Hsa & _ & Hbody & _ & Hs1 & _)].
  - left. by rewrite Hcp, Hs1.
  - right. exists plan, (cp sb). rewrite Hcp, Hs1, <- Hsa. split_and!; [done|done| |done].
    rewrite <- Hsa in *. by eapply change_plan_tx_commit.
Qed.

(** ** Handlers without faults *)

Lemma insert_ledger_run userID user amount after reason actorID actor key t :
  canonical_uuid userID = Ok user -> canonical_uuid actorID = Ok actor ->
  is_Some (c_users t !! user) -> is_Some (c_users t !! actor) ->
  amount <> 0 -> 0 <= after -> 3 <= char_length reason -> pg_text reason = true -> pg_text key = true ->
  key ∉ lg_key <$> c_ledger t ->
  insert_ledger userID amount after reason actorID key t
  = Ok (tt, with_ledger (fun l => l ++ [mkLedgerRow user amount after reason (Some actor) key]) t).
Proof.
  intros Hu Ha Huu Hau Hne Hpos Hlen Ht1 Ht2 Hfresh. unfold insert_ledger. rewrite Hu, Ha, Ht1, Ht2. cbn [negb andb].
  rewrite (proj2 (ledger_checks_ok _ _)), (proj2 (key_taken_spec _ _)) by naive_solver. done.
Qed.
Lemma insert_audit_run actorID actor action subject reason t :
  canonical_uuid actorID = Ok actor -> is_Some (c_users t !! actor) -> pg_text subject = true -> pg_text reason = true ->
  insert_audit actorID action subject reason t = Ok (tt, with_audit (fun l => l ++ [mkAuditRow actor action subject reason]) t).
Proof. intros Ha [x Hx] H1 H2. unfold insert_audit. by rewrite Ha, Hx, H1, H2. Qed.

(** A request that the checks of the handler and of the tables let through. *)
Record credit_valid (s : session) (userID : string) (c : credit) (key : string) (user actor : string) (b : Z)
    (t : ctables) : Prop := {
  cv_amount : 0 < cr_amount c;
  cv_bytes : (3 <= String.length (TrimSpace (cr_reason c)))%nat;
  cv_chars : 3 <= char_length (TrimSpace (cr_reason c));
  cv_text : pg_text (TrimSpace (cr_reason c)) = true /\ pg_text key = true /\ pg_text userID = true;
  cv_user : canonical_uuid userID = Ok user /\ is_Some (c_users t !! user);
  cv_actor : canonical_uuid (ss_UserID s) = Ok actor /\ is_Some (c_users t !! actor);
  cv_wallet : c_wallets t !! user = Some b;
  cv_range : 0 <= b /\ b + cr_amount c <= int64_max;
  cv_key : key ∉ lg_key <$> c_ledger t }.

Lemma creditWallet_run s userID body c user actor b t ab ids :
  decode_credit body = Some c -> cr_key c <> "" -> credit_valid s userID c (cr_key c) user actor b t ->
  creditWallet s userID body (mkPg t [] ab ids)
  = (Ok (balance_reply 201 (b + cr_amount c)),
     mkPg (with_audit (fun l => l ++ [mkAuditRow actor "wallet.credit" userID (TrimSpace (cr_reason c))])
          (with_ledger (fun l => l ++ [mkLedgerRow user (cr_amount c) (b + cr_amount c) (TrimSpace (cr_reason c)) (Some actor) (cr_key c)])
          (with_wallets (insert user (b + cr_amount c)) t))) [] ab ids).
Proof.
  intros Hd Hk [H1 H2 H3 (T1 & T2 & T3) (U1 & U2) (A1 & A2) HW [HR1 HR2] HF]. unfold creditWallet. rewrite Hd.
  rewrite (proj2 (Z.leb_gt _ _)), (proj2 (Nat.ltb_ge _ _)) by done. cbn [orb].
  rewrite (proj2 (String.eqb_neq _ _)) by done. unfold bind at 1. cbn [ret].
  eapply transact_run, committing_run. eapply bind_run.
  { apply stmt_run. unfold credit_balance. rewrite U1, HW. unfold bigint.
    replace (in_int64 _) with true by (symmetry; apply in_int64_spec; unfold int64_min, int64_max in *; lia).
    rewrite (proj2 (Z.ltb_ge _ _)) by lia. reflexivity. }
  eapply bind_run. { apply stmt_run. apply insert_ledger_run; try done; lia. }
  eapply bind_run. { apply stmt_run. by apply insert_audit_run. }
  done.
Qed.

(** What the choice of a plan asks for. *)
Inductive quote := Renewal | Downgrade | Purchase (cost quota : Z) (started ends : time) | Crash.
Definition quote_for (now : time) (plan : string) (sub : subscription_row) (p q : plan_row) : quote :=
  if String.eqb (sb_status sub) "active" && String.eqb plan (sb_plan sub) then Renewal
  else if String.eqb (sb_status sub) "active" && (pl_price q <? pl_price p) then Downgrade
  else match offer now sub (terms (sb_plan sub) p) (terms plan q) with
       | Some (cost, quota, started, ends) => Purchase cost quota started ends
       | None => Crash
       end.
Definition price_of (q : plan_row) (k : quote) : option Z :=
  match k with Renewal => Some (pl_price q) | Purchase cost _ _ _ => Some cost | _ => None end.
Definition reply_for (now : time) (plan : string) (sub : subscription_row) (balance : Z) (q : plan_row) (k : quote) : reply :=
  match k with
  | Renewal => plan_reply "renewed" plan (pl_price q) (balance - pl_price q) (add64 (sb_quota sub) (pl_quota q))
                 (renewal_end now sub q)
  | Downgrade => pending_reply (sb_plan sub) plan (sb_ends sub)
  | Purchase cost quota _ ends => plan_reply "upgraded" plan cost (balance - cost) quota ends
  | Crash => panicked
  end.

Record plan_inputs (s : session) (plan user : string) (sub : subscription_row) (balance : Z) (p q : plan_row)
    (t : ctables) (ids : list string) : Prop := {
  pi_plan : plan <> "" /\ plan <> "TRIAL";
  pi_text : pg_text plan = true /\ pg_text (sb_plan sub) = true /\ pg_text (ss_UserID s) = true
            /\ pg_text (default "" (head ids)) = true;
  pi_user : canonical_uuid (ss_UserID s) = Ok user /\ is_Some (c_users t !! user);
  pi_sub : c_subscriptions t !! user = Some sub;
  pi_wallet : c_wallets t !! user = Some balance;
  pi_current : c_plans t !! sb_plan sub = Some p;
  pi_next : c_plans t !! plan = Some q;
  pi_keys : Forall (fun r => lg_key r <> "plan-renewal:" +:+ default "" (head ids)
                             /\ lg_key r <> "plan:" +:+ default "" (head ids)) (c_ledger t) }.

Lemma pg_text_app a b : pg_text (a +:+ b) = pg_text a && pg_text b.
Proof.
  unfold pg_text. rewrite <- negb_orb. f_equal. induction a as [|x a IH]; [done|].
  cbn [contains_byte String.append]. rewrite IH. apply orb_assoc.
Qed.
Lemma char_length_app a b : char_length (a +:+ b) = char_length a + char_length b.
Proof. induction a as [|x a IH]; cbn [char_length String.append]; [done|]. rewrite IH. lia. Qed.

(** What the payment statements ask of the server. *)
Definition purchasable : bool := accepts SeveralCommands && accepts UntypedParameter.

Section Serving.
Context (s : session) (now : time) (plan user : string) (sub : subscription_row) (balance : Z) (p q : plan_row).
Context (t : ctables) (ids : list string) (Hin : plan_inputs s plan user sub balance p q t ids).
Context (Hbooks : books t) (Hplans : plans_ok t).

Lemma stmt_refused {A} kind (f : ctables -> result (A * ctables)) t0 ids0 :
  accepts kind = false -> exists e s', stmt (checked kind f) (mkPg t0 [] false ids0) = (Err e, s').
Proof. intros Hk. unfold stmt, checked. cbn. rewrite Hk. by eexists _, _. Qed.

Lemma fresh_key key : (forall r, r ∈ c_ledger t -> lg_key r <> key) -> key ∉ lg_key <$> c_ledger t.
Proof. intros H (r & -> & Hr)%list_elem_of_fmap. by apply (H r). Qed.

(** Payment, row and audit entry of a plan that costs something. *)
Lemma pay_run (cost : Z) f reason key action answer failed ids' :
  0 <= cost <= balance -> 3 <= char_length reason -> pg_text reason = true -> pg_text key = true ->
  key ∉ lg_key <$> c_ledger t ->
  let body := (stmt (checked SeveralCommands (pay (sub64 balance cost) (ss_UserID s) f)) ;;;
    stmt (insert_ledger (ss_UserID s) (wrap64 (- cost)) (sub64 balance cost) reason (ss_UserID s) key) ;;;
    stmt (checked UntypedParameter (insert_audit (ss_UserID s) action (ss_UserID s) "user request")) ;;;
    ret answer) : prog pg (reply * bool) in
  (0 < cost -> purchasable = true -> exists t', committing body failed (mkPg t [] false ids')
     = (Ok (Commit answer failed), mkPg t' [] false ids'))
  /\ (cost = 0 \/ purchasable = false -> exists s', committing body failed (mkPg t [] false ids') = (Ok (Abandon failed), s')).
Proof.
  destruct Hin as [_ (_ & _ & T3 & _) (U1 & U2) _ HW _ _ _]. intros Hcost Hlen Hr Hk Hfresh body.
  pose proof (bk_range _ Hbooks _ _ HW) as Hrange. unfold purchasable.
  assert (Hsub : sub64 balance cost = balance - cost) by (apply wrap64_id, in_int64_spec; unfold int64_min, int64_max in *; lia).
  assert (Hneg : wrap64 (- cost) = - cost) by (apply wrap64_id, in_int64_spec; unfold int64_min, int64_max in *; lia).
  set (t1 := update_subscription f user (with_wallets (insert user (balance - cost)) t)).
  assert (Hpay : accepts SeveralCommands = true ->
    stmt (checked SeveralCommands (pay (sub64 balance cost) (ss_UserID s) f)) (mkPg t [] false ids') = (Ok tt, mkPg t1 [] false ids')).
  { intros Ha. apply stmt_run. unfold checked, pay, set_balance. rewrite Ha, U1, HW, Hsub.
    by rewrite (proj2 (Z.ltb_ge _ _)) by lia. }
  assert (Hledger : 0 < cost -> exists t2, stmt (insert_ledger (ss_UserID s) (wrap64 (- cost)) (sub64 balance cost) reason (ss_UserID s) key)
    (mkPg t1 [] false ids') = (Ok tt, mkPg t2 [] false ids') /\ c_users t2 = c_users t).
  { intros Hc. eexists. split; [apply stmt_run; rewrite Hsub, Hneg; apply insert_ledger_run; try done; lia|done]. }
  split.
  - intros Hc [Ha Hb]%andb_true_iff. destruct (Hledger Hc) as (t2 & E2 & Hu2). eexists. apply committing_run.
    eapply bind_run; [exact (Hpay Ha)|]. eapply bind_run; [exact E2|]. eapply bind_run; [|reflexivity].
    apply stmt_run. unfold checked. rewrite Hb. apply insert_audit_run; try done. by rewrite Hu2.
  - intros Hbad. enough (Hf : exists e s', body (mkPg t [] false ids') = (Err e, s')).
    { destruct Hf as (e & s' & E). unfold committing, bind, try. rewrite E. eauto. }
    unfold body. destruct (accepts SeveralCommands) eqn:Ea.
    2: { destruct (stmt_refused SeveralCommands (pay (sub64 balance cost) (ss_UserID s) f) t ids' Ea) as (e & s' & E).
         unfold bind at 1. rewrite E. eauto. }
    unfold bind at 1. rewrite (Hpay eq_refl). destruct (decide (cost = 0)) as [Hc|Hc].
    + unfold bind at 1. destruct (stmt (insert_ledger _ _ _ _ _ _) _) as [[a|e] s'] eqn:E; [|eauto]. apply stmt_ok in E as (_ & _ & t2 & E & _).
      apply insert_ledger_ok in E as (? & ? & _ & _ & Hne & _). rewrite Hneg, Hc in Hne. done.
    + destruct Hbad as [?|Hb]; [done|]. cbn [andb] in Hb. destruct Hledger as (t2 & E2 & _); [lia|]. unfold bind at 1. rewrite E2.
      destruct (stmt_refused UntypedParameter (insert_audit (ss_UserID s) action (ss_UserID s) "user request") t2 ids' Hb) as (e & s' & E).
      unfold bind at 1. rewrite E. eauto.
Qed.

Lemma change_plan_tx_reads :
  change_plan_tx s now plan (mkPg t [] false ids)
  = match quote_for now plan sub p q with
    | Renewal => renew_plan s now sub balance (terms plan q)
    | Downgrade => schedule_downgrade s plan sub
    | _ => upgrade_plan s now plan sub balance (terms (sb_plan sub) p) (terms plan q)
    end (mkPg t [] false ids).
Proof.
  destruct Hin as [(_ & Ht) (T1 & T2 & _) (U1 & _) HS HW HP HQ _]. unfold change_plan_tx, bind at 1, try.
  erewrite stmt_run by (unfold select, select_subscription; by rewrite U1, HS, HW).
  unfold bind at 1, try. unfold bind at 1. erewrite stmt_run by (unfold select, select_plan; by rewrite T2, HP).
  unfold bind at 1. erewrite stmt_run by (unfold select, select_plan; by rewrite T1, HQ). cbn [ret pt_PriceKopecks terms].
  unfold quote_for. destruct (String.eqb_spec (sb_status sub) "active") as [Ha|Ha]; cbn [andb];
    rewrite ?andb_true_r, ?andb_false_r.
  - destruct (String.eqb_spec plan (sb_plan sub)) as [Hp|Hp]; cbn [andb].
    + rewrite (proj2 (String.eqb_neq (sb_plan sub) "TRIAL")) by congruence. done.
    + destruct (_ <? _); [done|]. by destruct (offer _ _ _ _) as [[[[? ?] ?] ?]|].
  - by destruct (offer _ _ _ _) as [[[[? ?] ?] ?]|].
Qed.

(** How a branch that costs [cost] ends when nothing fails. *)
Definition charges (m : prog pg plan_step) (cost : Z) (answer : reply) : Prop :=
  let run := m (mkPg t [] false ids) in
  (balance < cost -> exists s', run = (Ok (Abandon (problem 409 "balance", false)), s'))
  /\ (0 < cost <= balance -> purchasable = true -> exists provision failed t' ids',
        run = (Ok (Commit (answer, provision) failed), mkPg t' [] false ids'))
  /\ (cost <= balance -> cost = 0 \/ purchasable = false -> exists s', run = (Ok (Abandon (problem 500 "billing", false)), s')).

Lemma sub64_balance cost : 0 <= cost <= balance -> sub64 balance cost = balance - cost.
Proof.
  intros Hc. pose proof (bk_range _ Hbooks _ _ (pi_wallet _ _ _ _ _ _ _ _ _ Hin)).
  apply wrap64_id, in_int64_spec. unfold int64_min, int64_max in *. lia.
Qed.

Lemma renew_plan_run : 0 <= pl_price q ->
  charges (renew_plan s now sub balance (terms plan q)) (pl_price q)
    (plan_reply "renewed" (sb_plan sub) (pl_price q) (balance - pl_price q) (add64 (sb_quota sub) (pl_quota q))
       (renewal_end now sub q)).
Proof.
  intros Hq. unfold charges, renew_plan. cbn [pt_PriceKopecks terms pt_Duration pt_QuotaBytes].
  pose proof Hin as [_ (_ & T2 & _ & T4) _ _ HW _ _ HK]. pose proof (bk_range _ Hbooks _ _ HW) as Hrange.
  destruct (Z.ltb_spec balance (pl_price q)) as [|Hle].
  { split_and!; [unfold refuse, ret; eauto|lia|lia]. }
  split; [lia|]. unfold bind at 1 5. cbn [random_uuid uuids cp outcomes aborted]. rewrite renewal_end_eq.
  match goal with |- context [insert_ledger _ _ _ ?r _ ?k] => assert (Hr : 3 <= char_length r /\ pg_text r = true /\ pg_text k = true) end.
  { rewrite !char_length_app, !pg_text_app, T2, T4. split_and!; [|done..].
    pose proof (char_length_nonneg (sb_plan sub)). change (char_length "Продление тарифа ") with 17. lia. }
  destruct Hr as (R1 & R2 & R3). rewrite sub64_balance in * by lia.
  edestruct (pay_run (pl_price q)) as [H1 H2]; [lia|exact R1|exact R2|exact R3| |].
  { apply fresh_key. intros r Hr. rewrite Forall_forall in HK. by apply HK. }
  rewrite sub64_balance in H1, H2 by lia. split.
  - intros [Hpos _] Hsv. destruct (H1 Hpos Hsv) as [t' E]. eexists _, _, t', _. apply E.
  - intros _ Hbad. destruct (H2 Hbad) as [s' E]. exists s'. apply E.
Qed.

Lemma upgrade_plan_run cost quota started ends :
  offer now sub (terms (sb_plan sub) p) (terms plan q) = Some (cost, quota, started, ends) -> 0 <= cost ->
  charges (upgrade_plan s now plan sub balance (terms (sb_plan sub) p) (terms plan q)) cost
    (plan_reply "upgraded" plan cost (balance - cost) quota ends).
Proof.
  intros Ho Hc. unfold charges, upgrade_plan. rewrite Ho.
  pose proof Hin as [_ (T1 & T2 & _ & T4) _ _ HW _ _ HK]. pose proof (bk_range _ Hbooks _ _ HW) as Hrange.
  destruct (Z.ltb_spec balance cost) as [|Hle].
  { split_and!; [unfold refuse, ret; eauto|lia|lia]. }
  split; [lia|]. unfold bind at 1 5. cbn [random_uuid uuids cp outcomes aborted].
  match goal with |- context [insert_ledger _ _ _ ?r _ ?k] => assert (Hr : 3 <= char_length r /\ pg_text r = true /\ pg_text k = true) end.
  { rewrite !char_length_app, !pg_text_app, T1, T2, T4. split_and!; [|done..].
    pose proof (char_length_nonneg (sb_plan sub)). pose proof (char_length_nonneg plan).
    change (char_length "Смена тарифа ") with 13. change (char_length " → ") with 3. lia. }
  destruct Hr as (R1 & R2 & R3). rewrite sub64_balance in * by lia.
  edestruct (pay_run cost) as [H1 H2]; [lia|exact R1|exact R2|exact R3| |].
  { apply fresh_key. intros r Hr. rewrite Forall_forall in HK. by apply HK. }
  rewrite sub64_balance in H1, H2 by lia. split.
  - intros [Hpos _] Hsv. destruct (H1 Hpos Hsv) as [t' E]. eexists _, _, t', _. apply E.
  - intros _ Hbad. destruct (H2 Hbad) as [s' E]. exists s'. apply E.
Qed.

Lemma schedule_downgrade_run :
  let run := schedule_downgrade s plan sub (mkPg t [] false ids) in
  if accepts UntypedParameter
  then exists provision failed t' ids',
         run = (Ok (Commit (pending_reply (sb_plan sub) plan (sb_ends sub), provision) failed), mkPg t' [] false ids')
  else exists s', run = (Ok (Abandon (problem 500 "db", false)), s').
Proof.
  pose proof Hin as [_ (T1 & T2 & T3 & _) (U1 & U2) _ _ _ HQ _]. unfold schedule_downgrade.
  assert (Hset : stmt (set_pending plan (ss_UserID s)) (mkPg t [] false ids)
    = (Ok tt, mkPg (update_subscription (pending_row plan) user t) [] false ids)).
  { apply stmt_run. unfold set_pending. by rewrite U1, HQ. }
  destruct (accepts UntypedParameter) eqn:Ea.
  - eexists _, _, _, _. eapply committing_run. eapply bind_run; [exact Hset|].
    eapply bind_run; [|reflexivity]. apply stmt_run. unfold checked. rewrite Ea. by apply insert_audit_run.
  - unfold committing, bind at 1, try. unfold bind at 1. rewrite Hset.
    destruct (stmt_refused UntypedParameter (insert_audit (ss_UserID s) "subscription.downgrade" (ss_UserID s) "user request")
      (update_subscription (pending_row plan) user t) ids Ea) as (e & s' & E). unfold bind. rewrite E. by eexists.
Qed.

Lemma quote_for_cases :
  match quote_for now plan sub p q with
  | Renewal => plan = sb_plan sub
  | Downgrade => pl_price q < pl_price p
  | Purchase cost quota started ends =>
      offer now sub (terms (sb_plan sub) p) (terms plan q) = Some (cost, quota, started, ends)
  | Crash => offer now sub (terms (sb_plan sub) p) (terms plan q) = None
  end.
Proof.
  unfold quote_for. destruct (String.eqb_spec plan (sb_plan sub)), (String.eqb (sb_status sub) "active"),
    (Z.ltb_spec (pl_price q) (pl_price p)); cbn [andb]; try done;
    by destruct (offer _ _ _ _) as [[[[? ?] ?] ?]|].
Qed.

(** The outcome of the transaction of [changePlan] when nothing fails. *)
Lemma change_plan_tx_run :
  let k := quote_for now plan sub p q in
  let answer := reply_for now plan sub balance q k in
  match price_of q k with
  | Some cost => 0 <= cost /\ charges (change_plan_tx s now plan) cost answer
  | None => match k with
            | Crash => exists s', change_plan_tx s now plan (mkPg t [] false ids) = (Ok (Abandon (panicked, false)), s')
            | _ => if accepts UntypedParameter
                   then exists provision failed t' ids', change_plan_tx s now plan (mkPg t [] false ids)
                          = (Ok (Commit (answer, provision) failed), mkPg t' [] false ids')
                   else exists s', change_plan_tx s now plan (mkPg t [] false ids) = (Ok (Abandon (problem 500 "db", false)), s')
            end
  end.
Proof.
  pose proof (Hplans _ _ (pi_next _ _ _ _ _ _ _ _ _ Hin)) as [Hq _]. cbv zeta. unfold charges. rewrite change_plan_tx_reads.
  pose proof quote_for_cases as Hk.
  destruct (quote_for now plan sub p q) as [| |cost quota started ends|]; cbn [price_of reply_for].
  - split; [done|]. pose proof (renew_plan_run Hq) as H. rewrite <- Hk in H. exact H.
  - apply schedule_downgrade_run.
  - pose proof (offer_cost _ _ _ (terms plan q) _ _ _ _ Hq Hk). split; [done|]. by eapply upgrade_plan_run.
  - unfold upgrade_plan. rewrite Hk. by eexists.
Qed.
End Serving.
End Wallet.


(** The plans that the migration inserts. *)
Definition shipped_rows : gmap string plan_row :=
  {["TRIAL" := mkPlanRow 0 259200 1 20000000000; "LITE" := mkPlanRow 14900 2592000 1 150000000000;
    "PLUS" := mkPlanRow 29900 2592000 3 600000000000; "ULTRA" := mkPlanRow 49900 2592000 7 2000000000000]}.
Definition all_commands (ok : bool) : PgServer := {| accepts kind := match kind with SeveralCommands => ok | _ => true end |}.
Definition sample_session (user : string) : session := mkSession user "csrf" "" false (FromUnix 9000000).
Definition sample_entry : ledger_row := mkLedgerRow "u1" 100000 100000 "opening" (Some "u1") "k0".
Definition sample_books : ctables :=
  with_plans (fun _ => shipped_rows)
  (with_wallets (fun _ => {["u1" := 100000]}) (with_ledger (fun _ => [sample_entry]) sample_ctables)).

Lemma sample_books_ok : books sample_books.
Proof.
  split.
  - intros u. unfold entries. cbn [c_ledger sample_books with_plans with_wallets with_ledger].
    destruct (decide (u = "u1")) as [->|Hne]; [vm_compute; reflexivity|].
    rewrite filter_cons_False, filter_nil by (simpl; congruence).
    change (c_wallets sample_books) with ({["u1" := 100000]} : gmap string Z). by rewrite lookup_singleton_ne.
  - intros u b. change (c_wallets sample_books) with ({["u1" := 100000]} : gmap string Z).
    rewrite lookup_singleton_Some. intros [_ <-]. by unfold int64_max.
  - by apply Forall_singleton.
  - apply NoDup_singleton.
Qed.
Lemma shipped_rows_ok t : c_plans t = shipped_rows -> plans_ok t.
Proof.
  intros Ht code p. rewrite Ht. unfold shipped_rows. unfold int64_max.
  repeat (rewrite lookup_insert_Some; intros [[_ <-]|[_ H]]; [simpl; lia|revert H]).
  rewrite lookup_singleton_Some. intros [_ <-]. simpl. lia.
Qed.


(** A plan can not be paid for on a server that takes one command per
    parameterised statement, as PostgreSQL's extended protocol does: the payment
    is sent as two commands with parameters.  On such a server no call of
    [changePlan] moves money, whatever the request and whatever fails. *)
Theorem changePlan_never_charges {PU : PgUuid} {SV : PgServer} {ED : Ed25519} {MO : MapOrder}
    priv clock leaseID s now body st :
  accepts SeveralCommands = false -> books (cp st) -> plans_ok (cp st) ->
  money (cp (changePlan priv clock leaseID s now body st).2) = money (cp st).
Proof.
  intros Hserver Hb Hp. destruct (changePlan priv clock leaseID s now body st) as [r st'] eqn:E. cbn [snd].
  assert (Hacc : forall t t', accounts t' = accounts t -> money t' = money t).
  { unfold accounts, money. intros t t' [= _ _ -> -> _]. done. }
  apply changePlan_effect in E; [|done|done]. destruct E as [E|(plan & t & _ & _ & Hplanned & Ht)]; [by apply Hacc|].
  rewrite (Hacc _ _ Ht). destruct Hplanned as (_ & _ & _ & _ & _ & _ & _ & _ & _ & _ & _ & _ & [H|H]); [done|congruence].
Qed.

Lemma changePlan_never_charges_witness :
  let body := Some (JObj [("plan", JStr "ULTRA")]) in
  let now := FromUnix 704000 in
  let out := @changePlan toy_uuid_type postgres toy_ed25519 sorted_order sample_private
    (fun _ => (now, now)) (fun d => d) (sample_session "u1") now body (mkPg sample_books [] false ["x"]) in
  out.1 = Ok (problem 500 "billing") /\ money (cp out.2) = money sample_books.
Proof.
  intros body now out. split; [vm_compute; reflexivity|].
  apply (@changePlan_never_charges toy_uuid_type postgres toy_ed25519 sorted_order sample_private
    (fun _ => (now, now)) (fun d => d) (sample_session "u1") now body (mkPg sample_books [] false ["x"])).
  - reflexivity.
  - apply sample_books_ok.
  - apply shipped_rows_ok. reflexivity.
Defined.
