(* ===== verification/Lifecycle.v ===== *)
(** * The subscription lifecycle

    src/internal/controlplane/workers.go [subscriptionLifecycle]: every minute, in
    one transaction, paid periods that have ended are renewed from the wallet,
    the others pass into a day of grace and then into suspension, trials expire,
    and commands and notifications are queued.  [now] is the start of the
    transaction.  The session's time zone is taken to be UTC, where an interval of
    30 days is 720 hours. *)

From S2P Require Import Prelude GoStrings Json Crypto Protocol Billing Pg Hub Web Wallet.
From stdpp Require Import base gmap strings list sorting.
From Stdlib Require Import ZArith Lia Ascii.
Open Scope Z_scope.

Definition day : Z := 24 * hour.

(** [extract(epoch from t)::bigint] rounds to the nearest second. *)
Definition epoch (t : time) : Z :=
  if 0 <=? t then (2 * t + second) / (2 * second) else - ((2 * - t + second) / (2 * second)).
Definition renew_key (user : string) (ends : time) : string :=
  "renew:" +:+ (user +:+ (":" +:+ FormatInt (epoch ends))).

Definition is_trial (s : subscription_row) : bool := String.eqb (sb_plan s) "TRIAL".
Definition is_status (status : string) (s : subscription_row) : bool := String.eqb (sb_status s) status.
(** [column <= now()], false for NULL. *)
Definition passed (now : time) (column : option time) : bool :=
  match column with Some at_ => at_ <=? now | None => false end.
Definition later (column : option time) (than : time) : bool :=
  match column with Some at_ => than <? at_ | None => false end.

(** ** The statements *)

(** A row of the CTE [due]. *)
Record renewal := mkRenewal {
  rn_user : string; rn_target : string; rn_plan : plan_row; rn_ends : time; rn_balance : Z }.
Definition due_renewal (now : time) (t : ctables) (user : string) (s : subscription_row) : option renewal :=
  let target := default (sb_plan s) (sb_pending s) in
  p ← c_plans t !! target; balance ← c_wallets t !! user; ends ← sb_ends s;
  if negb (is_trial s) && is_status "active" s && (ends <=? now) && (pl_price p <=? balance)
  then Some (mkRenewal user target p ends balance) else None.

Definition renewed_row (r : renewal) : subscription_row :=
  mkSubscriptionRow (rn_target r) None "active" (Some (rn_ends r)) (Some (rn_ends r + 30 * day)) None
    (pl_quota (rn_plan r)) 0.
Definition renewal_entry (r : renewal) : ledger_row :=
  mkLedgerRow (rn_user r) (- pl_price (rn_plan r)) (rn_balance r - pl_price (rn_plan r))
    ("Автопродление " +:+ rn_target r) (Some (rn_user r)) (renew_key (rn_user r) (rn_ends r)).
(** The debit, the renewed row and the entry, which is left out when its key is
    taken.  The cast of the period's end to bigint may fail. *)
Definition renew_one (t : ctables) (r : renewal) : result ctables :=
  let entry := renewal_entry r in
  if negb (in_int64 (epoch (rn_ends r))) then Err (SqlErr SqlFault) else
  if negb (ledger_checks entry t) then Err (SqlErr SqlConstraint) else
  let t1 := with_subscriptions (insert (rn_user r) (renewed_row r))
              (with_wallets (insert (rn_user r) (lg_balance_after entry)) t) in
  Ok (if key_taken (lg_key entry) t then t1 else with_ledger (fun l => l ++ [entry]) t1).
Fixpoint fold_rows {A} (f : ctables -> A -> result ctables) (rows : list A) (t : ctables) : result ctables :=
  match rows with
  | [] => Ok t
  | r :: rows => match f t r with Ok t1 => fold_rows f rows t1 | Err e => Err e end
  end.
Definition done_rows (r : result ctables) : result (unit * ctables) := result_map (fun t => (tt, t)) r.

Section Lifecycle.
Context {MO : MapOrder}.

Definition renewals (now : time) (t : ctables) : list renewal :=
  omap (fun '(user, s) => due_renewal now t user s) (range (c_subscriptions t)).
Definition renew_due (now : time) (t : ctables) : result (unit * ctables) :=
  done_rows (fold_rows renew_one (renewals now t) t).

(** The three updates of the second statement. *)
Definition with_status (status : string) (grace : option time) (s : subscription_row) : subscription_row :=
  mkSubscriptionRow (sb_plan s) (sb_pending s) status (sb_started s) (sb_ends s) grace (sb_quota s) (sb_used s).
Definition expire_trial (now : time) (s : subscription_row) : subscription_row :=
  if is_trial s && is_status "active" s && passed now (sb_ends s) then with_status "expired" (sb_grace s) s else s.
Definition enter_grace (now : time) (s : subscription_row) : subscription_row :=
  if negb (is_trial s) && is_status "active" s && passed now (sb_ends s)
  then with_status "grace" (Some (now + 24 * hour)) s else s.
Definition suspend (now : time) (s : subscription_row) : subscription_row :=
  if is_status "grace" s && passed now (sb_grace s) then with_status "suspended" (sb_grace s) s else s.
Definition move_on (now : time) (s : subscription_row) : subscription_row :=
  suspend now (enter_grace now (expire_trial now s)).
Definition update_statuses (now : time) (t : ctables) : result (unit * ctables) :=
  Ok (tt, with_subscriptions (fmap (suspend now)) (with_subscriptions (fmap (enter_grace now))
            (with_subscriptions (fmap (expire_trial now)) t))).

(** [INSERT INTO node_commands ... SELECT]: node, type and payload of each row. *)
Definition new_command : Type := string * string * json.
Fixpoint insert_commands (now : time) (rows : list new_command) (ids : list string) (t : ctables) : result ctables :=
  match rows with
  | [] => Ok t
  | (node, kind, payload) :: rows =>
      match insert_command now (default "" (head ids)) node kind (Some payload) t with
      | Ok t1 => insert_commands now rows (tail ids) t1
      | Err e => Err e
      end
  end.
Definition queue_rows (now : time) (rows : ctables -> list new_command) : prog pg unit :=
  let* ids := random_uuids (fun t => length (rows t)) in
  stmt (fun t => done_rows (insert_commands now (rows t) ids t)).

(** The devices that have a subscription and a node. *)
Definition device_rows (t : ctables) : list (string * subscription_row * assignment_row) :=
  omap (fun '(device, d) => s ← c_subscriptions t !! cd_user d; a ← c_assignments t !! device; Some (device, s, a))
    (range (c_devices t)).

(** The text of a timestamp in jsonb. *)
Definition pg_timestamp (t : time) : string := TrimSuffix (FormatRFC3339 t) "Z" +:+ "+00:00".

Definition placed_device : Type := string * subscription_row * assignment_row.
Definition grace_override (now : time) (row : placed_device) : option new_command :=
  let '(device, s, a) := row in
  g ← sb_grace s;
  if is_status "grace" s && (now + (23 * hour + 58 * minute) <? g)
  then Some (as_node a, "policy.override",
         JObj [("deviceId", JStr device); ("upBps", jint 1000000); ("downBps", jint 1000000);
               ("p2pAllowed", JBool false); ("expiresAt", JStr (pg_timestamp g))])
  else None.
Definition grace_overrides (now : time) (t : ctables) : list new_command := omap (grace_override now) (device_rows t).

Definition open_kick (node device : string) (t : ctables) : bool :=
  existsb (fun c => String.eqb (cm_node c) node && String.eqb (cm_type c) "session.kick" && is_open c
             && bool_decide (json_text (cm_payload c) "deviceId" = Some device)) (c_commands t).
Definition ended_kick (now : time) (t : ctables) (row : placed_device) : option new_command :=
  let '(device, s, a) := row in
  let ended := match sb_grace s with Some g => Some g | None => sb_ends s end in
  if (is_status "expired" s || is_status "suspended" s) && later ended (now - 2 * minute)
     && negb (open_kick (as_node a) device t)
  then Some (as_node a, "session.kick", JObj [("deviceId", JStr device); ("reason", JStr "subscription ended")])
  else None.
Definition ended_kicks (now : time) (t : ctables) : list new_command := omap (ended_kick now t) (device_rows t).

(** [INSERT INTO notifications ... ON CONFLICT DO NOTHING] *)
Definition notify (t : ctables) (n : notification_row) : ctables :=
  if existsb (fun m => String.eqb (no_user m) (no_user n) && String.eqb (no_kind m) (no_kind n)
                       && (no_scheduled_at m =? no_scheduled_at n)) (c_notifications t)
  then t else with_notifications (fun l => l ++ [n]) t.
Definition each_subscription (f : string -> subscription_row -> list notification_row) (t : ctables) : list notification_row :=
  mbind (fun '(user, s) => f user s) (range (c_subscriptions t)).
Definition hours_before (prefix user : string) (hours : list Z) (at_ : time) : list notification_row :=
  (fun h => fresh_notification user (prefix +:+ FormatInt h +:+ "h") (at_ - h * hour)) <$> hours.

Definition trial_reminders (now : time) (user : string) (s : subscription_row) : list notification_row :=
  match sb_ends s with
  | Some ends => if is_trial s && is_status "active" s && (now <? ends)
                 then hours_before "trial." user [48; 24; 12; 6; 3; 1] ends else []
  | None => []
  end.
Definition grace_entered (now : time) (user : string) (s : subscription_row) : list notification_row :=
  if is_status "grace" s && later (sb_grace s) (now - 2 * minute) then [fresh_notification user "grace.entered" now] else [].
Definition grace_reminders (user : string) (s : subscription_row) : list notification_row :=
  match sb_grace s with
  | Some g => if is_status "grace" s then hours_before "grace." user [12; 1] g else []
  | None => []
  end.
Definition trial_blocked (now : time) (user : string) (s : subscription_row) : list notification_row :=
  match sb_ends s with
  | Some ends => if is_trial s && is_status "expired" s && (now - 2 * minute <? ends)
                 then [fresh_notification user "trial.blocked" ends] else []
  | None => []
  end.
Definition grace_blocked (now : time) (user : string) (s : subscription_row) : list notification_row :=
  match sb_grace s with
  | Some g => if is_status "suspended" s && (now - 2 * minute <? g) then [fresh_notification user "grace.blocked" g] else []
  | None => []
  end.
Definition notify_each (fs : list (string -> subscription_row -> list notification_row)) (t : ctables) : ctables :=
  foldl (fun t f => foldl notify t (each_subscription f t)) t fs.
Definition notices (now : time) : list (string -> subscription_row -> list notification_row) :=
  [trial_reminders now; grace_entered now; grace_reminders; trial_blocked now; grace_blocked now].
Definition notify_all (now : time) (t : ctables) : result (unit * ctables) := Ok (tt, notify_each (notices now) t).

Definition subscriptionLifecycle (now : time) : prog pg unit :=
  in_transaction (
    stmt (renew_due now) ;;;
    stmt (update_statuses now) ;;;
    queue_rows now (grace_overrides now) ;;;
    queue_rows now (ended_kicks now) ;;;
    stmt (notify_all now)).

(** ** Keys of renewals *)

Lemma format_uint_no_colon fuel n acc : contains_byte (format_uint fuel n acc) ":"%char = contains_byte acc ":"%char.
Proof.
  revert n acc. induction fuel as [|fuel IH]; intros n acc; [done|]. cbn [format_uint].
  assert (Hd : forall tl, contains_byte (String (byte_of (48 + n mod 10)) tl) ":"%char = contains_byte tl ":"%char).
  { intros tl. cbn [contains_byte]. pose proof (Z.mod_pos_bound n 10 ltac:(lia)) as Hm.
    assert (Hc : n mod 10 = 0 \/ n mod 10 = 1 \/ n mod 10 = 2 \/ n mod 10 = 3 \/ n mod 10 = 4 \/ n mod 10 = 5
      \/ n mod 10 = 6 \/ n mod 10 = 7 \/ n mod 10 = 8 \/ n mod 10 = 9) by lia.
    by destruct Hc as [->|[->|[->|[->|[->|[->|[->|[->|[->| ->]]]]]]]]]. }
  destruct (n <? 10); [apply Hd|]. rewrite IH. apply Hd.
Qed.
Lemma FormatInt_no_colon z : contains_byte (FormatInt z) ":"%char = false.
Proof.
  unfold FormatInt. destruct (z <? 0); [|apply format_uint_no_colon]. cbn [contains_byte]. apply format_uint_no_colon.
Qed.
Lemma contains_byte_app a b c : contains_byte (a +:+ b) c = contains_byte a c || contains_byte b c.
Proof. induction a as [|x a IH]; [done|]. cbn [contains_byte String.append]. rewrite IH. apply orb_assoc. Qed.
Lemma split_last_colon a b x y :
  contains_byte x ":"%char = false -> contains_byte y ":"%char = false ->
  a +:+ (":" +:+ x) = b +:+ (":" +:+ y) -> a = b /\ x = y.
Proof.
  intros Hx Hy. revert b. induction a as [|c a IH]; intros [|d b]; cbn [String.append].
  - by intros [= ->].
  - intros [= <- ->]. rewrite contains_byte_app in Hx. by apply orb_false_iff in Hx as [_ Hx].
  - intros [= -> <-]. rewrite contains_byte_app in Hy. by apply orb_false_iff in Hy as [_ Hy].
  - intros [= -> H]. apply IH in H as [-> ->]. done.
Qed.
Lemma renew_key_inj u e u' e' :
  in_int64 (epoch e) = true -> in_int64 (epoch e') = true -> renew_key u e = renew_key u' e' ->
  u = u' /\ epoch e = epoch e'.
Proof.
  intros He He' H. unfold renew_key in H. cbn [String.append] in H. injection H as H.
  apply split_last_colon in H as [-> H]; [|apply FormatInt_no_colon..]. split; [done|].
  apply (f_equal ParseInt) in H. rewrite !ParseInt_FormatInt in H by done. by injection H.
Qed.
Lemma epoch_later e e' : e + second <= e' -> epoch e < epoch e'.
Proof.
  intros H. unfold epoch, second in *.
  destruct (Z.leb_spec 0 e), (Z.leb_spec 0 e'); [| lia | |].
  - enough ((2 * e + 1000000000) / (2 * 1000000000) + 1 <= (2 * e' + 1000000000) / (2 * 1000000000)) by lia.
    rewrite <- Z.div_add by lia. apply Z.div_le_mono; lia.
  - assert (0 <= (2 * e' + 1000000000) / (2 * 1000000000)) by (apply Z.div_pos; lia).
    assert (0 < (2 * - e + 1000000000) / (2 * 1000000000) \/ e > - 500000000) as [?|?].
    { destruct (Z.le_gt_cases e (- 500000000)); [left|right; lia]. apply Z.div_str_pos. lia. }
    + lia.
    + assert (500000000 < e') by lia. assert (1 <= (2 * e' + 1000000000) / (2 * 1000000000)) by (apply Z.div_le_lower_bound; lia).
      assert (0 <= (2 * - e + 1000000000) / (2 * 1000000000)) by (apply Z.div_pos; lia). lia.
  - enough ((2 * - e' + 1000000000) / (2 * 1000000000) + 1 <= (2 * - e + 1000000000) / (2 * 1000000000)) by lia.
    rewrite <- Z.div_add by lia. apply Z.div_le_mono; lia.
Qed.
Lemma epoch_mono e e' : e <= e' -> epoch e <= epoch e'.
Proof.
  intros H. unfold epoch, second in *. destruct (Z.leb_spec 0 e), (Z.leb_spec 0 e'); [| lia | |].
  - apply Z.div_le_mono; lia.
  - assert (0 <= (2 * e' + 1000000000) / (2 * 1000000000)) by (apply Z.div_pos; lia).
    assert (0 <= (2 * - e + 1000000000) / (2 * 1000000000)) by (apply Z.div_pos; lia). lia.
  - enough ((2 * - e' + 1000000000) / (2 * 1000000000) <= (2 * - e + 1000000000) / (2 * 1000000000)) by lia.
    apply Z.div_le_mono; lia.
Qed.

(** ** Renewals *)

(** The renewal that a user is due for. *)
Definition renewal_of (now : time) (t : ctables) (u : string) : option renewal :=
  s ← c_subscriptions t !! u; due_renewal now t u s.

Record is_due (now : time) (t : ctables) (u : string) (s : subscription_row) (r : renewal) : Prop := {
  du_sub : c_subscriptions t !! u = Some s;
  du_user : rn_user r = u;
  du_target : rn_target r = default (sb_plan s) (sb_pending s);
  du_plan : c_plans t !! rn_target r = Some (rn_plan r);
  du_balance : c_wallets t !! u = Some (rn_balance r);
  du_ends : sb_ends s = Some (rn_ends r);
  du_when : rn_ends r <= now;
  du_funds : pl_price (rn_plan r) <= rn_balance r;
  du_status : sb_plan s <> "TRIAL" /\ sb_status s = "active" }.

Lemma renewal_of_due now t u r : renewal_of now t u = Some r <-> exists s, is_due now t u s r.
Proof.
  unfold renewal_of, due_renewal. split.
  - destruct (c_subscriptions t !! u) as [s|] eqn:Es; [|done]. cbn.
    destruct (c_plans t !! _) as [p|] eqn:Ep; [|done]. cbn. destruct (c_wallets t !! u) as [b|] eqn:Eb; [|done]. cbn.
    destruct (sb_ends s) as [ends|] eqn:Ee; [|done]. cbn. destruct (_ && _) eqn:E; [|done]. intros [= <-].
    unfold is_trial, is_status in E. rewrite !andb_true_iff, negb_true_iff, String.eqb_neq, String.eqb_eq, !Z.leb_le in E.
    destruct E as (((H1 & H2) & H3) & H4). exists s. by split.
  - intros (s & [Hs <- Ht Hp Hb He Hw Hf [H1 H2]]). rewrite Hs. cbn. rewrite <- Ht, Hp. cbn. rewrite Hb. cbn. rewrite He. cbn.
    unfold is_trial, is_status. rewrite (proj2 (String.eqb_neq _ _) H1), (proj2 (String.eqb_eq _ _) H2),
      !(proj2 (Z.leb_le _ _)) by done. by destruct r.
Qed.
Lemma renewals_elem now t r : r ∈ renewals now t <-> renewal_of now t (rn_user r) = Some r.
Proof.
  unfold renewals. rewrite list_elem_of_omap. split.
  - intros ([u s] & Hin & Hr). apply elem_of_range in Hin.
    assert (Hu : renewal_of now t u = Some r) by (unfold renewal_of; by rewrite Hin).
    pose proof (proj1 (renewal_of_due _ _ _ _) Hu) as (s' & Hd). by rewrite (du_user _ _ _ _ _ Hd).
  - intros H. pose proof (proj1 (renewal_of_due _ _ _ _) H) as (s & Hd). pose proof (du_sub _ _ _ _ _ Hd) as Hs.
    exists (rn_user r, s). rewrite elem_of_range. split; [done|]. unfold renewal_of in H. by rewrite Hs in H.
Qed.
Lemma NoDup_renewals now t : NoDup (rn_user <$> renewals now t).
Proof.
  unfold renewals. pose proof (NoDup_range (c_subscriptions t)) as Hnd.
  assert (Hin : forall k s, (k, s) ∈ range (c_subscriptions t) -> c_subscriptions t !! k = Some s) by (intros; by apply elem_of_range).
  revert Hnd Hin. generalize (range (c_subscriptions t)) as l. intros l.
  induction l as [|[u s] l IH]; intros Hnd Hin; [apply NoDup_nil_2|].
  cbn in Hnd. apply NoDup_cons in Hnd as [Hni Hnd].
  assert (IH' : NoDup (rn_user <$> omap (λ '(user, s), due_renewal now t user s) l)).
  { apply IH; [done|]. intros. apply Hin. by constructor. }
  cbn [omap list_omap]. destruct (due_renewal now t u s) as [r|] eqn:E; [|exact IH'].
  cbn [fmap list_fmap]. apply NoDup_cons. split; [|exact IH'].
  assert (Hs : c_subscriptions t !! u = Some s) by (apply Hin; constructor).
  assert (Hu : rn_user r = u).
  { destruct (proj1 (renewal_of_due now t u r)) as (s' & Hd); [|by destruct Hd]. unfold renewal_of. by rewrite Hs. }
  rewrite Hu. intros (r' & Hr' & Hin')%list_elem_of_fmap. apply list_elem_of_omap in Hin' as ([u' s'] & Hin' & E').
  assert (Hu' : rn_user r' = u').
  { destruct (proj1 (renewal_of_due now t u' r')) as (s2 & Hd); [|by destruct Hd]. unfold renewal_of.
    by rewrite (Hin u' s') by (by constructor). }
  apply Hni. rewrite Hr', Hu'. apply list_elem_of_fmap. by exists (u', s').
Qed.

(** What the renewals of [rs] make of a user's subscription and balance. *)
Definition renewed_as (rs : list renewal) (t t' : ctables) : Prop :=
  (forall r, r ∈ rs -> c_subscriptions t' !! rn_user r = Some (renewed_row r)
                       /\ c_wallets t' !! rn_user r = Some (rn_balance r - pl_price (rn_plan r)))
  /\ (forall u, u ∉ rn_user <$> rs -> c_subscriptions t' !! u = c_subscriptions t !! u
                                      /\ c_wallets t' !! u = c_wallets t !! u).
(** The tables that a run only reads. *)
Definition fixed (t : ctables) := (c_users t, c_plans t, c_devices t, c_nodes t, c_assignments t, c_leases t, c_usage t).

Lemma renew_one_ok t r t' :
  renew_one t r = Ok t' ->
  in_int64 (epoch (rn_ends r)) = true /\ pl_price (rn_plan r) <> 0 /\ 0 <= rn_balance r - pl_price (rn_plan r)
  /\ c_subscriptions t' = <[rn_user r := renewed_row r]> (c_subscriptions t)
  /\ c_wallets t' = <[rn_user r := rn_balance r - pl_price (rn_plan r)]> (c_wallets t)
  /\ c_ledger t' = c_ledger t ++ (if key_taken (renew_key (rn_user r) (rn_ends r)) t then [] else [renewal_entry r])
  /\ fixed t' = fixed t /\ c_commands t' = c_commands t /\ c_notifications t' = c_notifications t.
Proof.
  unfold renew_one. destruct (in_int64 _); [|done]. cbn [negb]. destruct (ledger_checks _ t) eqn:E; [|done]. cbn [negb].
  apply ledger_checks_ok in E as (H1 & H2 & _). cbn [renewal_entry lg_amount lg_balance_after lg_key] in *.
  intros [= <-]. destruct (key_taken _ t); split_and!; try done; try lia; cbn; by rewrite app_nil_r.
Qed.

Lemma fold_renew rs t t' :
  NoDup (rn_user <$> rs) -> fold_rows renew_one rs t = Ok t' ->
  renewed_as rs t t' /\ fixed t' = fixed t /\ c_commands t' = c_commands t /\ c_notifications t' = c_notifications t
  /\ exists new, c_ledger t' = c_ledger t ++ new.
Proof.
  revert t. induction rs as [|r rs IH]; intros t; cbn [fold_rows].
  { intros _ [= <-]. split_and!; [split; [set_solver|done]|done..|]. exists []. by rewrite app_nil_r. }
  cbn [fmap list_fmap]. intros [Hni Hnd]%NoDup_cons. destruct (renew_one t r) as [t1|] eqn:E; [|done].
  apply renew_one_ok in E as (_ & _ & _ & Hs & Hw & Hl & Hf & Hc & Hn). intros H.
  apply IH in H as ([H1 H2] & Hf' & Hc' & Hn' & new & Hl'); [|done].
  split_and!; [|congruence..|by rewrite Hl', Hl, <- app_assoc; eexists]. split.
  - intros r' [->|Hr']%elem_of_cons; [|by apply H1]. destruct (H2 _ Hni) as [-> ->].
    by rewrite Hs, Hw, !lookup_insert, !decide_True.
  - intros u Hu. cbn in Hu. apply not_elem_of_cons in Hu as [Hne Hu]. destruct (H2 _ Hu) as [-> ->].
    by rewrite Hs, Hw, !lookup_insert_ne.
Qed.

Lemma fold_renew_range rs t t' :
  fold_rows renew_one rs t = Ok t' -> Forall (fun r => in_int64 (epoch (rn_ends r)) = true) rs.
Proof.
  revert t. induction rs as [|r rs IH]; intros t; [constructor|]. cbn [fold_rows].
  destruct (renew_one t r) as [t1|] eqn:E; [|done]. intros H. constructor; [by apply renew_one_ok in E as [? _]|by eapply IH].
Qed.

(** Renewals with fresh keys keep the books. *)
Lemma renew_one_posted t r t' :
  c_wallets t !! rn_user r = Some (rn_balance r) -> rn_balance r <= int64_max -> 0 <= pl_price (rn_plan r) ->
  renew_key (rn_user r) (rn_ends r) ∉ lg_key <$> c_ledger t ->
  renew_one t r = Ok t' -> posted (renewal_entry r) t t'.
Proof.
  intros Hw Hmax Hp Hk (_ & Hne & Hpos & _ & Hw' & Hl & _)%renew_one_ok.
  rewrite (proj2 (key_taken_spec _ _) Hk) in Hl. split; cbn [renewal_entry lg_user lg_amount lg_balance_after lg_key]; try done; try lia.
  exists (rn_balance r). split; [done|lia].
Qed.
Lemma fold_renew_books rs t t' :
  NoDup (rn_user <$> rs) -> books t ->
  (forall r, r ∈ rs -> c_wallets t !! rn_user r = Some (rn_balance r) /\ 0 <= pl_price (rn_plan r)
             /\ renew_key (rn_user r) (rn_ends r) ∉ lg_key <$> c_ledger t) ->
  fold_rows renew_one rs t = Ok t' -> books t' /\ c_ledger t' = c_ledger t ++ (renewal_entry <$> rs).
Proof.
  revert t. induction rs as [|r rs IH]; intros t; cbn [fold_rows fmap list_fmap].
  { intros _ Hb _ [= <-]. by rewrite app_nil_r. }
  intros [Hni Hnd]%NoDup_cons Hb Hr. destruct (renew_one t r) as [t1|] eqn:E; [|done]. intros H.
  destruct (Hr r) as (Hw & Hp & Hk); [constructor|].
  pose proof (renew_one_ok _ _ _ E) as (Hin & _ & _ & _ & Hw1 & Hl & _).
  pose proof (renew_one_posted _ _ _ Hw (proj2 (bk_range _ Hb _ _ Hw)) Hp Hk E) as Hpost.
  rewrite (proj2 (key_taken_spec _ _) Hk) in Hl.
  assert (Hb1 : books t1) by (by eapply posted_books).
  pose proof (fold_renew_range _ _ _ H) as Hin'.
  apply IH in H as (Hb' & Hl'); [|done|done|].
  - split; [done|by rewrite Hl', Hl, <- app_assoc].
  - intros r' Hr'. assert (Hne : rn_user r' <> rn_user r).
    { intros Heq. apply Hni. rewrite <- Heq. by apply list_elem_of_fmap_2. }
    destruct (Hr r') as (Hw' & Hp' & Hk'); [by constructor|]. rewrite Hw1, lookup_insert_ne by done. split_and!; [done..|].
    rewrite Hl, fmap_app, elem_of_app. intros [?|Heq]; [done|]. cbn in Heq. apply list_elem_of_singleton in Heq.
    rewrite Forall_forall in Hin'. apply renew_key_inj in Heq as [? _]; [done|by apply Hin'|done].
Qed.

(** ** One run *)

Definition command_text (c : command_row) : new_command := (cm_node c, cm_type c, cm_payload c).
Definition queued_at (now : time) (c : command_row) : Prop :=
  is_open c = true /\ cm_attempts c = 0 /\ cm_not_before c = now /\ cm_expires_at c = now + 24 * hour.

Lemma insert_commands_ok now rows ids t t' :
  insert_commands now rows ids t = Ok t' -> exists new, t' = with_commands (fun l => l ++ new) t
    /\ command_text <$> new = rows
    /\ Forall (queued_at now) new.
Proof.
  revert ids t. induction rows as [|[[node kind] payload] rows IH]; intros ids t; cbn [insert_commands].
  { intros [= <-]. exists []. split_and!; [|done|constructor]. destruct t. unfold with_commands. cbn. by rewrite app_nil_r. }
  destruct (insert_command _ _ _ _ _ t) as [t1|] eqn:E; [|done]. unfold insert_command in E.
  destruct (c_nodes t !! node); [|done]. destruct (existsb _ _); [done|]. injection E as <-.
  set (row := mkCommandRow _ _ _ _ _ _ _ _ _ _ _). intros (new & -> & <- & Hall)%IH.
  exists (row :: new). split_and!; [|done|by constructor].
  unfold with_commands. cbn. by rewrite <- app_assoc.
Qed.
Lemma queue_rows_ok now rows s a s' :
  queue_rows now rows s = (Ok a, s') -> exists new, cp s' = with_commands (fun l => l ++ new) (cp s)
    /\ command_text <$> new = rows (cp s)
    /\ Forall (queued_at now) new.
Proof.
  unfold queue_rows. intros (ids & s1 & [= <- <-] & H)%bind_done. apply stmt_ok in H as (_ & _ & t & H & ->). cbn [cp] in H.
  unfold done_rows in H. destruct (insert_commands _ _ _ _) as [t1|] eqn:E; [|done]. injection H as _ <-.
  by eapply insert_commands_ok.
Qed.

(** A device with its subscription and its node. *)
Definition placed (t : ctables) (device : string) (s : subscription_row) (a : assignment_row) : Prop :=
  exists d, c_devices t !! device = Some d /\ c_subscriptions t !! cd_user d = Some s /\ c_assignments t !! device = Some a.
Lemma device_rows_elem t device s a : (device, s, a) ∈ device_rows t <-> placed t device s a.
Proof.
  unfold device_rows, placed. rewrite list_elem_of_omap. split.
  - intros ([dv d] & Hin & H). apply elem_of_range in Hin. destruct (c_subscriptions t !! cd_user d) eqn:Es; [|done]. cbn in H.
    destruct (c_assignments t !! dv) eqn:Ea; [|done]. cbn in H. injection H as -> -> ->. eauto.
  - intros (d & Hd & Hs & Ha). exists (device, d). rewrite elem_of_range, Hs. cbn. by rewrite Ha.
Qed.
Lemma NoDup_omap_key {A B K} (key : A -> K) (f : A -> option B) l :
  NoDup (key <$> l) -> (forall x y b, f x = Some b -> f y = Some b -> key x = key y) -> NoDup (omap f l).
Proof.
  intros Hnd Hinj. induction l as [|x l IH]; [constructor|]. cbn in Hnd. apply NoDup_cons in Hnd as [Hni Hnd].
  cbn [omap list_omap]. destruct (f x) as [b|] eqn:E; [|by apply IH]. apply NoDup_cons. split; [|by apply IH].
  intros (y & Hy & Ey)%list_elem_of_omap. apply Hni. rewrite (Hinj x y b E Ey). by apply list_elem_of_fmap_2.
Qed.
Lemma NoDup_device_rows t : NoDup ((fun row : placed_device => row.1.1) <$> device_rows t).
Proof.
  unfold device_rows. pose proof (NoDup_range (c_devices t)) as Hnd. revert Hnd. generalize (range (c_devices t)) as l.
  induction l as [|[dv d] l IH]; intros Hnd; [constructor|]. cbn in Hnd. apply NoDup_cons in Hnd as [Hni Hnd].
  cbn [omap list_omap]. destruct (c_subscriptions t !! cd_user d); cbn; [|by apply IH].
  destruct (c_assignments t !! dv); cbn; [|by apply IH]. apply NoDup_cons. split; [|by apply IH].
  intros ([[dv' s'] a'] & Heq & Hin)%list_elem_of_fmap. cbn in Heq. subst dv'. apply list_elem_of_omap in Hin as ([dv' d'] & Hin & H).
  destruct (c_subscriptions t !! cd_user d'); [|done]. cbn in H. destruct (c_assignments t !! dv'); [|done]. cbn in H.
  injection H as -> _ _. apply Hni. change dv with (dv, d').1. by apply list_elem_of_fmap_2.
Qed.

(** The commands that a run at [now] has to queue. *)
Inductive override_due (now : time) (t : ctables) : new_command -> Prop :=
  | OverrideDue device s a g :
      placed t device s a -> sb_status s = "grace" -> sb_grace s = Some g -> now + (23 * hour + 58 * minute) < g ->
      override_due now t (as_node a, "policy.override",
        JObj [("deviceId", JStr device); ("upBps", jint 1000000); ("downBps", jint 1000000);
              ("p2pAllowed", JBool false); ("expiresAt", JStr (pg_timestamp g))]).
Definition kick_open (commands : list command_row) (node device : string) : Prop :=
  exists c, c ∈ commands /\ is_open c = true /\ cm_node c = node /\ cm_type c = "session.kick"
    /\ json_text (cm_payload c) "deviceId" = Some device.
Inductive kick_due (now : time) (t : ctables) (commands : list command_row) : new_command -> Prop :=
  | KickDue device s a ended :
      placed t device s a -> sb_status s = "expired" \/ sb_status s = "suspended" ->
      match sb_grace s with Some g => Some g | None => sb_ends s end = Some ended -> now - 2 * minute < ended ->
      ~ kick_open commands (as_node a) device ->
      kick_due now t commands
        (as_node a, "session.kick", JObj [("deviceId", JStr device); ("reason", JStr "subscription ended")]).

Lemma grace_overrides_spec now t :
  NoDup (grace_overrides now t) /\ forall row, row ∈ grace_overrides now t <-> override_due now t row.
Proof.
  split.
  - eapply NoDup_omap_key; [apply NoDup_device_rows|]. intros [[d1 s1] a1] [[d2 s2] a2] b. unfold grace_override.
    destruct (sb_grace s1), (sb_grace s2); cbn; try done. destruct (_ && _), (_ && _); try done. intros H1 H2. rewrite <- H2 in H1. by injection H1.
  - intros row. unfold grace_overrides. rewrite list_elem_of_omap. split.
    + intros ([[device s] a] & Hin%device_rows_elem & H). unfold grace_override, is_status in H.
      destruct (sb_grace s) as [g|] eqn:Eg; [|done]. cbn in H. destruct (_ && _) eqn:E; [|done]. injection H as <-.
      rewrite andb_true_iff, String.eqb_eq, Z.ltb_lt in E. destruct E. by eapply OverrideDue.
    + intros [device s a g Hin Hst Hg Hlt]. exists (device, s, a). rewrite device_rows_elem. split; [done|].
      unfold grace_override, is_status. rewrite Hg, Hst. cbn [mbind option_bind String.eqb andb].
      by rewrite (proj2 (Z.ltb_lt _ _) Hlt).
Qed.
Lemma open_kick_spec node device t : open_kick node device t = true <-> kick_open (c_commands t) node device.
Proof.
  unfold open_kick, kick_open. rewrite existsb_exists. split; intros (c & Hc & H); exists c; rewrite list_elem_of_In in *;
    rewrite !andb_true_iff, bool_decide_eq_true, !String.eqb_eq in *; naive_solver.
Qed.
Lemma ended_kicks_spec now t :
  NoDup (ended_kicks now t) /\ forall row, row ∈ ended_kicks now t <-> kick_due now t (c_commands t) row.
Proof.
  split.
  - eapply NoDup_omap_key; [apply NoDup_device_rows|]. intros [[d1 s1] a1] [[d2 s2] a2] b. unfold ended_kick.
    destruct (_ && _), (_ && _); try done. intros H1 H2. rewrite <- H2 in H1. by injection H1.
  - intros row. unfold ended_kicks. rewrite list_elem_of_omap. split.
    + intros ([[device s] a] & Hin%device_rows_elem & H). unfold ended_kick, is_status in H. destruct (_ && _) eqn:E; [|done].
      injection H as <-. rewrite !andb_true_iff, orb_true_iff, !String.eqb_eq, negb_true_iff in E. destruct E as [[Hst Hl] Ho].
      unfold later in Hl. destruct (match sb_grace s with Some g => _ | None => _ end) as [ended|] eqn:Ee; [|done]. apply Z.ltb_lt in Hl.
      eapply KickDue; [done..|]. rewrite <- open_kick_spec. by rewrite Ho.
    + intros [device s a ended Hin Hst He Hl Ho]. exists (device, s, a). rewrite device_rows_elem. split; [done|].
      unfold ended_kick, is_status. rewrite He. cbn [later]. rewrite (proj2 (Z.ltb_lt _ _) Hl).
      rewrite <- open_kick_spec, not_true_iff_false in Ho. rewrite Ho. by destruct Hst as [->| ->].
Qed.

(** The notices that a run at [now] has to leave. *)
Inductive announced (now : time) (t : ctables) : string * string * time -> Prop :=
  | TrialReminder u s ends h :
      c_subscriptions t !! u = Some s -> sb_plan s = "TRIAL" -> sb_status s = "active" -> sb_ends s = Some ends -> now < ends ->
      h ∈ [48; 24; 12; 6; 3; 1] -> announced now t (u, "trial." +:+ FormatInt h +:+ "h", ends - h * hour)
  | GraceEntered u s g :
      c_subscriptions t !! u = Some s -> sb_status s = "grace" -> sb_grace s = Some g -> now - 2 * minute < g ->
      announced now t (u, "grace.entered", now)
  | GraceReminder u s g h :
      c_subscriptions t !! u = Some s -> sb_status s = "grace" -> sb_grace s = Some g ->
      h ∈ [12; 1] -> announced now t (u, "grace." +:+ FormatInt h +:+ "h", g - h * hour)
  | TrialBlocked u s ends :
      c_subscriptions t !! u = Some s -> sb_plan s = "TRIAL" -> sb_status s = "expired" -> sb_ends s = Some ends ->
      now - 2 * minute < ends -> announced now t (u, "trial.blocked", ends)
  | GraceBlocked u s g :
      c_subscriptions t !! u = Some s -> sb_status s = "suspended" -> sb_grace s = Some g ->
      now - 2 * minute < g -> announced now t (u, "grace.blocked", g).

Definition all_notices (now : time) (t : ctables) : list notification_row :=
  mbind (fun f => each_subscription f t) (notices now).
Lemma hours_before_elem prefix user hours at_ k :
  k ∈ notice_key <$> hours_before prefix user hours at_ <->
  exists h, h ∈ hours /\ k = (user, prefix +:+ FormatInt h +:+ "h", at_ - h * hour).
Proof.
  unfold hours_before. rewrite <- list_fmap_compose, list_elem_of_fmap. split; intros (h & H1 & H2); by exists h.
Qed.
Lemma each_subscription_elem f t k :
  k ∈ notice_key <$> each_subscription f t <-> exists u s, c_subscriptions t !! u = Some s /\ k ∈ notice_key <$> f u s.
Proof.
  unfold each_subscription. rewrite list_elem_of_fmap. setoid_rewrite list_elem_of_bind. split.
  - intros (n & -> & [u s] & Hn & Hin%elem_of_range). exists u, s. split; [done|]. by apply list_elem_of_fmap_2.
  - intros (u & s & Hs & (n & -> & Hn)%list_elem_of_fmap). exists n. split; [done|]. exists (u, s). by rewrite elem_of_range.
Qed.
Lemma guarded_notices (b : bool) ns k : k ∈ notice_key <$> (if b then ns else []) <-> b = true /\ k ∈ notice_key <$> ns.
Proof. destruct b; cbn; set_solver. Qed.
Lemma one_notice user kind at_ k : k ∈ notice_key <$> [fresh_notification user kind at_] <-> k = (user, kind, at_).
Proof. cbn. apply list_elem_of_singleton. Qed.
Lemma no_notice k : ~ k ∈ notice_key <$> [].
Proof. apply not_elem_of_nil. Qed.
Lemma announced_spec now t k : k ∈ notice_key <$> all_notices now t <-> announced now t k.
Proof.
  assert (Hall : k ∈ notice_key <$> all_notices now t
    <-> exists f u s, f ∈ notices now /\ c_subscriptions t !! u = Some s /\ k ∈ notice_key <$> f u s).
  { unfold all_notices. rewrite list_elem_of_fmap. setoid_rewrite list_elem_of_bind. split.
    - intros (n & -> & f & Hn & Hf). destruct (proj1 (each_subscription_elem f t (notice_key n))) as (u & s & Hs & Hk); [|eauto 6].
      by apply list_elem_of_fmap_2.
    - intros (f & u & s & Hf & Hs & Hk). assert (H : k ∈ notice_key <$> each_subscription f t) by (apply each_subscription_elem; eauto).
      apply list_elem_of_fmap in H as (n & -> & Hn). eauto. }
  rewrite Hall. split.
  - intros (f & u & s & Hf & Hs & Hk). unfold notices in Hf. rewrite !elem_of_cons in Hf.
    destruct Hf as [->|[->|[->|[->|[->|Hf%elem_of_nil]]]]]; [..|done];
      unfold trial_reminders, grace_entered, grace_reminders, trial_blocked, grace_blocked, is_trial, is_status in Hk.
    + destruct (sb_ends s) eqn:Ee; [|by apply no_notice in Hk]. apply guarded_notices in Hk as [E Hk].
      rewrite !andb_true_iff, !String.eqb_eq, Z.ltb_lt in E. apply hours_before_elem in Hk as (h & Hh & ->).
      destruct E as [[? ?] ?]. by eapply TrialReminder.
    + apply guarded_notices in Hk as [E ->%one_notice]. rewrite andb_true_iff, String.eqb_eq in E. destruct E as [? Hl].
      destruct (sb_grace s) eqn:Eg; [|done]. cbn in Hl. apply Z.ltb_lt in Hl. by eapply GraceEntered.
    + destruct (sb_grace s) eqn:Eg; [|by apply no_notice in Hk]. apply guarded_notices in Hk as [E%String.eqb_eq Hk].
      apply hours_before_elem in Hk as (h & Hh & ->). by eapply GraceReminder.
    + destruct (sb_ends s) eqn:Ee; [|by apply no_notice in Hk]. apply guarded_notices in Hk as [E ->%one_notice].
      rewrite !andb_true_iff, !String.eqb_eq, Z.ltb_lt in E. destruct E as [[? ?] ?]. by eapply TrialBlocked.
    + destruct (sb_grace s) eqn:Eg; [|by apply no_notice in Hk]. apply guarded_notices in Hk as [E ->%one_notice].
      rewrite !andb_true_iff, !String.eqb_eq, Z.ltb_lt in E. destruct E. by eapply GraceBlocked.
  - unfold notices. intros [u s ends h Hs Hp Ha He Hl Hh|u s g Hs Ha Hg Hl|u s g h Hs Ha Hg Hh|u s ends Hs Hp Ha He Hl|u s g Hs Ha Hg Hl].
    + exists (trial_reminders now), u, s. split_and!; [set_solver|done|]. unfold trial_reminders, is_trial, is_status.
      rewrite He, guarded_notices, Hp, Ha, (proj2 (Z.ltb_lt _ _) Hl), hours_before_elem. eauto.
    + exists (grace_entered now), u, s. split_and!; [set_solver|done|]. unfold grace_entered, is_status, later.
      by rewrite guarded_notices, Hg, Ha, (proj2 (Z.ltb_lt _ _) Hl), one_notice.
    + exists grace_reminders, u, s. split_and!; [set_solver|done|]. unfold grace_reminders, is_status.
      rewrite Hg, guarded_notices, Ha, hours_before_elem. eauto.
    + exists (trial_blocked now), u, s. split_and!; [set_solver|done|]. unfold trial_blocked, is_trial, is_status.
      by rewrite He, guarded_notices, Hp, Ha, (proj2 (Z.ltb_lt _ _) Hl), one_notice.
    + exists (grace_blocked now), u, s. split_and!; [set_solver|done|]. unfold grace_blocked, is_status.
      by rewrite Hg, guarded_notices, Ha, (proj2 (Z.ltb_lt _ _) Hl), one_notice.
Qed.

(** [new] is what inserting [ns] adds to [t]: each notice that was not there, once. *)
Record added (ns : list notification_row) (t : ctables) (new : list notification_row) : Prop := {
  ad_new : new ⊆ ns;
  ad_once : NoDup (notice_key <$> new);
  ad_keys : forall k, k ∈ notice_key <$> new <-> k ∈ notice_key <$> ns /\ k ∉ notice_keys t }.
Lemma notify_known t n :
  existsb (fun m => String.eqb (no_user m) (no_user n) && String.eqb (no_kind m) (no_kind n)
                       && (no_scheduled_at m =? no_scheduled_at n)) (c_notifications t) = true
  <-> notice_key n ∈ notice_keys t.
Proof.
  unfold notice_keys. rewrite existsb_exists, list_elem_of_fmap. split; intros (m & H1 & H2); exists m.
  - rewrite !andb_true_iff, !String.eqb_eq, Z.eqb_eq in H2. destruct H2 as [[E1 E2] E3]. rewrite list_elem_of_In. split; [|done].
    unfold notice_key. congruence.
  - unfold notice_key in H1. injection H1 as E1 E2 E3. rewrite list_elem_of_In in H2. split; [done|].
    by rewrite E1, E2, E3, !String.eqb_refl, Z.eqb_refl.
Qed.
Lemma notify_added ns t : exists new, foldl notify t ns = with_notifications (fun l => l ++ new) t /\ added ns t new.
Proof.
  revert t. induction ns as [|n ns IH]; intros t; cbn [foldl].
  { exists []. split; [by destruct t; unfold with_notifications; cbn; rewrite app_nil_r|]. split; [done|constructor|set_solver]. }
  pose proof (notify_known t n) as Hn. unfold notify at 2. destruct (existsb _ _).
  - destruct (IH t) as (new & -> & [H1 H2 H3]). exists new. split; [done|]. split; [set_solver|done|].
    intros k. rewrite H3. cbn. rewrite elem_of_cons. assert (notice_key n ∈ notice_keys t) by (by apply Hn). naive_solver.
  - destruct (IH (with_notifications (fun l => l ++ [n]) t)) as (new & -> & [H1 H2 H3]). exists (n :: new).
    assert (Hk : forall k, k ∉ notice_keys (with_notifications (fun l => l ++ [n]) t) <-> k ∉ notice_keys t /\ k <> notice_key n).
    { intros k. unfold notice_keys. cbn. rewrite fmap_app, elem_of_app. cbn. rewrite list_elem_of_singleton. naive_solver. }
    split; [by unfold with_notifications; cbn; rewrite <- app_assoc|]. split; [set_solver| |].
    + cbn. apply NoDup_cons. split; [|done]. rewrite H3, Hk. naive_solver.
    + intros k. cbn. rewrite !elem_of_cons, H3, Hk. assert (notice_key n ∉ notice_keys t) by (intros ?%Hn; done).
      destruct (decide (k = notice_key n)); naive_solver.
Qed.
Lemma notify_each_fold fs t : notify_each fs t = foldl notify t (mbind (fun f => each_subscription f t) fs).
Proof.
  revert t. induction fs as [|f fs IH]; intros t; [done|]. cbn [notify_each foldl mbind list_bind]. rewrite foldl_app.
  destruct (notify_added (each_subscription f t) t) as (new & -> & _).
  exact (IH (with_notifications (fun l => l ++ new) t)).
Qed.
Lemma all_notices_fresh now t n : n ∈ all_notices now t -> n = fresh_notification (no_user n) (no_kind n) (no_scheduled_at n).
Proof.
  unfold all_notices. intros (f & Hn & Hf)%list_elem_of_bind. unfold each_subscription in Hn.
  apply list_elem_of_bind in Hn as ([u s] & Hn & _). unfold notices in Hf. rewrite !elem_of_cons in Hf.
  destruct Hf as [->|[->|[->|[->|[->|Hf%elem_of_nil]]]]]; [..|done];
    unfold trial_reminders, grace_entered, grace_reminders, trial_blocked, grace_blocked, hours_before in Hn;
    repeat case_match; set_solver.
Qed.

Lemma notify_all_ok now t a t' :
  notify_all now t = Ok (a, t') -> exists new, t' = with_notifications (fun l => l ++ new) t /\ added (all_notices now t) t new.
Proof.
  intros H. assert (t' = notify_each (notices now) t) as -> by (unfold notify_all in H; congruence).
  rewrite notify_each_fold. apply notify_added.
Qed.

(** The commands and the notices of a run at [now], between [t] and [t']: the
    overrides and kicks that are due and the notices that were not there yet, each
    once. *)
Definition orders_of (now : time) (t t' : ctables) : Prop :=
  exists overrides kicks, c_commands t' = c_commands t ++ overrides ++ kicks
    /\ Forall (queued_at now) (overrides ++ kicks)
    /\ NoDup (command_text <$> overrides) /\ NoDup (command_text <$> kicks)
    /\ (forall row, row ∈ command_text <$> overrides <-> override_due now t' row)
    /\ (forall row, row ∈ command_text <$> kicks <-> kick_due now t' (c_commands t) row).
Definition notices_of (now : time) (t t' : ctables) : Prop :=
  exists new, c_notifications t' = c_notifications t ++ new
    /\ Forall (fun n => no_sent_at n = None /\ no_attempts n = 0) new /\ NoDup (notice_key <$> new)
    /\ (forall k, k ∈ notice_key <$> new <-> announced now t' k /\ k ∉ notice_keys t).

(** [t'] is what a run at [now] makes of [t]. *)
Record lifecycle_ran (now : time) (t t' : ctables) : Prop := {
  lr_renewed : exists t1, fold_rows renew_one (renewals now t) t = Ok t1
    /\ money t' = money t1 /\ c_subscriptions t' = move_on now <$> c_subscriptions t1;
  lr_fixed : fixed t' = fixed t;
  lr_commands : orders_of now t t';
  lr_notices : notices_of now t t' }.

Lemma kick_open_app old new node device :
  Forall (fun c => cm_type c = "session.kick" -> False) new -> kick_open (old ++ new) node device <-> kick_open old node device.
Proof.
  rewrite Forall_forall. intros Hnew. split.
  - intros (c & [Hc|Hc]%elem_of_app & Ho & Hn & Ht & Hd); [by exists c|]. by destruct (Hnew c Hc).
  - intros (c & Hc & Hrest). exists c. by rewrite elem_of_app; auto.
Qed.
Lemma override_due_same now t t' row :
  (c_devices t, c_subscriptions t, c_assignments t) = (c_devices t', c_subscriptions t', c_assignments t') ->
  override_due now t row <-> override_due now t' row.
Proof.
  intros [= Hd Hs Ha]. split; intros [device s a g Hp Hst Hg Hl]; eapply OverrideDue; try done; unfold placed in *;
    [by rewrite <- Hd, <- Hs, <- Ha|by rewrite Hd, Hs, Ha].
Qed.
Lemma kick_due_commands now t t' old old' row :
  (c_devices t, c_subscriptions t, c_assignments t) = (c_devices t', c_subscriptions t', c_assignments t') ->
  (forall node device, kick_open old node device <-> kick_open old' node device) ->
  kick_due now t old row <-> kick_due now t' old' row.
Proof.
  intros [= Hd Hs Ha] Ho. split; intros [device s a ended Hp Hst He Hl Hk]; eapply KickDue; try done;
    unfold placed in *; try (by rewrite Ho in Hk); try (by rewrite <- Ho in Hk); [by rewrite <- Hd, <- Hs, <- Ha|by rewrite Hd, Hs, Ha].
Qed.
Lemma announced_same now t t' k : c_subscriptions t = c_subscriptions t' -> announced now t k -> announced now t' k.
Proof. intros H Ha. destruct Ha; rewrite H in *; by econstructor. Qed.

Lemma lifecycle_effect now s r s' :
  subscriptionLifecycle now s = (r, s') ->
  (cp s' = cp s /\ is_ok r = false) \/ lifecycle_ran now (cp s) (cp s').
Proof.
  unfold subscriptionLifecycle. intros [H|(a & s1 & s2 & <- & H & ->)]%in_transaction_effect; [by left|right].
  apply bind_done in H as (a1 & sa & E1%stmt_ok & H). destruct E1 as (_ & _ & t1 & E1 & H1).
  apply bind_done in H as (a2 & sb & E2%stmt_ok & H). destruct E2 as (_ & _ & t2 & E2 & H2).
  apply bind_done in H as (a3 & sc & E3%queue_rows_ok & H). destruct E3 as (over & H3 & Hover & Hopen3).
  apply bind_done in H as (a4 & sd & E4%queue_rows_ok & H). destruct E4 as (kicks & H4 & Hkicks & Hopen4).
  apply stmt_ok in H as (_ & _ & t5 & E5 & H5). apply notify_all_ok in E5 as (new & -> & [Hsub Honce Hkeys]).
  unfold renew_due, done_rows in E1. destruct (fold_rows _ _ _) as [t0|] eqn:Ef; [|done]. injection E1 as _ <-.
  unfold update_statuses in E2. injection E2 as _ <-. rewrite H1 in H2. rewrite H2 in H3. rewrite H3 in H4. rewrite H4 in H5.
  pose proof Ef as Hfold. apply fold_renew in Hfold as (_ & Hfix & Hcmd & Hnot & _); [|apply NoDup_renewals].
  rewrite H2 in Hover. rewrite H3 in Hkicks. rewrite H4 in Hsub, Hkeys. clear H1 H2 H3 H4. split.
  - exists t0. rewrite H5. split_and!; [done|done|]. cbn. by rewrite <- !map_fmap_compose.
  - rewrite H5. cbn. unfold fixed in *. cbn. done.
  - exists over, kicks. rewrite H5. cbn [c_commands with_notifications with_commands with_subscriptions]. rewrite Hcmd, <- app_assoc.
    split_and!; [done|by apply Forall_app|rewrite Hover; apply grace_overrides_spec|rewrite Hkicks; apply ended_kicks_spec| |].
    + intros row. rewrite Hover, (proj2 (grace_overrides_spec _ _)). by apply override_due_same.
    + intros row. rewrite Hkicks, (proj2 (ended_kicks_spec _ _)). apply kick_due_commands; [done|].
      cbn [c_commands with_commands with_subscriptions]. rewrite Hcmd. intros node device. apply kick_open_app.
      apply Forall_forall. intros c Hc Ht. assert (Hin : command_text c ∈ command_text <$> over) by (by apply list_elem_of_fmap_2).
      rewrite Hover in Hin. apply grace_overrides_spec in Hin. unfold command_text in Hin. rewrite Ht in Hin. inversion Hin.
  - exists new. rewrite H5. cbn [c_notifications with_notifications with_commands with_subscriptions] in *. rewrite Hnot.
    split_and!; [done| |done|].
    + apply Forall_forall. intros n Hn%Hsub%all_notices_fresh. by rewrite Hn.
    + intros k. rewrite Hkeys. unfold notice_keys. cbn [c_notifications with_commands with_subscriptions]. rewrite Hnot, announced_spec.
      split; intros [H6 H7]; (split; [|done]); (eapply announced_same; [|exact H6]); done.
Qed.

(** ** The state machine of a subscription *)

(** The plan of the next period. *)
Definition next_plan (s : subscription_row) : string := default (sb_plan s) (sb_pending s).
(** The wallet of [u] holds [balance], enough for the next period, which is of plan [p]. *)
Record covered (t : ctables) (u : string) (s : subscription_row) (p : plan_row) (balance : Z) : Prop := {
  cov_plan : c_plans t !! next_plan s = Some p;
  cov_wallet : c_wallets t !! u = Some balance;
  cov_enough : pl_price p <= balance }.
(** The subscription [s] after its renewal at [ends] into plan [p]. *)
Definition next_period (s : subscription_row) (p : plan_row) (ends : time) : subscription_row :=
  mkSubscriptionRow (next_plan s) None "active" (Some ends) (Some (ends + 30 * day)) None (pl_quota p) 0.

(** One run of the worker on the subscription [s] of [u], with the amount it takes
    from the wallet.  [t] holds the plans and the wallets. *)
Inductive worker_step (now : time) (t : ctables) (u : string) (s : subscription_row) : Z -> subscription_row -> Prop :=
  | Stays :
      (sb_status s = "active" -> passed now (sb_ends s) = false) ->
      (sb_status s = "grace" -> passed now (sb_grace s) = false) ->
      worker_step now t u s 0 s
  | TrialEnds :
      sb_plan s = "TRIAL" -> sb_status s = "active" -> passed now (sb_ends s) = true ->
      worker_step now t u s 0 (with_status "expired" (sb_grace s) s)
  | PeriodRenewed p balance ends :
      sb_plan s <> "TRIAL" -> sb_status s = "active" -> sb_ends s = Some ends -> covered t u s p balance ->
      ends <= now < ends + 30 * day ->
      worker_step now t u s (pl_price p) (next_period s p ends)
  | RenewedTooLate p balance ends :
      sb_plan s <> "TRIAL" -> sb_status s = "active" -> sb_ends s = Some ends -> covered t u s p balance ->
      ends + 30 * day <= now ->
      worker_step now t u s (pl_price p) (with_status "grace" (Some (now + 24 * hour)) (next_period s p ends))
  | GraceBegins :
      sb_plan s <> "TRIAL" -> sb_status s = "active" -> passed now (sb_ends s) = true ->
      (forall p balance, ~ covered t u s p balance) ->
      worker_step now t u s 0 (with_status "grace" (Some (now + 24 * hour)) s)
  | GraceEnds :
      sb_status s = "grace" -> passed now (sb_grace s) = true ->
      worker_step now t u s 0 (with_status "suspended" (sb_grace s) s).

(** The machine leaves no choice. *)
Lemma worker_step_unique now t u s c1 s1 c2 s2 :
  worker_step now t u s c1 s1 -> worker_step now t u s c2 s2 -> c1 = c2 /\ s1 = s2.
Proof.
  assert (Hday : 0 < 30 * day) by done.
  intros [S1 S2|T1 T2 T3|p b e P1 P2 P3 P4 P5|p b e P1 P2 P3 P4 P5|G1 G2 G3 G4|E1 E2]
    [S1' S2'|T1' T2' T3'|p' b' e' P1' P2' P3' P4' P5'|p' b' e' P1' P2' P3' P4' P5'|G1' G2' G3' G4'|E1' E2'];
    try rewrite P3 in *; try rewrite P3' in *; cbn [passed] in *;
    try specialize (S1 ltac:(done)); try specialize (S2 ltac:(done)); try specialize (S1' ltac:(done)); try specialize (S2' ltac:(done));
    rewrite ?Z.leb_gt in *; try congruence; try lia; try (by edestruct G4); try (by edestruct G4').
  all: first [done|destruct P4, P4'; simplify_eq; try lia; done].
Qed.

(** The subscription of a user after a run. *)
Definition settled (now : time) (t : ctables) (u : string) (s : subscription_row) : subscription_row :=
  move_on now (match renewal_of now t u with Some r => renewed_row r | None => s end).
Definition charge_of (now : time) (t : ctables) (u : string) : Z :=
  match renewal_of now t u with Some r => pl_price (rn_plan r) | None => 0 end.

Lemma lifecycle_user now t t' u :
  lifecycle_ran now t t' ->
  c_subscriptions t' !! u = settled now t u <$> c_subscriptions t !! u
  /\ c_wallets t' !! u = (fun b => b - charge_of now t u) <$> c_wallets t !! u.
Proof.
  intros [(t1 & Hf & [= Hw _] & Hs) _ _ _]. apply fold_renew in Hf as ([H1 H2] & _); [|apply NoDup_renewals].
  rewrite Hs, Hw, lookup_fmap. unfold settled, charge_of. destruct (renewal_of now t u) as [r|] eqn:E.
  - destruct (proj1 (renewal_of_due _ _ _ _) E) as (s & Hd). destruct (Hd) as [Hsub Hu _ _ Hb _ _ _ _].
    destruct (H1 r) as [E1 E2]; [apply renewals_elem; by rewrite Hu|]. rewrite Hu in E1, E2.
    rewrite E1, E2, Hsub, Hb. done.
  - destruct (H2 u) as [-> ->].
    { intros (r & -> & Hr)%list_elem_of_fmap. apply renewals_elem in Hr. congruence. }
    split; [done|]. destruct (c_wallets t !! u); cbn; [f_equal; lia|done].
Qed.

Lemma move_on_active now s :
  sb_status s = "active" ->
  move_on now s = if passed now (sb_ends s) then
                    if is_trial s then with_status "expired" (sb_grace s) s
                    else with_status "grace" (Some (now + 24 * hour)) s
                  else s.
Proof.
  intros Ha. unfold move_on, expire_trial, is_status. rewrite Ha. cbn [String.eqb andb]. rewrite andb_true_r.
  destruct (passed now (sb_ends s)) eqn:Ep.
  - rewrite andb_true_r. destruct (is_trial s) eqn:Et.
    + unfold enter_grace, is_status, is_trial in *. cbn [with_status sb_plan sb_status]. rewrite Et. done.
    + unfold enter_grace, is_status. rewrite Ha, Et, Ep. cbn. unfold suspend, is_status. cbn.
      rewrite (proj2 (Z.leb_gt _ _)); [done|]. unfold hour, minute, second. lia.
  - rewrite andb_false_r. unfold enter_grace, is_status. rewrite Ha, Ep, andb_false_r. unfold suspend, is_status. by rewrite Ha.
Qed.
Lemma move_on_other now s :
  sb_status s <> "active" ->
  move_on now s = if is_status "grace" s && passed now (sb_grace s) then with_status "suspended" (sb_grace s) s else s.
Proof.
  intros Ha%String.eqb_neq. unfold move_on.
  assert (expire_trial now s = s) as -> by (unfold expire_trial, is_status; by rewrite Ha, andb_false_r).
  assert (enter_grace now s = s) as -> by (unfold enter_grace, is_status; by rewrite Ha, andb_false_r). done.
Qed.

(** The trial is free, so it is no target of a renewal that has been booked. *)
Definition trial_free (t : ctables) : Prop := forall p, c_plans t !! "TRIAL" = Some p -> pl_price p = 0.
Lemma fold_renew_priced rs t t' : fold_rows renew_one rs t = Ok t' -> Forall (fun r => pl_price (rn_plan r) <> 0) rs.
Proof.
  revert t. induction rs as [|r rs IH]; intros t; [constructor|]. cbn [fold_rows].
  destruct (renew_one t r) as [t1|] eqn:E; [|done]. intros H. constructor; [by apply renew_one_ok in E as (_ & ? & _)|by eapply IH].
Qed.
Lemma lifecycle_target now t t' u r :
  trial_free t -> lifecycle_ran now t t' -> renewal_of now t u = Some r -> rn_target r <> "TRIAL".
Proof.
  intros Hfree [(t1 & Hf & _) _ _ _] Hr Ht. apply fold_renew_priced in Hf. rewrite Forall_forall in Hf.
  destruct (proj1 (renewal_of_due _ _ _ _) Hr) as (s & Hd). destruct (Hd) as [_ Hu _ Hp _ _ _ _ _].
  apply (Hf r); [apply renewals_elem; by rewrite Hu|]. apply Hfree. by rewrite <- Ht.
Qed.

Lemma settled_step now t t' u s :
  trial_free t -> lifecycle_ran now t t' -> c_subscriptions t !! u = Some s ->
  worker_step now t u s (charge_of now t u) (settled now t u s).
Proof.
  intros Hfree Hran Hs. unfold settled, charge_of. destruct (renewal_of now t u) as [r|] eqn:E.
  - pose proof (lifecycle_target _ _ _ _ _ Hfree Hran E) as Ht.
    destruct (proj1 (renewal_of_due _ _ _ _) E) as (s' & Hd). destruct (Hd) as [Hs' _ Htg Hpl Hb He Hw Hf [Hp Ha]].
    assert (s' = s) as -> by congruence. rewrite move_on_active by done. cbn [renewed_row sb_ends passed].
    unfold is_trial. cbn [sb_plan renewed_row]. rewrite (proj2 (String.eqb_neq _ _) Ht).
    assert (Hrow : renewed_row r = next_period s (rn_plan r) (rn_ends r)) by (unfold renewed_row, next_period, next_plan; by rewrite Htg).
    assert (Hcov : covered t u s (rn_plan r) (rn_balance r)) by (split; [unfold next_plan; by rewrite <- Htg|done|done]).
    rewrite Hrow. destruct (Z.leb_spec (rn_ends r + 30 * day) now); [by eapply RenewedTooLate|by eapply PeriodRenewed].
  - destruct (String.eqb_spec (sb_status s) "active") as [Ha|Ha].
    + rewrite move_on_active by done. destruct (passed now (sb_ends s)) eqn:Ep.
      * unfold is_trial. destruct (String.eqb_spec (sb_plan s) "TRIAL"); [by apply TrialEnds|apply GraceBegins; try done].
        intros p b [Hpl Hb Hle]. destruct (sb_ends s) as [ends|] eqn:Ee; [|done]. cbn in Ep. apply Z.leb_le in Ep.
        assert (Hr : renewal_of now t u = Some (mkRenewal u (next_plan s) p ends b)); [|congruence].
        apply renewal_of_due. exists s. by split.
      * apply Stays; [done|congruence].
    + rewrite move_on_other by done. unfold is_status. destruct (String.eqb_spec (sb_status s) "grace") as [Hg|Hg]; cbn [andb].
      * destruct (passed now (sb_grace s)) eqn:Ep; [by apply GraceEnds|]. by apply Stays.
      * by apply Stays.
Qed.
(** Nothing is left overdue. *)
Lemma worker_step_settled now t u s charge s' :
  worker_step now t u s charge s' ->
  (sb_status s' = "active" -> passed now (sb_ends s') = false) /\ (sb_status s' = "grace" -> passed now (sb_grace s') = false).
Proof.
  assert (Hg : passed now (Some (now + 24 * hour)) = false).
  { cbn. apply Z.leb_gt. unfold hour, minute, second. lia. }
  intros [H1 H2|? ? ?|p b e ? ? ? ? ?|p b e ? ? ? ? ?|? ? ? ?|? ?]; cbn [with_status next_period sb_status sb_ends sb_grace passed]; try done.
  split; [intros _; apply Z.leb_gt; lia|done].
Qed.

(** ** The ledger and the renewals together *)

(** The keys that start with "renew:" were used for earlier periods of their
    users, and only a running paid period ends more than 30 days from now. *)
Record ledger_inv (clock : time) (t : ctables) : Prop := {
  li_books : books t;
  li_plans : plans_ok t;
  li_periods : forall code p, c_plans t !! code = Some p -> 0 <= mul64 (pl_period_seconds p) second;
  li_renew : forall r, r ∈ c_ledger t -> HasPrefix (lg_key r) "renew:" = true ->
    exists u e s ends, lg_key r = renew_key u e /\ in_int64 (epoch e) = true
      /\ c_subscriptions t !! u = Some s /\ sb_ends s = Some ends /\ epoch e < epoch ends;
  li_ends : forall u s ends, c_subscriptions t !! u = Some s -> sb_ends s = Some ends ->
    (sb_status s = "active" /\ sb_plan s <> "TRIAL") \/ ends <= clock + paidPeriod }.

Definition ends_grow (t t' : ctables) : Prop :=
  forall u s ends, c_subscriptions t !! u = Some s -> sb_ends s = Some ends ->
    exists s' ends', c_subscriptions t' !! u = Some s' /\ sb_ends s' = Some ends' /\ ends <= ends'.

Lemma ledger_inv_step clock clock' t t' :
  ledger_inv clock t -> books t' -> c_plans t' = c_plans t -> ends_grow t t' ->
  (forall r, r ∈ c_ledger t' -> HasPrefix (lg_key r) "renew:" = true -> r ∈ c_ledger t
     \/ exists u e s ends, lg_key r = renew_key u e /\ in_int64 (epoch e) = true
          /\ c_subscriptions t' !! u = Some s /\ sb_ends s = Some ends /\ epoch e < epoch ends) ->
  (forall u s ends, c_subscriptions t' !! u = Some s -> sb_ends s = Some ends ->
     (sb_status s = "active" /\ sb_plan s <> "TRIAL") \/ ends <= clock' + paidPeriod) ->
  ledger_inv clock' t'.
Proof.
  intros [Hb Hp Hd Hr He] Hb' Hplans Hgrow Hnew Hends. split; [done|unfold plans_ok; by rewrite Hplans|by rewrite Hplans| |done].
  intros r Hin Hpre. destruct (Hnew r Hin Hpre) as [Hold|?]; [|done].
  destruct (Hr r Hold Hpre) as (u & e & s & ends & H1 & H2 & H3 & H4 & H5).
  destruct (Hgrow _ _ _ H3 H4) as (s' & ends' & H6 & H7 & H8). exists u, e, s', ends'. split_and!; [done..|].
  pose proof (epoch_mono _ _ H8). lia.
Qed.

(** The keys of the renewals that are due are free. *)
Lemma renewals_fresh clock now t r :
  ledger_inv clock t -> r ∈ renewals now t -> in_int64 (epoch (rn_ends r)) = true ->
  renew_key (rn_user r) (rn_ends r) ∉ lg_key <$> c_ledger t.
Proof.
  intros Hinv Hr Hin (row & Hkey & Hrow)%list_elem_of_fmap.
  destruct (li_renew _ _ Hinv row Hrow) as (u & e & s & ends & H1 & H2 & H3 & H4 & H5); [rewrite <- Hkey; apply HasPrefix_app|].
  rewrite H1 in Hkey. apply renew_key_inj in Hkey as [<- Heq]; [|done..].
  apply renewals_elem, renewal_of_due in Hr as (s' & [Hs' _ _ _ _ He' _ _ _]). simplify_eq. lia.
Qed.

Lemma settled_ends now t u s ends :
  c_subscriptions t !! u = Some s -> sb_ends s = Some ends ->
  sb_ends (settled now t u s) = Some (match renewal_of now t u with Some _ => ends + 30 * day | None => ends end).
Proof.
  intros Hs He. unfold settled, move_on, suspend, enter_grace, expire_trial.
  assert (H : forall s', sb_ends (move_on now s') = sb_ends s').
  { intros s'. unfold move_on, suspend, enter_grace, expire_trial. by repeat (destruct (_ && _)). }
  unfold move_on, suspend, enter_grace, expire_trial in H. rewrite H. destruct (renewal_of now t u) as [r|] eqn:E; [|done].
  apply renewal_of_due in E as (s' & [Hs' _ _ _ _ He' _ _ _]). cbn [renewed_row sb_ends]. congruence.
Qed.

Lemma lifecycle_inv clock now t t' :
  clock <= now -> trial_free t -> ledger_inv clock t -> lifecycle_ran now t t' -> ledger_inv now t'.
Proof.
  intros Hclock Hfree Hinv Hran. pose proof Hran as [(t1 & Hf & [= Hw Hl] & Hs) Hfix _ _].
  pose proof (fold_renew_range _ _ _ Hf) as Hrange. rewrite Forall_forall in Hrange.
  destruct (fold_renew_books _ _ t1 (NoDup_renewals now t) (li_books _ _ Hinv)) as [Hb Hl1]; [|done|].
  { intros r Hr. pose proof (proj1 (renewals_elem _ _ _) Hr) as (s & Hd)%renewal_of_due. destruct (Hd) as [_ _ _ Hp Hbal _ _ _ _].
    split_and!; [done|by apply (li_plans _ _ Hinv) in Hp as [? _]|]. eapply renewals_fresh; [done|done|]. by apply Hrange. }
  assert (Hplans : c_plans t' = c_plans t) by (by injection Hfix).
  assert (Hgrow : ends_grow t t').
  { intros u s ends Hsub He. destruct (lifecycle_user _ _ _ u Hran) as [Hu _]. rewrite Hsub in Hu. cbn in Hu.
    eexists _, _. split_and!; [exact Hu|by eapply settled_ends|]. destruct (renewal_of now t u); unfold day, hour, minute, second; lia. }
  eapply (ledger_inv_step clock); [done| |done|done| |].
  - eapply money_books; [|exact Hb]. unfold money. by rewrite Hw, Hl.
  - intros row Hrow _. rewrite Hl, Hl1, elem_of_app in Hrow. destruct Hrow as [?|(r & -> & Hr)%list_elem_of_fmap]; [by left|right].
    pose proof (proj1 (renewals_elem _ _ _) Hr) as Hof. pose proof Hof as (s & Hd)%renewal_of_due. destruct (Hd) as [Hsub _ _ _ _ He _ _ _].
    destruct (lifecycle_user _ _ _ (rn_user r) Hran) as [Hu _]. rewrite Hsub in Hu. cbn in Hu.
    pose proof (settled_ends now t _ _ _ Hsub He) as Hends. rewrite Hof in Hends.
    eexists (rn_user r), (rn_ends r), _, _. split_and!; [done|by apply Hrange|exact Hu|exact Hends|].
    apply epoch_later. unfold day, hour, minute, second. lia.
  - intros u s' ends' Hu' He'. destruct (lifecycle_user _ _ _ u Hran) as [Hu _]. rewrite Hu' in Hu.
    destruct (c_subscriptions t !! u) as [s|] eqn:Es; [|done]. cbn in Hu. injection Hu as ->.
    pose proof (settled_step _ _ _ _ _ Hfree Hran Es) as Hstep.
    pose proof (fun ends => li_ends _ _ Hinv u s ends Es) as Hold. clear Hu'. revert Hstep He'.
    generalize (settled now t u s) as s'. intros s' Hstep. assert (HP : 0 <= paidPeriod /\ paidPeriod = 30 * day) by done.
    destruct Hstep as [_ _|_ _ Hp|p b e _ _ _ _ Hw'|p b e _ _ _ _ Hw'|_ _ Hp _|Hg _];
      cbn [with_status next_period sb_ends sb_status sb_plan]; intros He'.
    + destruct (Hold _ He'); [by left|right; lia].
    + right. rewrite He' in Hp. cbn in Hp. lia.
    + right. injection He' as <-. lia.
    + right. injection He' as <-. lia.
    + right. rewrite He' in Hp. cbn in Hp. lia.
    + destruct (Hold _ He') as [[? _]|?]; [congruence|right; lia].
Qed.

Lemma ledger_inv_accounts clock t t' : accounts t' = accounts t -> ledger_inv clock t -> ledger_inv clock t'.
Proof.
  unfold accounts. intros [= Hu Hp Hw Hl Hs] [H1 H2 H3 H4 H5]. split.
  - eapply money_books; [|exact H1]. unfold money. by rewrite Hw, Hl.
  - unfold plans_ok. by rewrite Hp.
  - by rewrite Hp.
  - by rewrite Hl, Hs.
  - by rewrite Hs.
Qed.
Lemma ledger_inv_clock clock now t : clock <= now -> ledger_inv clock t -> ledger_inv now t.
Proof.
  intros Hc [H1 H2 H3 H4 H5]. split; [done..|]. intros u s ends Hs He. destruct (H5 u s ends Hs He); [by left|right; lia].
Qed.
Lemma ends_grow_refl t t' : c_subscriptions t' = c_subscriptions t -> ends_grow t t'.
Proof. intros H u s ends Hs He. rewrite H. eauto 6 using Z.le_refl. Qed.

Lemma posted_inv clock now t t' row :
  clock <= now -> ledger_inv clock t -> posted row t t' -> HasPrefix (lg_key row) "renew:" = false ->
  c_plans t' = c_plans t -> ends_grow t t' ->
  (forall u s ends, c_subscriptions t' !! u = Some s -> sb_ends s = Some ends ->
     (sb_status s = "active" /\ sb_plan s <> "TRIAL") \/ ends <= now + paidPeriod) ->
  ledger_inv now t'.
Proof.
  intros Hc Hinv Hpost Hkey Hplans Hgrow Hends.
  eapply ledger_inv_step; [done|by eapply posted_books; [apply Hinv|]|done|done| |done].
  intros r Hr Hpre. left. rewrite (po_ledger _ _ _ Hpost), elem_of_app, list_elem_of_singleton in Hr.
  destruct Hr as [?| ->]; [done|congruence].
Qed.
Lemma posted_inv_same clock now t t' row :
  clock <= now -> ledger_inv clock t -> posted row t t' -> HasPrefix (lg_key row) "renew:" = false ->
  catalogue t' = catalogue t -> ledger_inv now t' /\ c_plans t' = c_plans t.
Proof.
  unfold catalogue. intros Hc Hinv Hpost Hkey [= _ Hp Hs]. split; [|done].
  eapply posted_inv; try done; [by apply ends_grow_refl|]. rewrite Hs. apply (ledger_inv_clock _ _ _ Hc Hinv).
Qed.

(** The end of a period that a purchase offers. *)
Lemma offer_ends now sub p q plan cost quota started ends :
  offer now sub (terms (sb_plan sub) p) (terms plan q) = Some (cost, quota, started, ends) ->
  (sb_status sub = "active" /\ sb_plan sub <> "TRIAL" /\ sb_ends sub = Some ends) \/ (ends = now + paidPeriod
    /\ (sb_ends sub = None \/ sb_status sub <> "active" \/ sb_plan sub = "TRIAL")).
Proof.
  unfold offer. destruct (sb_ends sub) as [e|]; [|intros [= _ _ _ <-]; auto].
  destruct (String.eqb_spec (sb_status sub) "active"); cbn [andb]; [|intros [= _ _ _ <-]; auto].
  destruct (String.eqb_spec (sb_plan sub) "TRIAL"); cbn [negb]; [intros [= _ _ _ <-]; auto|].
  destruct (ProrateUpgrade _ _ _ _) as [[c0 q0]|]; [|done]. intros [= _ _ _ <-]. auto.
Qed.

Section PlanChange.
Context {PU : PgUuid} {SV : PgServer}.

(** The rows after one subscription has been replaced. *)
Lemma replaced_ends now t t' user sub sub' :
  c_subscriptions t !! user = Some sub -> c_subscriptions t' = <[user := sub']> (c_subscriptions t) ->
  (forall u s ends, c_subscriptions t !! u = Some s -> sb_ends s = Some ends ->
     (sb_status s = "active" /\ sb_plan s <> "TRIAL") \/ ends <= now + paidPeriod) ->
  (forall ends, sb_ends sub = Some ends -> exists ends', sb_ends sub' = Some ends' /\ ends <= ends') ->
  (forall ends, sb_ends sub' = Some ends -> (sb_status sub' = "active" /\ sb_plan sub' <> "TRIAL") \/ ends <= now + paidPeriod) ->
  ends_grow t t' /\ (forall u s ends, c_subscriptions t' !! u = Some s -> sb_ends s = Some ends ->
     (sb_status s = "active" /\ sb_plan s <> "TRIAL") \/ ends <= now + paidPeriod).
Proof.
  intros Hsub Hs' Hold Hgrow Hnew. split; intros u s ends; rewrite Hs'.
  - intros Hs He. destruct (decide (u = user)) as [->|Hne].
    + rewrite Hsub in Hs. injection Hs as ->. destruct (Hgrow _ He) as (ends' & ? & ?). exists sub', ends'.
      by rewrite lookup_insert, decide_True.
    + rewrite lookup_insert_ne by done. eauto 6 using Z.le_refl.
  - destruct (decide (u = user)) as [->|Hne].
    + rewrite lookup_insert, decide_True by done. intros [= <-]. apply Hnew.
    + rewrite lookup_insert_ne by done. apply Hold.
Qed.

Lemma planned_inv clock now s plan t t' :
  clock <= now -> ledger_inv clock t -> plan <> "TRIAL" -> planned s now plan t t' -> ledger_inv now t' /\ c_plans t' = c_plans t.
Proof.
  intros Hc Hinv Htrial (user & sub & balance & p & q & _ & Hsub & _ & _ & Hq & Hch & [_ Hplans] & _). split; [|done].
  pose proof (li_ends _ _ (ledger_inv_clock _ _ _ Hc Hinv)) as Hold.
  destruct Hch as [row Hp Ht Ha Hpost _ _ Hk Hs'|Ha _ Hm Hs'|row cost quota started ends Ho _ Hpost _ _ Hk Hs'].
  - destruct (replaced_ends now t t' user sub _ Hsub Hs') as [Hg He]; [done| |cbn; intros; left; split; congruence|].
    { intros ends Hends. eexists. split; [reflexivity|]. unfold renewal_end. rewrite Hends. cbn.
      pose proof (li_periods _ _ Hinv _ _ Hq). lia. }
    eapply posted_inv; try done. apply HasPrefix_spec in Hk as [r ->]. done.
  - destruct (replaced_ends now t t' user sub _ Hsub Hs') as [Hg He]; [done| | |].
    { intros ends Hends. exists ends. split; [done|lia]. }
    { intros ends Hends. exact (Hold _ _ _ Hsub Hends). }
    injection Hm as Hw Hl. eapply (ledger_inv_step clock); [done| |done|done| |done].
    + eapply money_books; [|apply Hinv]. unfold money. by rewrite Hw, Hl.
    + rewrite Hl. auto.
  - destruct (replaced_ends now t t' user sub _ Hsub Hs') as [Hg He]; [done| |cbn; intros; by left|].
    { intros e0 He0. exists ends. split; [done|]. apply offer_ends in Ho as [(_ & _ & Ho)|[-> Ho]]; [rewrite He0 in Ho; injection Ho as ->; lia|].
      destruct (Hold _ _ _ Hsub He0) as [[H1 H2]|]; [|done]. destruct Ho as [Ho|[Ho|Ho]]; congruence. }
    eapply posted_inv; try done. apply HasPrefix_spec in Hk as [r ->]. done.
Qed.
End PlanChange.
End Lifecycle.

(** ** Sequences of calls *)

Inductive money_call :=
  | Credit (s : session) (userID : string) (body : option json)
  | Adjust (s : session) (userID : string) (body : option json)
  | Change (clock : string -> time * time) (leaseID : string -> string) (s : session) (body : option json)
  | Worker.

Definition timed_call : Type := time * list outcome * money_call.
Definition call_time (call : timed_call) : time := call.1.1.

(** The keys of renewals are not handed in by an administrator. *)
Definition money_allowed (c : money_call) : Prop :=
  match c with
  | Credit _ _ body => forall b, decode_credit body = Some b -> HasPrefix (cr_key b) "renew:" = false
  | _ => True
  end.
Definition not_renewals (ids : list string) : Prop := Forall (fun id => HasPrefix id "renew:" = false) ids.

Lemma keys_at_most_one (l : list ledger_row) key :
  NoDup (lg_key <$> l) -> (length (filter (fun row => lg_key row = key) l) <= 1)%nat.
Proof.
  induction l as [|row l IH]; [cbn; lia|]. cbn [fmap list_fmap]. intros [Hni Hnd]%NoDup_cons.
  rewrite filter_cons. destruct (decide (lg_key row = key)) as [<-|]; [|by apply IH]. cbn [length].
  destruct (filter (fun r => lg_key r = lg_key row) l) as [|r rs] eqn:E; [done|].
  destruct Hni. assert (Hr : r ∈ filter (fun r => lg_key r = lg_key row) l) by (rewrite E; constructor).
  apply list_elem_of_filter in Hr as [<- Hr]. by apply list_elem_of_fmap_2.
Qed.

Section Calls.
Context {PU : PgUuid} {SV : PgServer} {ED : Ed25519} {MO : MapOrder} (priv : string).

(** The state after a call at its time, whatever it answers; each call has its own
    failures. *)
Definition perform (st : pg) (call : timed_call) : pg :=
  let '(now, faults, c) := call in
  let st := with_outcomes faults st in
  match c with
  | Credit s userID body => (creditWallet s userID body st).2
  | Adjust s userID body => (adjustWallet s userID body st).2
  | Change clock leaseID s body => (changePlan priv clock leaseID s now body st).2
  | Worker => (subscriptionLifecycle now st).2
  end.

Lemma perform_draws st call : draws st (perform st call).
Proof.
  destruct call as [[now faults] []]; cbn [perform].
  - assert (H : keeps draws (creditWallet s userID body)); [|exact (H (with_outcomes faults st))]. unfold creditWallet. draw.
  - assert (H : keeps draws (adjustWallet s userID body)); [|exact (H (with_outcomes faults st))]. unfold adjustWallet, adjust_tx. draw.
  - assert (H : keeps draws (changePlan priv clock leaseID s now body)); [|exact (H (with_outcomes faults st))].
    unfold changePlan, change_plan_tx, renew_plan, schedule_downgrade, upgrade_plan, refuse, provisionUserDevices,
      provision_all, provisionDevice, issue_lease. draw.
  - assert (H : keeps draws (subscriptionLifecycle now)); [|exact (H (with_outcomes faults st))]. unfold subscriptionLifecycle, queue_rows. draw.
Qed.

Lemma perform_inv clock st0 now faults c :
  clock <= now -> money_allowed c -> not_renewals (uuids st0) -> trial_free (cp st0) -> ledger_inv clock (cp st0) ->
  ledger_inv now (cp (perform st0 (now, faults, c))) /\ c_plans (cp (perform st0 (now, faults, c))) = c_plans (cp st0).
Proof.
  cbn [perform]. change (cp st0) with (cp (with_outcomes faults st0)). change (uuids st0) with (uuids (with_outcomes faults st0)).
  generalize (with_outcomes faults st0) as st. intros st Hc Hal Hids Hfree Hinv. pose proof (ledger_inv_clock _ _ _ Hc Hinv) as Hinv'. destruct c.
  - destruct (creditWallet s userID body st) as [r st'] eqn:E. cbn [snd].
    apply creditWallet_effect in E as [[-> _]|(b & user & actor & key & row & Hb & _ & _ & _ & K1 & K2 & Hrow & Hpost & Hcat & _)]; [done|].
    eapply posted_inv_same; try done. rewrite Hrow. cbn. destruct (decide (cr_key b = "")) as [H0|H0].
    + rewrite (K2 H0). destruct (uuids st) as [|id ids]; [done|]. by apply Forall_cons in Hids as [? _].
    + rewrite (K1 H0). by apply Hal.
  - destruct (adjustWallet s userID body st) as [r st'] eqn:E. cbn [snd].
    apply adjustWallet_effect in E as [[-> _]|(b & user & actor & id & row & _ & _ & _ & Hrow & Hpost & Hcat & _)]; [done| |apply Hinv].
    eapply posted_inv_same; try done. by rewrite Hrow.
  - destruct (changePlan priv clock0 leaseID s now body st) as [r st'] eqn:E. cbn [snd].
    assert (Hplans : forall t, accounts (cp st') = accounts t -> c_plans (cp st') = c_plans t).
    { intros t Ht. by injection Ht. }
    pose proof E as Hch. apply changePlan_effect in Hch as [Hsame|(plan & t & Hd & Hne & Hp & Ht)]; [| |apply Hinv|apply Hinv].
    + split; [by eapply ledger_inv_accounts|by apply Hplans].
    + destruct (planned_inv _ _ _ _ _ _ Hc Hinv Hne Hp) as [H1 H2]. split; [by eapply ledger_inv_accounts|].
      by rewrite (Hplans _ Ht).
  - destruct (subscriptionLifecycle now st) as [r st'] eqn:E. cbn [snd].
    apply lifecycle_effect in E as [[-> _]|Hran]; [done|]. split; [by eapply lifecycle_inv|]. by destruct Hran as [_ [= _ -> _ _ _ _ _] _ _].
Qed.

Lemma perform_all_inv calls clock st :
  Sorted Z.le (clock :: (call_time <$> calls)) -> Forall (fun c => money_allowed c.2) calls ->
  not_renewals (uuids st) -> trial_free (cp st) -> ledger_inv clock (cp st) ->
  exists clock', ledger_inv clock' (cp (foldl perform st calls)) /\ c_plans (cp (foldl perform st calls)) = c_plans (cp st).
Proof.
  revert clock st. induction calls as [|[[now faults] c] calls IH]; intros clock st Hsort Hal Hids Hfree Hinv; [by exists clock|].
  cbn [foldl]. apply Forall_cons in Hal as [Hc Hal]. cbn in Hsort. apply Sorted_inv in Hsort as [Hsort Hhd]. apply HdRel_inv in Hhd.
  destruct (perform_inv clock st now faults c) as [Hinv' Hp]; [done..|].
  destruct (IH now (perform st (now, faults, c))) as (clock' & H1 & H2); [done|done| | |done|].
  - destruct (perform_draws st (now, faults, c)) as [k Hk]. unfold not_renewals. rewrite Hk. by apply Forall_drop.
  - unfold trial_free. by rewrite Hp.
  - exists clock'. split; [done|]. congruence.
Qed.

(** Entries are only appended. *)
Lemma perform_ledger st0 call : books (cp st0) -> plans_ok (cp st0) ->
  exists new, c_ledger (cp (perform st0 call)) = c_ledger (cp st0) ++ new.
Proof.
  destruct call as [[now faults] c]. cbn [perform]. change (cp st0) with (cp (with_outcomes faults st0)).
  generalize (with_outcomes faults st0) as st. intros st Hb Hp. assert (Hnil : forall t', c_ledger t' = c_ledger (cp st) -> exists new, c_ledger t' = c_ledger (cp st) ++ new).
  { intros t' ->. exists []. by rewrite app_nil_r. }
  assert (Hpost : forall row t', posted row (cp st) t' -> exists new, c_ledger t' = c_ledger (cp st) ++ new).
  { intros row t' H. eexists. apply H. }
  destruct c.
  - destruct (creditWallet s userID body st) as [r st'] eqn:E. cbn [snd].
    apply creditWallet_effect in E as [[-> _]|(? & ? & ? & ? & ? & _ & _ & _ & _ & _ & _ & _ & H & _)]; eauto.
  - destruct (adjustWallet s userID body st) as [r st'] eqn:E. cbn [snd].
    apply adjustWallet_effect in E as [[-> _]|(? & ? & ? & ? & ? & _ & _ & _ & _ & H & _)]; eauto.
  - destruct (changePlan priv clock leaseID s now body st) as [r st'] eqn:E. cbn [snd].
    apply changePlan_effect in E as [E|(plan & t & _ & _ & E & Ht)]; [| |done|done]; [apply Hnil; by injection E|].
    destruct E as (? & ? & ? & ? & ? & _ & _ & _ & _ & _ & Hch & _). injection Ht as _ _ _ -> _.
    destruct Hch as [row ? ? ? H|? ? H|row ? ? ? ? ? ? H]; [by eapply Hpost|apply Hnil; by injection H|by eapply Hpost].
  - destruct (subscriptionLifecycle now st) as [r st'] eqn:E. cbn [snd].
    apply lifecycle_effect in E as [[-> _]|[(t1 & Hf & [= _ Hl] & _) _ _ _]]; [eauto|].
    apply fold_renew in Hf as (_ & _ & _ & _ & new & Hn); [|apply NoDup_renewals]. exists new. by rewrite Hl.
Qed.
Lemma perform_all_ledger calls clock st :
  Sorted Z.le (clock :: (call_time <$> calls)) -> Forall (fun c => money_allowed c.2) calls ->
  not_renewals (uuids st) -> trial_free (cp st) -> ledger_inv clock (cp st) ->
  exists new, c_ledger (cp (foldl perform st calls)) = c_ledger (cp st) ++ new.
Proof.
  revert clock st. induction calls as [|[[now faults] c] calls IH]; intros clock st Hsort Hal Hids Hfree Hinv.
  { exists []. by rewrite app_nil_r. }
  cbn [foldl]. apply Forall_cons in Hal as [Hc Hal]. cbn in Hsort. apply Sorted_inv in Hsort as [Hsort Hhd]. apply HdRel_inv in Hhd.
  destruct (perform_inv clock st now faults c) as [Hinv' Hp]; [done..|].
  destruct (perform_ledger st (now, faults, c) (li_books _ _ Hinv) (li_plans _ _ Hinv)) as [n1 H1].
  destruct (IH now (perform st (now, faults, c))) as [n2 H2]; [done|done| | |done|].
  - destruct (perform_draws st (now, faults, c)) as [k Hk]. unfold not_renewals. rewrite Hk. by apply Forall_drop.
  - unfold trial_free. by rewrite Hp.
  - exists (n1 ++ n2). by rewrite H2, H1, app_assoc.
Qed.
End Calls.


Lemma sample_inv : ledger_inv (FromUnix 0) sample_books.
Proof.
  split.
  - apply sample_books_ok.
  - by apply shipped_rows_ok.
  - intros code p. change (c_plans sample_books) with shipped_rows. unfold shipped_rows.
    repeat (rewrite lookup_insert_Some; intros [[_ <-]|[_ H]]; [vm_compute; discriminate|revert H]).
    rewrite lookup_singleton_Some. intros [_ <-]. vm_compute. discriminate.
  - intros r Hr. change (c_ledger sample_books) with [sample_entry] in Hr. apply list_elem_of_singleton in Hr as ->. done.
  - intros u s ends. change (c_subscriptions sample_books) with ({["u1" := sample_subscription]} : gmap string subscription_row).
    rewrite lookup_singleton_Some. intros [_ <-] _. by left.
Qed.

Definition sample_credit (key : string) : option json :=
  Some (JObj [("amountKopecks", jint 500); ("reason", JStr "refund"); ("idempotencyKey", JStr key)]).


(** C34 - A credit is counted once.  Take consistent books and any sequence of
    calls as in C2, with any failures.  The ledger has at most one entry with a
    given key.  A credit with a key that is there is refused and changes nothing,
    whoever sends it, for whichever user and amount and whatever fails: so a
    request whose commit went through while the reply was lost can be sent again.
    A credit with a new key is refused and changes nothing, or is posted once;
    when nothing fails and the tables admit it, it is posted and answered with the
    new balance. *)
Theorem credit_counted_once {PU : PgUuid} {SV : PgServer} {ED : Ed25519} {MO : MapOrder} priv clock calls st key :
  key <> "" -> ledger_inv clock (cp st) -> trial_free (cp st) -> not_renewals (uuids st) ->
  Sorted Z.le (clock :: (call_time <$> calls)) -> Forall (fun c => money_allowed c.2) calls ->
  let later := foldl (perform priv) st calls in
  let used := key ∈ lg_key <$> c_ledger (cp later) in
  (length (filter (fun row => lg_key row = key) (c_ledger (cp later))) <= 1)%nat
  /\ forall faults s userID body c, decode_credit body = Some c -> cr_key c = key ->
       let out := creditWallet s userID body (with_outcomes faults later) in
       (used -> cp out.2 = cp later /\ is_problem out.1)
       /\ ((cp out.2 = cp later /\ is_problem out.1)
           \/ exists row, lg_key row = key /\ lg_amount row = cr_amount c /\ posted row (cp later) (cp out.2)
                /\ (out.1 = Ok (balance_reply 201 (lg_balance_after row)) \/ out.1 = Ok (problem 409 "ledger")))
       /\ (forall user actor b, faults = [] -> credit_valid s userID c key user actor b (cp later) ->
             out.1 = Ok (balance_reply 201 (b + cr_amount c))
             /\ c_wallets (cp out.2) !! user = Some (b + cr_amount c)
             /\ key ∈ lg_key <$> c_ledger (cp out.2)).
Proof.
  intros Hk Hinv Hfree Hids Hsort Hal later used.
  destruct (perform_all_inv priv calls clock st) as (clock' & Hinv' & _); [done..|]. fold later in Hinv'.
  split; [apply keys_at_most_one, (bk_keys _ (li_books _ _ Hinv'))|]. intros faults s userID body c Hd Hc.
  destruct (creditWallet s userID body (with_outcomes faults later)) as [r st'] eqn:E. cbn [fst snd].
  assert (Heff : (cp st' = cp later /\ is_problem r)
    \/ exists row, lg_key row = key /\ lg_amount row = cr_amount c /\ posted row (cp later) (cp st')
         /\ (r = Ok (balance_reply 201 (lg_balance_after row)) \/ r = Ok (problem 409 "ledger"))).
  { apply creditWallet_effect in E as [[Ht Hr]|(c2 & user & actor & k & row & E1 & _ & _ & _ & K1 & _ & Hrow & Hpost & _ & Hr)].
    - left. split; [done|]. destruct Hr as [->|[->| ->]]; eexists _, _; reflexivity.
    - right. exists row. rewrite Hd in E1. injection E1 as <-. rewrite Hrow. cbn [lg_key lg_amount lg_balance_after].
      rewrite (K1 ltac:(congruence)), Hc. rewrite Hrow in Hpost. rewrite (K1 ltac:(congruence)), Hc in Hpost. done. }
  split_and!; [|done|].
  - intros Hused. destruct Heff as [?|(row & <- & _ & Hpost & _)]; [done|]. by destruct (po_fresh _ _ _ Hpost).
  - intros user actor b -> Hv. rewrite <- Hc in Hv. unfold with_outcomes in E.
    rewrite (creditWallet_run _ _ _ _ _ _ _ _ _ _ Hd ltac:(congruence) Hv) in E. injection E as <- <-.
    split_and!; [done|cbn; by rewrite lookup_insert, decide_True|]. cbn. rewrite fmap_app, <- Hc. set_solver.
Qed.

(** The first request is committed but its reply is lost; the second is refused
    and the wallet holds the credit once. *)
Lemma credit_counted_once_witness :
  let admin := sample_session "u1" in
  let calls := [(FromUnix 1000, [Done; Done; Done; Done; Lost], Credit admin "u1" (sample_credit "k1"));
                (FromUnix 2000001, [], Worker)] in
  let later := foldl (@perform toy_uuid_type postgres toy_ed25519 sorted_order sample_private)
                 (mkPg sample_books [] false []) calls in
  c_wallets (cp later) !! "u1" = Some 85600
  /\ cp (@creditWallet toy_uuid_type admin "u1" (sample_credit "k1") (with_outcomes [] later)).2 = cp later.
Proof.
  intros admin calls later. split; [vm_compute; reflexivity|].
  destruct (@credit_counted_once toy_uuid_type postgres toy_ed25519 sorted_order sample_private (FromUnix 0)
    calls (mkPg sample_books [] false []) "k1") as [_ H].
  - discriminate.
  - apply sample_inv.
  - intros p H. vm_compute in H. by injection H as <-.
  - by constructor.
  - repeat constructor; vm_compute; discriminate.
  - repeat constructor. intros b H. vm_compute in H. by injection H as <-.
  - apply (H [] admin "u1" (sample_credit "k1") (mkCredit 500 "refund" "k1")); [reflexivity|reflexivity|].
    apply (bool_decide_unpack _). vm_compute. exact I.
Defined.

(** ** Runs that nothing disturbs *)

(** What a run needs of the tables and of the supply of identifiers: renewals
    that can be booked, nodes for the assignments, and fresh identifiers for the
    commands. *)
Record worker_ready `{MapOrder} (now : time) (t : ctables) (ids : list string) : Prop := {
  wr_entries : Forall (fun r => pl_price (rn_plan r) <> 0 /\ in_int64 (epoch (rn_ends r)) = true
                                /\ is_Some (c_users t !! rn_user r)) (renewals now t);
  wr_nodes : forall device a, c_assignments t !! device = Some a -> is_Some (c_nodes t !! as_node a);
  wr_ids : NoDup (ids ++ (cm_id <$> c_commands t)) /\ (2 * size (c_devices t) <= length ids)%nat }.

Section Undisturbed.
Context {MO : MapOrder}.

Lemma fold_renew_run rs t :
  Forall (fun r => pl_price (rn_plan r) <> 0 /\ in_int64 (epoch (rn_ends r)) = true /\ is_Some (c_users t !! rn_user r)
                   /\ pl_price (rn_plan r) <= rn_balance r) rs ->
  exists t', fold_rows renew_one rs t = Ok t'.
Proof.
  revert t. induction rs as [|r rs IH]; intros t; [by eexists|]. cbn [fold_rows].
  intros [(H1 & H2 & H3 & H4) Hall]%Forall_cons. unfold renew_one. rewrite H2. cbn [negb].
  rewrite (proj2 (ledger_checks_ok _ _)).
  2: { cbn [renewal_entry lg_amount lg_balance_after lg_reason lg_user lg_actor]. split_and!; [lia|lia| |done|by intros ? [= <-]].
       rewrite char_length_app. pose proof (char_length_nonneg (rn_target r)).
       change (char_length "Автопродление ") with 14. lia. }
  cbn [negb]. apply IH. eapply Forall_impl; [exact Hall|]. intros r'. by destruct (key_taken _ t).
Qed.

Lemma insert_commands_run now rows ids t :
  Forall (fun row : new_command => is_Some (c_nodes t !! row.1.1)) rows ->
  NoDup (ids ++ (cm_id <$> c_commands t)) -> (length rows <= length ids)%nat ->
  exists new, insert_commands now rows ids t = Ok (with_commands (fun l => l ++ new) t)
    /\ cm_id <$> new = take (length rows) ids.
Proof.
  revert ids t. induction rows as [|[[node kind] payload] rows IH]; intros ids t Hn Hnd Hlen.
  { exists []. split; [|done]. destruct t. unfold with_commands. cbn. by rewrite app_nil_r. }
  apply Forall_cons in Hn as [[nd Hnode] Hn]. destruct ids as [|id ids]; [cbn in Hlen; lia|].
  cbn [insert_commands head tail default from_option]. cbn in Hnode. unfold insert_command. rewrite Hnode.
  cbn in Hnd. apply NoDup_cons in Hnd as [Hfresh Hnd]. cbn. replace (existsb _ _) with false.
  2: { symmetry. apply not_true_iff_false. rewrite existsb_exists. intros (c & Hc & Heq%String.eqb_eq).
       apply Hfresh. rewrite elem_of_app. right. rewrite <- Heq. apply list_elem_of_fmap_2. by apply list_elem_of_In. }
  set (row := mkCommandRow _ _ _ _ _ _ _ _ _ _ _).
  destruct (IH ids (with_commands (fun l => l ++ [row]) t)) as (new & -> & Hids); [done| |cbn in Hlen; lia|].
  { cbn. rewrite fmap_app, app_assoc, (comm (++)). cbn. by apply NoDup_cons. }
  exists (row :: new). cbn. rewrite Hids. split; [|done]. unfold with_commands. cbn. by rewrite <- app_assoc.
Qed.

Lemma device_rows_nodes t :
  (forall device a, c_assignments t !! device = Some a -> is_Some (c_nodes t !! as_node a)) ->
  forall device s a, (device, s, a) ∈ device_rows t -> is_Some (c_nodes t !! as_node a).
Proof.
  intros H device s a Hin. unfold device_rows in Hin. apply list_elem_of_omap in Hin as ([dv d] & _ & Hd).
  destruct (c_subscriptions t !! cd_user d); [|done]. cbn in Hd. destruct (c_assignments t !! dv) as [a'|] eqn:E; [|done].
  cbn in Hd. injection Hd as _ _ <-. eauto.
Qed.
Lemma length_omap_le {A B} (f : A -> option B) l : (length (omap f l) <= length l)%nat.
Proof. induction l as [|x l IH]; [done|]. cbn [omap list_omap]. destruct (f x); cbn; lia. Qed.
Lemma length_device_rows t : (length (device_rows t) <= size (c_devices t))%nat.
Proof.
  unfold device_rows. etransitivity; [apply length_omap_le|]. rewrite range_perm.
  by rewrite length_map_to_list.
Qed.

(** Queueing one command for some of the devices. *)
Lemma queue_rows_run now (row : ctables -> placed_device -> option new_command) t ids :
  (forall device s a r, row t (device, s, a) = Some r -> r.1.1 = as_node a) ->
  (forall device a, c_assignments t !! device = Some a -> is_Some (c_nodes t !! as_node a)) ->
  NoDup (ids ++ (cm_id <$> c_commands t)) -> (size (c_devices t) <= length ids)%nat ->
  let rows t := omap (row t) (device_rows t) in
  exists new, queue_rows now rows (mkPg t [] false ids)
    = (Ok tt, mkPg (with_commands (fun l => l ++ new) t) [] false (drop (length (rows t)) ids))
    /\ NoDup (drop (length (rows t)) ids ++ (cm_id <$> (c_commands t ++ new))) /\ (length (rows t) <= size (c_devices t))%nat.
Proof.
  intros Hrow Hnodes Hnd Hlen rows.
  assert (Hle : (length (rows t) <= size (c_devices t))%nat).
  { etransitivity; [apply length_omap_le|apply length_device_rows]. }
  destruct (insert_commands_run now (rows t) (take (length (rows t)) ids) t) as (new & E & Hids).
  - apply Forall_forall. intros r ([[device s] a] & Hin & Hr)%list_elem_of_omap.
    rewrite (Hrow _ _ _ _ Hr). by eapply device_rows_nodes.
  - eapply sublist_NoDup; [exact Hnd|]. apply sublist_app; [apply sublist_take|done].
  - rewrite length_take. lia.
  - exists new. split_and!; [| |done].
    + unfold queue_rows, bind, random_uuids. cbn [cp outcomes aborted uuids]. apply stmt_run. unfold done_rows. by rewrite E.
    + rewrite take_take, Nat.min_id in Hids. rewrite fmap_app, Hids. eapply NoDup_Permutation_proper; [|exact Hnd].
      rewrite <- (take_drop (length (rows t)) ids) at 3. rewrite (comm (++) _ (take _ _)), app_assoc. f_equiv. apply (comm (++)).
Qed.

Lemma lifecycle_run now t ab ids :
  worker_ready now t ids ->
  exists t' ids', subscriptionLifecycle now (mkPg t [] ab ids) = (Ok tt, mkPg t' [] ab ids') /\ lifecycle_ran now t t'
    /\ NoDup (ids' ++ (cm_id <$> c_commands t')) /\ (length ids - 2 * size (c_devices t) <= length ids')%nat.
Proof.
  intros [Hentries Hnodes [Hnd Hlen]].
  destruct (fold_renew_run (renewals now t) t) as [t1 Hf].
  { rewrite Forall_forall in *. intros r Hr. destruct (Hentries r Hr) as (H1 & H2 & H3). split_and!; [done..|].
    apply renewals_elem, renewal_of_due in Hr as (s & [_ _ _ _ _ _ _ ? _]). done. }
  pose proof Hf as (_ & Hfix & Hcmd & _)%fold_renew; [|apply NoDup_renewals].
  assert (Hd : c_devices t1 = c_devices t) by (by injection Hfix).
  assert (Hn : forall device a, c_assignments t1 !! device = Some a -> is_Some (c_nodes t1 !! as_node a)).
  { injection Hfix as _ _ _ -> -> _ _. done. }
  set (t2 := with_subscriptions (fmap (suspend now)) (with_subscriptions (fmap (enter_grace now))
            (with_subscriptions (fmap (expire_trial now)) t1))).
  destruct (queue_rows_run now (fun _ => grace_override now) t2 ids) as (over & E3 & Hnd3 & Hle3).
  { intros device s a r. unfold grace_override. destruct (sb_grace s); [|done]. cbn. destruct (_ && _); [|done]. by intros [= <-]. }
  { exact Hn. }
  { cbn. by rewrite Hcmd. }
  { cbn. rewrite Hd. lia. }
  set (t3 := with_commands (fun l => l ++ over) t2) in *. set (ids3 := drop _ ids) in *.
  assert (Hids3 : (length ids3 = length ids - length (grace_overrides now t2))%nat) by (apply length_drop).
  assert (Hle3' : (length (grace_overrides now t2) <= size (c_devices t))%nat) by (rewrite <- Hd; exact Hle3).
  destruct (queue_rows_run now (ended_kick now) t3 ids3) as (kicks & E4 & Hnd4 & Hle4).
  { intros device s a r. unfold ended_kick. destruct (_ && _); [|done]. by intros [= <-]. }
  { exact Hn. }
  { exact Hnd3. }
  { change (c_devices t3) with (c_devices t1). rewrite Hd, Hids3. lia. }
  set (t4 := with_commands (fun l => l ++ kicks) t3) in *. set (ids4 := drop _ ids3) in *.
  assert (E5 : exists t5, notify_all now t4 = Ok (tt, t5)) by (by eexists). destruct E5 as [t5 E5].
  assert (Hrun : subscriptionLifecycle now (mkPg t [] ab ids) = (Ok tt, mkPg t5 [] ab ids4)).
  { unfold subscriptionLifecycle. apply in_transaction_run.
    eapply bind_run; [apply stmt_run; unfold renew_due, done_rows; by rewrite Hf|].
    eapply bind_run; [apply stmt_run; reflexivity|]. eapply bind_run; [exact E3|]. eapply bind_run; [exact E4|].
    by apply stmt_run. }
  exists t5, ids4. split; [done|]. split; [by apply lifecycle_effect in Hrun as [[_ ?]|?]|].
  apply notify_all_ok in E5 as (new & -> & _). split; [exact Hnd4|].
  assert (Hle4' : (length (ended_kicks now t3) <= size (c_devices t))%nat) by (rewrite <- Hd; exact Hle4).
  assert (length ids4 = length ids3 - length (ended_kicks now t3))%nat as -> by (apply length_drop). lia.
Qed.
End Undisturbed.

(** C8 - The lifecycle of a subscription.  The trial is free.  A run of the worker
    takes effect as a whole or not at all.  When it does, every subscription makes
    the one step that the state machine [worker_step] allows: a period that is not
    over stays, a trial that is over expires, a paid period that is over is renewed
    for 30 days into its next plan, with that plan's price, quota and dates, if the
    wallet covers the price, and passes into a day of grace if not (or if the
    renewed period is over, too), and a grace period that is over ends in
    suspension; the wallet pays the price of the renewal and nothing else.  No
    subscription appears or vanishes.  The commands that are queued are one
    override for each device in grace that began in the last two minutes, and one
    kick for each device whose subscription ended in the last two minutes unless an
    open one is there; the notices are the reminders, the start of grace and the
    ends, each once.  A run that nothing disturbs takes effect. *)
Theorem lifecycle_spec {MO : MapOrder} now s r s' :
  trial_free (cp s) -> subscriptionLifecycle now s = (r, s') ->
  let t := cp s in let t' := cp s' in
  (outcomes s = [] -> aborted s = false -> worker_ready now t (uuids s) -> r = Ok tt)
  /\ ((t' = t /\ is_ok r = false)
      \/ ((forall u, is_Some (c_subscriptions t' !! u) <-> is_Some (c_subscriptions t !! u))
          /\ (forall u sub, c_subscriptions t !! u = Some sub ->
                exists paid sub', worker_step now t u sub paid sub'
                  /\ (forall paid2 sub2, worker_step now t u sub paid2 sub2 -> paid2 = paid /\ sub2 = sub')
                  /\ c_subscriptions t' !! u = Some sub'
                  /\ c_wallets t' !! u = (fun b => b - paid) <$> c_wallets t !! u)
          /\ orders_of now t t' /\ notices_of now t t')).
Proof.
  intros Hfree E t t'. split.
  - intros Ho Ha Hready. destruct s as [t0 o ab ids]. cbn in Ho, Ha. subst.
    destruct (lifecycle_run now t0 false ids Hready) as (? & ? & Hrun & _). congruence.
  - apply lifecycle_effect in E as [?|Hran]; [by left|right]. split_and!.
    + intros u. destruct (lifecycle_user _ _ _ u Hran) as [Hu _]. unfold t', t. rewrite Hu. apply fmap_is_Some.
    + intros u sub Hsub. destruct (lifecycle_user _ _ _ u Hran) as [Hu Hw]. fold t t' in Hu, Hw. rewrite Hsub in Hu.
      pose proof (settled_step _ _ _ _ _ Hfree Hran Hsub) as Hstep.
      exists (charge_of now t u), (settled now t u sub). split_and!; [done| |done|done]. intros. by eapply worker_step_unique.
    + apply (lr_commands _ _ _ Hran).
    + apply (lr_notices _ _ _ Hran).
Qed.

(** Two devices' worth of a subscription whose grace period has just ended. *)
Definition ending_subscription : subscription_row :=
  mkSubscriptionRow "LITE" None "grace" None (Some (FromUnix 1000)) (Some (FromUnix 87400)) 150000000000 100.
Definition ending_books : ctables := with_subscriptions (fun _ => {["u1" := ending_subscription]}) sample_books.

Lemma lifecycle_spec_witness :
  let now := FromUnix 87420 in
  let s := mkPg ending_books [] false ["c1"; "c2"] in
  let out := @subscriptionLifecycle sorted_order now s in
  (sb_status <$> c_subscriptions (cp out.2) !! "u1" = Some "suspended" /\ (cm_type <$> c_commands (cp out.2)) = ["session.kick"])
  /\ out.1 = Ok tt.
Proof.
  intros now s out. split; [vm_compute; split; reflexivity|].
  apply (@lifecycle_spec sorted_order now s out.1 out.2).
  - intros p H. vm_compute in H. by injection H as <-.
  - apply surjective_pairing.
  - reflexivity.
  - reflexivity.
  - split.
    + assert (@renewals sorted_order now (cp s) = []) as -> by (vm_compute; reflexivity). apply Forall_nil_2.
    + intros device a. change (c_assignments (cp s)) with ({["d1" := mkAssignmentRow "n1" None 0]} : gmap string assignment_row).
      rewrite lookup_singleton_Some. intros [_ <-]. vm_compute. by eexists.
    + split; [apply (bool_decide_unpack _); vm_compute; exact I|vm_compute; repeat constructor].
Defined.

(** ** Runs over time *)

Section Runs.
Context {MO : MapOrder}.

(** The runs of the worker at the given times, with the time and the success of
    each. *)
Fixpoint worker_runs (times : list time) (st : pg) : list (time * bool) * pg :=
  match times with
  | [] => ([], st)
  | now :: times =>
      let '(r, st1) := subscriptionLifecycle now st in
      let '(log, st2) := worker_runs times st1 in
      ((now, is_ok r) :: log, st2)
  end.

(** One run, seen from the subscription of [u]. *)
Lemma run_user now st r st1 u s :
  subscriptionLifecycle now st = (r, st1) -> c_subscriptions (cp st) !! u = Some s -> renewal_of now (cp st) u = None ->
  (is_ok r = true -> c_subscriptions (cp st1) !! u = Some (move_on now s))
  /\ (is_ok r = false -> c_subscriptions (cp st1) !! u = Some s \/ c_subscriptions (cp st1) !! u = Some (move_on now s))
  /\ c_wallets (cp st1) !! u = c_wallets (cp st) !! u /\ c_plans (cp st1) = c_plans (cp st).
Proof.
  intros E Hs Hn. apply lifecycle_effect in E as [[-> Hr]|Hran]; [rewrite Hr; split_and!; [done|by left|done|done]|].
  destruct (lifecycle_user _ _ _ u Hran) as [Hu Hw]. unfold settled, charge_of in *. rewrite Hn in *. rewrite Hs in Hu.
  split_and!; [done|by right| |by destruct Hran as [_ [= _ -> _ _ _ _ _] _ _]].
  rewrite Hw. destruct (c_wallets (cp st) !! u); cbn; [f_equal; lia|done].
Qed.
Lemma renewal_of_inactive now t u s : c_subscriptions t !! u = Some s -> sb_status s <> "active" -> renewal_of now t u = None.
Proof.
  intros Hs Ha. destruct (renewal_of now t u) as [r|] eqn:E; [|done].
  apply renewal_of_due in E as (s' & [Hs' _ _ _ _ _ _ _ [_ ?]]). congruence.
Qed.

(** Grace ends in suspension once a run succeeds after it. *)
Lemma grace_runs times st u s g log st' :
  c_subscriptions (cp st) !! u = Some s ->
  (sb_status s = "suspended" \/ (sb_status s = "grace" /\ sb_grace s = Some g)) ->
  worker_runs times st = (log, st') ->
  exists s', c_subscriptions (cp st') !! u = Some s'
    /\ (sb_status s' = "suspended" \/ (sb_status s' = "grace" /\ sb_grace s' = Some g))
    /\ (sb_status s = "suspended" \/ (exists n, (n, true) ∈ log /\ g <= n) -> sb_status s' = "suspended").
Proof.
  revert st s log. induction times as [|now times IH]; intros st s log Hs Hst; cbn [worker_runs].
  { intros [= <- <-]. exists s. split_and!; [done|done|]. intros [?|(n & Hn & _)]; [done|by apply elem_of_nil in Hn]. }
  destruct (subscriptionLifecycle now st) as [r st1] eqn:E. destruct (worker_runs times st1) as [log1 st2] eqn:Er.
  intros [= <- <-].
  assert (Ha : sb_status s <> "active") by (destruct Hst as [->|[-> _]]; done).
  pose proof (renewal_of_inactive now _ _ _ Hs Ha) as Hn.
  destruct (run_user _ _ _ _ _ _ E Hs Hn) as (Hok & Hfail & _).
  assert (Hmove : move_on now s = if is_status "grace" s && passed now (sb_grace s) then with_status "suspended" (sb_grace s) s else s)
    by (by apply move_on_other).
  assert (Hnext : exists s1, c_subscriptions (cp st1) !! u = Some s1
    /\ (sb_status s1 = "suspended" \/ (sb_status s1 = "grace" /\ sb_grace s1 = Some g))
    /\ (sb_status s = "suspended" \/ (is_ok r = true /\ g <= now) -> sb_status s1 = "suspended")).
  { assert (Hm : (sb_status (move_on now s) = "suspended" \/ (sb_status (move_on now s) = "grace" /\ sb_grace (move_on now s) = Some g))
      /\ (sb_status s = "suspended" \/ g <= now -> sb_status (move_on now s) = "suspended")).
    { rewrite Hmove. unfold is_status. destruct Hst as [Hst|[Hst Hg]]; rewrite Hst.
      - change (String.eqb "suspended" "grace") with false. cbn [andb]. rewrite Hst. auto.
      - change (String.eqb "grace" "grace") with true. cbn [andb]. rewrite Hg. cbn [passed].
        destruct (Z.leb_spec g now); [cbn; auto|]. rewrite Hst, Hg. split; [auto|]. intros [?|?]; [done|lia]. }
    destruct (is_ok r) eqn:Eok.
    - exists (move_on now s). split; [by apply Hok|]. naive_solver.
    - destruct (Hfail eq_refl) as [H|H]; [exists s|exists (move_on now s)]; (split; [done|]); naive_solver. }
  destruct Hnext as (s1 & Hs1 & Hst1 & Himp). destruct (IH st1 s1 log1 Hs1 Hst1 Er) as (s' & Hs' & Hst' & Himp').
  exists s'. split_and!; [done|done|]. intros [Hsus|(n & Hn' & Hle)].
  - apply Himp'. left. auto.
  - apply elem_of_cons in Hn' as [[= -> Hr]|Hn']; [apply Himp'; left; auto|]. apply Himp'. right. eauto.
Qed.

(** A paid subscription whose next period the wallet can not pay for. *)
Record unpaid (t : ctables) (u : string) (s : subscription_row) (ends : time) : Prop := {
  up_sub : c_subscriptions t !! u = Some s;
  up_paid : sb_plan s <> "TRIAL" /\ sb_status s = "active" /\ sb_ends s = Some ends;
  up_funds : forall p b, c_plans t !! next_plan s = Some p -> c_wallets t !! u = Some b -> b < pl_price p }.

Lemma unpaid_not_renewed now t u s ends : unpaid t u s ends -> renewal_of now t u = None.
Proof.
  intros [Hs _ Hf]. destruct (renewal_of now t u) as [r|] eqn:E; [|done].
  apply renewal_of_due in E as (s' & [Hs' _ Ht Hp Hb _ _ Hle _]). rewrite Hs in Hs'. injection Hs' as <-.
  rewrite Ht in Hp. specialize (Hf _ _ Hp Hb). lia.
Qed.

Lemma worker_runs_times times st : (worker_runs times st).1.*1 = times.
Proof.
  revert st. induction times as [|now times IH]; intros st; [done|]. cbn [worker_runs].
  destruct (subscriptionLifecycle now st) as [r st1]. specialize (IH st1). destruct (worker_runs times st1) as [log st2]. cbn in *. by rewrite IH.
Qed.

Lemma unpaid_runs times st u s ends log st' n1 n2 :
  unpaid (cp st) u s ends -> StronglySorted Z.le times -> worker_runs times st = (log, st') ->
  (n1, true) ∈ log -> (n2, true) ∈ log -> ends <= n1 -> n1 + 24 * hour <= n2 ->
  exists s', c_subscriptions (cp st') !! u = Some s' /\ sb_status s' = "suspended".
Proof.
  assert (Hhour : 0 < 24 * hour) by done.
  revert st log. induction times as [|now times IH]; intros st log Hup Hsort; cbn [worker_runs].
  { intros [= <- _] Hn. by apply elem_of_nil in Hn. }
  destruct (subscriptionLifecycle now st) as [r st1] eqn:E. destruct (worker_runs times st1) as [log1 st2] eqn:Er.
  intros [= <- <-] Hn1 Hn2 H1 H2. apply StronglySorted_inv in Hsort as [Hsort Hle].
  assert (Hnow : now <= n1).
  { apply elem_of_cons in Hn1 as [[= <- _]|Hn1]; [lia|]. rewrite Forall_forall in Hle. apply Hle.
    rewrite <- (worker_runs_times times st1), Er. change n1 with (n1, true).1. by apply list_elem_of_fmap_2. }
  assert (Hn2' : (n2, true) ∈ log1) by (apply elem_of_cons in Hn2 as [[= <- _]|Hn2]; [lia|done]).
  pose proof (unpaid_not_renewed now _ _ _ _ Hup) as Hno. destruct (Hup) as [Hs (Hp & Ha & He) Hf].
  destruct (run_user _ _ _ _ _ _ E Hs Hno) as (Hok & Hfail & Hw & Hpl).
  assert (Hagain : c_subscriptions (cp st1) !! u = Some s -> (n1, true) ∈ log1 ->
    exists s', c_subscriptions (cp st2) !! u = Some s' /\ sb_status s' = "suspended").
  { intros Hs1 Hn1'. apply (IH st1 log1); [|done..]. split; [done|done|by rewrite Hw, Hpl]. }
  pose proof (move_on_active now s Ha) as Hmove. rewrite He in Hmove. cbn [passed] in Hmove.
  destruct (Z.leb_spec ends now) as [Hpast|Hfuture].
  - unfold is_trial in Hmove. rewrite (proj2 (String.eqb_neq _ _) Hp) in Hmove.
    assert (Hcase : c_subscriptions (cp st1) !! u = Some (move_on now s) \/ (c_subscriptions (cp st1) !! u = Some s /\ is_ok r = false)).
    { destruct (is_ok r); [left; auto|]. destruct (Hfail eq_refl); auto. }
    destruct Hcase as [Hg|[Hsame Hnok]].
    + rewrite Hmove in Hg. destruct (grace_runs times st1 u _ (now + 24 * hour) log1 st2 Hg) as (s' & Hs' & _ & Himp); [by right|done|].
      exists s'. split; [done|]. apply Himp. right. exists n2. split; [done|lia].
    + apply Hagain; [done|]. apply elem_of_cons in Hn1 as [[= _ Hr]|?]; [congruence|done].
  - rewrite Hmove in *. apply Hagain; [destruct (is_ok r); [auto|destruct (Hfail eq_refl); auto]|].
    apply elem_of_cons in Hn1 as [[= <- _]|?]; [lia|done].
Qed.

(** Where a subscription that can not be renewed has come to after runs at the
    times of [seen]: still as it was, in grace since a run after the end of its
    period, or suspended by a run at least a day after that one. *)
Inductive stage (seen : list time) (s : subscription_row) (ends : time) : subscription_row -> Prop :=
  | Running : stage seen s ends s
  | InGrace a : a ∈ seen -> ends <= a -> stage seen s ends (with_status "grace" (Some (a + 24 * hour)) s)
  | Suspended a b : a ∈ seen -> b ∈ seen -> ends <= a -> a + 24 * hour <= b ->
      stage seen s ends (with_status "suspended" (Some (a + 24 * hour)) s).

Lemma stage_more seen seen' s ends s' : seen ⊆ seen' -> stage seen s ends s' -> stage seen' s ends s'.
Proof. intros H [|a ? ?|a b ? ? ? ?]; [apply Running|apply InGrace; auto|eapply (Suspended _ _ _ a b); auto]. Qed.
Lemma stage_step seen now s ends s' :
  sb_plan s <> "TRIAL" -> sb_status s = "active" -> sb_ends s = Some ends -> now ∈ seen ->
  stage seen s ends s' -> stage seen s ends (move_on now s').
Proof.
  intros Hp Ha He Hnow [|a Hin Hle|a b Hin Hin' Hle Hle'].
  - rewrite move_on_active, He by done. cbn [passed]. unfold is_trial. rewrite (proj2 (String.eqb_neq _ _) Hp).
    destruct (Z.leb_spec ends now); [by apply InGrace|apply Running].
  - rewrite move_on_other by done. cbn [is_status with_status sb_status sb_grace passed String.eqb andb].
    change (is_status "grace" (with_status "grace" (Some (a + 24 * hour)) s)) with true. cbn [andb].
    destruct (Z.leb_spec (a + 24 * hour) now) as [Hday|Hday]; [exact (Suspended seen s ends a now Hin Hnow Hle Hday)|by apply InGrace].
  - rewrite move_on_other by done. by eapply (Suspended _ _ _ a b).
Qed.
Lemma unpaid_stage times seen st u s s0 ends :
  sb_plan s <> "TRIAL" -> sb_status s = "active" -> sb_ends s = Some ends ->
  (forall p b, c_plans (cp st) !! next_plan s = Some p -> c_wallets (cp st) !! u = Some b -> b < pl_price p) ->
  c_subscriptions (cp st) !! u = Some s0 -> stage seen s ends s0 ->
  exists s', c_subscriptions (cp (worker_runs times st).2) !! u = Some s' /\ stage (seen ++ times) s ends s'.
Proof.
  intros Hp Ha He. revert seen st s0. induction times as [|now times IH]; intros seen st s0 Hf Hs0 Hst.
  { exists s0. by rewrite app_nil_r. }
  cbn [worker_runs]. destruct (subscriptionLifecycle now st) as [r st1] eqn:E.
  assert (Hno : renewal_of now (cp st) u = None).
  { destruct (decide (sb_status s0 = "active")) as [Ha0|]; [|by eapply renewal_of_inactive].
    assert (s0 = s) as -> by (by destruct Hst). by eapply (unpaid_not_renewed now _ u s ends). }
  destruct (run_user _ _ _ _ _ _ E Hs0 Hno) as (Hok & Hfail & Hw & Hpl).
  assert (Hs1 : exists s1, c_subscriptions (cp st1) !! u = Some s1 /\ stage (seen ++ [now]) s ends s1).
  { assert (Hm : stage (seen ++ [now]) s ends s0) by (eapply stage_more; [|done]; set_solver).
    assert (Hm' : stage (seen ++ [now]) s ends (move_on now s0)) by (apply stage_step; [done..|set_solver|done]).
    destruct (is_ok r); [eauto|]. destruct (Hfail eq_refl); eauto. }
  destruct Hs1 as (s1 & Hs1 & Hst1). destruct (IH (seen ++ [now]) st1 s1) as (s' & H1 & H2); [by rewrite Hw, Hpl|done|done|].
  destruct (worker_runs times st1) as [log st2]. exists s'. split; [done|]. by rewrite <- app_assoc in H2.
Qed.
End Runs.

(** C33 - An unpaid subscription is suspended, after a day of grace.  The wallet
    does not cover the next period of a paid subscription, and nobody pays in
    between.  After any runs of the worker, which may fail at any point, it is
    still as it was, or in grace until a day after a run that came after the end
    of its period, or suspended by a run at least a day after that one.  It is
    suspended as soon as one run has succeeded after the end of the period and
    another one at least a day later. *)
Theorem unpaid_is_suspended {MO : MapOrder} times st u s ends :
  unpaid (cp st) u s ends -> Sorted Z.le times ->
  let '(log, st') := worker_runs times st in
  exists s', c_subscriptions (cp st') !! u = Some s' /\ stage times s ends s'
    /\ forall n1 n2, (n1, true) ∈ log -> (n2, true) ∈ log -> ends <= n1 -> n1 + 24 * hour <= n2 -> sb_status s' = "suspended".
Proof.
  intros Hup Hsort. destruct (unpaid_stage times [] st u s s ends) as (s' & Hs' & Hstage); [by destruct Hup as [? (? & ? & ?) ?]..|constructor|].
  destruct (worker_runs times st) as [log st'] eqn:E. exists s'. split_and!; [done|done|]. intros n1 n2 H1 H2 H3 H4.
  destruct (unpaid_runs times st u s ends log st' n1 n2) as (s2 & Hs2 & Hst); try done.
  - apply Sorted_StronglySorted; [intros x y z; lia|done].
  - cbn in Hs'. congruence.
Qed.

Definition poor_books : ctables := with_wallets (fun _ => {["u1" := 5]}) sample_books.

Lemma unpaid_is_suspended_witness :
  let times := [FromUnix 1999999; FromUnix 2000010; FromUnix 2000070; FromUnix 2086450] in
  let runs := @worker_runs sorted_order times (mkPg poor_books [Done; Failed] false ["c1"; "c2"; "c3"; "c4"]) in
  runs.1.*2 = [false; true; true; true]
  /\ exists s', c_subscriptions (cp runs.2) !! "u1" = Some s' /\ sb_status s' = "suspended".
Proof.
  intros times runs. split; [vm_compute; reflexivity|].
  pose proof (@unpaid_is_suspended sorted_order times (mkPg poor_books [Done; Failed] false ["c1"; "c2"; "c3"; "c4"]) "u1"
    sample_subscription (FromUnix 2000000)) as H.
  assert (Hlog : runs.1 = [(FromUnix 1999999, false); (FromUnix 2000010, true); (FromUnix 2000070, true); (FromUnix 2086450, true)])
    by (vm_compute; reflexivity).
  unfold runs in *. destruct (worker_runs times _) as [log st']. cbn [fst snd] in *. rewrite Hlog in H.
  destruct H as (s' & H1 & _ & H2).
  - split; [vm_compute; reflexivity|split; [discriminate|split; reflexivity]|].
    intros p b Hp Hb. vm_compute in Hp, Hb. injection Hp as <-. injection Hb as <-. reflexivity.
  - repeat constructor; vm_compute; discriminate.
  - exists s'. split; [done|]. apply (H2 (FromUnix 2000010) (FromUnix 2086450)); [set_solver|set_solver|vm_compute; discriminate..].
Defined.

(** The notice of grace is repeated.  It is scheduled at the time of the run
    and its condition holds as long as grace lasts, so every successful run adds
    one more notice for every subscription that is in grace after it: the earlier
    notices are of earlier times. *)
Theorem grace_notice_every_run {MO : MapOrder} now s s' u sub :
  subscriptionLifecycle now s = (Ok tt, s') -> trial_free (cp s) ->
  c_subscriptions (cp s') !! u = Some sub -> sb_status sub = "grace" -> is_Some (sb_grace sub) ->
  Forall (fun n => no_scheduled_at n < now) (filter (fun n => no_kind n = "grace.entered") (c_notifications (cp s))) ->
  (u, "grace.entered", now) ∈ notice_keys (cp s')
  /\ (u, "grace.entered", now) ∉ notice_keys (cp s)
  /\ c_notifications (cp s) ⊆ c_notifications (cp s').
Proof.
  intros E Hfree Hu Hg [g Hsome] Hbefore. pose proof E as [[_ ?]|Hran]%lifecycle_effect; [done|].
  destruct (lr_notices _ _ _ Hran) as (new & Hn & _ & _ & Hkeys).
  assert (Hfresh : (u, "grace.entered", now) ∉ notice_keys (cp s)).
  { intros (n & Hn' & Hin)%list_elem_of_fmap. injection Hn' as _ Hk Ht.
    rewrite Forall_forall in Hbefore. assert (no_scheduled_at n < now) by (by apply Hbefore, list_elem_of_filter). lia. }
  split_and!; [|done|rewrite Hn; set_solver]. unfold notice_keys. rewrite Hn, fmap_app, elem_of_app. right. apply Hkeys.
  split; [|done]. eapply GraceEntered; [done..|]. destruct (lifecycle_user _ _ _ u Hran) as [Hset _]. rewrite Hu in Hset.
  destruct (c_subscriptions (cp s) !! u) as [sub0|] eqn:E0; [|done]. cbn in Hset. injection Hset as Hset.
  pose proof (settled_step _ _ _ _ _ Hfree Hran E0) as Hstep. rewrite <- Hset in Hstep.
  apply worker_step_settled in Hstep as [_ Hover]. specialize (Hover Hg). rewrite Hsome in Hover. cbn in Hover.
  apply Z.leb_gt in Hover. unfold minute, second. lia.
Qed.

Lemma grace_notice_every_run_witness :
  let run now s := (@subscriptionLifecycle sorted_order now s) in
  let s1 := (run (FromUnix 2000010) (mkPg poor_books [] false ["c1"; "c2"; "c3"; "c4"])).2 in
  let s2 := (run (FromUnix 2000070) s1).2 in
  length (filter (fun n => no_kind n = "grace.entered") (c_notifications (cp s2))) = 2%nat
  /\ ("u1", "grace.entered", FromUnix 2000070) ∈ notice_keys (cp s2).
Proof.
  intros run s1 s2. split; [vm_compute; reflexivity|].
  assert (Hs : exists sub, c_subscriptions (cp s2) !! "u1" = Some sub /\ sb_status sub = "grace" /\ is_Some (sb_grace sub)).
  { assert (H : (fun sub => (sb_status sub, sb_grace sub)) <$> c_subscriptions (cp s2) !! "u1" = Some ("grace", Some (FromUnix 2086410)))
      by (vm_compute; reflexivity).
    apply fmap_Some in H as (sub & H1 & [= H2 H3]). exists sub. split; [exact H1|]. split; [done|]. rewrite <- H3. by eexists. }
  destruct Hs as (sub & H1 & H2 & H3).
  refine (proj1 (@grace_notice_every_run sorted_order (FromUnix 2000070) s1 s2 "u1" sub _ _ _ _ _ _)).
  - assert (Hok : (run (FromUnix 2000070) s1).1 = Ok tt) by (vm_compute; reflexivity).
    unfold s2. rewrite <- Hok. apply surjective_pairing.
  - intros p H. assert (Hp : pl_price <$> c_plans (cp s1) !! "TRIAL" = Some 0) by (vm_compute; reflexivity).
    rewrite H in Hp. by injection Hp.
  - exact H1.
  - exact H2.
  - exact H3.
  - assert (Hl : (no_scheduled_at <$> filter (fun n => no_kind n = "grace.entered") (c_notifications (cp s1))) = [FromUnix 2000010])
      by (vm_compute; reflexivity).
    apply Forall_forall. intros n Hn. assert (Hin : no_scheduled_at n ∈ [FromUnix 2000010]).
    { rewrite <- Hl. by apply list_elem_of_fmap_2. }
    apply list_elem_of_singleton in Hin. rewrite Hin. vm_compute. reflexivity.
Defined.

(** A reserved key breaks the books.  The worker leaves out the ledger entry
    of a renewal whose key is taken, and an administrator may choose any key for a
    credit: the next renewal is then taken from the wallet without an entry. *)
Theorem reserved_key_breaks_books :
  let admin := sample_session "u1" in
  let calls := [(FromUnix 1000, [], Credit admin "u1" (sample_credit (renew_key "u1" (FromUnix 2000000))));
                (FromUnix 2000001, [], Worker)] in
  let t' := cp (foldl (@perform toy_uuid_type postgres toy_ed25519 sorted_order sample_private)
                  (mkPg sample_books [] false ["x"]) calls) in
  ledger_inv (FromUnix 0) sample_books
  /\ c_wallets t' !! "u1" = Some (ledger_total (entries "u1" t') - 14900).
Proof. intros admin calls t'. split; [apply sample_inv|]. vm_compute. reflexivity. Qed.
