(* ===== verification/Pki.v ===== *)
(** * Certificates and enrollment at the control plane

    src/internal/controlplane/pki.go: the authority that issues the certificates
    of the nodes, the bundle of a node and the handler that enrolls it; and
    [rotateCertificates] of workers.go.  Creating a certificate, PEM encoding and
    the parsing of private keys are parameters beside those of [Enrollment]; the
    node's claim endpoint is reached through a function that posts a text. *)

From S2P Require Import Prelude GoStrings Base64 Sha Json JsonText Model Store Crypto Compliance Policy Protocol Enrollment Server Config Pg Hub Web Session Wallet Lifecycle.
From stdpp Require Import base gmap strings list.
From Stdlib Require Import ZArith Lia Ascii.
Open Scope Z_scope.

(** The fields of the template that [Issue] fills in; key usage, extended key
    usage (client authentication) and basic constraints are fixed. *)
Record template := mkTemplate {
  tm_SerialNumber : Z; tm_CommonName : string; tm_NotBefore : time; tm_NotAfter : time }.

(** [x509.CreateCertificate], [pem.EncodeToMemory] and
    [x509.ParsePKCS8PrivateKey] (the key, and whether it can sign). *)
Class X509Issuing {XC : X509} := {
  Signer : Type;
  create_certificate : template -> Certificate -> string -> Signer -> option string;
  pem_encode : string -> string -> string;
  parse_pkcs8 : string -> option (option Signer) }.

(** What the package documents: a PEM text decodes to its block and is printable,
    and a certificate that an authority has signed parses, is for the key it was
    made for and verifies against the authority while it is valid (its bounds are
    whole seconds). *)
Class X509IssuingLaws {XC : X509} {XI : X509Issuing} := {
  authority : Certificate -> Signer -> time -> Prop;
  pem_decode_encode : forall kind bytes, pem_decode (pem_encode kind bytes) = Some (kind, bytes);
  pem_encode_ascii : forall kind bytes, is_ascii (pem_encode kind bytes) = true;
  created : forall tm ca key signer der now,
    create_certificate tm ca key signer = Some der -> authority ca signer now ->
    tm_NotBefore tm <= now -> now + second <= tm_NotAfter tm ->
    exists c, parse_certificate der = Some c /\ cert_public_key c = Some key /\ cert_verify c ca now = true }.

(** The decimal text of a number of up to 128 bits. *)
Definition FormatBig (z : Z) : string := format_uint 40 z "".

Section Issuer.
Context {XC : X509} {XI : X509Issuing}.

Record NodeIssuer := mkNodeIssuer { ni_certificate : Certificate; ni_signer : Signer; ni_certificatePEM : string }.

(** [certFile] and [keyFile] are the outcomes of reading the two files. *)
Definition LoadNodeIssuer (certFile keyFile : result string) : result NodeIssuer :=
  match certFile, keyFile with
  | Err e, _ | Ok _, Err e => Err e
  | Ok certPEM, Ok keyPEM =>
      match pem_decode certPEM, pem_decode keyPEM with
      | Some (_, certBytes), Some (_, keyBytes) =>
          match parse_certificate certBytes with
          | None => Err (LibErr "crypto/x509")
          | Some certificate =>
              match parse_pkcs8 keyBytes with
              | None => Err (LibErr "crypto/x509")
              | Some None => Err (Msg "node CA key is not a signer")
              | Some (Some signer) => Ok (mkNodeIssuer certificate signer certPEM)
              end
          end
      | _, _ => Err (Msg "node CA PEM is invalid")
      end
  end.

(** [serial] is the outcome of the draw of a number below 2^128. *)
Definition Issue (i : NodeIssuer) (serial : result Z) (nodeID publicKey : string) (now : time)
    : result (string * template) :=
  match serial with
  | Err e => Err e
  | Ok serial =>
      let tm := mkTemplate serial ("risevpn-node:" +:+ nodeID) (now - 5 * minute) (now + 30 * 24 * hour) in
      match create_certificate tm (ni_certificate i) publicKey (ni_signer i) with
      | None => Err (LibErr "crypto/x509")
      | Some der => Ok (pem_encode "CERTIFICATE" der, tm)
      end
  end.

(** ** Bundles *)

Definition dec_Bundle : dec Bundle := dec_struct (fun m old =>
  v ← field "version" dec_int m (b_Version old);
  i ← field "nodeId" dec_string m (b_NodeID old);
  d ← field "domain" dec_string m (b_Domain old);
  c ← field "claimEndpoint" dec_string m (b_ClaimEndpoint old);
  k ← field "nodePublicKey" dec_string m (b_NodePublicKey old);
  t ← field "claimToken" dec_string m (b_ClaimToken old);
  e ← field "expiresAt" dec_time m (b_ExpiresAt old);
  a ← field "agentVersion" dec_string m (b_AgentVersion old);
  Some (mkBundle v i d c k t e a)).
Definition zero_bundle : Bundle := mkBundle 0 "" "" "" "" "" zero_time "".

Definition decodeBundle (value : string) (now : time) : result Bundle :=
  if negb (HasPrefix value BundlePrefix) then Err (Msg "bundle must start with rvpn1_") else
  match Decode (TrimPrefix value BundlePrefix) with
  | None => Err (LibErr "encoding/base64")
  | Some raw =>
      match Parse raw ≫= fun j => dec_Bundle j zero_bundle with
      | None => Err (LibErr "encoding/json")
      | Some b =>
          if String.eqb (b_NodeID b) "" || String.eqb (b_Domain b) "" || String.eqb (b_ClaimEndpoint b) ""
             || String.eqb (b_ClaimToken b) "" || negb (After (b_ExpiresAt b) now)
          then Err (Msg "bundle is invalid or expired") else Ok b
      end
  end.

(** ** The handler *)

Definition encode_ClaimRequest (q : ClaimRequest) : json :=
  JObj ([("claimToken", JStr (rq_ClaimToken q)); ("controllerUrl", JStr (rq_ControllerURL q));
         ("controllerPublicKey", JStr (rq_ControllerPublicKey q))]
        ++ omit_text "quotaPublicKey" (rq_QuotaPublicKey q)
        ++ omit_text "compliancePublicKey" (rq_CompliancePublicKey q)
        ++ [("nodeCertificatePem", JStr (rq_NodeCertificatePEM q)); ("controllerCaPem", JStr (rq_ControllerCAPEM q))]).

(** What the handler reads of the configuration. *)
Record enroll_config := mkEnrollConfig {
  ec_CompliancePrivateKey : string; ec_QuotaPrivateKey : string; ec_ControlURL : string }.

Context {PU : PgUuid} {SV : PgServer} {ED : Ed25519}.

(** [INSERT INTO nodes ... ON CONFLICT(id) DO UPDATE]: a new row is pending, an
    old one keeps its status and what the node has said of itself. *)
Definition upsert_node (b : Bundle) (publicRaw serial : string) (notAfter : time) (t : ctables) : result (unit * ctables) :=
  match canonical_uuid (b_NodeID b) with
  | Err e => Err e
  | Ok node =>
      if negb (pg_text (b_Domain b) && pg_text (b_AgentVersion b)) then Err (SqlErr SqlFault) else
      if bool_decide (map_Exists (fun k n => rt_domain (nd_route n) = b_Domain b /\ k <> node) (c_nodes t))
      then Err (SqlErr SqlConstraint) else
      let row :=
        match c_nodes t !! node with
        | None => mkNodeRow (Some serial) (Some notAfter) None None None None
                    (mkRouteRow (b_Domain b) "pending" (JArr []) 0 None)
                    (mkAgentRow publicRaw (b_AgentVersion b) 1 None None None)
        | Some n => mkNodeRow (Some serial) (Some notAfter) (nd_next_serial n) (nd_next_not_after n)
                      (nd_compliance_version n) (nd_compliance_fetched_at n)
                      (mkRouteRow (b_Domain b) (rt_status (nd_route n)) (rt_capabilities (nd_route n))
                         (rt_load (nd_route n)) (rt_rtt (nd_route n)))
                      (mkAgentRow publicRaw (ag_version (nd_agent n)) (ag_protocol (nd_agent n))
                         (ag_reality_key (nd_agent n)) (ag_reality_id (nd_agent n)) (ag_heartbeat (nd_agent n)))
        end in
      Ok (tt, with_nodes (insert node row) t)
  end.

Definition decode_enroll : option json -> option string :=
  decode_request ["bundle"] (dec_struct (fun m old => field "bundle" dec_string m old)) "".

(** [post address text] is the status of the answer, or the error of the request;
    [now] is read for the bundle and [now'] for the certificate. *)
Definition enrollNode {W} `{Part pg W} (post : string -> string -> prog W (result Z)) (config : enroll_config)
    (issuer : option NodeIssuer) (serial : result Z) (now now' : time) (s : session) (body : option json) : prog W reply :=
  match issuer with
  | None => ret (problem 503 "node-ca")
  | Some issuer =>
      match decode_enroll body with
      | None => ret (problem 400 "bundle")
      | Some text =>
          match decodeBundle (TrimSpace text) now with
          | Err _ => ret (problem 400 "bundle")
          | Ok bundle =>
              match Decode (b_NodePublicKey bundle) with
              | None => ret (problem 400 "node-key")
              | Some publicRaw =>
                  if negb (String.length publicRaw =? PublicKeySize)%nat then ret (problem 400 "node-key") else
                  match Issue issuer serial (b_NodeID bundle) publicRaw now' with
                  | Err _ => ret (problem 500 "node-cert")
                  | Ok (certificate, parsed) =>
                      if negb (String.length (ec_CompliancePrivateKey config) =? PrivateKeySize)%nat
                      then ret (problem 503 "controller-key") else
                      if negb (String.length (ec_QuotaPrivateKey config) =? PrivateKeySize)%nat
                      then ret (problem 503 "quota-key") else
                      let controllerPublic := ed_public (ec_CompliancePrivateKey config) in
                      let quotaPublic := ed_public (ec_QuotaPrivateKey config) in
                      let* stored := try (on (pool (upsert_node bundle publicRaw (FormatBig (tm_SerialNumber parsed))
                                               (tm_NotAfter parsed)))) in
                      match stored with
                      | Err _ => ret (problem 500 "db")
                      | Ok _ =>
                          let claim := mkClaimRequest (b_ClaimToken bundle) (ec_ControlURL config)
                            (Encode controllerPublic) (Encode quotaPublic) (Encode controllerPublic)
                            certificate (ni_certificatePEM issuer) in
                          let* answer := post (b_ClaimEndpoint bundle) (print (encode_ClaimRequest claim)) in
                          match answer with
                          | Err _ => ret (problem 502 "node-claim")
                          | Ok status =>
                              if negb (status / 100 =? 2) then ret (problem 502 "node-claim") else
                              let* _ := try (on (pool (checked UntypedParameter
                                          (insert_audit (ss_UserID s) "node.enroll" (b_NodeID bundle) "one-time enrollment")))) in
                              ret (jsonResponse 201
                                (e ← jtime (tm_NotAfter parsed);
                                 Some (JObj [("certificateNotAfter", e); ("domain", JStr (b_Domain bundle));
                                             ("nodeId", JStr (b_NodeID bundle)); ("status", JStr "pending")])))
                          end
                      end
                  end
              end
          end
      end
  end.

(** ** Rotation *)

Definition encode_CertificateRotate (certificate ca : string) (notAfter : time) : option json :=
  e ← jtime notAfter;
  Some (JObj ([("certificatePem", JStr certificate)] ++ omit_text "controllerCa" ca ++ [("notAfter", e)])).

(** The nodes whose certificate ends within a week and that have no rotation under
    way: id and key. *)
Definition open_rotation (node : string) (t : ctables) : bool :=
  existsb (fun c => String.eqb (cm_node c) node && String.eqb (cm_type c) "certificate.rotate" && is_open c) (c_commands t).
Context {MO : MapOrder}.
Definition expiring_nodes (now : time) (t : ctables) : result (list (string * string)) :=
  Ok (omap (fun '(id, n) =>
        if match nd_certificate_not_after n with Some at_ => at_ <? now + 7 * 24 * hour | None => false end
           && negb (String.eqb (rt_status (nd_route n)) "pending") && negb (open_rotation id t)
        then Some (id, ag_public_key (nd_agent n)) else None) (range (c_nodes t))).

(** The statement that prepares the next certificate and queues its command. *)
Definition prepare_rotation (now : time) (id node serial : string) (notAfter : time) (payload : option json) (t : ctables)
    : result (unit * ctables) :=
  match canonical_uuid node with
  | Err e => Err e
  | Ok node =>
      match c_nodes t !! node with
      | None => Ok (tt, t)
      | Some n =>
          result_map (fun t' => (tt, t')) (insert_command now id node "certificate.rotate" payload
            (with_nodes (insert node (mkNodeRow (nd_certificate_serial n) (nd_certificate_not_after n) (Some serial)
               (Some notAfter) (nd_compliance_version n) (nd_compliance_fetched_at n) (nd_route n) (nd_agent n))) t))
      end
  end.

(** [draws] are the outcomes of the random numbers, [clock] the time of each node. *)
Definition rotate_one (i : NodeIssuer) (draws : string -> result Z) (clock : string -> time) (row : string * string)
    : prog pg unit :=
  let '(node, key) := row in
  if negb (String.length key =? PublicKeySize)%nat then ret tt else
  match Issue i (draws node) node key (clock node) with
  | Err e => fail e
  | Ok (pemValue, certificate) =>
      let* id := random_uuid in
      pool (prepare_rotation (clock node) id node (FormatBig (tm_SerialNumber certificate)) (tm_NotAfter certificate)
              (encode_CertificateRotate pemValue (ni_certificatePEM i) (tm_NotAfter certificate)))
  end.
Definition rotateCertificates (issuer : option NodeIssuer) (draws : string -> result Z) (now : time) (clock : string -> time)
    : prog pg unit :=
  match issuer with
  | None => ret tt
  | Some i =>
      let* nodes := pool (select (expiring_nodes now)) in
      for_each (rotate_one i draws clock) nodes
  end.
End Issuer.

(** ** Texts of base64 *)

Fixpoint all_chars (p : ascii -> bool) (s : string) : bool :=
  match s with "" => true | String c s' => p c && all_chars p s' end.
Lemma all_chars_app p a b : all_chars p (a +:+ b) = all_chars p a && all_chars p b.
Proof. induction a as [|c a IH]; simpl; [done|]. by rewrite IH, andb_assoc. Qed.

(** Printable ASCII without the space: such a text has no white space and is valid
    UTF-8. *)
Definition printable (c : ascii) : bool := (33 <=? byte_val c) && (byte_val c <=? 126).
Lemma printable_bare s : all_chars printable s = true -> bare s.
Proof.
  intros Hs. apply Forall_forall. intros w Hw.
  assert (H : forallb (fun w => negb (all_chars printable w)) spaces = true) by (vm_compute; reflexivity).
  rewrite forallb_forall in H. specialize (H w ltac:(by apply list_elem_of_In)). apply negb_true_iff in H.
  split.
  - destruct (HasPrefix s w) eqn:E; [|done]. apply HasPrefix_spec in E as [r ->].
    rewrite all_chars_app in Hs. apply andb_true_iff in Hs as [Hs _]. congruence.
  - destruct (HasSuffix s w) eqn:E; [|done]. apply HasSuffix_spec in E as [r ->].
    rewrite all_chars_app in Hs. apply andb_true_iff in Hs as [_ Hs]. congruence.
Qed.
Lemma printable_ascii s : all_chars printable s = true -> is_ascii s = true.
Proof.
  induction s as [|c s IH]; [done|]. cbn [all_chars is_ascii]. unfold printable at 1.
  intros [Hc Hs]%andb_true_iff. rewrite IH by done. destruct (Z.ltb_spec (byte_val c) 128); lia.
Qed.
Lemma enc_char_chars p i : all_chars p alphabet = true -> p (enc_char i) = true.
Proof.
  assert (H : forall s n c, all_chars p s = true -> String.get n s = Some c -> p c = true).
  { induction s as [|a s IH]; intros [|n] c; cbn; try done; intros [Ha Hs]%andb_true_iff; [by intros [= <-]|by apply IH]. }
  intros Hp. unfold enc_char. destruct (String.get (Z.to_nat i) alphabet) as [c|] eqn:E; [by eapply (H alphabet)|].
  by apply andb_true_iff in Hp as [Hp _].
Qed.
Lemma Encode_chars p s : all_chars p alphabet = true -> all_chars p (Encode s) = true.
Proof.
  intros Hp. induction s as [|a|a b|a b c s IH] using string_ind3; cbn [Encode all_chars];
    rewrite ?(enc_char_chars p _ Hp), ?IH; done.
Qed.
Lemma Encode_printable s : all_chars printable (Encode s) = true.
Proof. by apply Encode_chars. Qed.
Lemma Encode_utf8 s : valid_utf8 (Encode s) = true.
Proof. apply ascii_valid_utf8, printable_ascii, Encode_printable. Qed.
Lemma Encode_trimmed s : TrimSpace (Encode s) = Encode s.
Proof. apply bare_trimmed, printable_bare, Encode_printable. Qed.
Lemma Encode_nonempty s : s <> "" -> Encode s <> "".
Proof. intros Hs E. apply Hs. apply Encode_inj. by rewrite E. Qed.

(** ** Documents *)

(** What a handler's decoder finds in the text of a body. *)
Definition read_body (text : string) : request_body :=
  match parse_value (S (2 * String.length text)) max_depth text with
  | Some (j, r) => Document j (negb (String.eqb (skip_space r) ""))
  | None => Malformed
  end.
Lemma read_body_print j : well_formed max_depth j = true -> read_body (print j) = Document j false.
Proof.
  intros Hw. unfold read_body. rewrite <- (sapp_nil_r (print j)) at 2. by rewrite print_reads_back by (done || lia).
Qed.
Lemma max_depth_S : max_depth = S (S (Z.to_nat 9998)).
Proof. unfold max_depth. rewrite <- !Z2Nat.inj_succ by lia. done. Qed.
#[local] Opaque max_depth Encode sha256.

(** The text of a time is ASCII. *)
Lemma is_ascii_app a b : is_ascii (a +:+ b) = is_ascii a && is_ascii b.
Proof. induction a as [|c a IH]; simpl; [done|]. by rewrite IH, andb_assoc. Qed.
Lemma pad_digits_ascii n z acc : is_ascii (pad_digits n z acc) = is_ascii acc.
Proof.
  revert z acc. induction n as [|n IH]; intros z acc; [done|]. cbn [pad_digits]. rewrite IH. cbn [is_ascii].
  pose proof (Z.mod_pos_bound z 10 ltac:(lia)). rewrite byte_val_of by lia.
  by destruct (Z.ltb_spec (48 + z mod 10) 128); [|lia].
Qed.
Lemma trim_zeros_ascii fuel digits ns : is_ascii (trim_zeros fuel digits ns) = true.
Proof.
  revert digits ns. induction fuel as [|fuel IH]; intros digits ns; [done|]. cbn [trim_zeros].
  destruct (ns =? 0); [done|]. destruct (ns mod 10 =? 0); [apply IH|]. cbn [is_ascii]. by rewrite pad_digits_ascii.
Qed.
Lemma time_ascii t s : format_rfc3339 t = Some s -> is_ascii s = true.
Proof.
  unfold format_rfc3339, FormatRFC3339. destruct (civil_from_days _) as [[y mo] d].
  destruct (Z.leb_spec 0 y) as [H0|]; [|done]. destruct (Z.leb_spec y 9999) as [H1|]; [|done]. cbn [andb].
  intros E. apply (inj Some) in E. subst s. unfold format_year.
  destruct (Z.ltb_spec y 0); [lia|]. destruct (Z.leb_spec y 9999); [|lia].
  by rewrite !is_ascii_app, !pad_digits_ascii, trim_zeros_ascii.
Qed.

Section Enroll.
Context {XC : X509} {XI : X509Issuing}.

(** The control plane reads the bundle that a node has issued. *)
Lemma decodeBundle_issued B e now :
  encode_Bundle B = Some e -> in_int64 (b_Version B) = true ->
  valid_utf8 (b_NodeID B) && valid_utf8 (b_Domain B) && valid_utf8 (b_ClaimEndpoint B)
    && valid_utf8 (b_NodePublicKey B) && valid_utf8 (b_ClaimToken B) && valid_utf8 (b_AgentVersion B) = true ->
  b_NodeID B <> "" -> b_Domain B <> "" -> b_ClaimEndpoint B <> "" -> b_ClaimToken B <> "" -> now < b_ExpiresAt B ->
  decodeBundle (BundlePrefix +:+ Encode (print e)) now = Ok B.
Proof.
  intros He Hv Hutf Hi Hd Hc Ht Hx. destruct B as [v i d c k t x a].
  cbn [b_Version b_NodeID b_Domain b_ClaimEndpoint b_NodePublicKey b_ClaimToken b_ExpiresAt b_AgentVersion] in *.
  unfold encode_Bundle, jtime in He.
  cbn [b_Version b_NodeID b_Domain b_ClaimEndpoint b_NodePublicKey b_ClaimToken b_ExpiresAt b_AgentVersion] in He.
  destruct (format_rfc3339 x) as [text|] eqn:Ex; [|discriminate He].
  cbn [fmap option_fmap option_map mbind option_bind] in He. apply (inj Some) in He. subst e.
  pose proof (time_ascii _ _ Ex) as Htime.
  apply andb_true_iff in Hutf as [[[[[U1 U2]%andb_true_iff U3]%andb_true_iff U4]%andb_true_iff U5]%andb_true_iff U6].
  unfold decodeBundle. rewrite HasPrefix_app, TrimPrefix_app, Decode_Encode. cbn [negb].
  rewrite Parse_print.
  2: { rewrite max_depth_S. cbn [well_formed forallb fst snd]. unfold jint. cbn [well_formed].
       rewrite (FormatInt_valid v Hv), U1, U2, U3, U4, U5, U6, (ascii_valid_utf8 text Htime). reflexivity. }
  pose proof (parse_FormatRFC3339 _ _ Ex) as Hparse. pose proof (ParseInt_FormatInt v Hv) as Hint.
  assert (Hdec : dec_Bundle (JObj [("version", jint v); ("nodeId", JStr i); ("domain", JStr d); ("claimEndpoint", JStr c);
    ("nodePublicKey", JStr k); ("claimToken", JStr t); ("expiresAt", JStr text); ("agentVersion", JStr a)]) zero_bundle
    = Some (mkBundle v i d c k t x a)).
  { unfold jint. cbn -[parse_rfc3339 ParseInt FormatInt]. rewrite Hint. cbn -[parse_rfc3339 ParseInt FormatInt]. by rewrite Hparse. }
  cbn [mbind option_bind]. rewrite Hdec. cbn [b_NodeID b_Domain b_ClaimEndpoint b_ClaimToken b_ExpiresAt].
  apply String.eqb_neq in Hi, Hd, Hc, Ht. rewrite Hi, Hd, Hc, Ht. unfold After.
  by rewrite (proj2 (Z.ltb_lt _ _) Hx).
Qed.

(** The node reads the claim that the control plane sends. *)
Lemma claim_reads_back q :
  forallb valid_utf8 [rq_ClaimToken q; rq_ControllerURL q; rq_ControllerPublicKey q; rq_QuotaPublicKey q;
    rq_CompliancePublicKey q; rq_NodeCertificatePEM q; rq_ControllerCAPEM q] = true ->
  decodeJSON claim_fields decode_ClaimRequest (read_body (print (encode_ClaimRequest q))) = inl q.
Proof.
  destruct q as [t u k q c n a]. cbn [forallb rq_ClaimToken rq_ControllerURL rq_ControllerPublicKey rq_QuotaPublicKey
    rq_CompliancePublicKey rq_NodeCertificatePEM rq_ControllerCAPEM].
  rewrite !andb_true_iff. intros (U1 & U2 & U3 & U4 & U5 & U6 & U7 & _).
  rewrite read_body_print.
  2: { rewrite max_depth_S. unfold encode_ClaimRequest, omit_text.
       cbn [rq_ClaimToken rq_ControllerURL rq_ControllerPublicKey rq_QuotaPublicKey rq_CompliancePublicKey
         rq_NodeCertificatePEM rq_ControllerCAPEM].
       generalize (S (Z.to_nat 9998)). intros depth.
       destruct (String.eqb q ""), (String.eqb c ""); cbn [app well_formed forallb fst snd]; rewrite ?U1, ?U2, ?U3, ?U4, ?U5, ?U6, ?U7; reflexivity. }
  unfold decodeJSON, encode_ClaimRequest, omit_text. cbn [rq_QuotaPublicKey rq_CompliancePublicKey].
  destruct (String.eqb_spec q "") as [->|], (String.eqb_spec c "") as [->|]; reflexivity.
Qed.

Context {UP : UrlParser} {MO : MapOrder} {PU : PgUuid} {SV : PgServer} {ED : Ed25519}.

(** A control plane and a node, and the way of a posted text to the node's claim
    endpoint; [now1] and [now2] are the readings of the node's clock. *)
Record deployment := mkDeployment { dp_pg : pg; dp_node : sqlite }.
#[export] Instance deployment_pg : Part pg deployment.
Proof. refine {| part := dp_pg; with_part s d := mkDeployment s (dp_node d) |}; [done|by intros []]. Defined.

Definition post_to_node (endpoint : string) (now1 now2 : time) (address text : string) : prog deployment (result Z) := fun d =>
  if String.eqb address endpoint then
    let '(response, _, s) := claim (read_body text) now1 now2 (dp_node d) in
    (Ok (Ok (rp_status response)), mkDeployment (dp_pg d) s)
  else (Ok (Err (LibErr "net/http")), d).

(** What an installation must provide for an enrollment to succeed. *)
Record enrollable (config : enroll_config) (i : NodeIssuer) (now' now1 : time) : Prop := {
  en_keys : String.length (ec_CompliancePrivateKey config) = PrivateKeySize
            /\ String.length (ec_QuotaPrivateKey config) = PrivateKeySize;
  en_url : exists scheme host, url_parse (ec_ControlURL config) = Some (scheme, host)
             /\ (scheme = "wss" \/ scheme = "https") /\ host <> "";
  en_texts : valid_utf8 (ec_ControlURL config) = true /\ valid_utf8 (ni_certificatePEM i) = true;
  en_ca : parseCertificate (ni_certificatePEM i) = Ok (ni_certificate i);
  en_times : now' <= now1 + 5 * minute /\ now1 + second <= now' + 30 * 24 * hour }.

(** The request that the handler makes of a bundle. *)
Definition claim_of (config : enroll_config) (i : NodeIssuer) (token certificate : string) : ClaimRequest :=
  mkClaimRequest token (ec_ControlURL config) (Encode (ed_public (ec_CompliancePrivateKey config)))
    (Encode (ed_public (ec_QuotaPrivateKey config))) (Encode (ed_public (ec_CompliancePrivateKey config)))
    certificate (ni_certificatePEM i).

Lemma valid_public_key_Encode k : String.length k = PublicKeySize -> valid_public_key (Encode k) = true.
Proof. intros H. unfold valid_public_key. rewrite Decode_Encode. by apply Nat.eqb_eq. Qed.

Lemma issued_claim_accepted {XL : X509IssuingLaws} {EL : Ed25519Laws} config i serial nodeID publicKey now' now1 now2
    token certificate tm t :
  enrollable config i now' now1 -> authority (ni_certificate i) (ni_signer i) now1 ->
  Issue i (Ok serial) nodeID publicKey now' = Ok (certificate, tm) ->
  t_state t !! "node_public_key" = Some (Encode publicKey) ->
  TrimSpace token <> "" -> is_Some (claimable t (Hash token) now2) ->
  claim_accepted (claim_of config i token certificate) now1 now2 t.
Proof.
  intros [[K1 K2] Hurl _ Hca [T1 T2]] Hauth Hissue Hpub Htok Hcl.
  unfold Issue in Hissue. destruct (create_certificate _ _ _ _) as [der|] eqn:Ec; [|done]. injection Hissue as <- <-.
  destruct (created _ _ _ _ _ now1 Ec Hauth) as (c & Hc1 & Hc2 & Hc3);
    [cbn; unfold minute, second in *; lia|cbn; unfold hour, minute, second in *; lia|].
  pose proof (ed_public_size _ K1) as S1. pose proof (ed_public_size _ K2) as S2.
  split; cbn [claim_of rq_ClaimToken rq_ControllerURL rq_ControllerPublicKey rq_QuotaPublicKey rq_CompliancePublicKey
    rq_NodeCertificatePEM rq_ControllerCAPEM]; try done.
  - by apply valid_public_key_Encode.
  - exists c, (ni_certificate i), (Encode publicKey), publicKey. split_and!; try done; [|apply Decode_Encode].
    unfold parseCertificate. rewrite pem_decode_encode. cbn [String.eqb negb]. by rewrite Hc1.
  - right. by apply valid_public_key_Encode.
  - right. by apply valid_public_key_Encode.
Qed.
End Enroll.

Lemma claim_states_stored q now2 t k v :
  (k, v) ∈ [("controller_url", rq_ControllerURL q); ("controller_public_key", rq_ControllerPublicKey q);
            ("node_certificate", rq_NodeCertificatePEM q); ("controller_ca", rq_ControllerCAPEM q)] ->
  t_state (with_state (fun m => claim_keys q ∪ m) (claimed_tables q now2 t)) !! k = Some v.
Proof.
  intros Hin. cbn [t_state with_state claimed_tables claim_effect].
  assert (Hk : claim_keys q !! k = None).
  { unfold claim_keys. rewrite !elem_of_cons, elem_of_nil in Hin.
    assert (k <> "compliance_public_key" /\ k <> "quota_public_key") as [H1 H2] by (split; intros ->; naive_solver).
    destruct (negb _), (negb _); cbn; rewrite ?lookup_insert_ne by done; done. }
  rewrite lookup_union_r by done. unfold set_states, claim_states. cbn [foldl fst snd].
  rewrite !elem_of_cons, elem_of_nil in Hin.
  destruct Hin as [[= -> ->]|[[= -> ->]|[[= -> ->]|[[= -> ->]|[]]]]]; simplify_map_eq; done.
Qed.
Lemma claim_keys_stored q now2 t :
  rq_CompliancePublicKey q <> "" -> rq_QuotaPublicKey q <> "" ->
  let st := t_state (with_state (fun m => claim_keys q ∪ m) (claimed_tables q now2 t)) in
  st !! "compliance_public_key" = Some (rq_CompliancePublicKey q) /\ st !! "quota_public_key" = Some (rq_QuotaPublicKey q).
Proof.
  intros H1 H2. apply String.eqb_neq in H1, H2. cbn [t_state with_state]. unfold claim_keys. rewrite H1, H2. cbn [negb].
  split; apply lookup_union_Some_l; by simplify_map_eq.
Qed.

Section EnrollRuns.
Context {XC : X509} {XI : X509Issuing} {UP : UrlParser} {MO : MapOrder} {PU : PgUuid} {SV : PgServer} {ED : Ed25519}.

(** The node takes the claim. *)
Lemma post_claim_run endpoint now1 now2 q d :
  faults (dp_node d) = [] -> claim_accepted q now1 now2 (db (dp_node d)) ->
  decodeJSON claim_fields decode_ClaimRequest (read_body (print (encode_ClaimRequest q))) = inl q ->
  exists s2, post_to_node endpoint now1 now2 endpoint (print (encode_ClaimRequest q)) d
             = (Ok (Ok 200), mkDeployment (dp_pg d) s2)
    /\ db s2 = with_state (fun m => claim_keys q ∪ m) (claimed_tables q now2 (db (dp_node d))).
Proof.
  intros Hf Ha Hread. destruct d as [p [t fs]]. cbn [dp_node db faults] in *. subst fs.
  pose proof (ClaimNode_ok q now1 now2 t Ha) as Hok.
  destruct (ClaimNode q now1 now2 (mkSqlite t [])) as [r s2] eqn:E. cbn [fst] in Hok. subst r.
  exists s2. unfold post_to_node, claim. rewrite String.eqb_refl, Hread. cbn [dp_node dp_pg]. rewrite E. split; [done|].
  apply ClaimNode_cases in E as [[[? ?] _]|(_ & [[_ ?]|[[? ?] _]])]; done.
Qed.

(** The handler, when the bundle is good and the node answers well. *)
Lemma enrollNode_run {W} `{Part pg W} (post : string -> string -> prog W (result Z)) config i serial certificate tm
    now now' s text B pub w p1 status w2 :
  decodeBundle (TrimSpace text) now = Ok B -> Decode (b_NodePublicKey B) = Some pub ->
  String.length pub = PublicKeySize -> Issue i (Ok serial) (b_NodeID B) pub now' = Ok (certificate, tm) ->
  String.length (ec_CompliancePrivateKey config) = PrivateKeySize ->
  String.length (ec_QuotaPrivateKey config) = PrivateKeySize ->
  pool (upsert_node B pub (FormatBig (tm_SerialNumber tm)) (tm_NotAfter tm)) (part w) = (Ok tt, p1) ->
  post (b_ClaimEndpoint B) (print (encode_ClaimRequest (claim_of config i (b_ClaimToken B) certificate))) (with_part p1 w)
    = (Ok (Ok status), w2) -> status / 100 = 2 ->
  exists value p2, enrollNode post config (Some i) (Ok serial) now now' s (Some (JObj [("bundle", JStr text)])) w
      = (Ok (jsonResponse 201 value), with_part p2 w2) /\ c_nodes (cp p2) = c_nodes (cp (part w2)).
Proof.
  intros Hb Hd Hl Hi K1 K2 Hup Hpost Hst. unfold enrollNode.
  change (decode_enroll (Some (JObj [("bundle", JStr text)]))) with (Some text). cbv iota beta.
  rewrite Hb, Hd, Hl. cbn [Nat.eqb PublicKeySize negb]. rewrite Hi, K1, K2. cbn [Nat.eqb PrivateKeySize negb].
  unfold bind at 1, try at 1, on at 1. rewrite Hup. cbn [fst snd]. unfold bind at 1.
  unfold claim_of in Hpost. rewrite Hpost, Hst. cbn [Z.eqb Pos.eqb negb].
  unfold bind, try, on. destruct (pool _ (part w2)) as [r p2] eqn:E. eexists _, p2. split; [done|].
  assert (Hk : keeps (on_tables (same c_nodes)) (pool (checked UntypedParameter
    (insert_audit (ss_UserID s) "node.enroll" (b_NodeID B) "one-time enrollment")))).
  { apply keeps_pool; [apply _|]. intros t1 a t2 [_ [row ->]%insert_audit_ok]%checked_ok. done. }
  specialize (Hk (part w2)). rewrite E in Hk. unfold on_tables, same in Hk. by cbn in Hk.
Qed.

Lemma upsert_node_run B node pub serial notAfter t ids :
  pg_uuid (b_NodeID B) = Some node -> pg_text (b_Domain B) && pg_text (b_AgentVersion B) = true ->
  ~ map_Exists (fun k n => rt_domain (nd_route n) = b_Domain B /\ k <> node) (c_nodes t) ->
  exists n, pool (upsert_node B pub serial notAfter) (mkPg t [] false ids)
            = (Ok tt, mkPg (with_nodes (insert node n) t) [] false ids)
    /\ ag_public_key (nd_agent n) = pub /\ rt_domain (nd_route n) = b_Domain B /\ nd_certificate_serial n = Some serial.
Proof.
  intros Hu Ht Hf. unfold pool, upsert_node, canonical_uuid. cbn [next_outcome outcomes head default cp].
  rewrite Hu, Ht. cbn [negb]. rewrite bool_decide_false by done. eexists. split; [reflexivity|].
  by destruct (c_nodes t !! node).
Qed.
End EnrollRuns.

(** The pieces of an enrollment. *)
Lemma bundle_trimmed e : TrimSpace (BundlePrefix +:+ Encode (print e)) = BundlePrefix +:+ Encode (print e).
Proof. apply bare_trimmed, printable_bare. rewrite all_chars_app, Encode_printable. reflexivity. Qed.
Lemma Issue_ok {XC : X509} {XI : X509Issuing} i serial nodeID publicKey now certificate tm :
  Issue i (Ok serial) nodeID publicKey now = Ok (certificate, tm) ->
  exists der, certificate = pem_encode "CERTIFICATE" der /\ tm_SerialNumber tm = serial /\ tm_NotAfter tm = now + 30 * 24 * hour.
Proof. unfold Issue. destruct (create_certificate _ _ _ _) as [der|]; [|done]. intros [= <- <-]. by exists der. Qed.
Lemma issued_claim_reads_back {XC : X509} {XI : X509Issuing} {UP : UrlParser} {ED : Ed25519} {XL : X509IssuingLaws} config i now' now1 random der :
  enrollable config i now' now1 ->
  let q := claim_of config i (Model.RandomToken random) (pem_encode "CERTIFICATE" der) in
  decodeJSON claim_fields decode_ClaimRequest (read_body (print (encode_ClaimRequest q))) = inl q.
Proof.
  intros Hinst q. apply claim_reads_back. destruct (en_texts _ _ _ _ Hinst) as [T1 T2]. cbn [q claim_of forallb rq_ClaimToken rq_ControllerURL
    rq_ControllerPublicKey rq_QuotaPublicKey rq_CompliancePublicKey rq_NodeCertificatePEM rq_ControllerCAPEM].
  rewrite (ascii_valid_utf8 _ (pem_encode_ascii _ _)). unfold Model.RandomToken. by rewrite T1, T2, !Encode_utf8.
Qed.

(** C9 - Enrollment end to end.  A node issues a bundle; an administrator hands it to
    the control plane within its 24 hours; the handler reads it back, issues a
    certificate and posts the claim to the node.  On an installation whose
    authority, keys and address are in order the handler answers 201, the node has
    stored the control plane's address, certificate and the three keys, its token is
    spent, and the control plane has a row with the node's key and the serial
    number of that certificate. *)
Theorem enrollment_succeeds {XC : X509} {XI : X509Issuing} {UP : UrlParser} {MO : MapOrder} {PU : PgUuid} {SV : PgServer}
    {ED : Ed25519} (XL : X509IssuingLaws) (EL : Ed25519Laws) domain version identity uuid random issued s0 b s1
    config i serial certificate tm now now' now1 now2 t ids nodeID node pub s :
  let endpoint := "https://" +:+ domain +:+ ":8443/v1/enrollment/claim" in
  Reenroll domain version identity uuid (Ok (Model.RandomToken random)) issued s0 = (Ok b, s1) -> faults s1 = [] ->
  t_state (db s1) !! "node_id" = Some nodeID -> t_state (db s1) !! "node_public_key" = Some (Encode pub) ->
  String.length pub = PublicKeySize -> pg_uuid nodeID = Some node -> nodeID <> "" -> random <> "" -> domain <> "" ->
  valid_utf8 nodeID && valid_utf8 domain && valid_utf8 version && valid_utf8 endpoint = true ->
  pg_text domain && pg_text version = true ->
  ~ map_Exists (fun k n => rt_domain (nd_route n) = domain /\ k <> node) (c_nodes t) ->
  enrollable config i now' now1 -> authority (ni_certificate i) (ni_signer i) now1 ->
  Issue i (Ok serial) nodeID pub now' = Ok (certificate, tm) ->
  now < issued + 24 * hour -> Unix now2 <= Unix (issued + 24 * hour) ->
  let d := mkDeployment (mkPg t [] false ids) s1 in
  exists value d',
    enrollNode (post_to_node endpoint now1 now2) config (Some i) (Ok serial) now now' s
      (Some (JObj [("bundle", JStr b)])) d = (Ok (jsonResponse 201 value), d')
    /\ (let st := t_state (db (dp_node d')) in
        st !! "controller_url" = Some (ec_ControlURL config) /\ st !! "node_certificate" = Some certificate
        /\ st !! "controller_public_key" = Some (Encode (ed_public (ec_CompliancePrivateKey config)))
        /\ st !! "compliance_public_key" = Some (Encode (ed_public (ec_CompliancePrivateKey config)))
        /\ st !! "quota_public_key" = Some (Encode (ed_public (ec_QuotaPrivateKey config))))
    /\ claimed (db (dp_node d'))
    /\ exists n, c_nodes (cp (dp_pg d')) !! node = Some n /\ ag_public_key (nd_agent n) = pub
         /\ rt_domain (nd_route n) = domain /\ nd_certificate_serial n = Some (FormatBig serial).
Proof.
  intros endpoint Hre Hfaults Hid Hpub Hlen Huuid Hidne Hrnd Hdom Hutf Htext Hfree Hinst Hauth Hissue Hnow Hnow2 d.
  destruct (reenroll_issues_token _ _ _ _ _ _ _ _ _ Hre) as [(nodeID' & pub' & e & Hid' & Hpub' & He & ->) Hcl].
  assert (nodeID' = nodeID) as -> by congruence. assert (pub' = Encode pub) as -> by congruence.
  set (B := mkBundle 1 nodeID domain endpoint (Encode pub) (Model.RandomToken random) (issued + 24 * hour) version).
  apply andb_true_iff in Hutf as [[[U1 U2]%andb_true_iff U3]%andb_true_iff U4].
  assert (Hbundle : decodeBundle (BundlePrefix +:+ Encode (print e)) now = Ok B).
  { apply (decodeBundle_issued B e now He); try done; try (by apply Encode_nonempty).
    subst B. cbn [b_NodeID b_Domain b_ClaimEndpoint b_NodePublicKey b_ClaimToken b_AgentVersion].
    unfold Model.RandomToken. by rewrite U1, U2, U3, U4, !Encode_utf8. }
  assert (Hkeys : ed_public (ec_CompliancePrivateKey config) <> "" /\ ed_public (ec_QuotaPrivateKey config) <> "").
  { destruct (en_keys _ _ _ _ Hinst) as [K1 K2]. split; intros E;
      [pose proof (ed_public_size _ K1) as Hs|pose proof (ed_public_size _ K2) as Hs]; by rewrite E in Hs. }
  set (q := claim_of config i (Model.RandomToken random) certificate).
  destruct (Issue_ok _ _ _ _ _ _ _ Hissue) as (der & Hder & Hserial & Hafter).
  assert (Haccept : claim_accepted q now1 now2 (db s1)).
  { apply (issued_claim_accepted config i serial nodeID pub now' now1 now2 _ certificate tm); try done.
    - unfold Model.RandomToken. rewrite Encode_trimmed. by apply Encode_nonempty.
    - by apply Hcl. }
  assert (Hread : decodeJSON claim_fields decode_ClaimRequest (read_body (print (encode_ClaimRequest q))) = inl q)
    by (subst q; rewrite Hder; by eapply issued_claim_reads_back).
  destruct (upsert_node_run B node pub (FormatBig (tm_SerialNumber tm)) (tm_NotAfter tm) t ids Huuid Htext Hfree)
    as (n & Hup & Hn1 & Hn2 & Hn3).
  set (d1 := mkDeployment (mkPg (with_nodes (insert node n) t) [] false ids) s1).
  destruct (post_claim_run endpoint now1 now2 q d1 Hfaults Haccept Hread) as (s2 & Hpost & Hdb2).
  destruct (enrollNode_run (post_to_node endpoint now1 now2) config i serial certificate tm now now' s
    (BundlePrefix +:+ Encode (print e)) B pub d (dp_pg d1) 200 (mkDeployment (dp_pg d1) s2)) as (value & p2 & Hrun & Hnodes);
    [by rewrite bundle_trimmed|apply Decode_Encode|done|exact Hissue|apply Hinst|apply Hinst|exact Hup|exact Hpost|done|].
  eexists value, _. split; [exact Hrun|]. cbn [dp_node dp_pg with_part deployment_pg]. rewrite Hdb2, Hnodes.
  destruct (claim_keys_stored q now2 (db s1)) as [C1 C2]; [by apply Encode_nonempty, Hkeys..|].
  split; [|split].
  - split_and!; [apply claim_states_stored; left|apply claim_states_stored; right; right; left
      |apply claim_states_stored; right; left|exact C1|exact C2].
  - apply (claim_effect_claimed (Hash (rq_ClaimToken q))). apply Haccept.
  - exists n. rewrite Hn3, Hserial. split_and!; [apply lookup_insert_eq|exact Hn1|exact Hn2|reflexivity].
Qed.

(** An authority for the examples: a certificate is the key it is for, and a PEM
    text is the base64 of its parts. *)
Definition issuing_x509 : X509 := {|
  Certificate := string;
  pem_decode s := i ← IndexByte s "."; k ← Decode (stake i s); b ← Decode (sdrop (S i) s); Some (k, b);
  parse_certificate b := Some b; cert_verify _ _ _ := true; cert_public_key c := Some c;
  cert_not_after _ := FromUnix 4000000000 |}.
Definition toy_issuing : @X509Issuing issuing_x509 := {|
  Signer := unit; create_certificate _ _ key _ := Some key;
  pem_encode kind bytes := Encode kind +:+ String "." (Encode bytes);
  parse_pkcs8 _ := Some (Some tt) |}.

Lemma contains_all_chars a c : all_chars (fun x => negb (Ascii.eqb x c)) a = true -> contains_byte a c = false.
Proof.
  induction a as [|x a IH]; [done|]. cbn [all_chars contains_byte]. intros [H%negb_true_iff Ha]%andb_true_iff.
  by rewrite H, IH.
Qed.
Definition toy_issuing_laws : @X509IssuingLaws issuing_x509 toy_issuing.
Proof.
  refine {| authority _ _ _ := True |}.
  - intros kind bytes. cbn [pem_decode pem_encode issuing_x509 toy_issuing].
    rewrite IndexByte_app by (apply contains_all_chars; by apply Encode_chars). cbn [mbind option_bind]. rewrite stake_app, Decode_Encode. cbn [mbind option_bind].
    change (String "." (Encode bytes)) with ("." +:+ Encode bytes). rewrite <- sapp_assoc.
    assert (Hl : S (String.length (Encode kind)) = String.length (Encode kind +:+ ".")) by (rewrite length_sapp; cbn; lia).
    by rewrite Hl, sdrop_app, Decode_Encode.
  - intros kind bytes. cbn [pem_encode toy_issuing]. rewrite is_ascii_app. cbn [is_ascii].
    by rewrite !printable_ascii by apply Encode_printable.
  - intros tm ca key signer der now [= <-] _ _ _. by exists key.
Defined.

Definition sample_enroll : enroll_config := mkEnrollConfig sample_key sample_key "wss://control.example".
Definition sample_issuer : @NodeIssuer issuing_x509 toy_issuing :=
  @mkNodeIssuer issuing_x509 toy_issuing "ca" tt (@pem_encode issuing_x509 toy_issuing "CERTIFICATE" "ca").

Lemma enrollment_succeeds_witness :
  let issued := FromUnix 1786215600 in
  let p := @Reenroll sorted_order "node.example" "dev" (Ok (toy_key, toy_key)) (Ok "node-1") (Ok (Model.RandomToken "random"))
             issued (mkSqlite empty_tables []) in
  exists b value d', p.1 = Ok b
    /\ @enrollNode issuing_x509 toy_issuing toy_uuid_type (all_commands true) toy_ed25519 deployment deployment_pg
         (@post_to_node issuing_x509 toy_url sorted_order "https://node.example:8443/v1/enrollment/claim" issued issued)
         sample_enroll (Some sample_issuer) (Ok (2 ^ 127)) issued issued (sample_session "u1")
         (Some (JObj [("bundle", JStr b)])) (mkDeployment (mkPg sample_ctables [] false []) p.2)
       = (Ok (jsonResponse 201 value), d')
    /\ claimed (db (dp_node d')).
Proof.
  intros issued p. destruct (p.1) as [b|e] eqn:Eb; [|vm_compute in Eb; discriminate Eb]. exists b.
  assert (Ep : p = (Ok b, p.2)) by (rewrite <- Eb; apply surjective_pairing).
  destruct (@enrollment_succeeds issuing_x509 toy_issuing toy_url sorted_order toy_uuid_type (all_commands true) toy_ed25519
    toy_issuing_laws toy_ed25519_laws "node.example" "dev" (Ok (toy_key, toy_key)) (Ok "node-1") "random" issued
    (mkSqlite empty_tables []) b p.2 sample_enroll sample_issuer (2 ^ 127) (@pem_encode issuing_x509 toy_issuing "CERTIFICATE" toy_key)
    (mkTemplate (2 ^ 127) "risevpn-node:node-1" (issued - 5 * minute) (issued + 30 * 24 * hour))
    issued issued issued issued sample_ctables [] "node-1" "node-1" toy_key (sample_session "u1"))
    as (value & d' & Hrun & _ & Hclaimed & _).
  - exact Ep.
  - vm_compute. reflexivity.
  - vm_compute. reflexivity.
  - vm_compute. reflexivity.
  - reflexivity.
  - reflexivity.
  - discriminate.
  - discriminate.
  - discriminate.
  - vm_compute. reflexivity.
  - vm_compute. reflexivity.
  - apply (bool_decide_unpack _). vm_compute. exact I.
  - split; [split; reflexivity| |split; vm_compute; reflexivity|vm_compute; reflexivity|split; vm_compute; discriminate].
    exists "wss", "wss://control.example". split; [reflexivity|]. split; [by left|discriminate].
  - exact I.
  - reflexivity.
  - vm_compute. reflexivity.
  - vm_compute. discriminate.
  - exists value, d'. split; [reflexivity|]. split; [exact Hrun|exact Hclaimed].
Defined.
