(* ===== verification/Feed.v ===== *)
(** * The refresh of the compliance feed

    src/internal/controlplane/workers.go [refreshCompliance], [parseDomains] and
    [complianceFailure]: the worker that fetches the public list of domains,
    signs it as a feed of [Compliance] and queues it for the nodes.  The list's
    server is a parameter (what it answers to the validators of the last
    snapshot), and so is the conversion of domain names of
    [golang.org/x/net/idna]. *)

From S2P Require Import Prelude GoStrings Base64 Sha Json JsonText Model Store Crypto Compliance Xray Usage Control Config Pg Hub Web Wallet Lifecycle.
From stdpp Require Import base gmap strings list.
From Stdlib Require Import ZArith Lia Ascii.
Open Scope Z_scope.

(** [idna.Lookup.ToASCII]: [None] is an error.  The profile applies the STD3
    rules: the result has only letters, digits, hyphens and dots, in lower case. *)
Class Idna := { to_ascii : string -> option string }.
Definition ldh (c : ascii) : bool :=
  let z := byte_val c in
  ((97 <=? z) && (z <=? 122)) || ((48 <=? z) && (z <=? 57)) || (z =? 45) || (z =? 46).
Fixpoint all_ldh (s : string) : bool :=
  match s with "" => true | String c s' => ldh c && all_ldh s' end.
Class IdnaLaws `{!Idna} : Prop := { to_ascii_ldh : forall s a, to_ascii s = Some a -> all_ldh a = true }.

(** What came back for the request: the address is no URL, the transport failed,
    or a response; [fr_broken] is the error that ends the reading of the body. *)
Record feed_response := mkFeedResponse {
  fr_status : Z; fr_etag : string; fr_modified : string; fr_body : string; fr_broken : option error }.
Inductive fetched := NoRequest (e : error) | NoResponse (e : error) | Fetched (r : feed_response).

(** [io.LimitReader] *)
Fixpoint LimitReader (n : Z) (s : string) : string :=
  match s with
  | "" => ""
  | String c s' => if n <=? 0 then "" else String c (LimitReader (n - 1) s')
  end.
Definition feed_limit : Z := 32 * 2 ^ 20.
(** The error of the body is not reached behind the limit. *)
Definition limited_error (r : feed_response) : option error :=
  if feed_limit <=? Z.of_nat (String.length (fr_body r)) then None else fr_broken r.
Definition max_line : Z := 2 ^ 20.

Section Feed.
Context {UT : UnicodeTables} {ID : Idna}.

(** ** The list of domains *)

(** What a line of the list is: nothing, an invalid entry or a domain. *)
Inductive feed_line := Skipped | Invalid | Domain (name : string).
Definition read_line (raw : string) : feed_line :=
  let line := TrimSpace (ToLower (TrimSuffix raw carriage_return)) in
  if String.eqb line "" || HasPrefix line "#" then Skipped else
  if ContainsAny line (" /:@" +:+ String (byte_of 9) "") || (253 <? Z.of_nat (String.length line)) then Invalid else
  match to_ascii (TrimSuffix line ".") with
  | None => Invalid
  | Some name => if Contains name "." then Domain name else Invalid
  end.

(** The variables of the loop. *)
Record domain_scan := mkScan { dm_seen : gset string; dm_domains : list string; dm_invalid : Z; dm_total : Z }.

Definition scan_line (st : domain_scan) (raw : string) : domain_scan :=
  match read_line raw with
  | Skipped => st
  | Invalid => mkScan (dm_seen st) (dm_domains st) (dm_invalid st + 1) (dm_total st + 1)
  | Domain name =>
      if bool_decide (name ∈ dm_seen st)
      then mkScan (dm_seen st) (dm_domains st) (dm_invalid st) (dm_total st + 1)
      else mkScan (dm_seen st ∪ {[name]}) (dm_domains st ++ [name]) (dm_invalid st) (dm_total st + 1)
  end.
Fixpoint scan_domains (lines : list string) (broken : option error) (st : domain_scan) : result domain_scan :=
  match lines with
  | [] => match broken with Some e => Err e | None => Ok st end
  | raw :: rest =>
      if max_line <=? Z.of_nat (String.length raw) then Err (LibErr "bufio")
      else scan_domains rest broken (scan_line st raw)
  end.

Definition parseDomains (body : string) (broken : option error) : result (list string) :=
  match scan_domains (raw_lines body) broken (mkScan ∅ [] 0 0) with
  | Err e => Err e
  | Ok st =>
      if (length (dm_domains st) =? 0)%nat || ((5 <? dm_invalid st) && (dm_total st <? dm_invalid st * 20))
      then Err (Msg ("feed contains too many invalid domains: " +:+ FormatInt (dm_invalid st) +:+ " of "
                     +:+ FormatInt (dm_total st)))
      else Ok (dm_domains st)
  end.

(** ** Alerts and snapshots *)

(** [INSERT INTO alerts ... ON CONFLICT(key) DO UPDATE] *)
Definition raise_alert (key message : string) (t : ctables) : result (unit * ctables) :=
  if negb (pg_text message) then Err (SqlErr SqlFault) else
  Ok (tt, with_calerts (fun m => <[key := mkCalertRow
        (match m !! key with Some a => ca_severity a | None => "critical" end) message true None]> m) t).
Definition resolve_alert (now : time) (key : string) (m : gmap string calert_row) : gmap string calert_row :=
  alter (fun a => mkCalertRow (ca_severity a) (ca_message a) false (Some now)) key m.
Definition resolve_alerts (now : time) (keys : list string) (t : ctables) : result (unit * ctables) :=
  Ok (tt, with_calerts (fun m => foldr (resolve_alert now) m keys) t).

(** The latest snapshot: its validators and the number of its domains.  Of two
    snapshots of one instant the first counts. *)
Definition later_snapshot (best : option snapshot_row) (s : snapshot_row) : option snapshot_row :=
  match best with
  | Some b => if sn_fetched_at b <? sn_fetched_at s then Some s else Some b
  | None => Some s
  end.
Definition latest_snapshot (t : ctables) : result (string * string * Z) :=
  match foldl later_snapshot None (c_snapshots t) with
  | Some s => Ok (default "" (sn_etag s), default "" (sn_modified s), Z.of_nat (length (sn_domains s)))
  | None => Err (SqlErr SqlNoRows)
  end.

(** [INSERT INTO compliance_snapshots ... ON CONFLICT(version) DO NOTHING] *)
Definition insert_snapshot (row : snapshot_row) (t : ctables) : result (unit * ctables) :=
  if negb (forallb pg_text ([sn_version row; sn_source row; default "" (sn_etag row); default "" (sn_modified row)]
                            ++ sn_domains row))
  then Err (SqlErr SqlFault) else
  if existsb (fun s => String.eqb (sn_version s) (sn_version row)) (c_snapshots t) then Ok (tt, t)
  else Ok (tt, with_snapshots (fun l => l ++ [row]) t).

(** ** The feed *)

Context {FF : Float64Format} {ED : Ed25519} {MO : MapOrder}.

Definition encode_SignedFeed (f : SignedFeed) : option json :=
  u ← jtime (sf_UpdatedAt f); e ← jtime (sf_ExpiresAt f); r ← sf_Rules f;
  Some (JObj [("version", JStr (sf_Version f)); ("updatedAt", u); ("expiresAt", e); ("rules", r);
              ("signature", JStr (sf_Signature f))]).

(** [json.Marshal] of the map: its keys in order. *)
Definition domain_rules (domains : list string) : json :=
  JObj [("blockedCidrs", JArr []); ("blockedDomains", JArr (JStr <$> domains)); ("blockedPorts", JArr [])].
Definition new_feed (now : time) (domains : list string) : SignedFeed :=
  let rules := domain_rules domains in
  mkSignedFeed (Encode (stake 12 (sha256 (print rules)))) now (now + 6 * hour) (Some rules) "".

Definition is_enrolled (n : node_row) : bool := negb (String.eqb (rt_status (nd_route n)) "pending").
Definition feed_commands (payload : json) (t : ctables) : list new_command :=
  (fun '(node, _) => (node, "compliance.feed", payload)) <$>
    filter (fun '(_, n) => is_enrolled n = true) (range (c_nodes t)).

(** [a.complianceFailure] *)
Definition complianceFailure (cause : error) : prog pg unit :=
  let* _ := try (pool (raise_alert "COMPLIANCE_STALE"
                   ("Compliance refresh failed; last-known-good remains active: " +:+ error_text cause))) in
  fail cause.

(** The transaction: the snapshot, the command for every enrolled node, the
    alerts.  A feed that can not be marshalled is a NULL payload. *)
Definition publish (now begun : time) (url : string) (r : feed_response) (domains : list string) (feed : SignedFeed)
    : prog pg unit :=
  in_transaction (
    stmt (insert_snapshot (mkSnapshotRow (sf_Version feed) url (Some (fr_etag r)) (Some (fr_modified r)) domains
            (default "" (Decode (sf_Signature feed))) now)) ;;;
    match encode_SignedFeed feed with
    | Some payload => queue_rows begun (feed_commands payload)
    | None => fail (SqlErr SqlConstraint)
    end ;;;
    stmt (resolve_alerts begun ["COMPLIANCE_STALE"; "COMPLIANCE_KEY_MISSING"])).

(** [source etag lastModified] is the answer of the list's server; [now] is the
    time of signing and [begun] the start of the transaction. *)
Definition refreshCompliance (privateKey url : string) (source : string -> string -> fetched) (now begun : time)
    : prog pg unit :=
  if negb (String.length privateKey =? PrivateKeySize)%nat then
    let* _ := try (pool (raise_alert "COMPLIANCE_KEY_MISSING" "Compliance signing key is not configured")) in
    ret tt
  else
  let* latest := try (pool (select latest_snapshot)) in
  let '(etag, lastModified, oldCount) := match latest with Ok v => v | Err _ => ("", "", 0) end in
  match source etag lastModified with
  | NoRequest e => fail e
  | NoResponse e => complianceFailure e
  | Fetched r =>
      if fr_status r =? 304 then
        let* _ := try (pool (resolve_alerts now ["COMPLIANCE_STALE"])) in ret tt
      else if negb (fr_status r =? 200) then complianceFailure (Msg ("feed HTTP " +:+ FormatInt (fr_status r)))
      else match parseDomains (LimitReader feed_limit (fr_body r)) (limited_error r) with
      | Err e => complianceFailure e
      | Ok domains =>
          let count := Z.of_nat (length domains) in
          if (count =? 0) || ((0 <? oldCount) && (count <? oldCount / 2))
          then complianceFailure (Msg ("anomalous feed size " +:+ FormatInt count +:+ " (previous "
                                       +:+ FormatInt oldCount +:+ ")"))
          else match Sign (new_feed now domains) privateKey with
          | Err e => fail e
          | Ok feed => publish now begun url r domains feed
          end
      end
  end.
End Feed.

(** ** Domain names *)

Lemma all_ldh_app a b : all_ldh (a +:+ b) = all_ldh a && all_ldh b.
Proof. induction a as [|c a IH]; simpl; [done|]. by rewrite IH, andb_assoc. Qed.
Lemma ldh_bare s : all_ldh s = true -> bare s.
Proof.
  intros Hs. apply Forall_forall. intros w Hw.
  assert (H : forallb (fun w => negb (all_ldh w)) spaces = true) by (vm_compute; reflexivity).
  rewrite forallb_forall in H. specialize (H w ltac:(by apply list_elem_of_In)). apply negb_true_iff in H.
  split.
  - destruct (HasPrefix s w) eqn:E; [|done]. apply HasPrefix_spec in E as [r ->].
    rewrite all_ldh_app in Hs. apply andb_true_iff in Hs as [Hs _]. congruence.
  - destruct (HasSuffix s w) eqn:E; [|done]. apply HasSuffix_spec in E as [r ->].
    rewrite all_ldh_app in Hs. apply andb_true_iff in Hs as [_ Hs]. congruence.
Qed.
Lemma ldh_plain s : all_ldh s = true ->
  is_ascii s = true /\ map_bytes lower_byte s = s /\ ContainsAny s " /:@" = false.
Proof.
  assert (Hc : forall c, ldh c = true ->
    (byte_val c <? 128) = true /\ lower_byte c = c /\ contains_byte " /:@" c = false).
  { intros c Hc. destruct c as [[] [] [] [] [] [] [] []]; (done || (vm_compute in Hc; discriminate Hc)). }
  induction s as [|c s IH]; [done|]. cbn [all_ldh]. intros [H1 H2]%andb_true_iff.
  destruct (IH H2) as (I1 & I2 & I3), (Hc c H1) as (C1 & C2 & C3).
  cbn [is_ascii map_bytes ContainsAny]. by rewrite I1, I2, I3, C1, C2, C3.
Qed.
Lemma all_ldh_sdrop n s : all_ldh s = true -> all_ldh (sdrop n s) = true.
Proof.
  revert s. induction n as [|n IH]; intros [|c s]; cbn [sdrop all_ldh]; try done.
  intros [_ H]%andb_true_iff. auto.
Qed.

Section DomainFacts.
Context {UT : UnicodeTables} {ID : Idna}.

Lemma normal_ldh d : all_ldh d = true -> normal_domain d = TrimPrefix d ".".
Proof.
  intros H. unfold normal_domain. rewrite (bare_trimmed d) by (by apply ldh_bare).
  assert (Ht : all_ldh (TrimPrefix d ".") = true) by (unfold TrimPrefix; destruct (HasPrefix d "."); [by apply all_ldh_sdrop|done]).
  unfold ToLower. destruct (ldh_plain _ Ht) as (-> & -> & _). done.
Qed.
Lemma valid_ldh d : all_ldh d = true -> d <> "" -> valid_domain d = true.
Proof.
  intros H Hne. unfold valid_domain. rewrite (bare_trimmed d) by (by apply ldh_bare).
  destruct (ldh_plain d H) as (_ & _ & ->). apply String.eqb_neq in Hne. by rewrite Hne.
Qed.
(** A listed name blocks itself and the names below it. *)
Lemma listed_blocks d (ds : list string) host :
  all_ldh d = true -> d ∈ ds -> d <> "." -> d <> "" -> (host = d \/ exists p, host = p +:+ "." +:+ d) ->
  exists d', d' ∈ ds /\ normal_domain d' <> "" /\ (host = normal_domain d' \/ exists p, host = p +:+ "." +:+ normal_domain d').
Proof.
  intros Hl Hd Hdot Hne Hhost. exists d. rewrite normal_ldh by done. split; [done|].
  unfold TrimPrefix. destruct (HasPrefix d ".") eqn:E.
  - apply HasPrefix_spec in E as [r ->]. cbn [String.length sdrop String.append]. split; [by intros ->|].
    right. destruct Hhost as [->|[p ->]]; [by exists ""|]. exists (p +:+ "."). by rewrite sapp_assoc.
  - by split.
Qed.

(** ** The scan of the list *)

#[export] Instance feed_line_dec : EqDecision feed_line.
Proof. solve_decision. Defined.
Definition lines_read (lines : list string) (k : feed_line) : list string :=
  filter (fun raw => read_line raw = k) lines.

Record scan_ok (lines : list string) (st : domain_scan) : Prop := {
  so_seen : forall d, d ∈ dm_seen st <-> d ∈ dm_domains st;
  so_nodup : NoDup (dm_domains st);
  so_domains : forall d, d ∈ dm_domains st <-> exists raw, raw ∈ lines /\ read_line raw = Domain d;
  so_invalid : dm_invalid st = Z.of_nat (length (lines_read lines Invalid));
  so_total : dm_total st = Z.of_nat (length lines) - Z.of_nat (length (lines_read lines Skipped)) }.

Lemma lines_read_snoc lines raw k :
  Z.of_nat (length (lines_read (lines ++ [raw]) k))
  = Z.of_nat (length (lines_read lines k)) + (if decide (read_line raw = k) then 1 else 0).
Proof.
  unfold lines_read. rewrite filter_app, length_app. cbn [filter list_filter].
  destruct (decide (read_line raw = k)); cbn; lia.
Qed.
Lemma scan_line_ok lines st raw : scan_ok lines st -> scan_ok (lines ++ [raw]) (scan_line st raw).
Proof.
  intros [H1 H2 H3 H4 H5].
  assert (Hsnoc : forall d, (exists r, r ∈ lines ++ [raw] /\ read_line r = Domain d)
    <-> (exists r, r ∈ lines /\ read_line r = Domain d) \/ read_line raw = Domain d).
  { intros d. setoid_rewrite elem_of_app. setoid_rewrite list_elem_of_singleton. naive_solver. }
  unfold scan_line. destruct (read_line raw) as [| |name] eqn:Er; [| |case_bool_decide as Hin]; split;
    cbn [dm_seen dm_domains dm_invalid dm_total]; rewrite ?lines_read_snoc, ?length_app, ?Er; try done;
    try (rewrite ?decide_True, ?decide_False by done; cbn; lia);
    try (intros d; rewrite Hsnoc, <- H3; split; [auto|]; intros [?|?]; [done|congruence]).
  - intros d. rewrite Hsnoc, <- H3. split; [auto|]. intros [?|E]; [done|]. assert (name = d) as <- by congruence. by apply H1.
  - intros d. rewrite elem_of_union, elem_of_singleton, elem_of_app, list_elem_of_singleton, H1. done.
  - apply NoDup_app. split_and!; [done| |apply NoDup_singleton]. intros d Hd ->%list_elem_of_singleton.
    apply Hin. by apply H1.
  - intros d. rewrite Hsnoc, <- H3, elem_of_app, list_elem_of_singleton. split; (intros [?|E]; [by left|right]); congruence.
Qed.
Lemma scan_domains_ok lines broken pre st st' :
  scan_ok pre st -> scan_domains lines broken st = Ok st' ->
  broken = None /\ scan_ok (pre ++ lines) st' /\ Forall (fun raw => Z.of_nat (String.length raw) < max_line) lines.
Proof.
  revert pre st. induction lines as [|raw lines IH]; intros pre st Hst; cbn [scan_domains].
  - destruct broken; [done|]. intros [= <-]. by rewrite app_nil_r.
  - destruct (Z.leb_spec max_line (Z.of_nat (String.length raw))); [done|]. intros H'.
    apply (IH (pre ++ [raw])) in H' as (Hb & Hs & Hl); [|by apply scan_line_ok].
    rewrite <- app_assoc in Hs. split_and!; [done|done|]. constructor; [lia|done].
Qed.

(** What [parseDomains] returns: the distinct names of the lines, and few lines
    are not names. *)
Lemma parseDomains_ok body broken domains : parseDomains body broken = Ok domains ->
  broken = None /\ NoDup domains /\ domains <> []
  /\ (forall d, d ∈ domains <-> exists raw, raw ∈ raw_lines body /\ read_line raw = Domain d)
  /\ (let invalid := Z.of_nat (length (lines_read (raw_lines body) Invalid)) in
      let total := Z.of_nat (length (raw_lines body)) - Z.of_nat (length (lines_read (raw_lines body) Skipped)) in
      invalid <= 5 \/ invalid * 20 <= total).
Proof.
  unfold parseDomains. destruct (scan_domains _ _ _) as [st|] eqn:E; [|done].
  apply (scan_domains_ok _ _ []) in E as (Hb & [H1 H2 H3 H4 H5] & _).
  2: { split; cbn; try done; [|constructor|]; intros d; split; try (by intros ?%elem_of_nil);
         try (by intros ?%elem_of_empty); by intros (raw & ?%elem_of_nil & _). }
  cbn [app] in *. destruct (Nat.eqb_spec (length (dm_domains st)) 0) as [|Hne]; [done|]. cbn [orb].
  destruct (Z.ltb_spec 5 (dm_invalid st)), (Z.ltb_spec (dm_total st) (dm_invalid st * 20)); try done;
    intros [= <-]; (split_and!; [done|done|intros E; by rewrite E in Hne|done|]); cbv zeta; lia.
Qed.
End DomainFacts.

(** ** Documents whose members were reordered *)

Definition folded_keys (l : list (string * json)) : list string := fold_key ∘ fst <$> l.

Lemma field_perm {A} name (d : dec A) l l' : l ≡ₚ l' -> NoDup (folded_keys l) -> forall old,
  field name d l old = field name d l' old.
Proof.
  induction 1 as [|[k v] l l' _ IH|[k1 v1] [k2 v2] l|l1 l2 l3 H12 IH1 _ IH2]; intros Hnd old.
  - done.
  - apply NoDup_cons in Hnd as [_ Hnd]. cbn [field]. destruct (String.eqb _ _); [|by apply IH].
    destruct (d v old); [by apply IH|done].
  - apply NoDup_cons in Hnd as [Hni _]. cbn [field].
    destruct (String.eqb_spec (fold_key k1) (fold_key name)) as [E1|], (String.eqb_spec (fold_key k2) (fold_key name)) as [E2|]; try done.
    exfalso. apply Hni, elem_of_cons. left. unfold compose. cbn [fst]. congruence.
  - rewrite IH1 by done. apply IH2. unfold folded_keys in *. by rewrite <- H12.
Qed.

Lemma reordered_str s j : reordered (JStr s) j -> j = JStr s.
Proof. by inversion 1. Qed.
Lemma reordered_strs l j : reordered (JArr (JStr <$> l)) j -> j = JArr (JStr <$> l).
Proof.
  inversion 1 as [|l1 l2 HF|]; subst; [done|]. f_equal. clear H. revert l2 HF.
  induction l as [|s l IH]; intros l2 HF; [by inversion HF|]. cbn in HF. inversion HF as [|? y ? l2' Hy HF']; subst.
  cbn. f_equal; [by apply reordered_str|by apply IH].
Qed.
(** The members of a reordered object. *)
Lemma reordered_members l j : reordered (JObj l) j ->
  exists l2 l3, j = JObj l3 /\ l2 ≡ₚ l3 /\ Forall2 (fun a b => a.1 = b.1 /\ reordered a.2 b.2) l l2.
Proof.
  inversion 1 as [|l1 l2 HF|l1 l2 l3 HF Hp Hnd]; subst.
  - exists l, l. split_and!; [done|done|]. apply Forall_Forall2_diag, Forall_true. intros x. split; [done|constructor].
  - by exists l2, l3.
Qed.

Section Documents.
Context {UT : UnicodeTables} {FF : Float64Format} {ED : Ed25519}.

Lemma decode_domain_rules domains j :
  reordered (domain_rules domains) j -> decode_rules j = Some (mkRules domains [] []).
Proof.
  intros (l2 & l3 & -> & Hp & HF)%reordered_members.
  assert (Hl2 : l2 = [("blockedCidrs", JArr []); ("blockedDomains", JArr (JStr <$> domains)); ("blockedPorts", JArr [])]).
  { repeat match goal with H : Forall2 _ (_ :: _) _ |- _ => apply Forall2_cons_inv_l in H as ([? ?] & ? & [? ?] & H & ->)
                         | H : Forall2 _ [] _ |- _ => apply Forall2_nil_inv_l in H as -> end. cbn in *. subst.
    repeat match goal with H : reordered (JArr []) ?j |- _ => apply (reordered_strs []) in H
                         | H : reordered (JArr _) ?j |- _ => apply reordered_strs in H end. cbn in *. by subst. }
  subst l2. unfold decode_rules, dec_struct. cbn [BlockedDomains BlockedCIDRs BlockedPorts].
  assert (Hnd : NoDup (folded_keys [("blockedCidrs", JArr []); ("blockedDomains", JArr (JStr <$> domains)); ("blockedPorts", JArr [])]))
    by (apply (bool_decide_unpack _); vm_compute; exact I).
  rewrite <- !(field_perm _ _ _ _ Hp Hnd).
  assert (Hd : mapM (fun x => dec_string x "") (JStr <$> domains) = Some domains).
  { clear. induction domains as [|d ds IH]; [done|]. cbn. cbn in IH. by rewrite IH. }
  cbn [field]. change (String.eqb (fold_key "blockedCidrs") (fold_key "blockedDomains")) with false.
  change (String.eqb (fold_key "blockedDomains") (fold_key "blockedDomains")) with true.
  change (String.eqb (fold_key "blockedPorts") (fold_key "blockedDomains")) with false.
  cbv iota. cbn [dec_list]. rewrite Hd. reflexivity.
Qed.

(** A feed as the node reads it from its command. *)
Lemma decode_reordered_feed f rules payload j :
  encode_SignedFeed f = Some payload -> sf_Rules f = Some rules -> reordered payload j ->
  exists rules', reordered rules rules'
    /\ decode_SignedFeed j = Some (mkSignedFeed (sf_Version f) (sf_UpdatedAt f) (sf_ExpiresAt f) (Some rules') (sf_Signature f)).
Proof.
  unfold encode_SignedFeed, jtime. intros H Hr. rewrite Hr in H.
  destruct (format_rfc3339 (sf_UpdatedAt f)) as [u|] eqn:Eu; [|done].
  destruct (format_rfc3339 (sf_ExpiresAt f)) as [e|] eqn:Ee; [|done]. cbn in H. injection H as <-.
  intros (l2 & l3 & -> & Hp & HF)%reordered_members.
  assert (Hl2 : exists rules', reordered rules rules' /\ l2 = [("version", JStr (sf_Version f)); ("updatedAt", JStr u);
    ("expiresAt", JStr e); ("rules", rules'); ("signature", JStr (sf_Signature f))]).
  { repeat match goal with H : Forall2 _ (_ :: _) _ |- _ => apply Forall2_cons_inv_l in H as ([? ?] & ? & [? ?] & H & ->)
                         | H : Forall2 _ [] _ |- _ => apply Forall2_nil_inv_l in H as -> end. cbn in *. subst.
    repeat match goal with H : reordered (JStr _) ?j |- _ => apply reordered_str in H; subst end. eauto. }
  destruct Hl2 as (rules' & Hre & ->). exists rules'. split; [done|].
  unfold decode_SignedFeed, dec_struct. cbn [sf_Version sf_UpdatedAt sf_ExpiresAt sf_Rules sf_Signature].
  assert (Hnd : NoDup (folded_keys [("version", JStr (sf_Version f)); ("updatedAt", JStr u);
    ("expiresAt", JStr e); ("rules", rules'); ("signature", JStr (sf_Signature f))]))
    by (apply (bool_decide_unpack _); vm_compute; exact I).
  rewrite <- !(field_perm _ _ _ _ Hp Hnd).
  pose proof (parse_FormatRFC3339 _ _ Eu) as Hu. pose proof (parse_FormatRFC3339 _ _ Ee) as He.
  cbn -[parse_rfc3339]. rewrite Hu. cbn -[parse_rfc3339]. rewrite He. reflexivity.
Qed.
End Documents.

(** ** Properties *)

Section Refresh.
Context {UT : UnicodeTables} {ID : Idna} {FF : Float64Format} {ED : Ed25519} {MO : MapOrder}.

#[local] Opaque sha256 Encode.

(** The parts of a signed feed. *)
Lemma sign_parts f key signed : Sign f key = Ok signed ->
  sf_Rules signed = sf_Rules f /\ sf_Version signed = sf_Version f
  /\ sf_UpdatedAt signed = sf_UpdatedAt f /\ sf_ExpiresAt signed = sf_ExpiresAt f.
Proof. unfold Sign. destruct (signingPayload f); [|done]. by intros [= <-]. Qed.
Lemma version_nonempty now domains : sf_Version (new_feed now domains) <> "".
Proof.
  cbn [new_feed sf_Version]. generalize (length_sha256 (print (domain_rules domains))).
  generalize (sha256 (print (domain_rules domains))). intros h Hlen E.
  apply (f_equal Decode) in E. rewrite Decode_Encode in E. by destruct h.
Qed.

(** The node accepts what was signed and blocks what was listed. *)
Lemma signed_domains_block {IL : IdnaLaws} {EL : Ed25519Laws} key now domains feed payload body broken
    payload' t now1 now2 :
  String.length key = PrivateKeySize -> parseDomains body broken = Ok domains ->
  Sign (new_feed now domains) key = Ok feed -> encode_SignedFeed feed = Some payload ->
  reordered payload payload' -> now1 < now + 6 * hour -> now <= now2 + 5 * minute ->
  exists received s',
    decode_SignedFeed payload' = Some received
    /\ Apply now1 now2 received (Encode (ed_public key)) (mkSqlite t []) = (Ok tt, s')
    /\ forall raw d address, raw ∈ raw_lines body -> read_line raw = Domain d -> d <> "." ->
         (host_of address = d \/ exists p, host_of address = p +:+ "." +:+ d) ->
         (Blocked address (mkSqlite (db s') [])).1 = Ok true.
Proof.
  intros Hkey Hparse Hsign Henc Hre Hn1 Hn2.
  destruct (parseDomains_ok _ _ _ Hparse) as (_ & _ & Hne & Hdom & _).
  assert (Hshape : forall d, d ∈ domains -> all_ldh d = true /\ d <> "").
  { intros d Hd. apply Hdom in Hd as (raw & _ & Hraw). unfold read_line in Hraw.
    destruct (_ || _); [done|]. destruct (_ || _); [done|]. destruct (to_ascii _) as [a|] eqn:Ea; [|done].
    destruct (Contains a ".") eqn:Ec; [|done]. injection Hraw as <-. split; [by eapply to_ascii_ldh|]. by intros ->. }
  destruct (sign_parts _ _ _ Hsign) as (Hr & Hv & Hu & He).
  destruct (decode_reordered_feed feed _ payload payload' Henc Hr Hre) as (rules' & Hre' & Hdec).
  pose proof (decode_domain_rules domains rules' Hre') as Hrules.
  assert (Hval : validateRules rules' = Ok tt).
  { apply validateRules_ok. eexists. split; [exact Hrules|]. cbn. split_and!; [|constructor|constructor].
    apply Forall_forall. intros d Hd. destruct (Hshape d Hd). by apply valid_ldh. }
  destruct (signed_feed_applies _ (new_feed now domains) key feed (domain_rules domains) rules' now1 now2 t)
    as (s' & Happly & Hstored);
    [done|done|done|done|done|apply version_nonempty| |done|done|].
  { cbn [new_feed sf_UpdatedAt sf_ExpiresAt]. unfold hour, minute, second. lia. }
  rewrite Hv, Hu, He in Hdec. eexists _, s'. split; [exact Hdec|]. split; [exact Happly|].
  intros raw d address Hin Hline Hdot Hhost. assert (Hd : d ∈ domains) by (apply Hdom; eauto).
  destruct (Hshape d Hd) as [Hl Hne'].
  rewrite (Blocked_feed address _ _ Hstored). cbn [fst feed_row cr_rules_json]. rewrite Hrules.
  destruct (rules_block_spec (mkRules domains [] []) address) as (b & -> & Hb); [constructor|].
  assert (b = true) as ->; [|done]. apply Hb. left. by apply (listed_blocks d).
Qed.

(** A published list: what the transaction has left. *)
Lemma publish_ok now begun url r domains feed s s' :
  publish now begun url r domains feed s = (Ok tt, s') ->
  exists payload new, encode_SignedFeed feed = Some payload
    /\ c_commands (cp s') = c_commands (cp s) ++ new /\ c_nodes (cp s') = c_nodes (cp s)
    /\ command_text <$> new = feed_commands payload (cp s)
    /\ exists row, row ∈ c_snapshots (cp s') /\ sn_version row = sf_Version feed.
Proof.
  unfold publish. intros (s1 & s2 & Hs1 & _ & H & _ & Hs' & _)%in_transaction_ok. rewrite Hs', <- Hs1. clear Hs' Hs1.
  apply bind_done in H as ([] & sa & E1%stmt_ok & H). destruct E1 as (_ & _ & t1 & E1 & H1).
  apply bind_done in H as ([] & sb & E2 & H). apply stmt_ok in H as (_ & _ & t3 & [= <-] & H3).
  destruct (encode_SignedFeed feed) as [payload|]; [|done].
  apply queue_rows_ok in E2 as (new & H2 & Hnew & _). exists payload, new. rewrite H3. cbn [c_commands c_nodes c_snapshots with_calerts].
  rewrite H2. cbn [c_commands c_nodes c_snapshots with_commands]. rewrite H1.
  unfold insert_snapshot in E1. destruct (negb _); [done|].
  destruct (existsb _ _) eqn:Ex; injection E1 as <-; (split_and!; [done|done|done|by rewrite Hnew, H1|]).
  - apply existsb_exists in Ex as (row & Hin & Heq%String.eqb_eq). exists row. by split; [apply list_elem_of_In|].
  - eexists. split; [cbn; apply elem_of_app; right; by left|done].
Qed.
End Refresh.

(** C11 - The list reaches the nodes.  When a run fetches the list and succeeds, its
    lines were read (few are not names), it is not less than half as long as the
    last list, every enrolled node has a new command with one and the same signed
    feed, and a node that holds the public key of the control plane accepts that
    command for six hours, also when jsonb has reordered it, and then blocks every
    listed name and the names below it. *)
Theorem feed_reaches_nodes {UT : UnicodeTables} {ID : Idna} {FF : Float64Format} {ED : Ed25519} {MO : MapOrder}
    (IL : IdnaLaws) (EL : Ed25519Laws) key url source r now begun s s' :
  String.length key = PrivateKeySize -> (forall etag modified, source etag modified = Fetched r) -> fr_status r = 200 ->
  refreshCompliance key url source now begun s = (Ok tt, s') ->
  let body := LimitReader feed_limit (fr_body r) in
  exists domains payload new,
    parseDomains body (limited_error r) = Ok domains
    /\ (forall etag modified count, latest_snapshot (cp s) = Ok (etag, modified, count) -> next_outcome s = Done ->
          count / 2 <= Z.of_nat (length domains))
    /\ c_commands (cp s') = c_commands (cp s) ++ new
    /\ (forall id n, c_nodes (cp s) !! id = Some n -> is_enrolled n = true ->
          exists c, c ∈ new /\ cm_node c = id /\ cm_type c = "compliance.feed" /\ cm_payload c = payload)
    /\ forall payload' t now1 now2, reordered payload payload' -> now1 < now + 6 * hour -> now <= now2 + 5 * minute ->
         exists feed st', decode_SignedFeed payload' = Some feed
           /\ Apply now1 now2 feed (Encode (ed_public key)) (mkSqlite t []) = (Ok tt, st')
           /\ forall raw d address, raw ∈ raw_lines body -> read_line raw = Domain d -> d <> "." ->
                (host_of address = d \/ exists p, host_of address = p +:+ "." +:+ d) ->
                (Blocked address (mkSqlite (db st') [])).1 = Ok true.
Proof.
  intros Hkey Hsrc Hst H body. unfold refreshCompliance in H. rewrite Hkey in H. cbn [Nat.eqb negb] in H.
  apply bind_done in H as (latest & s1 & E1%try_done & H). apply pool_select_ok in E1 as E1'. destruct E1' as [Hs1 Hlatest].
  destruct (match latest with Ok v => v | Err _ => ("", "", 0) end) as [[etag modified] count] eqn:El.
  rewrite Hsrc, Hst in H. cbn [Z.eqb Pos.eqb negb] in H. fold body in H.
  assert (Hno : forall e, complianceFailure e s1 <> (Ok tt, s')).
  { intros e. unfold complianceFailure, bind, fail. by destruct (try _ s1) as [[] ?]. }
  destruct (parseDomains body (limited_error r)) as [domains|e] eqn:Ep; [|by apply Hno in H].
  destruct (Z.eqb_spec (Z.of_nat (length domains)) 0); [by apply Hno in H|]. cbn [orb] in H.
  destruct ((0 <? count) && (Z.of_nat (length domains) <? count / 2)) eqn:Esize; [by apply Hno in H|].
  destruct (Sign (new_feed now domains) key) as [feed|e] eqn:Es; [|done].
  destruct (publish_ok _ _ _ _ _ _ _ _ H) as (payload & new & Henc & Hcmd & _ & Hnew & _).
  exists domains, payload, new. rewrite Hs1 in Hcmd, Hnew. split_and!; [done| |done| |].
  - intros e' m' c' Hl Hdone. unfold pool, select in E1. rewrite Hdone, Hl in E1. injection E1 as <- _.
    injection El as _ _ <-. destruct (Z.ltb_spec 0 c'); [|assert (c' / 2 <= 0) by (apply Z.div_le_upper_bound; lia); lia].
    cbn [andb] in Esize. destruct (Z.ltb_spec (Z.of_nat (length domains)) (c' / 2)); [done|lia].
  - intros id nd Hn He. assert (Hin : (id, "compliance.feed", payload) ∈ feed_commands payload (cp s)).
    { unfold feed_commands. apply list_elem_of_fmap. exists (id, nd). split; [done|].
      apply list_elem_of_filter. split; [done|]. by apply elem_of_range. }
    rewrite <- Hnew in Hin. apply list_elem_of_fmap in Hin as (c & [= -> -> ->] & Hc). eauto.
  - intros payload' t now1 now2 Hre H1 H2. by eapply (signed_domains_block key now domains feed payload body).
Qed.

Definition plain_idna : Idna := {| to_ascii s := if all_ldh s then Some s else None |}.
Lemma plain_idna_laws : @IdnaLaws plain_idna.
Proof. split. intros s a. cbn. destruct (all_ldh s) eqn:E; [by intros [= <-]|done]. Qed.

Definition sample_list : string :=
  "# public list" +:+ String newline "" +:+ "Example.com" +:+ String newline "" +:+ "not a name" +:+ String newline ""
  +:+ "shop.example.org." +:+ carriage_return +:+ String newline "" +:+ "example.com" +:+ String newline "".
Definition sample_response : feed_response := mkFeedResponse 200 "e1" "" sample_list None.

Example parseDomains_ex :
  @parseDomains plain_unicode plain_idna sample_list None = Ok ["example.com"; "shop.example.org"]
  /\ @parseDomains plain_unicode plain_idna "# nothing" None = Err (Msg "feed contains too many invalid domains: 0 of 0")
  /\ @parseDomains plain_unicode plain_idna sample_list (Some (LibErr "net/http")) = Err (LibErr "net/http").
Proof. vm_compute. repeat split. Qed.

Lemma feed_reaches_nodes_witness :
  let out := @refreshCompliance plain_unicode plain_idna plain_floats toy_ed25519 sorted_order sample_key "https://list"
    (fun _ _ => Fetched sample_response) (FromUnix 1000) (FromUnix 1000) (mkPg sample_ctables [] false ["c1"]) in
  exists payload feed st',
    (cm_payload <$> c_commands (cp out.2)) = [payload] /\ decode_SignedFeed payload = Some feed
    /\ @Apply plain_floats toy_ed25519 (FromUnix 2000) (FromUnix 2000) feed (Encode (@ed_public toy_ed25519 sample_key))
         (mkSqlite empty_tables []) = (Ok tt, st')
    /\ (@Blocked plain_unicode "www.example.com:443" (mkSqlite (db st') [])).1 = Ok true.
Proof.
  intros out.
  destruct (@feed_reaches_nodes plain_unicode plain_idna plain_floats toy_ed25519 sorted_order plain_idna_laws
    toy_ed25519_laws sample_key "https://list" (fun _ _ => Fetched sample_response) sample_response (FromUnix 1000)
    (FromUnix 1000) (mkPg sample_ctables [] false ["c1"]) out.2) as (domains & payload & new & _ & _ & Hcmd & Hnode & Hfeed).
  - reflexivity.
  - reflexivity.
  - reflexivity.
  - assert (Hok : out.1 = Ok tt) by (vm_compute; reflexivity). rewrite <- Hok. apply surjective_pairing.
  - assert (Hlen : length (c_commands (cp out.2)) = 1%nat) by (vm_compute; reflexivity).
    destruct (Hnode "n1" (mkNodeRow None None None None None None sample_route sample_agent)) as (c & Hc & _ & _ & Hp);
      [reflexivity|reflexivity|].
    destruct (Hfeed payload empty_tables (FromUnix 2000) (FromUnix 2000)) as (feed & st' & Hdec & Happly & Hblock);
      [constructor|reflexivity|vm_compute; discriminate|].
    exists payload, feed, st'. split_and!; [|exact Hdec|exact Happly|].
    + change (c_commands (cp (mkPg sample_ctables [] false ["c1"]))) with (@nil command_row) in Hcmd. cbn [app] in Hcmd.
      rewrite Hcmd in *. destruct new as [|c' [|]]; [by apply elem_of_nil in Hc| |discriminate Hlen].
      apply list_elem_of_singleton in Hc as ->. cbn. by rewrite Hp.
    + apply (Hblock "Example.com" "example.com"); [vm_compute; right; left|vm_compute; reflexivity|discriminate|].
      right. exists "www". vm_compute. reflexivity.
Defined.

(** An unchanged list is not sent.  While the server answers that the list has not
    changed, no run of the worker queues a feed, whatever else happens to its
    statements: nodes and commands stay as they are. *)
Theorem unchanged_list_sends_nothing {UT : UnicodeTables} {ID : Idna} {FF : Float64Format} {ED : Ed25519} {MO : MapOrder}
    key url source r (times : list (time * time)) s :
  (forall etag modified, source etag modified = Fetched r) -> fr_status r = 304 ->
  let run s '(now, begun) := (refreshCompliance key url source now begun s).2 in
  let t' := cp (foldl run s times) in
  c_commands t' = c_commands (cp s) /\ c_nodes t' = c_nodes (cp s) /\ c_snapshots t' = c_snapshots (cp s).
Proof.
  intros Hsrc Hst run.
  set (R := same (fun t : ctables => (c_commands t, c_nodes t, c_snapshots t))).
  assert (Hrun : forall now begun, keeps (on_tables R) (refreshCompliance key url source now begun)).
  { intros now begun. unfold refreshCompliance.
    assert (Hp : forall A (f : ctables -> result (A * ctables)), (forall t a t', f t = Ok (a, t') -> R t t') ->
      keeps (on_tables R) (try (pool f))) by (intros; apply keeps_try, keeps_pool; [apply _|done]).
    destruct (negb _).
    { apply keeps_bind; [apply _| |intros; apply keeps_ret, _]. apply Hp. intros t a t'. unfold raise_alert.
      destruct (negb _); [done|]. by intros [= _ <-]. }
    apply keeps_bind; [apply _| |].
    { apply Hp. intros t a t' [_ ->]%select_ok. by unfold R, same. }
    intros latest. destruct (match latest with Ok v => v | Err _ => _ end) as [[e m] c]. rewrite Hsrc, Hst.
    cbn [Z.eqb Pos.eqb]. apply keeps_bind; [apply _| |intros; apply keeps_ret, _]. apply Hp.
    intros t a t' [= _ <-]. by unfold R, same. }
  assert (H : on_tables R s (foldl run s times)).
  { revert s. induction times as [|[now begun] times IH]; intros s; cbn [foldl]; [by unfold on_tables, R, same|].
    etransitivity; [|apply IH]. apply Hrun. }
  unfold on_tables, R, same in H. cbv zeta. injection H as H1 H2 H3. by split_and!.
Qed.
