(* ===== verification/Notify.v ===== *)
(** * Delivery of notifications

    src/internal/controlplane/workers.go [deliverNotifications] and
    [notificationText]: the worker that sends the notices of [Lifecycle] through
    the bot interface of Telegram.  The interface answers with an HTTP status or
    an error; its answers are a list still to come, and every request is
    recorded. *)

From S2P Require Import Prelude GoStrings GoUrl Json Pg Web.
From stdpp Require Import base gmap strings list sorting.
From Stdlib Require Import ZArith Lia.
Open Scope Z_scope.

Definition notificationText (kind : string) : string :=
  if HasPrefix kind "trial." then
    if String.eqb kind "trial.blocked" then "RiseVPN: Trial завершён, подключение отключено."
    else "RiseVPN: Trial скоро завершится. Проверьте срок в кабинете."
  else if String.eqb kind "grace.entered"
  then "RiseVPN: подписка перешла в Grace на 24 часа. Скорость ограничена до 1 Мбит/с, P2P отключён."
  else if HasPrefix kind "grace." then
    if String.eqb kind "grace.blocked" then "RiseVPN: Grace завершён, подключение заблокировано."
    else "RiseVPN: Grace скоро завершится, после чего подключение будет заблокировано."
  else "RiseVPN: изменилось состояние подписки.".

(** The database, the requests made (address and form) and the answers to come;
    a missing answer is an error of the transport. *)
Record courier := mkCourier {
  co_pg : pg; co_requests : list (string * string); co_answers : list (result Z) }.
#[export] Instance courier_pg : Part pg courier.
Proof. refine {| part := co_pg; with_part s c := mkCourier s (co_requests c) (co_answers c) |}; [done|by intros []]. Defined.

Definition send (address form : string) : prog courier (result Z) := fun c =>
  (Ok (default (Err (LibErr "net/http")) (head (co_answers c))),
   mkCourier (co_pg c) (co_requests c ++ [(address, form)]) (tail (co_answers c))).

(** [ORDER BY n.scheduled_at]; the order of rows of the same time is the
    server's. *)
Class NoticeOrder := {
  by_scheduled : list notification_row -> list notification_row;
  by_scheduled_perm : forall l, by_scheduled l ≡ₚ l;
  by_scheduled_sorted : forall l, StronglySorted (fun a b => no_scheduled_at a <= no_scheduled_at b) (by_scheduled l) }.

(** A notice that the worker still wants to send. *)
Definition pending (n : notification_row) : bool :=
  match no_sent_at n with None => no_attempts n <? 10 | Some _ => false end.

Section Notify.
Context {NO : NoticeOrder}.

(** The rows of the query: the notice and the subject of its user. *)
Definition due_notices (now : time) (t : ctables) : result (list (string * notification_row)) :=
  Ok (take 100 (omap (fun n => u ← c_users t !! no_user n; Some (us_subject u, n))
        (by_scheduled (filter (fun n => pending n = true /\ no_scheduled_at n <= now) (c_notifications t))))).

(** The update of the row [n] by its identifier. *)
Definition update_notice (n : notification_row) (f : notification_row -> notification_row) (t : ctables)
    : result (unit * ctables) :=
  Ok (tt, with_notifications (fmap (fun m => if bool_decide (notice_key m = notice_key n) then f m else m)) t).
Definition delivered (now : time) (n : notification_row) : notification_row :=
  mkNotificationRow (no_user n) (no_kind n) (no_scheduled_at n) (Some now) (no_attempts n + 1) (no_error n).
Definition refused (message : string) (n : notification_row) : notification_row :=
  mkNotificationRow (no_user n) (no_kind n) (no_scheduled_at n) (no_sent_at n) (no_attempts n + 1) (Some message).
Definition mark_refused (message : string) (n : notification_row) (t : ctables) : result (unit * ctables) :=
  if pg_text message then update_notice n (refused message) t else Err (SqlErr SqlFault).

(** One round of the loop; [clock] is the time at which a row is marked. *)
Definition deliver_notice (token : string) (clock : time) (item : string * notification_row) : prog courier unit :=
  let '(subject, n) := item in
  let form := EncodeValues [("chat_id", subject); ("text", notificationText (no_kind n))] in
  let* response := send ("https://api.telegram.org/bot" +:+ token +:+ "/sendMessage") form in
  let* _ := try (on (pool (
    match response with
    | Ok status => if status / 100 =? 2 then update_notice n (delivered clock) else mark_refused "request failed" n
    | Err e => mark_refused (error_text e) n
    end))) in
  ret tt.

Definition deliverNotifications (token : string) (now clock : time) : prog courier unit :=
  if String.eqb token "" then ret tt else
  let* items := on (pool (select (due_notices now))) in
  for_each (deliver_notice token clock) items.
End Notify.

(** ** One run *)

(** What marking does to a row. *)
Definition tried (f : notification_row -> notification_row) : Prop := forall n,
  notice_key (f n) = notice_key n /\ no_attempts (f n) = no_attempts n + 1
  /\ (no_sent_at n <> None -> no_sent_at (f n) <> None).
Definition mark (k : string * string * time) (f : notification_row -> notification_row) (n : notification_row)
    : notification_row := if bool_decide (notice_key n = k) then f n else n.

Lemma tried_delivered now : tried (delivered now).
Proof. intros n. done. Qed.
Lemma tried_refused message : tried (refused message).
Proof. intros n. done. Qed.

(** The attempts that are left for a row, and for a list of rows. *)
Definition weight (n : notification_row) : Z := if pending n then 10 - no_attempts n else 0.
Definition total (l : list notification_row) : Z := foldr (fun n acc => weight n + acc) 0 l.
Definition attempts (l : list notification_row) : Z := foldr (fun n acc => no_attempts n + acc) 0 l.

Lemma weight_nonneg n : 0 <= weight n.
Proof. unfold weight, pending. destruct (no_sent_at n); [lia|]. destruct (Z.ltb_spec (no_attempts n) 10); lia. Qed.
Lemma total_nonneg l : 0 <= total l.
Proof. induction l as [|n l IH]; cbn [total foldr]; [lia|]. pose proof (weight_nonneg n). unfold total in IH. lia. Qed.

Lemma weight_mark k f n : tried f ->
  weight (mark k f n) <= weight n
  /\ (pending n = true -> notice_key n = k -> weight (mark k f n) < weight n)
  /\ (pending (mark k f n) = true -> pending n = true) /\ notice_key (mark k f n) = notice_key n.
Proof.
  intros Hf. destruct (Hf n) as (Hk & Ha & Hs). unfold mark, weight, pending. case_bool_decide as E; [|by split_and!].
  rewrite Hk, Ha. destruct (no_sent_at n) as [at_|].
  - destruct (no_sent_at (f n)); [|by destruct Hs]. by split_and!.
  - destruct (no_sent_at (f n)); destruct (Z.ltb_spec (no_attempts n) 10), (Z.ltb_spec (no_attempts n + 1) 10);
      split_and!; try done; lia.
Qed.
Lemma total_mark k f l : tried f ->
  total (mark k f <$> l) <= total l
  /\ ((exists n, n ∈ l /\ pending n = true /\ notice_key n = k) -> total (mark k f <$> l) < total l).
Proof.
  intros Hf. induction l as [|n l [IH1 IH2]]; cbn [fmap list_fmap total foldr].
  - split; [lia|]. intros (n & Hn & _). by apply elem_of_nil in Hn.
  - destruct (weight_mark k f n Hf) as (H1 & H2 & _ & _). unfold total in *. split; [cbn in *; lia|].
    intros (m & [->|Hm]%elem_of_cons & Hp & Hk).
    + specialize (H2 Hp Hk). cbn in *. lia.
    + assert (Hlt : foldr (fun n acc => weight n + acc) 0 (mark k f <$> l) < foldr (fun n acc => weight n + acc) 0 l)
        by (apply IH2; eauto). cbn in *. lia.
Qed.
Lemma attempts_mark k f l : tried f -> NoDup (notice_key <$> l) -> k ∈ notice_key <$> l ->
  attempts (mark k f <$> l) = attempts l + 1.
Proof.
  intros Hf. assert (Hout : forall l : list notification_row, k ∉ notice_key <$> l -> mark k f <$> l = l).
  { clear l. induction l as [|n l IH]; [done|]. rewrite fmap_cons, not_elem_of_cons. intros [Hn Hl]. cbn.
    f_equal; [|by apply IH]. unfold mark. by rewrite bool_decide_false. }
  induction l as [|n l IH]; cbn [fmap list_fmap attempts foldr]; [by intros _ ?%elem_of_nil|].
  intros [Hni Hnd]%NoDup_cons [->|Hk]%elem_of_cons.
  - change (list_fmap _ _ (mark (notice_key n) f) l) with (mark (notice_key n) f <$> l). rewrite Hout by done.
    unfold mark. rewrite bool_decide_true by done. destruct (Hf n) as (_ & -> & _). lia.
  - specialize (IH Hnd Hk). unfold attempts in IH. cbn in *. rewrite IH. unfold mark.
    rewrite bool_decide_false; [lia|]. intros E. apply Hni. by rewrite E.
Qed.

Section Runs.
Context {NO : NoticeOrder}.

(** The answers whose texts the database can store. *)
Definition readable (a : result Z) : bool := match a with Ok _ => true | Err e => pg_text (error_text e) end.

(** A working database: no statement fails. *)
Definition working (c : courier) : Prop :=
  outcomes (co_pg c) = [] /\ Forall (fun a => readable a = true) (co_answers c).
Definition rows (c : courier) : list notification_row := c_notifications (cp (co_pg c)).

Lemma deliver_notice_run token clock subject n c :
  working c -> exists f c', deliver_notice token clock (subject, n) c = (Ok tt, c') /\ working c' /\ tried f
    /\ rows c' = mark (notice_key n) f <$> rows c /\ c_users (cp (co_pg c')) = c_users (cp (co_pg c))
    /\ length (co_requests c') = S (length (co_requests c)).
Proof.
  intros [Ho Ha]. destruct c as [[t outs ab ids] reqs answers]. cbn in Ho, Ha. subst outs.
  assert (Hr : readable (default (Err (LibErr "net/http")) (head answers)) = true).
  { destruct answers as [|a answers]; [done|]. by apply Forall_cons in Ha as [Ha _]. }
  assert (Ht : Forall (fun a => readable a = true) (tail answers)).
  { destruct answers as [|a answers]; [done|]. by apply Forall_cons in Ha as [_ Ha]. }
  unfold deliver_notice, send, bind, try, on, pool. cbn [part with_part courier_pg co_pg co_answers co_requests next_outcome outcomes head default].
  set (answer := default (Err (LibErr "net/http")) (head answers)) in *.
  change (from_option (fun x => x) (Err (LibErr "net/http")) (head answers)) with answer. clearbody answer.
  assert (Hm : exists f, tried f /\ match answer with
    | Ok status => if status / 100 =? 2 then update_notice n (delivered clock) else mark_refused "request failed" n
    | Err e => mark_refused (error_text e) n
    end t = Ok (tt, with_notifications (fmap (mark (notice_key n) f)) t)).
  { unfold mark_refused. destruct answer as [status|e].
    - destruct (status / 100 =? 2); [exists (delivered clock)|exists (refused "request failed")];
        (split; [apply tried_delivered || apply tried_refused|done]).
    - cbn in Hr. rewrite Hr. exists (refused (error_text e)). split; [apply tried_refused|done]. }
  destruct Hm as (f & Hf & Hm). exists f. cbn [cp]. rewrite Hm. eexists. split; [done|]. cbn.
  split_and!; try done. rewrite length_app. cbn. lia.
Qed.

(** The marks of a run: the rows it tried, in order. *)
Inductive marked : list notification_row -> list (string * string * time) -> list notification_row -> Prop :=
  | marked_nil l : marked l [] l
  | marked_cons l k ks f l' : tried f -> marked (mark k f <$> l) ks l' -> marked l (k :: ks) l'.

Lemma deliver_all_run token clock items : forall c, working c ->
  exists c', for_each (deliver_notice token clock) items c = (Ok tt, c') /\ working c'
    /\ marked (rows c) (notice_key ∘ snd <$> items) (rows c') /\ c_users (cp (co_pg c')) = c_users (cp (co_pg c))
    /\ length (co_requests c') = (length (co_requests c) + length items)%nat.
Proof.
  induction items as [|[subject n] items IH]; intros c Hc.
  - exists c. cbn [length fmap list_fmap]. rewrite Nat.add_0_r. by split_and!; try constructor; destruct Hc.
  - destruct (deliver_notice_run token clock subject n c Hc) as (f & c1 & E1 & Hc1 & Hf & Hrows & Hu & Hl).
    destruct (IH c1 Hc1) as (c2 & E2 & Hc2 & Hm & Hu2 & Hl2). exists c2.
    cbn [for_each]. unfold bind. rewrite E1. split_and!; [done|done| |congruence|cbn [length] in *; lia].
    cbn. econstructor; [exact Hf|]. by rewrite <- Hrows.
Qed.

Lemma marked_keys l ks l' : marked l ks l' -> notice_key <$> l' = notice_key <$> l.
Proof.
  induction 1 as [|l k ks f l' Hf _ IH]; [done|]. rewrite IH, <- list_fmap_compose. apply list_fmap_ext.
  intros i n _. by destruct (weight_mark k f n Hf) as (_ & _ & _ & H).
Qed.
Lemma marked_total l ks l' : marked l ks l' -> total l' <= total l.
Proof.
  induction 1 as [|l k ks f l' Hf _ IH]; [done|]. destruct (total_mark k f l Hf) as [H _]. lia.
Qed.
Lemma marked_first l k ks l' n :
  marked l (k :: ks) l' -> n ∈ l -> pending n = true -> notice_key n = k -> total l' < total l.
Proof.
  inversion 1 as [|? ? ? f ? Hf Hm]; subst. intros Hn Hp Hk. apply marked_total in Hm.
  destruct (total_mark k f l Hf) as [_ Hlt]. assert (total (mark k f <$> l) < total l) by (apply Hlt; eauto). lia.
Qed.
Lemma marked_attempts l ks l' : marked l ks l' -> NoDup (notice_key <$> l) -> ks ⊆ notice_key <$> l ->
  attempts l' = attempts l + Z.of_nat (length ks).
Proof.
  induction 1 as [|l k ks f l' Hf Hm IH]; intros Hnd Hks; [cbn; lia|].
  assert (Hkeys : notice_key <$> (mark k f <$> l) = notice_key <$> l) by (apply (marked_keys _ [k]); by econstructor; [|constructor]).
  rewrite IH, (attempts_mark k f l); [cbn [length]; lia|done|done|set_solver|by rewrite Hkeys|rewrite Hkeys; set_solver].
Qed.

(** A row after a run comes from one before it. *)
Lemma marked_origin l ks l' : marked l ks l' -> forall n', n' ∈ l' ->
  exists n, n ∈ l /\ notice_key n = notice_key n' /\ (pending n' = true -> pending n = true)
    /\ (no_attempts n <= no_attempts n' <= no_attempts n + Z.of_nat (length (filter (fun k => k = notice_key n) ks))).
Proof.
  induction 1 as [l|l k ks f l' Hf Hm IH]; intros n' Hn'; [exists n'; split_and!; try done; lia|].
  destruct (IH n' Hn') as (n1 & Hn1 & Hk & Hp & Ha). apply list_elem_of_fmap in Hn1 as (n & -> & Hn).
  destruct (weight_mark k f n Hf) as (_ & _ & Hp' & Hk'). exists n. rewrite Hk' in Hk, Ha.
  split_and!; [done|done|auto| |].
  - etransitivity; [|apply Ha]. unfold mark. case_bool_decide; [|done]. destruct (Hf n) as (_ & -> & _). lia.
  - etransitivity; [apply Ha|]. unfold mark. rewrite filter_cons. case_bool_decide as E.
    + rewrite decide_True by done. destruct (Hf n) as (_ & -> & _). cbn [length]. lia.
    + rewrite decide_False by done. lia.
Qed.

Lemma NoDup_key_inj {A B} (f : A -> B) l x y : NoDup (f <$> l) -> x ∈ l -> y ∈ l -> f x = f y -> x = y.
Proof.
  induction l as [|z l IH]; [by intros _ ?%elem_of_nil|]. rewrite fmap_cons. intros [Hz Hnd]%NoDup_cons Hx Hy E.
  apply elem_of_cons in Hx as [->|Hx]; apply elem_of_cons in Hy as [->|Hy]; auto; exfalso; apply Hz.
  - rewrite E. by apply list_elem_of_fmap_2.
  - rewrite <- E. by apply list_elem_of_fmap_2.
Qed.
Lemma filter_none {A} (x : A) `{EqDecision A} l : x ∉ l -> filter (fun y => y = x) l = [].
Proof.
  induction l as [|y l IH]; [done|]. rewrite not_elem_of_cons. intros [Hy Hl].
  rewrite filter_cons, decide_False by done. auto.
Qed.
Lemma NoDup_count {A} `{EqDecision A} (x : A) l : NoDup l -> (length (filter (fun y => y = x) l) <= 1)%nat.
Proof.
  induction 1 as [|y l Hy Hnd IH]; [cbn; lia|]. rewrite filter_cons. destruct (decide (y = x)) as [->|]; [|done].
  cbn [length]. rewrite filter_none by done. cbn. lia.
Qed.

(** ** Properties of a run *)

(** What the tables guarantee: the uniqueness of notices and the reference to
    their users; and no notice has been tried too often. *)
Record notices_ok (c : courier) : Prop := {
  nk_unique : NoDup (notice_key <$> rows c);
  nk_users : Forall (fun n => is_Some (c_users (cp (co_pg c)) !! no_user n)) (rows c);
  nk_bound : Forall (fun n => no_attempts n <= 10) (rows c) }.

Lemma due_rows now t items : due_notices now t = Ok items ->
  Forall (fun n => is_Some (c_users t !! no_user n)) (c_notifications t) ->
  exists l, l ≡ₚ filter (fun n => pending n = true /\ no_scheduled_at n <= now) (c_notifications t)
    /\ snd <$> items = take 100 l.
Proof.
  intros [= <-] Hu. set (F := filter _ (c_notifications t)). exists (by_scheduled F).
  split; [apply by_scheduled_perm|]. rewrite fmap_take. f_equal.
  assert (HF : Forall (fun n => is_Some (c_users t !! no_user n)) (by_scheduled F)).
  { rewrite by_scheduled_perm. unfold F. apply Forall_forall. intros n [_ Hn]%list_elem_of_filter.
    rewrite Forall_forall in Hu. by apply Hu. }
  induction HF as [|n l [u Hn] _ IH]; [done|]. cbn [omap list_omap]. rewrite Hn. cbn. f_equal. exact IH.
Qed.

Lemma run_spec token now clock c :
  token <> "" -> working c -> notices_ok c ->
  exists c' ks, deliverNotifications token now clock c = (Ok tt, c') /\ working c' /\ notices_ok c'
    /\ marked (rows c) ks (rows c') /\ length (co_requests c') = (length (co_requests c) + length ks)%nat
    /\ ks ⊆ notice_key <$> rows c
    /\ ((exists n, n ∈ rows c /\ pending n = true /\ no_scheduled_at n <= now) -> total (rows c') < total (rows c)).
Proof.
  intros Htok Hc Hok. unfold deliverNotifications. apply String.eqb_neq in Htok. rewrite Htok.
  destruct (due_notices now (cp (co_pg c))) as [items|e] eqn:Ed; [|done].
  set (c0 := mkCourier (advance (co_pg c)) (co_requests c) (co_answers c)).
  assert (Hq : on (pool (select (due_notices now))) c = (Ok items, c0)).
  { destruct Hc as [Ho _]. unfold on, pool, select. cbn [part courier_pg]. unfold next_outcome. rewrite Ho. cbn [head default].
    rewrite Ed. reflexivity. }
  assert (Hc0 : working c0) by (destruct Hc as [Ho Ha]; split; [cbn; by rewrite Ho|done]).
  destruct (deliver_all_run token clock items c0 Hc0) as (c' & E & Hc' & Hm & Hu & Hl).
  change (rows c0) with (rows c) in Hm.
  destruct (due_rows now _ items Ed (nk_users c Hok)) as (l & Hperm & Hitems).
  set (F := filter _ _) in Hperm.
  assert (Hks : notice_key ∘ snd <$> items = notice_key <$> take 100 l) by (by rewrite list_fmap_compose, Hitems).
  assert (Hin : forall n, n ∈ take 100 l -> n ∈ rows c /\ pending n = true).
  { intros n Hn. assert (Hn' : n ∈ F) by (rewrite <- Hperm; by eapply elem_of_take in Hn as (? & ? & _); eapply list_elem_of_lookup_2).
    apply list_elem_of_filter in Hn' as [[Hp _] Hn']. done. }
  assert (Hnd : NoDup (notice_key <$> take 100 l)).
  { eapply sublist_NoDup; [|apply fmap_sublist, sublist_take].
    rewrite Hperm. eapply sublist_NoDup; [|apply fmap_sublist, sublist_filter]. apply Hok. }
  exists c', (notice_key <$> take 100 l). rewrite Hks in Hm. unfold bind. rewrite Hq, E.
  split_and!; try done.
  - split.
    + rewrite (marked_keys _ _ _ Hm). apply Hok.
    + apply Forall_forall. intros n' Hn'. destruct (marked_origin _ _ _ Hm n' Hn') as (n & Hn & Hk & _).
      rewrite Hu. pose proof (nk_users c Hok) as HU. rewrite Forall_forall in HU. specialize (HU n Hn).
      injection Hk as Hk _ _. by rewrite <- Hk.
    + apply Forall_forall. intros n' Hn'. destruct (marked_origin _ _ _ Hm n' Hn') as (n & Hn & Hk & Hp & _ & Ha).
      pose proof (nk_bound c Hok) as HB. rewrite Forall_forall in HB. specialize (HB n Hn).
      destruct (decide (notice_key n ∈ notice_key <$> take 100 l)) as [Hin'|Hout].
      * apply list_elem_of_fmap in Hin' as (m & Hmk & Hm'). destruct (Hin m Hm') as [Hmr Hmp].
        assert (m = n) as ->. { eapply (NoDup_key_inj notice_key); [apply Hok|done|done|done]. }
        assert (no_attempts n < 10) by (unfold pending in Hmp; destruct (no_sent_at n); [done|]; by apply Z.ltb_lt).
        assert ((length (filter (fun k => k = notice_key n) (notice_key <$> take 100 l)) <= 1)%nat) by (by apply NoDup_count).
        lia.
      * assert (Hz : filter (fun k => k = notice_key n) (notice_key <$> take 100 l) = []).
        { by apply filter_none. }
        rewrite Hz in Ha. cbn in Ha. lia.
  - rewrite Hl. f_equal. rewrite <- Hks. by rewrite length_fmap.
  - intros k (n & -> & Hn)%list_elem_of_fmap. apply list_elem_of_fmap. exists n. split; [done|]. by apply Hin.
  - intros (n & Hn & Hp & Hs). destruct l as [|m l].
    + exfalso. assert (Hn' : n ∈ F) by (by apply list_elem_of_filter). rewrite <- Hperm in Hn'. by apply elem_of_nil in Hn'.
    + destruct (Hin m) as [Hm1 Hm2]; [left|]. by apply (marked_first (rows c) (notice_key m) (notice_key <$> take 99 l) (rows c') m).
Qed.
End Runs.

(** ** Properties *)

Section Drain.
Context {NO : NoticeOrder}.

(** Runs of the worker: the time of the query and the time of the marks. *)
Definition courier_runs (token : string) (times : list (time * time)) (c : courier) : courier :=
  foldl (fun c '(now, clock) => (deliverNotifications token now clock c).2) c times.

Lemma runs_spec token times c : token <> "" -> working c -> notices_ok c ->
  let c' := courier_runs token times c in
  working c' /\ notices_ok c' /\ notice_key <$> rows c' = notice_key <$> rows c
  /\ attempts (rows c') = attempts (rows c) + Z.of_nat (length (co_requests c')) - Z.of_nat (length (co_requests c))
  /\ (forall n', n' ∈ rows c' -> pending n' = true -> exists n, n ∈ rows c /\ pending n = true /\ notice_key n = notice_key n')
  /\ (forall T, Forall (fun '(now, _) => T <= now) times ->
       (exists n, n ∈ rows c' /\ pending n = true /\ no_scheduled_at n <= T) ->
       total (rows c') + Z.of_nat (length times) <= total (rows c)).
Proof.
  intros Htok. revert c. induction times as [|[now clock] times IH]; intros c Hc Hok c'.
  - subst c'. cbn. split_and!; try done; [lia|eauto|lia].
  - destruct (run_spec token now clock c Htok Hc Hok) as (c1 & ks & E & Hc1 & Hok1 & Hm & Hl & Hks & Hlt).
    assert (Hc' : c' = courier_runs token times c1) by (subst c'; unfold courier_runs; cbn [foldl]; by rewrite E).
    specialize (IH c1 Hc1 Hok1). cbv zeta in IH. rewrite <- Hc' in IH.
    destruct IH as (H1 & H2 & H3 & H4 & H5 & H6). pose proof (marked_attempts _ _ _ Hm (nk_unique c Hok) Hks) as Ha.
    assert (Horigin : forall n', n' ∈ rows c' -> pending n' = true ->
      exists n, n ∈ rows c /\ pending n = true /\ notice_key n = notice_key n').
    { intros n' Hn' Hp'. destruct (H5 n' Hn' Hp') as (n1 & Hn1 & Hp1 & Hk1).
      destruct (marked_origin _ _ _ Hm n1 Hn1) as (n & Hn & Hk & Hp & _). exists n. split_and!; [done|auto|congruence]. }
    split_and!; try done.
    + rewrite H3. by eapply marked_keys.
    + lia.
    + intros T [HT Htimes]%Forall_cons Hlate. specialize (H6 T Htimes Hlate).
      destruct Hlate as (n' & Hn' & Hp' & Hs'). destruct (Horigin n' Hn' Hp') as (n & Hn & Hp & Hk). injection Hk as _ _ Hk.
      assert (total (rows c1) < total (rows c)) by (apply Hlt; exists n; split_and!; [done|done|lia]).
      cbn [length]. lia.
Qed.
End Drain.

(** C24 - The queue of notifications drains.  With a database that works, whatever the
    bot interface answers: no notice is ever tried more than ten times, every
    request is counted in the attempts of a row, and after as many runs as there
    are attempts left (at most ten times the number of rows) every notice that
    was due at the first of these runs is sent or given up; what is given up has
    used its ten attempts. *)
Theorem notifications_drain {NO : NoticeOrder} token T times c :
  token <> "" -> working c -> notices_ok c ->
  Forall (fun '(now, _) => T <= now) times -> total (rows c) <= Z.of_nat (length times) ->
  let c' := courier_runs token times c in
  Forall (fun n => no_scheduled_at n <= T -> no_sent_at n <> None \/ no_attempts n = 10) (rows c')
  /\ Forall (fun n => no_attempts n <= 10) (rows c')
  /\ notice_key <$> rows c' = notice_key <$> rows c
  /\ attempts (rows c') - attempts (rows c)
     = Z.of_nat (length (co_requests c')) - Z.of_nat (length (co_requests c)).
Proof.
  intros Htok Hc Hok HT Hn c'. destruct (runs_spec token times c Htok Hc Hok) as (_ & Hok' & Hk & Ha & _ & Hlate).
  fold c' in Hok', Hk, Ha, Hlate. split_and!; [|apply Hok'|done|lia].
  apply Forall_forall. intros n Hin Hs. pose proof (nk_bound c' Hok') as HB. rewrite Forall_forall in HB.
  specialize (HB n Hin). destruct (no_sent_at n) as [at_|] eqn:Es; [by left|right].
  destruct (Z.ltb_spec (no_attempts n) 10) as [Hlt|]; [|lia]. exfalso.
  assert (Hp : pending n = true) by (unfold pending; rewrite Es; by apply Z.ltb_lt).
  specialize (Hlate T HT ltac:(by exists n)). pose proof (total_nonneg (rows c')).
  assert (total (rows c') = 0) by lia.
  assert (Hw : weight n <= total (rows c')).
  { clear - Hin. induction (rows c') as [|m l IH]; [by apply elem_of_nil in Hin|]. cbn [total foldr].
    pose proof (total_nonneg l). pose proof (weight_nonneg m). unfold total in *.
    apply elem_of_cons in Hin as [->|Hin]; [lia|]. specialize (IH Hin). lia. }
  unfold weight in Hw. rewrite Hp in Hw. lia.
Qed.

#[export] Instance scheduled_total : Total (fun a b : notification_row => no_scheduled_at a <= no_scheduled_at b).
Proof. intros a b. lia. Qed.
#[export] Instance scheduled_transitive : Transitive (fun a b : notification_row => no_scheduled_at a <= no_scheduled_at b).
Proof. intros a b c. lia. Qed.
Definition scheduled_order : NoticeOrder.
Proof.
  refine {| by_scheduled := merge_sort (fun a b => no_scheduled_at a <= no_scheduled_at b) |}.
  - apply merge_sort_Permutation.
  - intros l. apply (StronglySorted_merge_sort _).
Defined.

Definition sample_notices : ctables :=
  with_users (fun _ => {["u1" := mkUserRow "tg1" "active" None]})
  (with_notifications (fun _ => [fresh_notification "u1" "grace.12h" (FromUnix 50); fresh_notification "u1" "grace.entered" (FromUnix 10);
                                 fresh_notification "u1" "grace.1h" (FromUnix 9000)]) no_tables).
(** The bot interface takes the first message and refuses the others. *)
Definition sample_courier : courier := mkCourier (mkPg sample_notices [] false []) [] [Ok 200; Ok 429].

Lemma notifications_drain_witness :
  let c' := @courier_runs scheduled_order "token" (replicate 30 (FromUnix 100, FromUnix 101)) sample_courier in
  ((fun n => (no_sent_at n, no_attempts n, no_error n)) <$> rows c'
   = [(None, 10, Some "net/http"); (Some (FromUnix 101), 1, None); (None, 0, None)]
   /\ length (co_requests c') = 11%nat)
  /\ Forall (fun n => no_scheduled_at n <= FromUnix 100 -> no_sent_at n <> None \/ no_attempts n = 10) (rows c').
Proof.
  intros c'. split; [vm_compute; split; reflexivity|].
  apply (@notifications_drain scheduled_order "token" (FromUnix 100) (replicate 30 (FromUnix 100, FromUnix 101)) sample_courier).
  - discriminate.
  - split; [reflexivity|]. repeat constructor.
  - split.
    + apply (bool_decide_unpack _). vm_compute. exact I.
    + repeat constructor; by eexists.
    + repeat constructor; vm_compute; discriminate.
  - repeat constructor; vm_compute; discriminate.
  - vm_compute. discriminate.
Defined.
