(* ===== verification/Admin.v ===== *)
(** * Administration

    src/internal/controlplane/admin.go: blocking of accounts, the roles of the
    team and the commands that an administrator queues for a node; and
    [ensureDevOwner] of app.go.  The handlers run behind the checks of
    [Session.admin_route]. *)

From S2P Require Import Prelude GoStrings Json Crypto Protocol Billing Pg Hub Web Session Wallet Lifecycle.
From stdpp Require Import base gmap strings list.
From Stdlib Require Import ZArith Lia.
Open Scope Z_scope.

Section Admin.
Context {PU : PgUuid} {SV : PgServer} {MO : MapOrder}.

(** ** Accounts *)

Record status_change := mkStatusChange { sc_status : string; sc_reason : string }.
Definition decode_status : option json -> option status_change :=
  decode_request ["status"; "reason"] (dec_struct (fun m old =>
    status ← field "status" dec_string m (sc_status old);
    reason ← field "reason" dec_string m (sc_reason old);
    Some (mkStatusChange status reason))) (mkStatusChange "" "").

(** [UPDATE users SET status=$1 WHERE id=$2]: whether there is such a row. *)
Definition set_user_status (status userID : string) (t : ctables) : result (bool * ctables) :=
  match canonical_uuid userID with
  | Err e => Err e
  | Ok user =>
      match c_users t !! user with
      | Some u => Ok (true, with_users (insert user (mkUserRow (us_subject u) status (us_terms u))) t)
      | None => Ok (false, t)
      end
  end.

(** The commands that take a blocked user's devices off their nodes.  A text that
    is no uuid does not get here: the statement before it has failed. *)
Definition revoke_command (t : ctables) (user : string) (row : string * cdevice_row) : option new_command :=
  let '(device, d) := row in
  a ← c_assignments t !! device;
  if String.eqb (cd_user d) user && match cd_revoked_at d with None => true | Some _ => false end
  then Some (as_node a, "device.revoke", JObj [("deviceId", JStr device); ("reason", JStr "account blocked")])
  else None.
Definition user_revokes (userID : string) (t : ctables) : list new_command :=
  match canonical_uuid userID with
  | Ok user => omap (revoke_command t user) (range (c_devices t))
  | Err _ => []
  end.
Definition of_user (t : ctables) (user device : string) : bool :=
  match c_devices t !! device with Some d => String.eqb (cd_user d) user | None => false end.
Definition unprovision (now : time) (userID : string) (t : ctables) : result (unit * ctables) :=
  match canonical_uuid userID with
  | Err e => Err e
  | Ok user =>
      Ok (tt, with_assignments (map_imap (fun device a =>
            Some (if of_user t user device then mkAssignmentRow (as_node a) None now else a))) t)
  end.

(** The transaction of [updateUserStatus]. *)
Definition status_tx (now : time) (s : session) (userID : string) (b : status_change) : prog pg (tx_step reply) :=
  let* affected := try (stmt (set_user_status (sc_status b) userID)) in
  match affected with
  | Ok true =>
      committing (
        (if String.eqb (sc_status b) "blocked"
         then queue_rows now (user_revokes userID) ;;; stmt (unprovision now userID)
         else ret tt) ;;;
        stmt (checked UntypedParameter (insert_audit (ss_UserID s) "user.status" userID (TrimSpace (sc_reason b)))) ;;;
        ret NoContent) (problem 500 "db")
  | _ => ret (Abandon (problem 404 "user"))
  end.

(** A read whose error is ignored: the variable keeps its zero value. *)
Definition read_or {A} (zero : A) (f : ctables -> result A) : prog pg A :=
  let* r := try (pool (select f)) in ret (match r with Ok a => a | Err _ => zero end).

Definition updateUserStatus (now : time) (s : session) (userID : string) (body : option json) : prog pg reply :=
  match decode_status body with
  | None => ret (problem 400 "user-status")
  | Some b =>
      if negb (String.eqb (sc_status b) "active") && negb (String.eqb (sc_status b) "blocked")
         || (String.length (TrimSpace (sc_reason b)) <? 3)%nat
      then ret (problem 400 "user-status") else
      if String.eqb userID (ss_UserID s) && String.eqb (sc_status b) "blocked"
      then ret (problem 409 "self-block") else
      let* targetRole := read_or "" (first_role userID) in
      if negb (String.eqb targetRole "") && String.eqb (sc_status b) "blocked"
      then ret (problem 409 "admin-block")
      else transact (problem 500 "db") (status_tx now s userID b)
  end.

(** ** Roles *)

Record role_change := mkRoleChange { rc_role : string; rc_reason : string }.
Definition decode_role : option json -> option role_change :=
  decode_request ["role"; "reason"] (dec_struct (fun m old =>
    role ← field "role" dec_string m (rc_role old);
    reason ← field "reason" dec_string m (rc_reason old);
    Some (mkRoleChange role reason))) (mkRoleChange "" "").
Definition allowed_role (role : string) : bool := existsb (String.eqb role) ["owner"; "operator"; "support"; "auditor"].

Definition active_user (userID : string) (t : ctables) : result bool :=
  match canonical_uuid userID with
  | Err e => Err e
  | Ok user => Ok (match c_users t !! user with Some u => String.eqb (us_status u) "active" | None => false end)
  end.
Definition count_owners (t : ctables) : result Z :=
  Ok (Z.of_nat (length (filter (fun ur => ur.2 = "owner") (c_roles t)))).
Definition delete_roles (userID : string) (t : ctables) : result (unit * ctables) :=
  match canonical_uuid userID with
  | Err e => Err e
  | Ok user => Ok (tt, with_roles (filter (fun ur => ur.1 <> user)) t)
  end.
Definition insert_role (userID role : string) (t : ctables) : result (unit * ctables) :=
  match canonical_uuid userID with
  | Err e => Err e
  | Ok user =>
      if negb (allowed_role role) || bool_decide ((user, role) ∈ c_roles t) then Err (SqlErr SqlConstraint) else
      match c_users t !! user with
      | Some _ => Ok (tt, with_roles (fun l => l ++ [(user, role)]) t)
      | None => Err (SqlErr SqlConstraint)
      end
  end.

Definition set_role_tx (s : session) (userID : string) (b : role_change) : prog pg reply :=
  transact (problem 500 "db") (committing (
    stmt (delete_roles userID) ;;;
    stmt (insert_role userID (rc_role b)) ;;;
    stmt (checked UntypedParameter (insert_audit (ss_UserID s) "admin.role.set" userID (TrimSpace (rc_reason b)))) ;;;
    ret (jsonResponse 200 (Some (JObj [("role", JStr (rc_role b))])))) (problem 500 "db")).

Definition setAdminRole (s : session) (userID : string) (body : option json) : prog pg reply :=
  match decode_role body with
  | None => ret (problem 400 "admin-role")
  | Some b =>
      if negb (allowed_role (rc_role b)) || (String.length (TrimSpace (rc_reason b)) <? 3)%nat
      then ret (problem 400 "admin-role") else
      let* exists_ := read_or false (active_user userID) in
      if negb exists_ then ret (problem 404 "user") else
      let* current := read_or "" (first_role userID) in
      if String.eqb current "owner" && negb (String.eqb (rc_role b) "owner") then
        let* owners := read_or 0 count_owners in
        if owners <=? 1 then ret (problem 409 "last-owner") else set_role_tx s userID b
      else set_role_tx s userID b
  end.

Definition decode_reason : option json -> option string :=
  decode_request ["reason"] (dec_struct (fun m old => field "reason" dec_string m old)) "".
(** [SELECT role FROM user_roles WHERE user_id=$1 LIMIT 1] *)
Definition select_role (userID : string) (t : ctables) : result string :=
  match first_role userID t with
  | Ok role => if String.eqb role "" then Err (SqlErr SqlNoRows) else Ok role
  | Err e => Err e
  end.
Definition remove_role (s : session) (userID reason : string) : prog pg reply :=
  let* removed := try (pool (delete_roles userID)) in
  match removed with
  | Err _ => ret (problem 500 "db")
  | Ok _ =>
      let* _ := try (pool (checked UntypedParameter
                  (insert_audit (ss_UserID s) "admin.role.remove" userID (TrimSpace reason)))) in
      ret NoContent
  end.
Definition removeAdminRole (s : session) (userID : string) (body : option json) : prog pg reply :=
  match decode_reason body with
  | None => ret (problem 400 "admin-role")
  | Some reason =>
      if (String.length (TrimSpace reason) <? 3)%nat then ret (problem 400 "admin-role") else
      let* current := try (pool (select (select_role userID))) in
      match current with
      | Err _ => ret (problem 404 "admin")
      | Ok current =>
          if String.eqb current "owner" then
            let* owners := read_or 0 count_owners in
            if owners <=? 1 then ret (problem 409 "last-owner") else remove_role s userID reason
          else remove_role s userID reason
      end
  end.

(** [ensureDevOwner]: the owner of a development installation. *)
Definition dev_owner_rows (userID : string) (t : ctables) : result (unit * ctables) :=
  match canonical_uuid userID with
  | Err e => Err e
  | Ok user =>
      let add_role := if bool_decide ((user, "owner") ∈ c_roles t) then t else with_roles (fun l => l ++ [(user, "owner")]) t in
      let add_wallet := match c_wallets t !! user with Some _ => add_role | None => with_wallets (insert user 0) add_role end in
      match c_users t !! user, c_subscriptions t !! user, c_plans t !! "TRIAL" with
      | None, _, _ => Err (SqlErr SqlConstraint)
      | Some _, Some _, _ => Ok (tt, add_wallet)
      | Some _, None, Some _ =>
          Ok (tt, with_subscriptions (insert user (mkSubscriptionRow "TRIAL" None "pending_trial" None None None 0 0)) add_wallet)
      | Some _, None, None => Err (SqlErr SqlConstraint)
      end
  end.

Definition ensureDevOwner (subject : string) : prog pg unit :=
  let* id := random_uuid in
  let* user := pool (upsert_user id (mkClaims subject "Владелец RiseVPN" "" "" "")) in
  pool (checked SeveralCommands (dev_owner_rows user)).

(** ** Commands *)

(** The strings of a jsonb value hold no NUL byte either. *)
Fixpoint jsonb_text (j : json) : bool :=
  match j with
  | JStr s => pg_text s
  | JArr l => forallb jsonb_text l
  | JObj m => forallb (fun kv => pg_text kv.1 && jsonb_text kv.2) m
  | _ => true
  end.
Definition queue_order (now : time) (id nodeID kind : string) (payload : json) (t : ctables) : result (unit * ctables) :=
  if jsonb_text payload then queue_command now id nodeID kind (Some payload) t else Err (SqlErr SqlFault).

(** A payload that is missing is empty; null is the value [JNull]. *)
Record order := mkOrder { or_type : string; or_payload : option json; or_reason : string }.
Definition decode_order : option json -> option order :=
  decode_request ["type"; "payload"; "reason"] (dec_struct (fun m old =>
    kind ← field "type" dec_string m (or_type old);
    payload ← field "payload" (fun j _ => Some (Some j)) m (or_payload old);
    reason ← field "reason" dec_string m (or_reason old);
    Some (mkOrder kind payload reason))) (mkOrder "" None "").
Definition allowed_orders : list string :=
  ["device.upsert"; "device.revoke"; "session.kick"; "policy.override"; "certificate.rotate"; "drain"; "update"].

Definition enqueueCommand (now : time) (s : session) (nodeID : string) (body : option json) : prog pg reply :=
  match decode_order body with
  | None => ret (problem 400 "command")
  | Some b =>
      match or_payload b with
      | None => ret (problem 400 "command")
      | Some payload =>
          if String.eqb (or_type b) "" || String.eqb (TrimSpace (or_reason b)) "" then ret (problem 400 "command") else
          if negb (existsb (String.eqb (or_type b)) allowed_orders) then ret (problem 400 "command-type") else
          let* id := random_uuid in
          let* queued := try (
            pool (queue_order now id nodeID (or_type b) payload) ;;;
            pool (checked UntypedParameter (insert_audit (ss_UserID s) "node.command" nodeID (TrimSpace (or_reason b))))) in
          ret (match queued with
               | Ok _ => jsonResponse 202 (Some (JObj [("commandId", JStr id); ("status", JStr "pending")]))
               | Err _ => problem 500 "db"
               end)
      end
  end.

(** [queueDeviceCommand]: a command for the node of a device, if it has one. *)
Definition device_command (now : time) (id deviceID kind : string) (payload : option json) (t : ctables)
    : result (unit * ctables) :=
  match canonical_uuid deviceID with
  | Err e => Err e
  | Ok device =>
      match c_assignments t !! device with
      | None => Ok (tt, t)
      | Some a => result_map (fun t' => (tt, t')) (insert_command now id (as_node a) kind payload t)
      end
  end.
Definition queueDeviceCommand (now : time) (deviceID kind : string) (payload : option json) : prog pg unit :=
  let* id := random_uuid in pool (device_command now id deviceID kind payload).
End Admin.

(** ** Lemmas on roles *)

Section Team.
Context {PU : PgUuid} {SV : PgServer} {MO : MapOrder}.

(** The team: someone is an owner, every member has one role and an active
    account. *)
Record team (t : ctables) : Prop := {
  tm_owner : exists u, (u, "owner") ∈ c_roles t;
  tm_active : forall u role, (u, role) ∈ c_roles t -> exists row, c_users t !! u = Some row /\ us_status row = "active";
  tm_one : NoDup (c_roles t).*1;
  tm_named : forall u, (u, "") ∉ c_roles t }.

Lemma sublist_map {A B} (f : A -> B) l1 l2 : l1 `sublist_of` l2 -> f <$> l1 `sublist_of` f <$> l2.
Proof. induction 1; cbn; by constructor. Qed.

Lemma first_role_of userID user t :
  canonical_uuid userID = Ok user -> team t ->
  exists role, first_role userID t = Ok role
    /\ (role = "" <-> forall r, (user, r) ∉ c_roles t) /\ forall r, (user, r) ∈ c_roles t -> r = role.
Proof.
  intros Hu Ht. unfold first_role. rewrite Hu. cbn. destruct (list_find _ _) as [[i [u role]]|] eqn:E.
  - apply list_find_Some in E as (Hi & Heq & _). cbn in Heq. subst u. apply list_elem_of_lookup_2 in Hi.
    exists role. split_and!; [done| |].
    + split; [intros ->; by destruct (tm_named _ Ht user)|intros H; by destruct (H role)].
    + intros r Hr. pose proof (tm_one _ Ht) as Hnd. apply list_elem_of_lookup in Hi as [j Hj], Hr as [k Hk].
      assert (j = k); [|congruence]. eapply NoDup_lookup; [exact Hnd|..]; rewrite list_lookup_fmap; [by rewrite Hj|by rewrite Hk].
  - apply list_find_None in E. rewrite Forall_forall in E.
    assert (Hno : forall r, (user, r) ∉ c_roles t) by (intros r Hr; by apply (E _ Hr)).
    exists "". split_and!; [done|done|]. intros r Hr. by destruct (Hno r).
Qed.

(** Another owner than [user], when there are two rows. *)
Lemma other_owner user t :
  NoDup (c_roles t).*1 -> (2 <= length (filter (fun ur => ur.2 = "owner") (c_roles t)))%nat ->
  exists u, u <> user /\ (u, "owner") ∈ c_roles t.
Proof.
  intros Hnd. assert (Hsub : (filter (fun ur => ur.2 = "owner") (c_roles t)).*1 `sublist_of` (c_roles t).*1)
    by (apply sublist_map, sublist_filter).
  assert (Hin : forall ur, ur ∈ filter (fun ur => ur.2 = "owner") (c_roles t) -> ur ∈ c_roles t /\ ur.2 = "owner")
    by (intros ur [??]%list_elem_of_filter; done).
  pose proof (sublist_NoDup _ _ Hnd Hsub) as Hnd2.
  destruct (filter _ (c_roles t)) as [|[u1 r1] [|[u2 r2] l]]; cbn; [lia|lia|]. intros _. cbn in Hnd2.
  destruct (Hin (u1, r1)) as [H1 E1]; [set_solver|]. destruct (Hin (u2, r2)) as [H2 E2]; [set_solver|]. cbn in E1, E2. subst.
  destruct (decide (u1 = user)) as [->|]; [|by exists u1]. exists u2. split; [|done].
  apply NoDup_cons in Hnd2 as [Hne _]. intros ->. set_solver.
Qed.

(** What a change of [user]'s role has to ask for. *)
Definition replaceable (user : string) (t : ctables) : Prop :=
  (user, "owner") ∉ c_roles t \/ exists u, u <> user /\ (u, "owner") ∈ c_roles t.
Lemma team_without user t :
  team t -> replaceable user t -> team (with_roles (filter (fun ur => ur.1 <> user)) t).
Proof.
  intros [Ho Ha H1 Hn] Hr. split; cbn.
  - destruct Ho as [o Ho]. destruct (decide (o = user)) as [->|Hne]; [|exists o; by apply list_elem_of_filter].
    destruct Hr as [?|(u & Hu & Hin)]; [done|]. exists u. by apply list_elem_of_filter.
  - intros u role [_ Hin]%list_elem_of_filter. by eapply Ha.
  - eapply sublist_NoDup; [exact H1|]. apply sublist_map, sublist_filter.
  - intros u [_ Hin]%list_elem_of_filter. by apply (Hn u).
Qed.
Lemma team_with user role t :
  (role = "owner" \/ exists u, u <> user /\ (u, "owner") ∈ c_roles t) -> role <> "" ->
  (exists row, c_users t !! user = Some row /\ us_status row = "active") ->
  team t -> team (with_roles (fun l => filter (fun ur => ur.1 <> user) l ++ [(user, role)]) t).
Proof.
  intros Hr Hne Hu [Ho Ha H1 Hn]. split; cbn.
  - destruct Hr as [-> |(u & Hx & Hin)]; [exists user|exists u]; apply elem_of_app; [right; set_solver|left].
    by apply list_elem_of_filter.
  - intros u r [[_ Hin]%list_elem_of_filter|[= -> ->]%list_elem_of_singleton]%elem_of_app; [by eapply Ha|done].
  - rewrite fmap_app. apply NoDup_app. split_and!; [eapply sublist_NoDup; [exact H1|]; apply sublist_map, sublist_filter| |by apply NoDup_singleton].
    intros u ([u0 r0] & -> & [Hne0 _]%list_elem_of_filter)%list_elem_of_fmap. cbn in *. set_solver.
  - intros u [[_ Hin]%list_elem_of_filter|[= _ <-]%list_elem_of_singleton]%elem_of_app; [by apply (Hn u)|done].
Qed.

(** A read of one statement. *)
Lemma read_or_run {A} (zero : A) (f : ctables -> result A) s :
  exists a, read_or zero f s = (Ok a, advance s)
    /\ (next_outcome s = Done -> a = match f (cp s) with Ok x => x | Err _ => zero end)
    /\ (a = zero \/ f (cp s) = Ok a).
Proof.
  unfold read_or, bind, try, pool, select. destruct (next_outcome s), (f (cp s)) as [x|e]; cbn; eexists;
    (split; [by destruct s|]); (split; [done|]); auto.
Qed.

Lemma insert_audit_same actor action subject reason t a t' :
  insert_audit actor action subject reason t = Ok (a, t') -> c_users t' = c_users t /\ c_roles t' = c_roles t.
Proof. intros [row ->]%insert_audit_ok. done. Qed.

Lemma team_same t t' : c_users t' = c_users t -> c_roles t' = c_roles t -> team t -> team t'.
Proof. intros Hu Hr [H1 H2 H3 H4]. by split; rewrite ?Hr, ?Hu. Qed.

Lemma set_role_tx_team s userID user b st :
  canonical_uuid userID = Ok user -> team (cp st) -> allowed_role (rc_role b) = true ->
  (exists row, c_users (cp st) !! user = Some row /\ us_status row = "active") ->
  (rc_role b = "owner" \/ replaceable user (cp st)) -> team (cp (set_role_tx s userID b st).2).
Proof.
  intros Hu Ht Hrole Hact Hr. unfold set_role_tx.
  destruct (transact _ _ st) as [r st'] eqn:E. cbn [snd].
  apply transact_committing in E as [[-> _]|(s1 & s2 & answer & Hs1 & E & -> & _)]; [done|].
  apply bind_done in E as ([] & s3 & E1 & E). apply bind_done in E as ([] & s4 & E2 & E).
  apply bind_done in E as ([] & s5 & E3 & E). injection E as _ ->.
  apply stmt_ok in E1 as (_ & _ & t1 & E1 & H1), E2 as (_ & _ & t2 & E2 & H2), E3 as (_ & _ & t3 & E3 & H3).
  unfold delete_roles in E1. rewrite Hu in E1. injection E1 as <-. unfold insert_role in E2. rewrite Hu in E2.
  destruct (_ || _); [done|]. destruct (c_users (cp s3) !! user); [|done]. injection E2 as <-.
  apply checked_ok in E3 as [_ E3]. apply insert_audit_same in E3 as [E3u E3r].
  apply (team_same (with_roles (fun l => filter (fun ur => ur.1 <> user) l ++ [(user, rc_role b)]) (cp st))).
  - rewrite H3, E3u, H2. cbn. by rewrite H1, Hs1.
  - rewrite H3, E3r, H2. cbn. by rewrite H1, Hs1.
  - apply team_with; [|by intros Hr0; rewrite Hr0 in Hrole|done|done].
    destruct Hr as [?|[Hno|?]]; [by left| |by right]. destruct (tm_owner _ Ht) as [o Ho]. right. exists o.
    split; [|done]. by intros ->.
Qed.
Lemma delete_roles_team userID user t a t' :
  canonical_uuid userID = Ok user -> team t -> replaceable user t -> delete_roles userID t = Ok (a, t') -> team t'.
Proof. intros Hu Ht Hr. unfold delete_roles. rewrite Hu. intros [= _ <-]. by apply team_without. Qed.

(** The count of owners, when it was read. *)
Lemma count_replaceable user t n : team t -> count_owners t = Ok n -> 1 < n -> replaceable user t.
Proof.
  intros Ht [= <-] Hn. right. apply other_owner; [apply Ht|]. revert Hn.
  generalize (length (filter (fun ur : string * string => ur.2 = "owner") (c_roles t))). lia.
Qed.
End Team.

Section Calls.
Context {PU : PgUuid} {SV : PgServer} {MO : MapOrder}.

Lemma first_outcome st : next_outcome st = default Done (outcomes st !! 0%nat).
Proof. unfold next_outcome. by destruct (outcomes st). Qed.
Lemma second_outcome st : next_outcome (advance st) = default Done (outcomes st !! 1%nat).
Proof. unfold next_outcome, advance. cbn. by destruct (outcomes st) as [|? [|]]. Qed.
Lemma owners_read user st s1 n :
  team (cp st) -> cp s1 = cp st -> (n = 0 \/ count_owners (cp s1) = Ok n) -> 1 < n -> replaceable user (cp st).
Proof. intros Ht Hs [->|Hn] H; [lia|]. rewrite Hs in Hn. by eapply count_replaceable. Qed.

Lemma setAdminRole_team s userID body st :
  default Done (outcomes st !! 1%nat) = Done -> team (cp st) -> team (cp (setAdminRole s userID body st).2).
Proof.
  intros Ho Ht. unfold setAdminRole. destruct (decode_role body) as [b|]; [|done].
  destruct (allowed_role (rc_role b)) eqn:Ea; [|done]. cbn [negb orb]. destruct (_ <? 3)%nat; [done|].
  unfold bind at 1. destruct (read_or_run false (active_user userID) st) as (ex & -> & _ & Hex).
  destruct ex; [|done]. destruct Hex as [?|Hex]; [done|]. cbn [negb].
  unfold active_user in Hex. destruct (canonical_uuid userID) as [user|] eqn:Eu; [|done]. injection Hex as Hex.
  destruct (c_users (cp st) !! user) as [row|] eqn:Erow; [|done]. apply String.eqb_eq in Hex.
  assert (Hact : exists row, c_users (cp st) !! user = Some row /\ us_status row = "active") by eauto.
  unfold bind at 1. destruct (read_or_run "" (first_role userID) (advance st)) as (cur & -> & Hcur & _).
  rewrite Hcur by by rewrite second_outcome. clear cur Hcur.
  destruct (first_role_of userID user (cp st) Eu Ht) as (role & Hr & _ & Hrole). cbn [cp advance]. rewrite Hr.
  destruct (String.eqb_spec role "owner") as [->|Hno]; cbn [andb].
  - destruct (String.eqb_spec (rc_role b) "owner") as [Hb|Hb]; cbn [negb].
    + apply (set_role_tx_team s userID user b (advance (advance st))); auto.
    + unfold bind. destruct (read_or_run 0 count_owners (advance (advance st))) as (n & -> & _ & Hn).
      destruct (Z.leb_spec n 1); [done|].
      apply (set_role_tx_team s userID user b (advance (advance (advance st)))); auto.
      right. by eapply (owners_read user st (advance (advance st)) n).
  - apply (set_role_tx_team s userID user b (advance (advance st))); auto. right. left. intros Hin. apply Hno. symmetry. by apply Hrole.
Qed.

Lemma remove_role_team s userID user reason st :
  canonical_uuid userID = Ok user -> team (cp st) -> replaceable user (cp st) ->
  team (cp (remove_role s userID reason st).2).
Proof.
  intros Hu Ht Hr. unfold remove_role, bind at 1, try at 1. destruct (pool (delete_roles userID) st) as [r s1] eqn:E.
  assert (Hs1 : team (cp s1)).
  { unfold pool in E. destruct (next_outcome st); [|by injection E as _ <-|];
      (destruct (delete_roles userID (cp st)) as [[a t]|e] eqn:Ed; injection E as _ <-; [|done]); by eapply delete_roles_team. }
  destruct r as [[]|e]; [|done].
  assert (Hk : keeps (on_tables (preserves team)) (let* _ := try (pool (checked UntypedParameter
      (insert_audit (ss_UserID s) "admin.role.remove" userID (TrimSpace reason)))) in ret NoContent)).
  { apply keeps_bind; [apply _| |intros; apply keeps_ret, _]. apply keeps_try, keeps_pool; [apply _|].
    intros t a t' [_ [? ?]%insert_audit_same]%checked_ok Hteam. by eapply team_same. }
  exact (Hk s1 Hs1).
Qed.
Lemma removeAdminRole_team s userID body st : team (cp st) -> team (cp (removeAdminRole s userID body st).2).
Proof.
  intros Ht. unfold removeAdminRole. destruct (decode_reason body) as [reason|]; [|done]. destruct (_ <? 3)%nat; [done|].
  unfold bind at 1, try at 1. destruct (pool (select (select_role userID)) st) as [r s1] eqn:E.
  apply pool_select_ok in E as [Hs1 Hr]. destruct r as [cur|e]; [|cbn; by rewrite Hs1]. specialize (Hr _ eq_refl).
  unfold select_role in Hr. destruct (canonical_uuid userID) as [user|] eqn:Eu.
  2: { unfold first_role in Hr. by rewrite Eu in Hr. }
  destruct (first_role_of userID user (cp st) Eu Ht) as (role & Hf & _ & Hrole). rewrite Hf in Hr.
  destruct (String.eqb role ""); [done|]. injection Hr as <-. rewrite <- Hs1 in Ht.
  destruct (String.eqb_spec role "owner") as [->|Hno].
  - unfold bind. destruct (read_or_run 0 count_owners s1) as (n & -> & _ & Hn). destruct (Z.leb_spec n 1); [done|].
    apply (remove_role_team s userID user reason (advance s1)); [done|done|]. by eapply (owners_read user s1 s1 n).
  - apply (remove_role_team s userID user reason s1); [done|done|]. left. rewrite Hs1. intros Hin. apply Hno. symmetry. by apply Hrole.
Qed.

(** Statements that leave the users and the roles as they are. *)
Lemma queue_rows_same now rows : keeps (on_tables (same (fun t => (c_users t, c_roles t)))) (queue_rows now rows).
Proof.
  unfold queue_rows. apply keeps_bind; [apply _|apply keeps_random_uuids, _|]. intros ids. apply keeps_stmt; [apply _|].
  intros t a t'. unfold done_rows. destruct (insert_commands now (rows t) ids t) as [t1|] eqn:E; [|done]. intros [= _ <-].
  apply insert_commands_ok in E as (new & -> & _). done.
Qed.
Lemma unprovision_same now userID t a t' :
  unprovision now userID t = Ok (a, t') -> same (fun t => (c_users t, c_roles t)) t t'.
Proof. unfold unprovision. destruct (canonical_uuid userID); [|done]. by intros [= _ <-]. Qed.
Lemma audit_same' actor action subject reason t a t' :
  checked UntypedParameter (insert_audit actor action subject reason) t = Ok (a, t') -> same (fun t => (c_users t, c_roles t)) t t'.
Proof. intros [_ [H1 H2]%insert_audit_same]%checked_ok. unfold same. by rewrite H1, H2. Qed.

(** What [status_tx] commits: the status of one account, and nothing of the roles. *)
Lemma status_tx_users now s userID b st answer failed st' :
  status_tx now s userID b st = (Ok (Commit answer failed), st') ->
  exists user u, canonical_uuid userID = Ok user /\ c_users (cp st) !! user = Some u
    /\ c_users (cp st') = <[user := mkUserRow (us_subject u) (sc_status b) (us_terms u)]> (c_users (cp st))
    /\ c_roles (cp st') = c_roles (cp st).
Proof.
  unfold status_tx. intros (affected & s1 & E1%try_done & E)%bind_done. destruct affected as [[]|e]; [|done..].
  apply stmt_ok in E1 as (_ & _ & t1 & E1 & <-). unfold set_user_status in E1.
  destruct (canonical_uuid userID) as [user|]; [|done]. destruct (c_users (cp st) !! user) as [u|] eqn:Eu; [|done].
  injection E1 as Hs1. apply committing_commit in E as [E _].
  assert (Hk : keeps (on_tables (same (fun t => (c_users t, c_roles t)))) ((if String.eqb (sc_status b) "blocked"
         then queue_rows now (user_revokes userID) ;;; stmt (unprovision now userID) else ret tt) ;;;
        stmt (checked UntypedParameter (insert_audit (ss_UserID s) "user.status" userID (TrimSpace (sc_reason b)))) ;;;
        ret NoContent)).
  { repeat (apply keeps_bind; [apply _| |intros ?]); [|apply keeps_stmt; [apply _|]; intros *; apply audit_same'|apply keeps_ret, _].
    destruct (String.eqb _ _); [|apply keeps_ret, _]. apply keeps_bind; [apply _|apply queue_rows_same|]. intros ?.
    apply keeps_stmt; [apply _|]. intros *. apply unprovision_same. }
  specialize (Hk s1). rewrite E in Hk. unfold on_tables, same in Hk. cbn [snd] in Hk. injection Hk as Hku Hkr.
  exists user, u. split_and!; [done..|by rewrite Hku, <- Hs1|by rewrite Hkr, <- Hs1].
Qed.

Lemma updateUserStatus_team now s userID body st :
  default Done (outcomes st !! 0%nat) = Done -> team (cp st) -> team (cp (updateUserStatus now s userID body st).2).
Proof.
  intros Ho Ht. unfold updateUserStatus. destruct (decode_status body) as [b|]; [|done].
  destruct (String.eqb (sc_status b) "active") eqn:Eact, (String.eqb (sc_status b) "blocked") eqn:Eblk; cbn [negb andb orb];
    (try done); (destruct (_ <? 3)%nat; [done|]); rewrite ?andb_false_r, ?andb_true_r; try (destruct (String.eqb userID _); [done|]);
    try (apply String.eqb_eq in Eact, Eblk; congruence).
  - unfold bind. destruct (read_or_run "" (first_role userID) st) as (cur & -> & _). rewrite andb_false_r.
    destruct (transact _ _ (advance st)) as [r st'] eqn:E. cbn [snd].
    apply transact_effect in E as [->|(s1 & s2 & answer & failed & Hs1 & _ & E & _ & -> & _)]; [done|].
    apply status_tx_users in E as (user & u & Hu & Hrow & Hus & Hro). rewrite Hs1 in *. cbn in *. apply String.eqb_eq in Eact.
    destruct Ht as [H1 H2 H3 H4]. split; rewrite ?Hro; [done| |done|done]. intros x role Hin. rewrite Hus.
    destruct (decide (x = user)) as [->|Hne]; [rewrite lookup_insert_eq; by eexists|rewrite lookup_insert_ne by done; by eapply H2].
  - unfold bind. destruct (read_or_run "" (first_role userID) st) as (cur & -> & Hcur & _).
    rewrite andb_true_r. destruct (String.eqb_spec cur "") as [->|]; [|done]. cbn [negb].
    specialize (Hcur (eq_trans (first_outcome st) Ho)).
    destruct (transact _ _ (advance st)) as [r st'] eqn:E. cbn [snd].
    apply transact_effect in E as [->|(s1 & s2 & answer & failed & Hs1 & _ & E & _ & -> & _)]; [done|].
    apply status_tx_users in E as (user & u & Hu & Hrow & Hus & Hro). rewrite Hs1 in *. cbn in *.
    destruct (first_role_of userID user (cp st) Hu Ht) as (role0 & Hf & [Hnone _] & _). rewrite Hf in Hcur. subst role0.
    specialize (Hnone eq_refl). destruct Ht as [H1 H2 H3 H4]. split; rewrite ?Hro; [done| |done|done]. intros x role Hin. rewrite Hus.
    destruct (decide (x = user)) as [->|Hne]; [by destruct (Hnone role)|rewrite lookup_insert_ne by done; by eapply H2].
Qed.
End Calls.

(** ** Properties *)

Inductive role_call :=
  | UpdateStatus (now : time) (s : session) (userID : string) (body : option json)
  | SetRoleOf (s : session) (userID : string) (body : option json)
  | RemoveRoleOf (s : session) (userID : string) (body : option json).
(** A call meets its own faults; [target_read]: the read of the target's role is
    not among them. *)
Definition target_read (call : role_call * list outcome) : Prop :=
  match call.1 with
  | UpdateStatus _ _ _ _ => default Done (call.2 !! 0%nat) = Done
  | SetRoleOf _ _ _ => default Done (call.2 !! 1%nat) = Done
  | RemoveRoleOf _ _ _ => True
  end.
Definition role_step {PU : PgUuid} {SV : PgServer} {MO : MapOrder} (st : pg) (call : role_call * list outcome) : pg :=
  (match call.1 with
   | UpdateStatus now s userID body => updateUserStatus now s userID body
   | SetRoleOf s userID body => setAdminRole s userID body
   | RemoveRoleOf s userID body => removeAdminRole s userID body
   end (with_outcomes call.2 st)).2.

(** C35 - The team always has an owner.  Through any sequence of changes of roles
    and of account states, whatever else fails in them, there is an owner, every
    member of the team has exactly one role and an account that is not blocked; as
    long as the one read of the target's role does not fail, whose error the
    handlers ignore. *)
Theorem owner_remains {PU : PgUuid} {SV : PgServer} {MO : MapOrder} calls st :
  team (cp st) -> Forall target_read calls -> team (cp (foldl role_step st calls)).
Proof.
  intros Ht Hc. revert st Ht. induction Hc as [|call calls Hcall _ IH]; intros st Ht; [done|]. cbn [foldl]. apply IH.
  unfold role_step. destruct call as [[now s userID body|s userID body|s userID body] o]; cbn [fst snd] in *; unfold target_read in Hcall; cbn in Hcall.
  - by apply updateUserStatus_team.
  - by apply setAdminRole_team.
  - by apply removeAdminRole_team.
Qed.

Definition role_body (role : string) : option json := Some (JObj [("role", JStr role); ("reason", JStr "rotation")]).
Definition team_rows : ctables :=
  with_roles (fun _ => [("u1", "owner")]) (with_users (fun _ =>
    {["u1" := mkUserRow "s1" "active" None; "u2" := mkUserRow "s2" "active" None]}) no_tables).
Lemma team_rows_ok : team team_rows.
Proof.
  assert (Hin : forall u r, (u, r) ∈ c_roles team_rows -> u = "u1" /\ r = "owner") by (cbn; set_solver).
  split; [exists "u1"; cbn; set_solver| | |].
  - intros u role [-> ->]%Hin. by eexists.
  - apply NoDup_singleton.
  - intros u [_ ?]%Hin. done.
Qed.
(** The owner hands the installation over; neither can be left without one. *)
Lemma owner_remains_witness :
  let calls := [(SetRoleOf (sample_session "u1") "u1" (role_body "auditor"), []);
                (SetRoleOf (sample_session "u1") "u2" (role_body "owner"), [Done; Done; Done; Failed]);
                (SetRoleOf (sample_session "u1") "u2" (role_body "owner"), []);
                (RemoveRoleOf (sample_session "u2") "u1" (Some (JObj [("reason", JStr "left")])), []);
                (RemoveRoleOf (sample_session "u2") "u2" (Some (JObj [("reason", JStr "left")])), [])] in
  let t' := cp (foldl (@role_step toy_uuid_type (all_commands true) sorted_order) (mkPg team_rows [] false []) calls) in
  c_roles t' = [("u2", "owner")] /\ team t'.
Proof.
  intros calls t'. split; [vm_compute; reflexivity|].
  apply (@owner_remains toy_uuid_type (all_commands true) sorted_order); [apply team_rows_ok|].
  unfold calls. repeat constructor.
Defined.

(** When that read fails, the last owner can be demoted: the role counts as
    missing, and the check of the number of owners is skipped. *)
Theorem failed_read_demotes_last_owner :
  let out := @setAdminRole toy_uuid_type (all_commands true) (sample_session "u1") "u1" (role_body "auditor")
               (mkPg team_rows [Done; Failed] false []) in
  team team_rows /\ status_of <$> (match out.1 with Ok r => Some r | Err _ => None end) = Some 200
  /\ c_roles (cp out.2) = [("u1", "auditor")].
Proof. split; [apply team_rows_ok|]. split; vm_compute; reflexivity. Qed.

Section Blocking.
Context {PU : PgUuid} {SV : PgServer} {MO : MapOrder}.

(** What blocking [user] makes of the tables. *)
Record blocked (now : time) (user : string) (u : user_row) (t t' : ctables) : Prop := {
  bl_user : c_users t' = <[user := mkUserRow (us_subject u) "blocked" (us_terms u)]> (c_users t);
  bl_commands : exists new, c_commands t' = c_commands t ++ new
    /\ command_text <$> new = omap (revoke_command t user) (range (c_devices t))
    /\ Forall (fun c => is_open c = true /\ cm_attempts c = 0 /\ cm_not_before c = now /\ cm_expires_at c = now + 24 * hour) new;
  bl_assignments : forall device d a, c_devices t !! device = Some d -> cd_user d = user ->
    c_assignments t' !! device = Some a -> as_provisioned_at a = None;
  bl_audit : exists row, c_audit t' = c_audit t ++ [row] /\ au_action row = "user.status" }.

Lemma status_tx_blocks now s userID b st answer failed st' :
  sc_status b = "blocked" -> status_tx now s userID b st = (Ok (Commit answer failed), st') ->
  accepts UntypedParameter = true /\ answer = NoContent
  /\ exists user u, canonical_uuid userID = Ok user /\ c_users (cp st) !! user = Some u /\ blocked now user u (cp st) (cp st').
Proof.
  intros Hb. unfold status_tx. rewrite Hb. intros (affected & s1 & E1%try_done & E)%bind_done.
  destruct affected as [[]|e]; [|done..]. apply stmt_ok in E1 as (_ & _ & t1 & E1 & Hs1). unfold set_user_status in E1.
  destruct (canonical_uuid userID) as [user|] eqn:Eu; [|done]. destruct (c_users (cp st) !! user) as [u|] eqn:Erow; [|done].
  injection E1 as <-. apply committing_commit in E as [E _]. cbn [String.eqb Ascii.eqb Bool.eqb] in E.
  apply bind_done in E as ([] & s2 & E2 & E). apply bind_done in E2 as ([] & s3 & E2 & E3).
  apply queue_rows_ok in E2 as (new & Hnew & Hrows & Hopen).
  apply stmt_ok in E3 as (_ & _ & t3 & E3 & Hs2). unfold unprovision in E3. rewrite Eu in E3. injection E3 as <-.
  apply bind_done in E as ([] & s4 & E4 & E). apply stmt_ok in E4 as (_ & _ & t4 & E4 & Hs4).
  apply checked_ok in E4 as [Hacc E4]. injection E as <- <-. split_and!; [done..|]. exists user, u. split_and!; [done..|].
  unfold insert_audit in E4. destruct (canonical_uuid (ss_UserID s)) as [actor|]; [|done]. destruct (negb _); [done|].
  destruct (c_users (cp s2) !! actor); [|done]. injection E4 as <-.
  rewrite Hs4, Hs2, Hnew, Hs1. split; cbn.
  - done.
  - exists new. split_and!; [done| |done]. rewrite Hrows, Hs1. unfold user_revokes. by rewrite Eu.
  - intros device d a Hd Hu. rewrite map_lookup_imap.
    destruct (c_assignments (cp st) !! device) as [a0|] eqn:Ea; cbn; [|done]. unfold of_user. cbn. rewrite Hd.
    rewrite (proj2 (String.eqb_eq _ _) Hu). by intros [= <-].
  - by eexists.
Qed.
Lemma status_tx_answers now s userID b st :
  match (status_tx now s userID b st).1 with
  | Ok (Abandon r) => is_problem (Ok r)
  | Ok (Commit answer failed) => answer = NoContent /\ failed = problem 500 "db"
  | Err _ => False
  end.
Proof.
  assert (Hp : forall status kind, is_problem (Ok (problem status kind))) by (intros; by eexists _, _).
  unfold status_tx, bind at 1, try at 1. destruct (stmt (set_user_status _ _) st) as [[[]|e] s1]; [|apply Hp..].
  unfold committing, bind at 1, try at 1. destruct (bind (if String.eqb (sc_status b) "blocked" then _ else _) _ s1) as [[answer|e] s2] eqn:E; [|apply Hp].
  cbn [ret fst]. split; [|done]. apply bind_done in E as ([] & s3 & _ & E). apply bind_done in E as ([] & s4 & _ & E). by injection E.
Qed.

(** The consequences of [blocked]: no session is accepted, and the devices get
    their commands. *)
Lemma blocked_effects now user u t t' :
  blocked now user u t t' ->
  (forall text, canonical_uuid text = Ok user -> select_active text t' = Ok false)
  /\ (forall device d a, c_devices t !! device = Some d -> cd_user d = user -> cd_revoked_at d = None ->
        c_assignments t !! device = Some a ->
        exists c, c ∈ c_commands t' /\ is_open c = true /\ cm_node c = as_node a /\ cm_type c = "device.revoke"
          /\ json_text (cm_payload c) "deviceId" = Some device).
Proof.
  intros Hbl. split.
  - intros text Ht. unfold select_active. rewrite Ht, (bl_user _ _ _ _ _ Hbl), lookup_insert_eq. done.
  - intros device d a Hdev Huser Hrev Has. destruct (bl_commands _ _ _ _ _ Hbl) as (new & -> & Hnew & Hopen).
    assert (Hin : (as_node a, "device.revoke", JObj [("deviceId", JStr device); ("reason", JStr "account blocked")])
                  ∈ omap (revoke_command t user) (range (c_devices t))).
    { apply list_elem_of_omap. exists (device, d). split; [by apply elem_of_range|]. cbn. rewrite Has. cbn.
      by rewrite (proj2 (String.eqb_eq _ _) Huser), Hrev. }
    rewrite <- Hnew in Hin. apply list_elem_of_fmap in Hin as (c & [= Hn Ht Hp] & Hc). rewrite Forall_forall in Hopen.
    exists c. split; [apply elem_of_app; by right|]. split_and!; [by apply Hopen|done..|]. by rewrite <- Hp.
Qed.
End Blocking.

(** C36 - Blocking an account, whatever fails.  Either no table changes and the
    answer is a problem, or the account is blocked, so that no session of it is
    accepted any more; every device of it that is not revoked and has a node gets a
    command that revokes it there, open for 24 hours; none of its devices counts as
    provisioned; the call is audited; and the answer is 204, or 500 when the reply
    of the commit was lost.  The second happens only on a server that accepts the
    untyped parameter of the audit statement; PostgreSQL does not, so there no
    account can be blocked. *)
Theorem blocking_takes_effect {PU : PgUuid} {SV : PgServer} {MO : MapOrder} now s userID reason st r st' :
  updateUserStatus now s userID (Some (JObj [("status", JStr "blocked"); ("reason", JStr reason)])) st = (r, st') ->
  let unchanged := cp st' = cp st /\ is_problem r in
  let takes_effect := (r = Ok NoContent \/ r = Ok (problem 500 "db"))
    /\ exists user u, canonical_uuid userID = Ok user /\ c_users (cp st) !! user = Some u
         /\ blocked now user u (cp st) (cp st')
         /\ (forall text, canonical_uuid text = Ok user -> select_active text (cp st') = Ok false)
         /\ (forall device d a, c_devices (cp st) !! device = Some d -> cd_user d = user -> cd_revoked_at d = None ->
               c_assignments (cp st) !! device = Some a ->
               exists c, c ∈ c_commands (cp st') /\ is_open c = true /\ cm_node c = as_node a /\ cm_type c = "device.revoke"
                 /\ json_text (cm_payload c) "deviceId" = Some device) in
  if accepts UntypedParameter then unchanged \/ takes_effect else unchanged.
Proof.
  intros Hrun unchanged takes_effect. enough (unchanged \/ (accepts UntypedParameter = true /\ takes_effect)) as H.
  { destruct (accepts UntypedParameter); [destruct H as [|[_ H]]; auto|by destruct H as [|[? _]]]. }
  assert (Hp : forall status kind, is_problem (Ok (problem status kind))) by (intros; by eexists _, _).
  revert Hrun. unfold updateUserStatus.
  assert (Hd : decode_status (Some (JObj [("status", JStr "blocked"); ("reason", JStr reason)]))
               = Some (mkStatusChange "blocked" reason)) by reflexivity.
  rewrite Hd. cbn [sc_status sc_reason]. destruct (_ || _); [intros [= <- <-]; left; by split|].
  destruct (_ && _); [intros [= <- <-]; left; by split|].
  unfold bind at 1. destruct (read_or_run "" (first_role userID) st) as (cur & E1 & _). rewrite E1.
  destruct (_ && _); [intros [= <- <-]; left; by split|].
  intros [[Ht Hr]|(s1 & s2 & answer & failed & Hs1 & E & Ht & Hr)]%transact_cases.
  - left. split; [done|]. destruct Hr as [->|(s1 & s2 & _ & Hr)]; [apply Hp|].
    pose proof (status_tx_answers now s userID (mkStatusChange "blocked" reason) s1) as Ha.
    destruct (status_tx _ _ _ _ s1) as [[[r0|answer failed]|e] s3]; cbn [fst] in Ha; [|destruct Ha as [_ ->]|done]; by destruct Hr as [-> _].
  - right. pose proof (status_tx_answers now s userID (mkStatusChange "blocked" reason) s1) as Ha. rewrite E in Ha. destruct Ha as [_ ->].
    destruct (status_tx_blocks _ _ _ (mkStatusChange "blocked" reason) _ _ _ _ eq_refl E) as (Hacc & -> & user & u & Hu & Hrow & Hbl).
    rewrite <- Ht, Hs1 in Hbl. rewrite Hs1 in Hrow. split; [done|]. split; [done|].
    exists user, u. split_and!; [done..|apply (blocked_effects _ _ _ _ _ Hbl)|apply (blocked_effects _ _ _ _ _ Hbl)].
Qed.
(** On a server that accepts the statement the account is blocked and its device
    revoked; on PostgreSQL nothing happens. *)
Lemma blocking_takes_effect_witness :
  let t := with_users (fun m => <["u2" := mkUserRow "s2" "active" None]> m) sample_ctables in
  let out server := @updateUserStatus toy_uuid_type server sorted_order 5 (sample_session "u2") "u1"
               (Some (JObj [("status", JStr "blocked"); ("reason", JStr "fraud")])) (mkPg t [] false ["x"]) in
  cp (out postgres).2 = t
  /\ exists c, c ∈ c_commands (cp (out (all_commands true)).2) /\ is_open c = true /\ cm_node c = "n1" /\ cm_type c = "device.revoke"
       /\ json_text (cm_payload c) "deviceId" = Some "d1".
Proof.
  intros t out. split.
  - apply (@blocking_takes_effect toy_uuid_type postgres sorted_order 5 (sample_session "u2") "u1" "fraud" (mkPg t [] false ["x"])
      (out postgres).1 (out postgres).2). apply surjective_pairing.
  - assert (Hok : (out (all_commands true)).1 = Ok NoContent) by (vm_compute; reflexivity).
    destruct (out (all_commands true)) as [r st'] eqn:E. cbn [fst snd] in *. subst r.
    destruct (@blocking_takes_effect toy_uuid_type (all_commands true) sorted_order _ _ _ _ _ _ _ E)
      as [[_ (status & kind & [=])]|(_ & user & u & Hu & _ & _ & _ & H)]. injection Hu as <-.
    apply (H "d1" (sample_device "u1" "hash") (mkAssignmentRow "n1" None 0)); reflexivity.
Defined.

(** A command that is reported as failed may have been queued: the command is
    committed before its audit event, and when the server refuses the untyped
    parameters of the audit statement, the answer is 500 and the command stays. *)
Theorem failed_command_is_queued {PU : PgUuid} {SV : PgServer} now s nodeID node kind payload reason t id more :
  accepts UntypedParameter = false -> canonical_uuid nodeID = Ok node -> is_Some (c_nodes t !! node) ->
  Forall (fun c => cm_id c <> id) (c_commands t) -> kind ∈ allowed_orders -> TrimSpace reason <> "" -> jsonb_text payload = true ->
  let body := Some (JObj [("type", JStr kind); ("payload", payload); ("reason", JStr reason)]) in
  let out := enqueueCommand now s nodeID body (mkPg t [] false (id :: more)) in
  out.1 = Ok (problem 500 "db")
  /\ c_commands (cp out.2) = c_commands t ++ [mkCommandRow id node kind payload "pending" 0 now (TimeAdd now (24 * hour)) None None now]
  /\ c_audit (cp out.2) = c_audit t.
Proof.
  intros Hacc Hn [row Hrow] Hid Hk Hr Hj body out.
  set (t' := with_commands (fun l => l ++ [mkCommandRow id node kind payload "pending" 0 now (TimeAdd now (24 * hour)) None None now]) t).
  assert (Hq : queue_order now id nodeID kind payload t = Ok (tt, t')).
  { unfold queue_order, queue_command, insert_command. rewrite Hj, Hn, Hrow.
    replace (existsb _ _) with false; [done|]. symmetry. apply not_true_iff_false. intros (c & Hc & Heq)%existsb_exists.
    rewrite Forall_forall in Hid. apply (Hid c); [by apply list_elem_of_In|by apply String.eqb_eq]. }
  assert (Hrun : out = (Ok (problem 500 "db"), mkPg t' [] false more)); [|by rewrite Hrun].
  unfold out, enqueueCommand.
  assert (Hd : decode_order body = Some (mkOrder kind (Some payload) reason)) by reflexivity.
  rewrite Hd. cbn [or_payload or_type or_reason].
  assert (Hk1 : String.eqb kind "" = false) by (apply String.eqb_neq; intros ->; unfold allowed_orders in Hk; set_solver).
  rewrite Hk1, (proj2 (String.eqb_neq _ _) Hr). cbn [orb].
  assert (Hk2 : existsb (String.eqb kind) allowed_orders = true).
  { apply existsb_exists. exists kind. split; [by apply list_elem_of_In|apply String.eqb_refl]. }
  rewrite Hk2. cbn [negb]. eapply bind_run; [reflexivity|]. eapply bind_run.
  { unfold try. erewrite (bind_run _ _ _ tt (mkPg t' [] false more) (Err (SqlErr SqlFault), mkPg t' [] false more)); [reflexivity|..].
    - unfold pool. cbn -[queue_order]. rewrite Hq. reflexivity.
    - unfold pool. cbn -[checked]. unfold checked. by rewrite Hacc. }
  reflexivity.
Qed.
Lemma failed_command_is_queued_witness :
  let out := @enqueueCommand toy_uuid_type postgres 5 (sample_session "u1") "n1"
    (Some (JObj [("type", JStr "drain"); ("payload", JObj []); ("reason", JStr "maintenance")]))
    (mkPg sample_ctables [] false ["x"]) in
  out.1 = Ok (problem 500 "db") /\ c_commands (cp out.2) = [mkCommandRow "x" "n1" "drain" (JObj []) "pending" 0 5 (TimeAdd 5 (24 * hour)) None None 5].
Proof.
  intros out. destruct (@failed_command_is_queued toy_uuid_type postgres 5 (sample_session "u1") "n1" "n1" "drain" (JObj [])
    "maintenance" sample_ctables "x" []) as (H1 & H2 & _).
  - reflexivity.
  - reflexivity.
  - vm_compute. by eexists.
  - constructor.
  - unfold allowed_orders. set_solver.
  - discriminate.
  - reflexivity.
  - exact (conj H1 H2).
Defined.
