(* ===== verification/Devices.v ===== *)
(** * Devices and subscription links

    src/internal/controlplane/app.go: creation of a device with its subscription
    link, the link itself, the rebinding of a device and the document that a
    client program fetches with its token, which binds the device to the client's
    hardware and starts the trial.  Random values and clock readings are
    arguments: a token whose generation failed is empty, a nonce [None]. *)

From S2P Require Import Prelude GoStrings GoUrl Base64 Sha Json Xray Mfa Vault Crypto Protocol Billing Pg Hub Web Session Wallet Admin.
From stdpp Require Import base gmap strings list.
From Stdlib Require Import ZArith Lia Ascii.
Open Scope Z_scope.

(** ** Links *)

Definition hysteriaURI (credential domain obfsPassword : string) : string :=
  let query := (if String.eqb obfsPassword "" then [] else [("obfs", "salamander"); ("obfs-password", obfsPassword)])
               ++ [("sni", domain)] in
  "hysteria2://" +:+ QueryEscape credential +:+ "@" +:+ domain +:+ ":443/?" +:+ EncodeValues query
  +:+ "#RiseVPN · Защищённый маршрут".

Definition vlessWebSocketURI `{UuidSha1} `{UpperTables} (credential domain : string) : string :=
  let id := IDFromCredential credential in
  let query := [("alpn", "http/1.1"); ("encryption", "none"); ("fp", "chrome"); ("host", domain);
                ("path", "/risevpn-v1"); ("security", "tls"); ("sni", domain); ("type", "ws")] in
  let label := "RiseVPN · " +:+ ToUpper (stake 8 id) +:+ " · Chrome TLS" in
  "vless://" +:+ id +:+ "@" +:+ domain +:+ ":443?" +:+ EncodeValues query +:+ "#" +:+ PathEscape label.

(** The loop of [bytesEqual], with the accumulated differences. *)
Fixpoint bytes_differ (a b : string) (v : Z) : Z :=
  match a, b with
  | String c a', String d b' => bytes_differ a' b' (Z.lor v (Z.lxor (byte_val c) (byte_val d)))
  | _, _ => v
  end.
Definition bytesEqual (a b : string) : bool :=
  (String.length a =? String.length b)%nat && (bytes_differ a b 0 =? 0).

Section Devices.
Context {PU : PgUuid} {MO : MapOrder} `{Aead} (vault : Vault) (publicURL : string).

(** [a.vault.Encrypt] with the nonce that was drawn; an error leaves NULL. *)
Definition sealed (nonce : option string) (value aad : string) : option string :=
  (fun nonce => Encrypt vault nonce value aad) <$> nonce.
Definition link (token : string) : string := trim_slashes publicURL +:+ "/s/" +:+ token.
Definition link_aad (id : string) : string := "subscription:" +:+ id.

(** ** Creation *)

Definition decode_name : option json -> option string :=
  decode_request ["name"] (dec_struct (fun m old => field "name" dec_string m old)) "".

Definition is_active (d : cdevice_row) : bool := match cd_revoked_at d with None => true | Some _ => false end.
Definition user_devices (user : string) (t : ctables) : list cdevice_row :=
  filter (fun d => cd_user d = user) (snd <$> map_to_list (c_devices t)).
Definition active_devices (user : string) (t : ctables) : Z :=
  Z.of_nat (length (filter (fun d => is_active d = true) (user_devices user t))).
Definition select_limit (userID : string) (t : ctables) : result (Z * Z) :=
  match canonical_uuid userID with
  | Err e => Err e
  | Ok user =>
      match s ← c_subscriptions t !! user; c_plans t !! sb_plan s with
      | Some p => Ok (pl_device_limit p, active_devices user t)
      | None => Err (SqlErr SqlNoRows)
      end
  end.

(** [COALESCE(max(slot),0)+1], an integer of 32 bits. *)
Definition next_slot (user : string) (t : ctables) : Z :=
  match cd_slot <$> user_devices user t with [] => 0 | s :: more => foldr Z.max s more end + 1.
Definition insert_device (id userID name : string) (credential : option string) (credential_hash token_hash : string)
    (token : option string) (t : ctables) : result (Z * ctables) :=
  match canonical_uuid id, canonical_uuid userID with
  | Ok device, Ok user =>
      let slot := next_slot user t in
      if negb (pg_text name) then Err (SqlErr SqlFault) else
      if 2147483647 <? slot then Err (SqlErr SqlFault) else
      match credential, c_users t !! user, c_devices t !! device with
      | Some credential, Some _, None =>
          if existsb (fun '(_, d) => String.eqb (cd_credential_hash d) credential_hash
                                     || String.eqb (cd_token_hash d) token_hash) (map_to_list (c_devices t))
          then Err (SqlErr SqlConstraint) else
          Ok (slot, with_cdevices (insert device
                (mkCdeviceRow user slot name None credential credential_hash token_hash token None None None)) t)
      | _, _, _ => Err (SqlErr SqlConstraint)
      end
  | Err e, _ | _, Err e => Err e
  end.

Definition created_reply (id name token : string) (slot : Z) : reply :=
  jsonResponse 201 (Some (JObj [("id", JStr id); ("name", JStr name); ("slot", jint slot);
                                ("subscriptionUrl", JStr (link token))])).
Definition create_tx (s : session) (name credential token id : string) (nonce1 nonce2 : option string)
    : prog pg (tx_step reply) :=
  let* row := try (stmt (select (select_limit (ss_UserID s)))) in
  match row with
  | Err _ => ret (Abandon (problem 409 "device-limit"))
  | Ok (limit, count) =>
      if limit <=? count then ret (Abandon (problem 409 "device-limit")) else
      committing (
        let* slot := stmt (insert_device id (ss_UserID s) (TrimSpace name) (sealed nonce1 credential id)
                             (sha256 credential) (sha256 token) (sealed nonce2 token (link_aad id))) in
        ret (created_reply id name token slot)) (problem 500 "db")
  end.
Definition createDevice (s : session) (body : option json) (credential token id : string) (nonce1 nonce2 : option string)
    : prog pg reply :=
  match decode_name body with
  | None => ret (problem 400 "invalid")
  | Some name =>
      if String.eqb (TrimSpace name) "" then ret (problem 400 "invalid")
      else transact (problem 500 "db") (create_tx s name credential token id nonce1 nonce2)
  end.

(** ** The link of a device *)

(** The device of that user which is not revoked. *)
Definition own_device (id userID : string) (t : ctables) : result (string * cdevice_row) :=
  match canonical_uuid id, canonical_uuid userID with
  | Ok device, Ok user =>
      match c_devices t !! device with
      | Some d => if String.eqb (cd_user d) user && is_active d then Ok (device, d) else Err (SqlErr SqlNoRows)
      | None => Err (SqlErr SqlNoRows)
      end
  | Err e, _ | _, Err e => Err e
  end.
Definition set_token (hash token id userID : string) (t : ctables) : result (unit * ctables) :=
  match canonical_uuid id, canonical_uuid userID with
  | Ok device, Ok user =>
      match c_devices t !! device with
      | Some d =>
          if negb (String.eqb (cd_user d) user) then Ok (tt, t) else
          if existsb (fun '(other, d') => negb (String.eqb other device) && String.eqb (cd_token_hash d') hash)
               (map_to_list (c_devices t)) then Err (SqlErr SqlConstraint) else
          Ok (tt, with_cdevices (insert device (mkCdeviceRow (cd_user d) (cd_slot d) (cd_name d) (cd_hwid d)
                (cd_credential d) (cd_credential_hash d) hash (Some token) (cd_last_bound d) (cd_last_seen d) (cd_revoked_at d))) t)
      | None => Ok (tt, t)
      end
  | Err e, _ | _, Err e => Err e
  end.

Definition link_reply (token : string) : reply :=
  jsonResponse 200 (Some (JObj [("subscriptionUrl", JStr (link token))])).
Definition deviceSubscription (s : session) (id : string) (fresh nonce : option string) : prog pg reply :=
  let* row := try (pool (select (own_device id (ss_UserID s)))) in
  match row with
  | Err _ => ret (problem 404 "device")
  | Ok (_, d) =>
      let encrypted := default "" (cd_token d) in
      let* token := try (
        if negb (String.eqb encrypted "") then lift (Decrypt vault encrypted (link_aad id)) else
        match fresh with
        | None => fail (LibErr "crypto/rand")
        | Some token =>
            match nonce with
            | None => fail (LibErr "crypto/rand")
            | Some nonce => pool (set_token (sha256 token) (Encrypt vault nonce token (link_aad id)) id (ss_UserID s)) ;;; ret token
            end
        end) in
      ret (match token with Ok token => link_reply token | Err _ => problem 500 "subscription-token" end)
  end.

(** ** Rebinding *)

Definition set_credential (id : string) (credential : option string) (hash : string) (t : ctables) : result (unit * ctables) :=
  match canonical_uuid id with
  | Err e => Err e
  | Ok device =>
      match c_devices t !! device, credential with
      | None, _ => Ok (tt, t)
      | Some _, None => Err (SqlErr SqlConstraint)
      | Some d, Some credential =>
          if existsb (fun '(other, d') => negb (String.eqb other device) && String.eqb (cd_credential_hash d') hash)
               (map_to_list (c_devices t)) then Err (SqlErr SqlConstraint) else
          Ok (tt, with_cdevices (insert device (mkCdeviceRow (cd_user d) (cd_slot d) (cd_name d) None credential hash
                (cd_token_hash d) (cd_token d) None (cd_last_seen d) (cd_revoked_at d))) t)
      end
  end.
Definition delete_leases (id : string) (t : ctables) : result (unit * ctables) :=
  match canonical_uuid id with
  | Err e => Err e
  | Ok device => Ok (tt, with_leases (filter (fun l => ls_device l <> device)) t)
  end.
Definition unprovision_device (now : time) (id : string) (t : ctables) : result (unit * ctables) :=
  match canonical_uuid id with
  | Err e => Err e
  | Ok device => Ok (tt, with_assignments (alter (fun a => mkAssignmentRow (as_node a) None now) device) t)
  end.

(** [begun] is the start of the transaction and [now] the program's clock. *)
Definition rebind_tx (begun now : time) (s : session) (id credential : string) (nonce : option string)
    : prog pg (tx_step reply) :=
  let* row := try (stmt (select (own_device id (ss_UserID s)))) in
  match row with
  | Err _ => ret (Abandon (problem 404 "device"))
  | Ok (_, d) =>
      if match cd_last_bound d with Some last => After (TimeAdd last (24 * hour)) now | None => false end
      then ret (Abandon (problem 429 "rebind-limit")) else
      committing (
        stmt (set_credential id (sealed nonce credential id) (sha256 credential)) ;;;
        stmt (delete_leases id) ;;;
        stmt (unprovision_device begun id) ;;;
        ret NoContent) (problem 500 "db")
  end.
Definition rebindDevice (begun now after : time) (s : session) (id credential : string) (nonce : option string)
    : prog pg reply :=
  let* r := transact (problem 500 "db") (rebind_tx begun now s id credential nonce) in
  match r with
  | NoContent =>
      let* _ := try (queueDeviceCommand after id "device.revoke"
                       (Some (JObj [("deviceId", JStr id); ("reason", JStr "credential rotation")]))) in
      ret NoContent
  | _ => ret r
  end.
End Devices.

(** ** The subscription document *)

(** [capabilities @> '["name"]'] *)
Definition has_capability (name : string) (capabilities : json) : bool :=
  match capabilities with
  | JArr l => existsb (fun j => match j with JStr s => String.eqb s name | _ => false end) l
  | _ => false
  end.
Definition ws_capability : string := "fallback.vless-ws-tls".
Definition trialDuration : Z := 3 * 24 * hour.

(** The row that a token opens. *)
Record document := mkDocument {
  do_device : string; do_row : cdevice_row; do_subject : string; do_terms : bool;
  do_plan : string; do_status : string; do_ends : option time; do_quota : Z; do_used : Z;
  do_node : option (string * string); do_ws : bool }.   (* node: its id and domain *)
Definition select_document (hash : string) (t : ctables) : result document :=
  match list_find (fun '(_, d) => cd_token_hash d = hash) (map_to_list (c_devices t)) with
  | Some (_, (device, d)) =>
      match c_users t !! cd_user d, c_subscriptions t !! cd_user d with
      | Some u, Some s =>
          if is_active d && String.eqb (us_status u) "active" then
            let node := a ← c_assignments t !! device; n ← c_nodes t !! as_node a; Some (as_node a, nd_route n) in
            Ok (mkDocument device d (us_subject u) (String.eqb (default "" (us_terms u)) currentTermsVersion)
                  (sb_plan s) (sb_status s) (sb_ends s) (sb_quota s) (sb_used s)
                  ((fun nr => (nr.1, rt_domain nr.2)) <$> node)
                  (match node with Some nr => has_capability ws_capability (rt_capabilities nr.2) | None => false end))
          else Err (SqlErr SqlNoRows)
      | _, _ => Err (SqlErr SqlNoRows)
      end
  | None => Err (SqlErr SqlNoRows)
  end.

Section Document.
Context {PU : PgUuid} {MO : MapOrder} {ED : Ed25519} `{Aead} `{UuidSha1} `{UpperTables}
  (vault : Vault) (obfsPassword quotaPrivateKey : string).

Definition trial_reused (subject fingerprint : string) (t : ctables) : result bool :=
  Ok (existsb (fun sf => String.eqb sf.1 subject || String.eqb sf.2 fingerprint) (c_fingerprints t)).
Definition start_trial (now ends : time) (deviceID : string) (t : ctables) : result (unit * ctables) :=
  match canonical_uuid deviceID with
  | Err e => Err e
  | Ok device =>
      match c_devices t !! device with
      | Some d =>
          Ok (tt, with_subscriptions (alter (fun s =>
                if String.eqb (sb_status s) "pending_trial"
                then mkSubscriptionRow (sb_plan s) (sb_pending s) "active" (Some now) (Some ends) (sb_grace s) 20000000000 (sb_used s)
                else s) (cd_user d)) t)
      | None => Ok (tt, t)
      end
  end.
Definition insert_fingerprint (subject fingerprint : string) (t : ctables) : result (unit * ctables) :=
  if bool_decide ((subject, fingerprint) ∈ c_fingerprints t) then Err (SqlErr SqlConstraint)
  else Ok (tt, with_fingerprints (fun l => l ++ [(subject, fingerprint)]) t).
Definition update_device (deviceID : string) (f : cdevice_row -> cdevice_row) (t : ctables) : result (unit * ctables) :=
  match canonical_uuid deviceID with
  | Err e => Err e
  | Ok device => Ok (tt, with_cdevices (alter f device) t)
  end.
Definition bound_row (now : time) (fingerprint : string) (d : cdevice_row) : cdevice_row :=
  mkCdeviceRow (cd_user d) (cd_slot d) (cd_name d) (Some fingerprint) (cd_credential d) (cd_credential_hash d)
    (cd_token_hash d) (cd_token d) (Some now) (Some now) (cd_revoked_at d).
Definition seen_row (now : time) (d : cdevice_row) : cdevice_row :=
  mkCdeviceRow (cd_user d) (cd_slot d) (cd_name d) (cd_hwid d) (cd_credential d) (cd_credential_hash d)
    (cd_token_hash d) (cd_token d) (cd_last_bound d) (Some now) (cd_revoked_at d).

(** The least loaded healthy node with a recent feed, then the nearest one. *)
Definition routable (now : time) (n : node_row) : bool :=
  String.eqb (rt_status (nd_route n)) "healthy"
  && match nd_compliance_fetched_at n with Some at_ => now - 6 * hour <? at_ | None => false end
  && has_capability ws_capability (rt_capabilities (nd_route n)).
Definition nearer (a b : route_row) : bool :=
  (rt_load a <? rt_load b)
  || ((rt_load a =? rt_load b)
      && match rt_rtt a, rt_rtt b with Some x, Some y => x <=? y | _, None => true | None, Some _ => false end).
Fixpoint nearest (nodes : list (string * node_row)) : option (string * node_row) :=
  match nodes with
  | [] => None
  | n :: more => match nearest more with
                 | Some m => if nearer (nd_route n.2) (nd_route m.2) then Some n else Some m
                 | None => Some n
                 end
  end.

(** The answer to a fetch. *)
Inductive page := Plain (transport uri : string) (userinfo : option string) | Refuse (r : reply).

Definition choose_node (now : time) (t : ctables) : result (string * string) :=
  match nearest (filter (fun kn => routable now kn.2 = true) (range (c_nodes t))) with
  | Some (node, n) => Ok (node, rt_domain (nd_route n))
  | None => Err (SqlErr SqlNoRows)
  end.
Definition assign_node (now : time) (deviceID nodeID : string) (t : ctables) : result (unit * ctables) :=
  match canonical_uuid deviceID, canonical_uuid nodeID with
  | Ok device, Ok node =>
      match c_devices t !! device, c_nodes t !! node with
      | Some _, Some _ =>
          Ok (tt, with_assignments (insert device
                (mkAssignmentRow node (match c_assignments t !! device with
                                       | Some old => as_provisioned_at old
                                       | None => Some now
                                       end) now)) t)
      | _, _ => Err (SqlErr SqlConstraint)
      end
  | Err e, _ | _, Err e => Err e
  end.

(** The transaction that binds a device: the status and the end of the period
    afterwards, or a refusal.  [begun] is its start, [now] the program's clock. *)
Definition bind_tx (begun now : time) (d : document) (fingerprint : string)
    : prog pg (tx_step (page + (string * option time))) :=
  let failed := inl (Refuse (problem 500 "bind")) in
  if String.eqb (do_plan d) "TRIAL" && String.eqb (do_status d) "pending_trial" then
    let* reused := try (stmt (select (trial_reused (do_subject d) fingerprint))) in
    if match reused with Ok b => b | Err _ => false end then ret (Abandon (inl (Refuse (problem 409 "trial-used")))) else
    let trialEnd := TimeAdd now trialDuration in
    committing (
      stmt (start_trial now trialEnd (do_device d)) ;;;
      stmt (insert_fingerprint (do_subject d) fingerprint) ;;;
      stmt (update_device (do_device d) (bound_row begun fingerprint)) ;;;
      ret (inr ("active", Some trialEnd))) failed
  else
    committing (
      stmt (update_device (do_device d) (bound_row begun fingerprint)) ;;;
      ret (inr (do_status d, do_ends d))) failed.

(** Clock readings and the fresh lease id of one fetch. *)
Record fetch_clock := mkFetchClock {
  fc_bind : time; fc_now : time; fc_seen : time; fc_route : time; fc_assign : time; fc_begun : time; fc_lease : time;
  fc_leaseID : string }.

Definition new_route (c : fetch_clock) (d : document) : prog pg (page + (string * string)) :=
  let* found := try (pool (select (choose_node (fc_route c)))) in
  match found with
  | Err _ => ret (inl (Refuse (problem 503 "no-route")))
  | Ok (node, domain) =>
      let* _ := try (pool (assign_node (fc_assign c) (do_device d) node)) in
      ret (inr (node, domain))
  end.
(** The node of the device: the assigned one, or a new one. *)
Definition route (c : fetch_clock) (d : document) : prog pg (page + (string * string)) :=
  match do_node d with
  | Some (node, domain) => if String.eqb domain "" then new_route c d else ret (inr (node, domain))
  | None => new_route c d
  end.

Definition userinfo (d : document) (ends : time) : string :=
  "upload=0; download=" +:+ FormatInt (do_used d) +:+ "; total=" +:+ FormatInt (do_quota d)
  +:+ "; expire=" +:+ FormatInt (Unix ends).

(** What follows once the device is bound. *)
Definition serve (c : fetch_clock) (d : document) (status : string) (ends : option time) : prog pg page :=
  let* _ := try (pool (update_device (do_device d) (seen_row (fc_seen c)))) in
  if negb (String.eqb status "active") && negb (String.eqb status "grace")
  then ret (Refuse (problem 403 "subscription-inactive")) else
  let* target := route c d in
  match target with
  | inl refused => ret refused
  | inr (node, domain) =>
      let* provisioned := try (provisionDevice quotaPrivateKey (fc_begun c) (fc_lease c) (fc_leaseID c) (do_device d) node) in
      match provisioned with
      | Err _ => ret (Refuse (problem 503 "provisioning"))
      | Ok _ =>
          match Decrypt vault (cd_credential (do_row d)) (do_device d) with
          | Err _ => ret (Refuse (problem 500 "credential"))
          | Ok credential =>
              let '(transport, uri) := if do_ws d then ("vless-ws-tls", vlessWebSocketURI credential domain)
                                       else ("hysteria2", hysteriaURI credential domain obfsPassword) in
              ret (Plain transport uri (userinfo d <$> ends))
          end
      end
  end.

(** [token] is the path's, [header] the X-HWID header.  A transaction that can not
    begin makes the handler panic. *)
Definition subscriptionDocument (c : fetch_clock) (token header : string) : prog pg page :=
  let hwid := TrimSpace header in
  if String.eqb hwid "" then ret (Refuse (problem 428 "hwid-required")) else
  let* row := try (pool (select (select_document (sha256 token)))) in
  match row with
  | Err _ => ret (Refuse (problem 404 "subscription-token"))
  | Ok d =>
      if negb (do_terms d) then ret (Refuse (problem 428 "terms-required")) else
      let fingerprint := HWID vault hwid in
      let stored := default "" (cd_hwid (do_row d)) in
      if String.eqb stored "" then
        let* out := transact (inl (Refuse panicked)) (bind_tx (fc_bind c) (fc_now c) d fingerprint) in
        match out with
        | inl refused => ret refused
        | inr (status, ends) => serve c d status ends
        end
      else if negb (bytesEqual stored fingerprint) then ret (Refuse (problem 409 "hwid-mismatch"))
      else serve c d (do_status d) (do_ends d)
  end.
End Document.

(** ** Lemmas on fetches *)

Section Fetch.
Context {PU : PgUuid} {MO : MapOrder} {ED : Ed25519} `{Aead} `{UuidSha1} `{UpperTables}
  (vault : Vault) (obfsPassword quotaPrivateKey : string).

(** The identifiers that the database stores are canonical. *)
Definition canonical_ids (t : ctables) : Prop := forall id d, c_devices t !! id = Some d -> canonical_uuid id = Ok id.

Record opened (hash : string) (t : ctables) (d : document) : Prop := {
  op_device : c_devices t !! do_device d = Some (do_row d);
  op_hash : cd_token_hash (do_row d) = hash;
  op_live : cd_revoked_at (do_row d) = None;
  op_user : exists u, c_users t !! cd_user (do_row d) = Some u /\ us_status u = "active" /\ us_subject u = do_subject d
    /\ do_terms d = bool_decide (us_terms u = Some currentTermsVersion);
  op_subscription : exists s, c_subscriptions t !! cd_user (do_row d) = Some s
    /\ sb_plan s = do_plan d /\ sb_status s = do_status d /\ sb_ends s = do_ends d
    /\ sb_quota s = do_quota d /\ sb_used s = do_used d;
  op_node : forall node domain, do_node d = Some (node, domain) ->
    exists a n, c_assignments t !! do_device d = Some a /\ as_node a = node /\ c_nodes t !! node = Some n /\ rt_domain (nd_route n) = domain }.

Lemma select_document_ok hash t d : select_document hash t = Ok d -> opened hash t d.
Proof.
  unfold select_document. destruct (list_find _ _) as [[i [device row]]|] eqn:E; [|done].
  apply list_find_Some in E as (Hi & Hhash & _). apply list_elem_of_lookup_2, elem_of_map_to_list in Hi.
  destruct (c_users t !! cd_user row) as [u|] eqn:Eu; [|done]. destruct (c_subscriptions t !! cd_user row) as [s|] eqn:Es; [|done].
  destruct (is_active row) eqn:Ea; [|done]. destruct (String.eqb_spec (us_status u) "active"); [|done]. cbn [andb].
  intros [= <-]. split; cbn; [done|done| | | |].
  - unfold is_active in Ea. by destruct (cd_revoked_at row).
  - exists u. split_and!; [done..|]. unfold currentTermsVersion. destruct (us_terms u) as [v|]; cbn; [|done].
    destruct (String.eqb_spec v "2026-08-09") as [->|Hne]; [done|]. symmetry. apply bool_decide_eq_false. congruence.
  - exists s. done.
  - intros node domain. destruct (c_assignments t !! device) as [a|]; cbn; [|done].
    destruct (c_nodes t !! as_node a) as [n|] eqn:En; cbn; [|done]. intros [= <- <-]. by exists a, n.
Qed.

(** Nothing that is served after the binding touches subscriptions, trials or
    the binding. *)
Definition binding (t : ctables) :=
  (c_users t, c_subscriptions t, c_fingerprints t, (fun d => (cd_user d, cd_hwid d)) <$> c_devices t).
Lemma update_device_binding deviceID f t a t' :
  (forall d, cd_user (f d) = cd_user d /\ cd_hwid (f d) = cd_hwid d) ->
  update_device deviceID f t = Ok (a, t') -> same binding t t'.
Proof.
  intros Hf. unfold update_device. destruct (canonical_uuid deviceID) as [device|]; [|done]. intros [= _ <-].
  unfold same, binding. cbn. f_equal. apply map_eq. intros k. rewrite !lookup_fmap.
  destruct (decide (k = device)) as [->|]; [rewrite lookup_alter_eq|by rewrite lookup_alter_ne].
  destruct (c_devices t !! device) as [d|]; cbn; [|done]. destruct (Hf d) as [-> ->]. done.
Qed.
Lemma route_binding c d : keeps (on_tables (same binding)) (route c d).
Proof.
  assert (Hn : keeps (on_tables (same binding)) (new_route c d)).
  { unfold new_route. keep; (apply keeps_pool; [apply _|]); intros t1 x t2.
    - intros [_ ->]%select_ok. done.
    - unfold assign_node. intros E. by go_cases E. }
  unfold route. keep.
Qed.
Lemma serve_binding c d status ends : keeps (on_tables (same binding)) (serve vault obfsPassword quotaPrivateKey c d status ends).
Proof.
  unfold serve. pose proof (route_binding c d) as Hr.
  assert (Hp : forall node, keeps (on_tables (same binding)) (provisionDevice quotaPrivateKey (fc_begun c) (fc_lease c) (fc_leaseID c) (do_device d) node))
    by (intros node; by apply provisionDevice_frame).
  keep; first [apply keeps_pool; [apply _|]; intros t1 x t2; by apply update_device_binding|auto].
Qed.
End Fetch.

Section Binding.
Context {PU : PgUuid} {MO : MapOrder} {ED : Ed25519} `{Aead} `{UuidSha1} `{UpperTables}
  (vault : Vault) (obfsPassword quotaPrivateKey : string).

Definition hwids (t : ctables) : gmap string (string * option string) := (fun d => (cd_user d, cd_hwid d)) <$> c_devices t.
Definition trial_row (now : time) (s : subscription_row) : subscription_row :=
  mkSubscriptionRow (sb_plan s) (sb_pending s) "active" (Some now) (Some (TimeAdd now trialDuration)) (sb_grace s)
    20000000000 (sb_used s).

(** What one fetch makes of the bindings, the trials and the subscriptions. *)
Inductive fetched (now : time) (d : document) (fp : string) (t t' : ctables) : Prop :=
  | Untouched : binding t' = binding t -> fetched now d fp t t'
  | Bound :
      default "" (cd_hwid (do_row d)) = "" -> ~ (do_plan d = "TRIAL" /\ do_status d = "pending_trial") ->
      binding t' = (c_users t, c_subscriptions t, c_fingerprints t, <[do_device d := (cd_user (do_row d), Some fp)]> (hwids t)) ->
      fetched now d fp t t'
  | Started s :
      default "" (cd_hwid (do_row d)) = "" -> do_plan d = "TRIAL" -> do_status d = "pending_trial" ->
      c_subscriptions t !! cd_user (do_row d) = Some s ->
      do_subject d ∉ (c_fingerprints t).*1 -> fp ∉ (c_fingerprints t).*2 ->
      binding t' = (c_users t, <[cd_user (do_row d) := trial_row now s]> (c_subscriptions t),
                    c_fingerprints t ++ [(do_subject d, fp)], <[do_device d := (cd_user (do_row d), Some fp)]> (hwids t)) ->
      fetched now d fp t t'.

Lemma bound_hwids begun fp device t d :
  c_devices t !! device = Some d ->
  hwids (with_cdevices (alter (bound_row begun fp) device) t) = <[device := (cd_user d, Some fp)]> (hwids t).
Proof.
  intros Hd. unfold hwids. cbn. apply map_eq. intros k. rewrite lookup_fmap.
  destruct (decide (k = device)) as [->|Hne]; [|by rewrite lookup_alter_ne, lookup_insert_ne, lookup_fmap].
  rewrite lookup_alter_eq, lookup_insert_eq, Hd. done.
Qed.

Lemma bind_tx_commit begun now d fp hash t st answer failed st' :
  default "" (cd_hwid (do_row d)) = "" -> cp st = t -> canonical_ids t -> opened hash t d ->
  bind_tx begun now d fp st = (Ok (Commit answer failed), st') ->
  fetched now d fp t (cp st') /\ failed = inl (Refuse (problem 500 "bind"))
  /\ exists status ends, answer = inr (status, ends)
       /\ (exists s, c_subscriptions (cp st') !! cd_user (do_row d) = Some s /\ sb_status s = status)
       /\ hwids (cp st') !! do_device d = Some (cd_user (do_row d), Some fp).
Proof.
  intros Hfree Ht Hids Hop. pose proof (Hids _ _ (op_device _ _ _ Hop)) as Hc. unfold bind_tx.
  destruct (String.eqb (do_plan d) "TRIAL" && String.eqb (do_status d) "pending_trial") eqn:Etrial.
  - apply andb_true_iff in Etrial as [Hplan%String.eqb_eq Hst%String.eqb_eq].
    intros (reused & s1 & E1%try_done & E)%bind_done.
    destruct (match reused with Ok b => b | Err _ => false end) eqn:Er; [done|].
    apply committing_commit in E as [E ->].
    apply bind_done in E as ([] & s2 & E2 & E). apply bind_done in E as ([] & s3 & E3 & E).
    apply bind_done in E as ([] & s4 & E4 & E). injection E as <- <-.
    apply stmt_ok in E2 as (Hab & _ & t2 & E2 & H2), E3 as (_ & _ & t3 & E3 & H3), E4 as (_ & _ & t4 & E4 & H4).
    destruct reused as [b|e]; [|by rewrite (stmt_err _ _ _ _ E1) in Hab]. subst b.
    apply stmt_select_ok in E1 as [E1 Hs1]. rewrite Hs1, Ht in E2.
    unfold start_trial in E2. rewrite Hc, (op_device _ _ _ Hop) in E2. injection E2 as <-.
    unfold insert_fingerprint in E3. destruct (bool_decide _); [done|]. injection E3 as <-.
    unfold update_device in E4. rewrite Hc in E4. injection E4 as <-.
    destruct (op_subscription _ _ _ Hop) as (s & Hs & _ & Hss & _).
    assert (Hno : do_subject d ∉ (c_fingerprints t).*1 /\ fp ∉ (c_fingerprints t).*2).
    { rewrite Ht in E1. injection E1 as E1. split; intros (sf & Heq & Hin)%list_elem_of_fmap;
        (apply not_true_iff_false in E1; apply E1, existsb_exists; exists sf; split; [by apply list_elem_of_In|]);
        rewrite orb_true_iff, !String.eqb_eq; auto. }
    destruct Hno as [Hno1 Hno2].
    assert (Hb : hwids (cp s4) = <[do_device d := (cd_user (do_row d), Some fp)]> (hwids t)).
    { rewrite H4, H3, H2. rewrite (bound_hwids begun fp _ _ (do_row d)); [done|]. apply Hop. }
    assert (Hsub : c_subscriptions (cp s4) = <[cd_user (do_row d) := trial_row now s]> (c_subscriptions t)).
    { rewrite H4, H3, H2. cbn. apply map_eq. intros k. destruct (decide (k = cd_user (do_row d))) as [->|].
      - rewrite lookup_alter_eq, lookup_insert_eq, Hs. cbn. by rewrite Hss, Hst.
      - by rewrite lookup_alter_ne, lookup_insert_ne. }
    split_and!; [|done|].
    + eapply (Started _ _ _ _ _ s); try done. unfold binding. fold (hwids (cp s4)). rewrite Hb, Hsub, H4, H3, H2. done.
    + eexists _, _. split; [done|]. rewrite Hsub, Hb, !lookup_insert_eq. split; [by eexists|done].
  - intros [E ->]%committing_commit. apply bind_done in E as ([] & s2 & E2 & E). injection E as <- <-.
    apply stmt_ok in E2 as (_ & _ & t2 & E2 & H2). unfold update_device in E2. rewrite Hc, Ht in E2. injection E2 as <-.
    assert (Hb : hwids (cp s2) = <[do_device d := (cd_user (do_row d), Some fp)]> (hwids t)).
    { rewrite H2. apply bound_hwids, Hop. }
    split_and!; [|done|].
    + apply Bound; [done| |unfold binding; fold (hwids (cp s2)); by rewrite Hb, H2].
      intros [Hp Hs]. by rewrite Hp, Hs in Etrial.
    + eexists _, _. split; [done|]. rewrite Hb, lookup_insert_eq. split; [|done]. rewrite H2. cbn.
      destruct (op_subscription _ _ _ Hop) as (s & Hs & _ & Hss & _). by exists s.
Qed.
End Binding.

(** [bytesEqual] decides equality. *)
Lemma bytes_differ_zero a b v :
  String.length a = String.length b -> bytes_differ a b v = 0 <-> v = 0 /\ a = b.
Proof.
  revert b v. induction a as [|c a IH]; intros [|d b] v; cbn [String.length bytes_differ]; try done; [by intros _; split; [|intros []]|].
  intros [= Hlen]. rewrite IH, Z.lor_eq_0_iff, Z.lxor_eq_0_iff by done. split.
  - intros [[-> Hc] ->]. split; [done|]. f_equal. unfold byte_val in Hc. apply N2Z.inj in Hc.
    by rewrite <- (ascii_N_embedding c), <- (ascii_N_embedding d), Hc.
  - intros [-> [= -> ->]]. done.
Qed.
Lemma bytesEqual_spec a b : bytesEqual a b = true <-> a = b.
Proof.
  unfold bytesEqual. rewrite andb_true_iff, Nat.eqb_eq, Z.eqb_eq. split.
  - intros [Hlen Hd]. by apply bytes_differ_zero in Hd as [_ ?].
  - intros ->. split; [done|]. by apply bytes_differ_zero.
Qed.

Section Steps.
Context {PU : PgUuid} {MO : MapOrder} {ED : Ed25519} `{Aead} `{UuidSha1} `{UpperTables}
  (vault : Vault) (obfsPassword quotaPrivateKey : string).

Lemma nearest_elem l n : nearest l = Some n -> n ∈ l.
Proof.
  revert n. induction l as [|m l IH]; intros n; cbn; [done|]. destruct (nearest l) as [k|].
  - destruct (nearer _ _); intros [= <-]; [by left|right; by apply IH].
  - intros [= <-]. by left.
Qed.
Lemma choose_node_ok now t node domain :
  choose_node now t = Ok (node, domain) ->
  exists n, c_nodes t !! node = Some n /\ routable now n = true /\ rt_domain (nd_route n) = domain.
Proof.
  unfold choose_node. destruct (nearest _) as [[k n]|] eqn:E; [|done]. intros [= <- <-].
  apply nearest_elem, list_elem_of_filter in E as [Hr Hin%elem_of_range]. eauto.
Qed.
Lemma new_route_ok c d st x st' :
  new_route c d st = (Ok x, st') ->
  (exists r, x = inl (Refuse r)) \/ exists node n, c_nodes (cp st) !! node = Some n /\ x = inr (node, rt_domain (nd_route n)).
Proof.
  unfold new_route. intros (found & s1 & E%try_done & H2)%bind_done. apply pool_select_ok in E as [_ Hf].
  destruct found as [[node domain]|e]; [|injection H2 as <- _; left; by eexists]. specialize (Hf _ eq_refl).
  apply bind_done in H2 as (u & s2 & _ & H2). injection H2 as <- _. apply choose_node_ok in Hf as (n & Hn & _ & <-). right. eauto.
Qed.
Lemma route_ok c hash d st x st' :
  opened hash (cp st) d -> route c d st = (Ok x, st') ->
  (exists r, x = inl (Refuse r)) \/ exists node n, c_nodes (cp st) !! node = Some n /\ x = inr (node, rt_domain (nd_route n)).
Proof.
  intros Hop. unfold route. destruct (do_node d) as [[node domain]|] eqn:En; [|apply new_route_ok].
  destruct (String.eqb domain ""); [apply new_route_ok|]. intros [= <- _]. right.
  destruct (op_node _ _ _ Hop _ _ En) as (a & n & _ & _ & Hn & <-). eauto.
Qed.

(** The page of a document: the credential of the device under its node's name. *)
Definition carries (t : ctables) (d : document) (transport uri : string) : Prop :=
  exists credential node n, Decrypt vault (cd_credential (do_row d)) (do_device d) = Ok credential
    /\ c_nodes t !! node = Some n
    /\ (transport, uri) = if do_ws d then ("vless-ws-tls", vlessWebSocketURI credential (rt_domain (nd_route n)))
                          else ("hysteria2", hysteriaURI credential (rt_domain (nd_route n)) obfsPassword).
(** [serve] only looks at the document, at the nodes and at its own device. *)
Lemma serve_plain c hash d t status ends st transport uri info st' :
  opened hash t d -> c_nodes (cp st) = c_nodes t ->
  serve vault obfsPassword quotaPrivateKey c d status ends st = (Ok (Plain transport uri info), st') ->
  (status = "active" \/ status = "grace") /\ carries t d transport uri.
Proof.
  intros Hop Hnodes. unfold serve. intros (x & s1 & Eseen & E)%bind_done.
  assert (Hn1 : c_nodes (cp s1) = c_nodes t).
  { rewrite <- Hnodes.
    assert (Hk : keeps (on_tables (same c_nodes)) (try (pool (update_device (do_device d) (seen_row (fc_seen c)))))).
    { apply keeps_try, keeps_pool; [apply _|]. intros t1 y t2. unfold update_device. destruct (canonical_uuid _); [|done]. by intros [= _ <-]. }
    specialize (Hk st). by rewrite Eseen in Hk. }
  destruct (String.eqb status "active" || String.eqb status "grace") eqn:Es.
  2: { apply orb_false_iff in Es as [E1 E2]. by rewrite E1, E2 in E. }
  split; [by rewrite orb_true_iff, !String.eqb_eq in Es|]. rewrite <- negb_orb, Es in E. cbn [negb] in E.
  apply bind_done in E as (target & s2 & Er & E).
  assert (Htarget : (exists r, target = inl (Refuse r)) \/ exists node n, c_nodes t !! node = Some n /\ target = inr (node, rt_domain (nd_route n))).
  { unfold route in Er. destruct (do_node d) as [[node domain]|] eqn:En.
    - destruct (String.eqb domain ""); [apply new_route_ok in Er; by rewrite Hn1 in Er|]. injection Er as <- _. right.
      destruct (op_node _ _ _ Hop _ _ En) as (a & n & _ & _ & Hn & <-). eauto.
    - apply new_route_ok in Er. by rewrite Hn1 in Er. }
  destruct Htarget as [[r ->]|(node & n & Hn & ->)]; [done|].
  apply bind_done in E as (prov & s3 & _ & E). destruct prov as [u|e]; [|done].
  destruct (Decrypt vault _ _) as [credential|e] eqn:Ed; [|done]. exists credential, node, n. split_and!; [done..|].
  destruct (do_ws d); by injection E as <- <- _ _.
Qed.

Lemma bind_tx_nodes begun now d fp : keeps (on_tables (same c_nodes)) (bind_tx begun now d fp).
Proof.
  unfold bind_tx, committing. keep; (apply keeps_stmt; [apply _|]); intros t1 y t2.
  - intros [_ ->]%select_ok. done.
  - unfold start_trial. intros E. by go_cases E.
  - unfold insert_fingerprint. intros E. by go_cases E.
  - unfold update_device. intros E. by go_cases E.
  - unfold update_device. intros E. by go_cases E.
Qed.

Lemma bind_tx_abandon begun now d fp st r st' :
  bind_tx begun now d fp st = (Ok (Abandon r), st') -> exists answer, r = inl (Refuse answer).
Proof.
  unfold bind_tx, committing. intros Eb. destruct (_ && _).
  - apply bind_done in Eb as (re & sd & _ & Eb). destruct (match re with Ok b => b | Err _ => false end); [injection Eb as <- _; eauto|].
    apply bind_done in Eb as (x & se & _ & Eb). destruct x; [done|]. injection Eb as <- _. eauto.
  - apply bind_done in Eb as (x & se & _ & Eb). destruct x; [done|]. injection Eb as <- _. eauto.
Qed.
Lemma committing_total {R} (m : prog pg R) failed st : exists step st', committing m failed st = (Ok step, st').
Proof. unfold committing, bind, try. destruct (m st) as [[r|e] s1]; by eexists _, _. Qed.
Lemma bind_tx_total begun now d fp st : exists step st', bind_tx begun now d fp st = (Ok step, st').
Proof.
  unfold bind_tx. destruct (_ && _); [|apply committing_total]. unfold bind at 1, try. destruct (stmt _ st) as [r s1].
  cbn [ret]. destruct (match r with Ok b => b | Err _ => false end); [by eexists _, _|apply committing_total].
Qed.
(** The binding transaction with its commit. *)
Lemma bind_phase begun now d fp hash t st out st' :
  default "" (cd_hwid (do_row d)) = "" -> cp st = t -> canonical_ids t -> opened hash t d ->
  transact (inl (Refuse panicked)) (bind_tx begun now d fp) st = (out, st') ->
  (cp st' = t /\ exists answer, out = Ok (inl (Refuse answer)))
  \/ (fetched now d fp t (cp st') /\ c_nodes (cp st') = c_nodes t
      /\ ((exists answer, out = Ok (inl (Refuse answer)))
          \/ exists status ends, out = Ok (inr (status, ends))
               /\ (exists s, c_subscriptions (cp st') !! cd_user (do_row d) = Some s /\ sb_status s = status)
               /\ hwids (cp st') !! do_device d = Some (cd_user (do_row d), Some fp))).
Proof.
  intros Hfree Hs1 Hids Hop Et. apply transact_cases in Et.
  destruct Et as [[Hcp [->|(sa & sb & Hsa & Hbody)]]|(sa & sb & answer & failed & Hsa & Hbody & Hsb & Hout)].
  - left. split; [congruence|eauto].
  - left. split; [congruence|]. destruct (bind_tx begun now d fp sa) as [[[r0|answer failed]|e] sc] eqn:Eb.
    + destruct Hbody as [-> _]. apply bind_tx_abandon in Eb as [answer ->]. eauto.
    + destruct Hbody as [-> _]. eapply (bind_tx_commit _ _ _ _ hash t) in Eb as (_ & -> & _); [eauto|done|congruence|done|done].
    + destruct (bind_tx_total begun now d fp sa) as (step & s2 & E). congruence.
  - right. pose proof (bind_tx_nodes begun now d fp sa) as Hn. rewrite Hbody in Hn. unfold on_tables, same in Hn. cbn [snd] in Hn.
    eapply (bind_tx_commit _ _ _ _ hash t) in Hbody as (Hf & -> & status & ends & -> & Hst & Hh); [|done|congruence|done|done].
    rewrite Hsb. split_and!; [done|congruence|]. destruct Hout as [-> | ->]; [right; eauto 6|left; eauto].
Qed.

(** One fetch. *)
Lemma fetch_step c token header st r st' :
  canonical_ids (cp st) -> subscriptionDocument vault obfsPassword quotaPrivateKey c token header st = (r, st') ->
  (binding (cp st') = binding (cp st) /\ exists answer, r = Ok (Refuse answer))
  \/ exists d, opened (sha256 token) (cp st) d /\ do_terms d = true
       /\ fetched (fc_now c) d (HWID vault (TrimSpace header)) (cp st) (cp st')
       /\ forall transport uri info, r = Ok (Plain transport uri info) ->
            hwids (cp st') !! do_device d = Some (cd_user (do_row d), Some (HWID vault (TrimSpace header)))
            /\ (exists s, c_subscriptions (cp st') !! cd_user (do_row d) = Some s /\ (sb_status s = "active" \/ sb_status s = "grace"))
            /\ carries (cp st) d transport uri.
Proof.
  intros Hids. unfold subscriptionDocument. destruct (String.eqb (TrimSpace header) ""); [intros [= <- <-]; left; eauto|].
  unfold bind at 1, try. destruct (pool (select (select_document (sha256 token))) st) as [row s1] eqn:E1.
  apply pool_select_ok in E1 as [Hs1 Hd]. cbn [ret]. intros E.
  destruct row as [d|e]; [|injection E as <- <-; left; unfold binding; rewrite Hs1; eauto].
  specialize (Hd _ eq_refl). apply select_document_ok in Hd.
  destruct (do_terms d) eqn:Eterms; cbn [negb] in E; [|injection E as <- <-; left; unfold binding; rewrite Hs1; eauto].
  set (fp := HWID vault (TrimSpace header)) in *. clearbody fp.
  destruct (String.eqb_spec (default "" (cd_hwid (do_row d))) "") as [Hfree|Hbound].
  - unfold bind in E. destruct (transact _ _ s1) as [out s2] eqn:Et.
    apply (bind_phase (fc_bind c) (fc_now c) d fp (sha256 token) (cp st)) in Et; [|done..].
    destruct Et as [[Hcp [answer ->]]|(Hf & Hn & [[answer ->]|(status & ends & -> & Hst & Hh)])].
    + injection E as <- <-. left. unfold binding. rewrite Hcp. eauto.
    + injection E as <- <-. right. exists d. split_and!; [done..|]. intros; congruence.
    + right. exists d. pose proof (serve_binding vault obfsPassword quotaPrivateKey c d status ends s2) as Hb. rewrite E in Hb.
      unfold on_tables, same in Hb. cbn [snd] in Hb. split_and!; [done..| |].
      * destruct Hf as [Hu|Hf1 Hf2 Hu|s Hf1 Hf2 Hf3 Hf4 Hf5 Hf6 Hu]; rewrite <- Hb in Hu; [by apply Untouched|by apply Bound|by eapply (Started _ _ _ _ _ s)].
      * intros transport uri info ->. apply (serve_plain c (sha256 token) d (cp st)) in E as [Hact Hcar]; [|done|done].
        injection Hb as _ Hbs _ Hb. split_and!; [unfold hwids; rewrite Hb; exact Hh| |done].
        destruct Hst as (s & Hs & <-). rewrite Hbs. by exists s.
  - destruct (bytesEqual _ fp) eqn:Eeq; cbn [negb] in E; [|injection E as <- <-; left; unfold binding; rewrite Hs1; eauto].
    apply bytesEqual_spec in Eeq.
    right. exists d. pose proof (serve_binding vault obfsPassword quotaPrivateKey c d (do_status d) (do_ends d) s1) as Hb. rewrite E in Hb.
    unfold on_tables, same in Hb. cbn [snd] in Hb. rewrite Hs1 in Hb. split_and!; [done..|by apply Untouched|].
    intros transport uri info ->. apply (serve_plain c (sha256 token) d (cp st)) in E as [Hact Hcar]; [|done|by rewrite Hs1].
    injection Hb as _ Hbs _ Hb. split_and!; [| |done].
    + unfold hwids. rewrite Hb, lookup_fmap, (op_device _ _ _ Hd). cbn.
      destruct (cd_hwid (do_row d)) as [h|]; cbn in *; [by rewrite Eeq|done].
    + destruct (op_subscription _ _ _ Hd) as (s & Hs & _ & Hss & _). rewrite Hbs. exists s. by rewrite Hss.
Qed.
End Steps.

(** ** Properties *)

(** C7 - Who gets a configuration.  Whatever fails, a fetch is answered with a
    configuration only when its token is that of a device which is not revoked, of
    an active user who has accepted the current terms, whose subscription is
    active or in grace, or a trial that this fetch has started; the device is then
    bound to the hardware of this client, and was bound to no other before.  The
    configuration carries the credential of that device and the name of a node. *)
Theorem document_is_earned {PU : PgUuid} {MO : MapOrder} {ED : Ed25519} `{Aead} `{UuidSha1} `{UpperTables}
    vault obfsPassword quotaPrivateKey c token header st transport uri info st' :
  canonical_ids (cp st) ->
  subscriptionDocument vault obfsPassword quotaPrivateKey c token header st = (Ok (Plain transport uri info), st') ->
  let fp := HWID vault (TrimSpace header) in
  exists d u, c_devices (cp st) !! do_device d = Some (do_row d) /\ cd_token_hash (do_row d) = sha256 token
    /\ cd_revoked_at (do_row d) = None
    /\ c_users (cp st) !! cd_user (do_row d) = Some u /\ us_status u = "active" /\ us_terms u = Some currentTermsVersion
    /\ (exists s, c_subscriptions (cp st') !! cd_user (do_row d) = Some s /\ (sb_status s = "active" \/ sb_status s = "grace"))
    /\ (default "" (cd_hwid (do_row d)) = "" \/ cd_hwid (do_row d) = Some fp)
    /\ (exists row, c_devices (cp st') !! do_device d = Some row /\ cd_hwid row = Some fp)
    /\ carries vault obfsPassword (cp st) d transport uri.
Proof.
  intros Hids E fp. destruct (fetch_step _ _ _ _ _ _ _ _ _ Hids E) as [[_ [answer ?]]|(d & Hop & Hterms & Hf & Hplain)]; [done|].
  destruct (Hplain _ _ _ eq_refl) as (Hh & Hstatus & Hcar). clear Hplain E. fold fp in Hf, Hh. clearbody fp. destruct Hop as [Hdev Hhash Hlive Huser Hsub Hnode].
  destruct Huser as (u & Hu & Hact & Hsubj & Ht). rewrite Hterms in Ht. symmetry in Ht. apply bool_decide_eq_true in Ht.
  unfold hwids in Hh. rewrite lookup_fmap in Hh.
  destruct (c_devices (cp st') !! do_device d) as [row|] eqn:Erow; [|done]. cbn in Hh. injection Hh as Hru Hrh.
  exists d, u. split_and!; try done; [|by exists row].
  destruct Hf as [Hb|Hfree _ _|s0 Hfree _ _ _ _ _ _]; [|by left..]. right. unfold binding in Hb. injection Hb as _ _ _ Hb.
    apply (f_equal (lookup (do_device d))) in Hb. rewrite !lookup_fmap, Hdev, Erow in Hb. cbn in Hb. congruence.
Qed.

(** One request for a document, with its faults. *)
Record fetch := mkFetch { fe_clock : fetch_clock; fe_token : string; fe_header : string; fe_faults : list outcome }.
Definition fetch_run {PU : PgUuid} {MO : MapOrder} {ED : Ed25519} `{Aead} `{UuidSha1} `{UpperTables}
    (vault : Vault) (obfsPassword quotaPrivateKey : string) (st : pg) (f : fetch) : pg :=
  (subscriptionDocument vault obfsPassword quotaPrivateKey (fe_clock f) (fe_token f) (fe_header f) (with_outcomes (fe_faults f) st)).2.

#[export] Instance subscription_row_eq_dec : EqDecision subscription_row.
Proof. solve_decision. Defined.

Section Trials.
Context {PU : PgUuid} {MO : MapOrder} {ED : Ed25519} `{Aead} `{UuidSha1} `{UpperTables}
  (vault : Vault) (obfsPassword quotaPrivateKey : string).

(** Each account and each hardware has used at most one trial. *)
Definition trials_once (t : ctables) : Prop := NoDup (c_fingerprints t).*1 /\ NoDup (c_fingerprints t).*2.
(** A subscription that [t'] has changed belongs to an account whose trial was
    started in between. *)
Definition trials_recorded (t t' : ctables) : Prop :=
  c_users t' = c_users t /\ (exists new, c_fingerprints t' = c_fingerprints t ++ new)
  /\ forall user, c_subscriptions t' !! user <> c_subscriptions t !! user ->
       exists u, c_users t !! user = Some u /\ us_subject u ∉ (c_fingerprints t).*1 /\ us_subject u ∈ (c_fingerprints t').*1.

Lemma canonical_hwids t : canonical_ids t <-> forall id, is_Some (hwids t !! id) -> canonical_uuid id = Ok id.
Proof.
  unfold canonical_ids, hwids. split.
  - intros Hc id [x Hx]. rewrite lookup_fmap in Hx. destruct (c_devices t !! id) eqn:E; [by eapply Hc|done].
  - intros Hc id d Hd. apply Hc. rewrite lookup_fmap, Hd. by eexists.
Qed.
Lemma fetched_invariant now hash d fp t t' :
  opened hash t d -> fetched now d fp t t' -> canonical_ids t -> trials_once t ->
  canonical_ids t' /\ trials_once t' /\ trials_recorded t t'.
Proof.
  intros Hop Hf Hids [Hn1 Hn2]. rewrite !canonical_hwids in *. unfold trials_once, trials_recorded.
  assert (Hkeep : forall x id, is_Some (<[do_device d := x]> (hwids t) !! id) -> canonical_uuid id = Ok id).
  { intros x id. destruct (decide (id = do_device d)) as [->|]; [|rewrite lookup_insert_ne by done; apply Hids]. intros _.
    apply Hids. unfold hwids. rewrite lookup_fmap, (op_device _ _ _ Hop). by eexists. }
  destruct Hf as [Hb|_ _ Hb|s _ _ _ Hs Hno1 Hno2 Hb]; unfold binding in Hb; injection Hb as Hu Hsub Hfp Hh; fold (hwids t') in Hh.
  - rewrite Hfp, Hsub, Hu. fold (hwids t) in Hh. rewrite Hh. split_and!; try done. exists []. by rewrite app_nil_r.
  - rewrite Hfp, Hsub, Hu, Hh. split_and!; try done; [by apply Hkeep|]. exists []. by rewrite app_nil_r.
  - rewrite Hfp, Hsub, Hu, Hh. split_and!; [by apply Hkeep| | |done|by eexists|].
    + rewrite fmap_app. apply NoDup_app. split_and!; [done|set_solver|apply NoDup_singleton].
    + rewrite fmap_app. apply NoDup_app. split_and!; [done|set_solver|apply NoDup_singleton].
    + intros user. destruct (decide (user = cd_user (do_row d))) as [->|]; [intros _|by rewrite lookup_insert_ne].
      destruct (op_user _ _ _ Hop) as (u & Huser & _ & Hsubj & _). exists u. rewrite Hsubj. split_and!; [done..|].
      rewrite fmap_app. set_solver.
Qed.
Lemma trials_recorded_trans t1 t2 t3 : trials_recorded t1 t2 -> trials_recorded t2 t3 -> trials_recorded t1 t3.
Proof.
  intros (Hu1 & [n1 Hf1] & Hs1) (Hu2 & [n2 Hf2] & Hs2). split; [congruence|]. split; [exists (n1 ++ n2); by rewrite Hf2, Hf1, app_assoc|].
  intros user Hne. destruct (decide (c_subscriptions t2 !! user = c_subscriptions t1 !! user)) as [Heq|Hd].
  - rewrite <- Heq in Hne. destruct (Hs2 _ Hne) as (u & Hu & Hni & Hin). exists u. rewrite Hu1 in Hu. split_and!; [done| |done].
    rewrite Hf1, fmap_app in Hni. set_solver.
  - destruct (Hs1 _ Hd) as (u & Hu & Hni & Hin). exists u. split_and!; [done..|]. rewrite Hf2, fmap_app. set_solver.
Qed.
Lemma fetch_invariant st f :
  canonical_ids (cp st) -> trials_once (cp st) ->
  let st' := fetch_run vault obfsPassword quotaPrivateKey st f in
  canonical_ids (cp st') /\ trials_once (cp st') /\ trials_recorded (cp st) (cp st').
Proof.
  intros Hids Ho st'. unfold st', fetch_run. destruct (subscriptionDocument _ _ _ _ _ _ _) as [r s1] eqn:E. cbn [snd].
  assert (Hids' : canonical_ids (cp (with_outcomes (fe_faults f) st))) by done.
  destruct (fetch_step _ _ _ _ _ _ _ _ _ Hids' E) as [[Hb _]|(d & Hop & _ & Hf & _)].
  - unfold binding in Hb. injection Hb as Hu Hs Hfp Hh. fold (hwids (cp s1)) in Hh. cbn in Hu, Hs, Hfp, Hh.
    rewrite canonical_hwids, Hh. unfold trials_once, trials_recorded. rewrite Hu, Hs, Hfp. split_and!; try done; [by apply canonical_hwids|apply Ho|apply Ho|].
    exists []. by rewrite app_nil_r.
  - by eapply fetched_invariant.
Qed.
End Trials.

(** C19 - One trial per account and per hardware.  Through any sequence of fetches,
    whatever fails in them, no account and no hardware appears twice among the
    trials, and a fetch changes a subscription only by starting the trial of an
    account that had none, which is recorded. *)
Theorem trial_once {PU : PgUuid} {MO : MapOrder} {ED : Ed25519} `{Aead} `{UuidSha1} `{UpperTables}
    vault obfsPassword quotaPrivateKey fetches st :
  canonical_ids (cp st) -> trials_once (cp st) ->
  let st' := foldl (fetch_run vault obfsPassword quotaPrivateKey) st fetches in
  trials_once (cp st') /\ trials_recorded (cp st) (cp st').
Proof.
  revert st. induction fetches as [|f fetches IH]; intros st Hids Ho.
  { split; [done|]. split_and!; [done|exists []; by rewrite app_nil_r|done]. }
  destruct (fetch_invariant vault obfsPassword quotaPrivateKey st f Hids Ho) as (Hids1 & Ho1 & Hrec).
  destruct (IH _ Hids1 Ho1) as [Ho2 Hrec2]. split; [exact Ho2|]. by eapply trials_recorded_trans.
Qed.

#[local] Existing Instances toy_uuid_type sorted_order toy_ed25519 toy_aead toy_uuid plain_upper.
Definition sample_vault : Vault := mkVault "0123456789abcdef" "hwid-key".
Definition fetch_device (id user token : string) : cdevice_row :=
  mkCdeviceRow user 1 "phone" None (Encrypt sample_vault (zeros NonceSize) "credential" id) (sha256 id) (sha256 token) None None None None.
Definition fetch_tables : ctables :=
  with_plans (fun _ => shipped_rows)
  (with_users (fun _ => {["u1" := mkUserRow "s1" "active" (Some currentTermsVersion);
                          "u2" := mkUserRow "s2" "active" (Some currentTermsVersion)]})
  (with_subscriptions (fun _ => {["u1" := mkSubscriptionRow "TRIAL" None "pending_trial" None None None 0 0;
                                  "u2" := mkSubscriptionRow "TRIAL" None "pending_trial" None None None 0 0]})
  (with_cdevices (fun _ => {["d1" := fetch_device "d1" "u1" "t1"; "d2" := fetch_device "d2" "u2" "t2"]})
  (with_nodes (fun _ => {["n1" := mkNodeRow None None None None None (Some 0) sample_route sample_agent]}) no_tables)))).
Definition sample_clock (at_ : time) (lease : string) : fetch_clock := mkFetchClock at_ at_ at_ at_ at_ at_ at_ lease.
Lemma fetch_tables_ids : canonical_ids fetch_tables.
Proof.
  intros id d. unfold fetch_tables. cbn [c_devices with_plans with_users with_subscriptions with_cdevices].
  rewrite lookup_insert_Some, lookup_singleton_Some. intros [[<- _]|[_ [<- _]]]; reflexivity.
Qed.

(** The first fetch of the trial starts it and announces a configuration. *)
Lemma document_is_earned_witness :
  let out := subscriptionDocument sample_vault "" sample_private (sample_clock (FromUnix 1000) "l1") "t1" "phone-1"
               (mkPg fetch_tables [] false ["c1"; "c2"]) in
  (exists transport uri info, out.1 = Ok (Plain transport uri info)
     /\ exists d u, c_users fetch_tables !! cd_user (do_row d) = Some u /\ us_status u = "active"
          /\ cd_token_hash (do_row d) = sha256 "t1" /\ carries sample_vault "" fetch_tables d transport uri).
Proof.
  intros out.
  assert (Hok : match out.1 with Ok (Plain _ _ _) => true | _ => false end = true) by (vm_compute; reflexivity).
  destruct out as [r st'] eqn:E. unfold out in E. clear out. cbn [fst] in Hok |- *. destruct r as [[transport uri info|]|]; [|discriminate..].
  exists transport, uri, info. split; [reflexivity|].
  destruct (document_is_earned sample_vault "" sample_private (sample_clock (FromUnix 1000) "l1") "t1" "phone-1"
    (mkPg fetch_tables [] false ["c1"; "c2"]) transport uri info st' fetch_tables_ids E) as (d & u & _ & H1 & _ & H2 & H3 & _ & _ & _ & _ & H4).
  exists d, u. auto.
Defined.

(** The second account can not use the same hardware for another trial. *)
Lemma trial_once_witness :
  let fetches := [mkFetch (sample_clock (FromUnix 1000) "l1") "t1" "phone-1" [];
                  mkFetch (sample_clock (FromUnix 1001) "l2") "t2" "phone-1" [];
                  mkFetch (sample_clock (FromUnix 1002) "l3") "t2" "phone-2" [Done; Done; Done; Failed]] in
  let st := mkPg fetch_tables [] false ["c1"; "c2"] in
  let st' := foldl (fetch_run sample_vault "" sample_private) st fetches in
  ((sb_status <$> c_subscriptions (cp st') !! "u1", sb_status <$> c_subscriptions (cp st') !! "u2")
     = (Some "active", Some "pending_trial") /\ length (c_fingerprints (cp st')) = 1%nat)
  /\ trials_once (cp st') /\ trials_recorded (cp st) (cp st').
Proof.
  intros fetches st st'. split; [vm_compute; split; reflexivity|].
  assert (Ho : trials_once (cp st)) by (split; apply NoDup_nil_2).
  exact (trial_once sample_vault "" sample_private fetches st fetch_tables_ids Ho).
Defined.

(** ** Lemmas on the creation of devices *)

Section Creation.
Context {PU : PgUuid} `{Aead} (vault : Vault) (publicURL : string).
#[local] Opaque sha256 hmac_sha256.

Lemma active_devices_insert user device d t :
  c_devices t !! device = None -> cd_user d = user -> cd_revoked_at d = None ->
  active_devices user (with_cdevices (insert device d) t) = active_devices user t + 1.
Proof.
  intros Hnew Hu Hr. unfold active_devices, user_devices. cbn [c_devices with_cdevices].
  rewrite (map_to_list_insert (c_devices t) device d Hnew). cbn [fmap list_fmap snd].
  rewrite filter_cons_True by done. rewrite filter_cons_True by (unfold is_active; by rewrite Hr). cbn [length]. lia.
Qed.
Lemma foldr_max_ge s l x : x ∈ s :: l -> x <= foldr Z.max s l.
Proof.
  induction l as [|y l IH]; cbn; [intros ->%list_elem_of_singleton; lia|].
  rewrite !elem_of_cons. intros [->|[->|Hx]]; [|lia|].
  - assert (s <= foldr Z.max s l) by (apply IH, elem_of_cons; by left). lia.
  - assert (x <= foldr Z.max s l) by (apply IH, elem_of_cons; by right). lia.
Qed.
Lemma next_slot_fresh user t d : d ∈ user_devices user t -> cd_slot d < next_slot user t.
Proof.
  intros Hd. apply (list_elem_of_fmap_2 cd_slot) in Hd. unfold next_slot.
  destruct (cd_slot <$> user_devices user t) as [|s l]; [by apply elem_of_nil in Hd|]. apply foldr_max_ge in Hd. lia.
Qed.

(** What a creation has stored. *)
Record created (s : session) (name credential token id : string) (nonce1 nonce2 : option string) (slot : Z) (t t' : ctables) : Prop := {
  cr_room : exists user sub p, canonical_uuid (ss_UserID s) = Ok user /\ c_subscriptions t !! user = Some sub
    /\ c_plans t !! sb_plan sub = Some p /\ active_devices user t < pl_device_limit p
    /\ active_devices user t' = active_devices user t + 1
    /\ (forall d, d ∈ user_devices user t -> cd_slot d < slot);
  cr_stored : exists user device sealed1, canonical_uuid (ss_UserID s) = Ok user /\ canonical_uuid id = Ok device
    /\ c_devices t !! device = None /\ sealed vault nonce1 credential id = Some sealed1
    /\ t' = with_cdevices (insert device (mkCdeviceRow user slot (TrimSpace name) None sealed1 (sha256 credential)
              (sha256 token) (sealed vault nonce2 token (link_aad id)) None None None)) t }.

Lemma create_tx_commit s name credential token id nonce1 nonce2 st answer failed st' :
  create_tx vault publicURL s name credential token id nonce1 nonce2 st = (Ok (Commit answer failed), st') ->
  failed = problem 500 "db" /\ exists slot, answer = created_reply publicURL id name token slot
    /\ created s name credential token id nonce1 nonce2 slot (cp st) (cp st').
Proof.
  unfold create_tx. intros (row & s1 & E1%try_done & E)%bind_done. destruct row as [[limit count]|e]; [|done].
  apply stmt_select_ok in E1 as [E1 Hs1]. unfold select_limit in E1.
  destruct (canonical_uuid (ss_UserID s)) as [user|] eqn:Eu; [|done].
  destruct (c_subscriptions (cp st) !! user) as [sub|] eqn:Es; [|done]. cbn in E1.
  destruct (c_plans (cp st) !! sb_plan sub) as [p|] eqn:Ep; [|done]. injection E1 as <- <-.
  destruct (Z.leb_spec (pl_device_limit p) (active_devices user (cp st))); [done|].
  apply committing_commit in E as [E ->]. split; [done|]. apply bind_done in E as (slot & s2 & E2 & E). injection E as <- <-.
  apply stmt_ok in E2 as (_ & _ & t2 & E2 & Hs2). rewrite Hs1 in E2. unfold insert_device in E2. rewrite Eu in E2.
  destruct (canonical_uuid id) as [device|] eqn:Ei; [|done]. destruct (negb _); [done|]. destruct (_ <? _); [done|].
  destruct (sealed vault nonce1 credential id) as [sealed1|] eqn:Eseal; [|done].
  destruct (c_users (cp st) !! user); [|done]. destruct (c_devices (cp st) !! device) eqn:Ed; [done|].
  destruct (existsb _ _); [done|]. injection E2 as <- <-. exists (next_slot user (cp st)). split; [done|]. rewrite Hs2. split.
  - exists user, sub, p. split_and!; [done..|by apply active_devices_insert|]. intros d. apply next_slot_fresh.
  - by exists user, device, sealed1.
Qed.

(** The link that was handed out can be read again. *)
Lemma created_link `{!AeadLaws} s name credential token id nonce1 nonce2 slot t t' st fresh nonce :
  created s name credential token id nonce1 (Some nonce2) slot t t' -> String.length nonce2 = NonceSize ->
  cp st = t' -> outcomes st = [] ->
  (deviceSubscription vault publicURL s id fresh nonce st).1 = Ok (link_reply publicURL token).
Proof.
  intros [_ (user & device & sealed1 & Hu & Hid & Hnew & _ & Ht')] Hn Hst Ho.
  unfold deviceSubscription, bind at 1, try at 1, pool, next_outcome. rewrite Ho. cbn [head default from_option].
  unfold select, own_device. rewrite Hid, Hu, Hst, Ht'. cbn [c_devices with_cdevices]. rewrite lookup_insert_eq.
  cbn [cd_user is_active cd_revoked_at]. rewrite String.eqb_refl. cbn [andb result_map cd_token].
  match goal with |- context [default "" ?c] => change (default "" c) with (Encrypt vault nonce2 token (link_aad id)) end.
  assert (Hne : String.eqb (Encrypt vault nonce2 token (link_aad id)) "" = false).
  { apply String.eqb_neq. unfold Encrypt. destruct nonce2; [|discriminate]. cbn in Hn. discriminate. }
  rewrite Hne. cbn [negb]. by rewrite Decrypt_Encrypt.
Qed.
End Creation.

Definition device_body : option json := Some (JObj [("name", JStr " Phone ")]).
