(* ===== verification/Gate.v ===== *)
(** * The connections of the nodes

    src/internal/controlplane/nodehub.go, [Connect] and [readLoop]: how a node is
    admitted by the serial of its certificate and its hello, how its connection
    replaces an older one, what its messages do and what its departure leaves.
    The usage, acknowledgement, delivery and resynchronisation steps are those of
    [Hub], the rotation worker that of [Pki]. *)

From S2P Require Import Prelude GoStrings Base64 Json JsonText GoFloat Crypto Protocol Enrollment Pg Hub Web Pki Admin Devices.
From stdpp Require Import base gmap strings list.
From Stdlib Require Import ZArith Lia.
Open Scope Z_scope.

(** ** Messages *)

(** A slice is [nil] unless the document has an array. *)
Definition dec_slice {A} (zero : A) (d : dec A) : dec (option (list A)) := fun j _ =>
  match j with
  | JArr items => Some <$> mapM (fun x => d x zero) items
  | JNull => Some None
  | _ => None
  end.
(** The hello, and its capabilities as [json.Marshal] writes them back. *)
Definition decode_Hello (j : json) : option (Hello * json) :=
  dec_struct (fun m _ =>
    i ← field "nodeId" dec_string m "";
    a ← field "agentVersion" dec_string m "";
    p ← field "protocols" (dec_slice 0 dec_int) m None;
    c ← field "capabilities" (dec_slice "" dec_string) m None;
    k ← field "realityPublicKey" dec_string m "";
    s ← field "realityShortId" dec_string m "";
    Some (mkHello i a (default [] p) (default [] c) k s,
          match c with Some l => JArr (JStr <$> l) | None => JNull end))
    j (mkHello "" "" [] [] "" "", JNull).

Record vitals := mkVitals { vi_Load1 : Z; vi_ControllerRTT : Z; vi_Online : Z; vi_Status : string }.
Definition decode_heartbeat (data : option json) : option vitals :=
  j ← data;
  dec_struct (fun m old =>
    l ← field "load1" dec_float m (vi_Load1 old);
    r ← field "controllerRttMs" dec_int m (vi_ControllerRTT old);
    o ← field "onlineDevices" dec_int m (vi_Online old);
    s ← field "status" dec_string m (vi_Status old);
    Some (mkVitals l r o s)) j (mkVitals 0 0 0 "").

(** ** The rows of the nodes *)

Definition node_statuses : list string := ["pending"; "healthy"; "degraded"; "offline"; "draining"].
(** An [integer] column. *)
Definition in_int32 (z : Z) : bool := (- 2 ^ 31 <=? z) && (z <? 2 ^ 31).
Definition null_if_empty (s : string) : option string := if String.eqb s "" then None else Some s.

(** What the driver and the server make of [LEAST(1,$2)] with a [float64]
    argument: the value that is stored, if they accept it. *)
Class LoadColumn := { least_one : Z -> option Z }.

Definition certified (serial : string) (n : node_row) : bool :=
  bool_decide (nd_certificate_serial n = Some serial) || bool_decide (nd_next_serial n = Some serial).

Section Hub.
Context {PU : PgUuid} {LC : LoadColumn}.

(** [SELECT CASE WHEN certificate_serial=$2 OR next_certificate_serial=$2 ...] *)
Definition select_serial (nodeID serial : string) (t : ctables) : result string :=
  match canonical_uuid nodeID with
  | Err e => Err e
  | Ok node =>
      match c_nodes t !! node with
      | None => Err (SqlErr SqlNoRows)
      | Some n => Ok (if certified serial n then serial else "")
      end
  end.

Definition set_agent (now : time) (version : Z) (hello : Hello) (caps : json) (n : node_row) : node_row :=
  mkNodeRow (nd_certificate_serial n) (nd_certificate_not_after n) (nd_next_serial n) (nd_next_not_after n)
    (nd_compliance_version n) (nd_compliance_fetched_at n)
    (mkRouteRow (rt_domain (nd_route n)) "healthy" caps (rt_load (nd_route n)) (rt_rtt (nd_route n)))
    (mkAgentRow (ag_public_key (nd_agent n)) (he_AgentVersion hello) version
       (null_if_empty (he_RealityPublicKey hello)) (null_if_empty (he_RealityShortID hello)) (Some now)).
(** The UPDATE after a hello. *)
Definition announce (now : time) (version : Z) (hello : Hello) (caps : json) (t : ctables) : result (unit * ctables) :=
  match canonical_uuid (he_NodeID hello) with
  | Err e => Err e
  | Ok node =>
      if pg_text (he_AgentVersion hello) && in_int32 version && jsonb_text caps
         && pg_text (he_RealityPublicKey hello) && pg_text (he_RealityShortID hello)
      then Ok (tt, with_nodes (alter (set_agent now version hello caps) node) t)
      else Err (SqlErr SqlFault)
  end.

Definition set_vitals (now : time) (status : string) (load rtt : Z) (n : node_row) : node_row :=
  mkNodeRow (nd_certificate_serial n) (nd_certificate_not_after n) (nd_next_serial n) (nd_next_not_after n)
    (nd_compliance_version n) (nd_compliance_fetched_at n)
    (mkRouteRow (rt_domain (nd_route n)) status (rt_capabilities (nd_route n)) load (Some rtt))
    (mkAgentRow (ag_public_key (nd_agent n)) (ag_version (nd_agent n)) (ag_protocol (nd_agent n))
       (ag_reality_key (nd_agent n)) (ag_reality_id (nd_agent n)) (Some now)).
(** The UPDATE of a heartbeat: the CHECK on the status holds. *)
Definition record_heartbeat (now : time) (status : string) (load1 rtt : Z) (nodeID : string) (t : ctables)
    : result (unit * ctables) :=
  match canonical_uuid nodeID with
  | Err e => Err e
  | Ok node =>
      match least_one load1 with
      | Some load =>
          if in_int32 rtt then
            match c_nodes t !! node with
            | None => Ok (tt, t)
            | Some n => if bool_decide (status ∈ node_statuses)
                        then Ok (tt, with_nodes (insert node (set_vitals now status load rtt n)) t)
                        else Err (SqlErr SqlConstraint)
            end
          else Err (SqlErr SqlFault)
      | None => Err (SqlErr SqlFault)
      end
  end.

Definition set_offline (n : node_row) : node_row :=
  mkNodeRow (nd_certificate_serial n) (nd_certificate_not_after n) (nd_next_serial n) (nd_next_not_after n)
    (nd_compliance_version n) (nd_compliance_fetched_at n)
    (mkRouteRow (rt_domain (nd_route n)) "offline" (rt_capabilities (nd_route n)) (rt_load (nd_route n)) (rt_rtt (nd_route n)))
    (nd_agent n).
(** [last_heartbeat_at<now()-interval '30 seconds'] *)
Definition silent (now : time) (n : node_row) : bool :=
  match ag_heartbeat (nd_agent n) with Some at_ => at_ <? now - 30 * second | None => false end.
Definition go_offline (now : time) (nodeID : string) (t : ctables) : result (unit * ctables) :=
  match canonical_uuid nodeID with
  | Err e => Err e
  | Ok node => Ok (tt, with_nodes (alter (fun n => if silent now n then set_offline n else n) node) t)
  end.

(** ** The hub *)

(** A connection is known by its number; [hb_online] is the map [online], and
    [hb_closed] the connections that the hub has told to close. *)
Record hub := mkHub { hb_pg : pg; hb_online : gmap string nat; hb_closed : list nat }.
#[export] Instance hub_pg : Part pg hub.
Proof. refine {| part := hb_pg; with_part s h := mkHub s (hb_online h) (hb_closed h) |}; [done|by intros []]. Defined.

Inductive refusal := Unauthorized | Gone | PolicyViolation (reason : string).

(** The checks before the database is asked; [first] is the first message, if
    the connection was accepted and one was read. *)
Definition greet (mtls serial : string) (first : option string) : refusal + Envelope * Hello * json :=
  if negb (String.eqb mtls "verified") || String.eqb serial "" then inl Unauthorized else
  match first with
  | None => inl Gone
  | Some raw =>
      match Parse raw ≫= decode_Envelope with
      | None => inl (PolicyViolation "hello required")
      | Some helloEnvelope =>
          if negb (String.eqb (env_Type helloEnvelope) "hello") then inl (PolicyViolation "hello required") else
          match env_Data helloEnvelope ≫= decode_Hello with
          | None => inl (PolicyViolation "invalid hello")
          | Some (hello, caps) =>
              if String.eqb (he_NodeID hello) "" then inl (PolicyViolation "invalid hello") else
              if (negb (String.eqb (he_RealityPublicKey hello) "") || negb (String.eqb (he_RealityShortID hello) ""))
                 && negb (validRealityHello (he_RealityPublicKey hello) (he_RealityShortID hello))
              then inl (PolicyViolation "invalid Reality capability")
              else inr (helloEnvelope, hello, caps)
          end
      end
  end.

(** "latest connection wins", under the mutex. *)
Definition register (conn : nat) (nodeID : string) : prog hub unit := fun h =>
  (Ok tt, mkHub (hb_pg h) (<[nodeID := conn]> (hb_online h))
            (match hb_online h !! nodeID with Some old => old :: hb_closed h | None => hb_closed h end)).

Context {MO : MapOrder}.

(** [Connect] up to its loop: why the node is refused, or the name under which
    its connection runs. *)
Definition Connect (now : time) (conn : nat) (mtls serial : string) (first : option string)
    : prog hub (refusal + string) :=
  match greet mtls serial first with
  | inl r => ret (inl r)
  | inr (helloEnvelope, hello, caps) =>
      let nodeID := he_NodeID hello in
      let* found := try (on (pool (select (select_serial nodeID serial)))) in
      match found with
      | Ok (String _ _) =>
          let* _ := try (on (pool (announce now (env_Version helloEnvelope) hello caps))) in
          register conn nodeID ;;;
          let* _ := try (on (queueDeviceResync now nodeID)) in
          ret (inr nodeID)
      | _ => ret (inl (PolicyViolation "unknown node"))
      end
  end.

(** The deferred function of [Connect]. *)
Definition leave (now : time) (conn : nat) (nodeID : string) : prog hub unit :=
  let* _ := (fun h : hub => (Ok tt, mkHub (hb_pg h)
      (if bool_decide (hb_online h !! nodeID = Some conn) then delete nodeID (hb_online h) else hb_online h) (hb_closed h))) in
  let* _ := try (on (pool (go_offline now nodeID))) in
  ret tt.

(** One message in [readLoop]; the answer is the message replied to and the data
    of a "usage.ack". *)
Definition receive (now : time) (nodeID raw : string) : prog pg (option (string * json)) :=
  match Parse raw ≫= decode_Envelope with
  | None => ret None
  | Some env =>
      if String.eqb (env_Type env) "heartbeat" then
        match decode_heartbeat (env_Data env) with
        | None => ret None
        | Some data =>
            let status := if String.eqb (vi_Status data) "" then "healthy" else vi_Status data in
            let* _ := try (pool (record_heartbeat now status (vi_Load1 data) (vi_ControllerRTT data) nodeID)) in
            ret None
        end
      else if String.eqb (env_Type env) "ack" || String.eqb (env_Type env) "nack" then
        acknowledge now nodeID (env_Type env) (env_ReplyTo env) (env_Data env) ;;; ret None
      else if String.eqb (env_Type env) "usage.batch" then
        let* ids := try (usage now nodeID (env_Data env)) in
        ret (match ids with
             | Ok ids => Some (env_MessageID env, JObj [("eventIds", JArr (JStr <$> ids))])
             | Err _ => None
             end)
      else ret None
  end.
End Hub.

(** ** Runs of the hub *)

(** The connections whose [Connect] is in its loop, and all that ever were, the
    newest first. *)
Record gate := mkGate { gt_hub : hub; gt_live : list (nat * string); gt_past : list (nat * string) }.
Definition gt_tables (g : gate) : ctables := cp (hb_pg (gt_hub g)).
Definition latest (node : string) (past : list (nat * string)) : option nat :=
  (fun x => x.2.1) <$> list_find (fun c => c.2 = node) past.

Section Runs.
Context {PU : PgUuid} {LC : LoadColumn} {MO : MapOrder} {RO : RowOrder} {XC : X509} {XI : X509Issuing}.

(** One step, and the name of the node whose connection acts: an arrival, a
    message, a round of deliveries, a departure, or the rotation worker. *)
Inductive gate_step : option string -> gate -> gate -> Prop :=
| step_admit now conn mtls serial first h live past node h' :
    conn ∉ past.*1 ->
    Connect now conn mtls serial first h = (Ok (inr node), h') ->
    gate_step (Some node) (mkGate h live past) (mkGate h' ((conn, node) :: live) ((conn, node) :: past))
| step_refuse now conn mtls serial first h live past r h' :
    Connect now conn mtls serial first h = (Ok (inl r), h') ->
    gate_step None (mkGate h live past) (mkGate h' live past)
| step_receive now conn node raw h live past r h' :
    (conn, node) ∈ live -> on (receive now node raw) h = (r, h') ->
    gate_step (Some node) (mkGate h live past) (mkGate h' live past)
| step_deliver now clock now' conn node writes h live past r l :
    (conn, node) ∈ live -> deliver now clock now' node (mkLink (hb_pg h) [] writes) = (r, l) ->
    gate_step (Some node) (mkGate h live past) (mkGate (with_part (ln_pg l) h) live past)
| step_leave now conn node h live past r h' :
    (conn, node) ∈ live -> leave now conn node h = (r, h') ->
    gate_step (Some node) (mkGate h live past) (mkGate h' (filter (fun c => c <> (conn, node)) live) past)
| step_rotate issuer draws now clock h live past r h' :
    on (rotateCertificates issuer draws now clock) h = (r, h') ->
    gate_step None (mkGate h live past) (mkGate h' live past).

Definition steps (g g' : gate) : Prop := exists who, gate_step who g g'.
Definition start (s : pg) : gate := mkGate (mkHub s ∅ []) [] [].

(** *** The map of the connections *)

(** The connection of a node in the map is the newest one, while it lasts; every
    other connection of the node has been told to close. *)
Record registry_ok (g : gate) : Prop := {
  ro_online : forall node c, hb_online (gt_hub g) !! node = Some c
    <-> latest node (gt_past g) = Some c /\ (c, node) ∈ gt_live g;
  ro_closed : forall node c, (c, node) ∈ gt_live g ->
    latest node (gt_past g) = Some c \/ c ∈ hb_closed (gt_hub g);
  ro_live : forall x, x ∈ gt_live g -> x ∈ gt_past g }.

Definition registry (h : hub) : gmap string nat * list nat := (hb_online h, hb_closed h).
Lemma on_registry {A} (m : prog pg A) : keeps (same registry) (on m : prog hub A).
Proof. intros h. unfold same, on. by destruct (m (part h)). Qed.

Lemma Connect_registry now conn mtls serial first h r h' :
  Connect now conn mtls serial first h = (r, h') ->
  registry h' = match r with
                | Ok (inr node) => (<[node := conn]> (hb_online h),
                    match hb_online h !! node with Some old => old :: hb_closed h | None => hb_closed h end)
                | _ => registry h
                end.
Proof.
  unfold Connect. destruct (greet mtls serial first) as [?|[[env hello] caps]]; [by intros [= <- <-]|].
  unfold bind at 1. pose proof (on_registry (pool (select (select_serial (he_NodeID hello) serial))) h) as H0.
  unfold try at 1. destruct (on (pool _) h) as [found h0]. cbn [snd] in H0.
  destruct found as [[|a found]|e]; [by intros [= <- <-]| |by intros [= <- <-]].
  unfold bind at 1. pose proof (on_registry (pool (announce now (env_Version env) hello caps)) h0) as H1.
  unfold try at 1. destruct (on (pool _) h0) as [x1 h1]. cbn [snd] in H1.
  unfold bind at 1, register. unfold bind, try.
  match goal with |- context [on (queueDeviceResync _ _) ?h2] =>
    pose proof (on_registry (queueDeviceResync now (he_NodeID hello)) h2) as H2;
    destruct (on (queueDeviceResync _ _) h2) as [x2 h3] end.
  intros [= <- <-]. cbn [snd] in H2. unfold same, registry in *. rewrite H2. cbn [hb_online hb_closed].
  injection H1 as -> ->. injection H0 as -> ->. done.
Qed.
Lemma leave_registry now conn node h r h' :
  leave now conn node h = (r, h') ->
  registry h' = (if bool_decide (hb_online h !! node = Some conn) then delete node (hb_online h) else hb_online h, hb_closed h).
Proof.
  unfold leave, bind at 1, bind, try.
  match goal with |- context [on (pool _) ?h1] => pose proof (on_registry (pool (go_offline now node)) h1) as H;
    destruct (on (pool _) h1) as [x h2] end.
  intros [= <- <-]. exact H.
Qed.

Lemma latest_cons c node node' past :
  latest node' ((c, node) :: past) = if decide (node = node') then Some c else latest node' past.
Proof.
  unfold latest. cbn [list_find snd]. destruct (decide (node = node')); [done|].
  by destruct (list_find _ past) as [[]|].
Qed.
Lemma latest_elem node past c : latest node past = Some c -> (c, node) ∈ past.
Proof.
  unfold latest. destruct (list_find _ past) as [[i [c' node']]|] eqn:E; [|done]. intros [= <-].
  apply list_find_Some in E as (Hi & Hn & _). cbn in Hn. subst node'. by eapply list_elem_of_lookup_2.
Qed.
Lemma latest_fresh conn node node' past : conn ∉ past.*1 -> latest node' past = Some conn -> (conn, node) ∉ past.
Proof. intros Hn Hl%latest_elem. destruct Hn. by apply (list_elem_of_fmap_2 fst) in Hl. Qed.

Lemma registry_admit conn node h h' live past :
  conn ∉ past.*1 -> registry_ok (mkGate h live past) ->
  registry h' = (<[node := conn]> (hb_online h),
     match hb_online h !! node with Some old => old :: hb_closed h | None => hb_closed h end) ->
  registry_ok (mkGate h' ((conn, node) :: live) ((conn, node) :: past)).
Proof.
  intros Hnew [Ho Hc Hl] [= Eo Ec]. cbn [gt_hub gt_live gt_past] in *.
  assert (Hout : forall n, (conn, n) ∉ past) by (intros n Hin; apply Hnew; by apply (list_elem_of_fmap_2 fst) in Hin).
  split; cbn [gt_hub gt_live gt_past].
  - intros node' c. rewrite Eo, latest_cons. destruct (decide (node = node')) as [->|Hne].
    + rewrite lookup_insert, decide_True by done. split; [intros [= ->]; split; [done|left]|by intros [[= ->] _]].
    + rewrite lookup_insert_ne, Ho by done. split.
      * intros [H1 H2]. split; [done|by right].
      * intros [H1 [[= -> ->]|H2]%elem_of_cons]; [done|done].
  - intros node' c [[= -> ->]|Hin]%elem_of_cons; [left; rewrite latest_cons; by rewrite decide_True|].
    rewrite latest_cons, Ec. destruct (decide (node = node')) as [->|Hne].
    + right. destruct (Hc _ _ Hin) as [Hlat|Hcl]; [|destruct (hb_online h !! node'); [by right|done]].
      rewrite (proj2 (Ho node' c)) by done. left.
    + destruct (Hc _ _ Hin); [by left|right]. destruct (hb_online h !! node); [by right|done].
  - intros x [->|Hin]%elem_of_cons; [left|right; by apply Hl].
Qed.

Lemma registry_leave conn node h h' live past :
  (conn, node) ∈ live -> registry_ok (mkGate h live past) ->
  registry h' = (if bool_decide (hb_online h !! node = Some conn) then delete node (hb_online h) else hb_online h, hb_closed h) ->
  registry_ok (mkGate h' (filter (fun c => c <> (conn, node)) live) past).
Proof.
  intros Hin [Ho Hc Hl] [= Eo Ec]. cbn [gt_hub gt_live gt_past] in *. split; cbn [gt_hub gt_live gt_past].
  - intros node' c. rewrite Eo, list_elem_of_filter. case_bool_decide as Hon.
    + destruct (decide (node = node')) as [->|Hne].
      * rewrite lookup_delete, decide_True by done. split; [done|]. intros [Hlat [Hd _]].
        apply Ho in Hon as [Hlat' _]. destruct Hd. by simplify_eq.
      * rewrite lookup_delete_ne, Ho by done. split; [intros [??]; split_and!; [done|congruence|done]|by intros (?&?&?)].
    + rewrite Ho. split; [|by intros (?&?&?)]. intros [H1 H2]. split_and!; [done| |done].
      intros [= -> ->]. apply Hon, Ho. done.
  - intros node' c [_ H]%list_elem_of_filter. rewrite Ec. auto.
  - intros x [_ H]%list_elem_of_filter. auto.
Qed.

Lemma registry_step g g' : steps g g' -> registry_ok g -> registry_ok g'.
Proof.
  assert (Hsame : forall h h' live past, registry h' = registry h ->
    registry_ok (mkGate h live past) -> registry_ok (mkGate h' live past)).
  { intros h h' live past [= Eo Ec] [Ho Hc Hl]. split; cbn [gt_hub gt_live gt_past] in *; rewrite ?Eo, ?Ec; done. }
  intros [who H] Hg. destruct H as [now conn mtls serial first h live past node h' Hnew H
    |now conn mtls serial first h live past r h' H|now conn node raw h live past r h' Hin H
    |now clock now' conn node writes h live past r l Hin H|now conn node h live past r h' Hin H
    |issuer draws now clock h live past r h' H].
  - apply Connect_registry in H. by eapply registry_admit.
  - apply Connect_registry in H. by eapply Hsame.
  - eapply Hsame; [|done]. pose proof (on_registry (receive now node raw) h) as Hk. by rewrite H in Hk.
  - by apply (Hsame h).
  - apply leave_registry in H. by eapply registry_leave.
  - eapply Hsame; [|done]. pose proof (on_registry (rotateCertificates issuer draws now clock) h) as Hk. by rewrite H in Hk.
Qed.
End Runs.

(** C25 - At every moment of a run of the hub, the connection it holds for a node is the
    newest one the node ever opened, and it is held exactly as long as it lasts:
    the end of an older connection never removes a newer one.  Every other
    connection of the node that still lasts has been told to close. *)
Theorem latest_connection_wins {PU : PgUuid} {LC : LoadColumn} {MO : MapOrder} {RO : RowOrder} {XC : X509}
    {XI : X509Issuing} s g :
  rtc steps (start s) g ->
  (forall node c, hb_online (gt_hub g) !! node = Some c
     <-> latest node (gt_past g) = Some c /\ (c, node) ∈ gt_live g)
  /\ (forall node c, (c, node) ∈ gt_live g -> hb_online (gt_hub g) !! node <> Some c -> c ∈ hb_closed (gt_hub g)).
Proof.
  intros Hrun. assert (Hok : registry_ok g).
  { assert (Hs : registry_ok (start s)) by (split; [intros ??; split; [done|by intros [? ?%not_elem_of_nil]]|by intros ?? ?%not_elem_of_nil|by intros ? ?%not_elem_of_nil]).
    revert Hs. induction Hrun as [|x y z Hxy _ IH]; [done|]. intros Hx. apply IH. by eapply registry_step. }
  destruct Hok as [Ho Hc Hl]. split; [exact Ho|]. intros node c Hin Hne.
  destruct (Hc _ _ Hin) as [Hlat|Hcl]; [|done]. destruct Hne. by apply Ho.
Qed.

(** ** What the two sides write *)

Definition encode_Envelope (e : Envelope) : option json :=
  s ← jtime (env_SentAt e);
  Some (JObj ([("version", jint (env_Version e)); ("messageId", JStr (env_MessageID e))]
              ++ omit "replyTo" (env_ReplyTo e) ++ [("type", JStr (env_Type e)); ("sentAt", s)]
              ++ match env_Data e with Some d => [("data", d)] | None => [] end)).

(** [write] (with no [replyTo]) and [writeReply] of the node, and the hub's
    [write]: the text that goes out. *)
Definition writeReply (messageID : string) (now : time) (messageType replyTo : string) (data : json) : option string :=
  print <$> encode_Envelope (mkEnvelope Version messageID replyTo messageType now (Some data)).

#[local] Opaque max_depth.
Lemma max_depth_SSS : exists d, max_depth = S (S (S d)).
Proof. exists (Z.to_nat 9997). rewrite max_depth_S. by rewrite <- Z2Nat.inj_succ by lia. Qed.

Lemma writeReply_reads_back messageID now messageType replyTo data text :
  writeReply messageID now messageType replyTo data = Some text ->
  valid_utf8 messageID && valid_utf8 messageType && valid_utf8 replyTo = true ->
  well_formed (pred max_depth) data = true ->
  Parse text ≫= decode_Envelope = Some (mkEnvelope Version messageID replyTo messageType now (Some data)).
Proof.
  unfold writeReply, encode_Envelope, jtime. cbn [env_SentAt env_Version env_MessageID env_ReplyTo env_Type env_Data].
  destruct (format_rfc3339 now) as [at_|] eqn:Et; [|done]. cbn [fmap option_fmap option_map mbind option_bind].
  intros E [[U1 U2]%andb_true_iff U3]%andb_true_iff Hw. apply (inj Some) in E. subst text.
  pose proof (ascii_valid_utf8 _ (time_ascii _ _ Et)) as U4. pose proof (parse_FormatRFC3339 _ _ Et) as Hp.
  rewrite Parse_print.
  - cbn [mbind option_bind]. unfold decode_Envelope, omit. destruct (String.eqb_spec replyTo "") as [->|];
      cbn -[parse_rfc3339]; rewrite Hp; reflexivity.
  - destruct max_depth_SSS as [d Hd]. rewrite Hd in Hw |- *. cbn [pred] in Hw. unfold omit, jint.
    assert (Hn : valid_number (FormatInt Version) = true) by reflexivity.
    destruct (String.eqb replyTo ""); cbn [app well_formed forallb fst snd]; rewrite ?Hn, U1, U2, ?U3, U4, Hw; reflexivity.
Qed.

Lemma mapM_strings l : mapM (fun x => dec_string x "") (JStr <$> l) = Some l.
Proof. induction l as [|x l IH]; [done|]. cbn [fmap list_fmap mapM]. cbn [dec_string mbind option_bind]. by rewrite IH. Qed.
Lemma mapM_ints l : Forall (fun z => in_int64 z = true) l -> mapM (fun x => dec_int x 0) (jint <$> l) = Some l.
Proof.
  induction 1 as [|z l Hz _ IH]; [done|].
  assert (E : dec_int (jint z) 0 = Some z) by (unfold jint, dec_int; by rewrite ParseInt_FormatInt).
  cbn [fmap list_fmap mapM]. rewrite E. cbn [mbind option_bind]. by rewrite IH.
Qed.

(** What a hello has to satisfy to be written and read faithfully. *)
Definition hello_text_ok (hello : Hello) : bool :=
  forallb valid_utf8 ([he_NodeID hello; he_AgentVersion hello; he_RealityPublicKey hello; he_RealityShortID hello]
                      ++ he_Capabilities hello)
  && forallb in_int64 (he_Protocols hello).
Lemma hello_reads_back hello :
  hello_text_ok hello = true ->
  decode_Hello (encode_Hello hello) = Some (hello, JArr (JStr <$> he_Capabilities hello))
  /\ well_formed (pred max_depth) (encode_Hello hello) = true.
Proof.
  destruct hello as [i a p c k s]. unfold hello_text_ok. cbn [he_NodeID he_AgentVersion he_Protocols he_Capabilities
    he_RealityPublicKey he_RealityShortID]. intros [H Hp]%andb_true_iff. cbn [app forallb] in H.
  apply andb_true_iff in H as [U1 H]. apply andb_true_iff in H as [U2 H]. apply andb_true_iff in H as [U3 H].
  apply andb_true_iff in H as [U4 Hc].
  assert (Hp' : Forall (fun z => in_int64 z = true) p) by (apply Forall_forall; intros z Hz; by eapply forallb_forall in Hp; [|apply list_elem_of_In]).
  pose proof (mapM_ints p Hp') as Ep. pose proof (mapM_strings c) as Ec. unfold encode_Hello, omit. cbn [he_NodeID he_AgentVersion he_Protocols he_Capabilities he_RealityPublicKey he_RealityShortID]. split.
  - unfold decode_Hello.
    destruct (String.eqb_spec k "") as [->|], (String.eqb_spec s "") as [->|]; cbn -[mapM]; rewrite Ep; cbn -[mapM]; rewrite Ec; reflexivity.
  - destruct max_depth_SSS as [d ->]. cbn [pred].
    assert (W1 : forallb (well_formed d) (jint <$> p) = true).
    { clear -Hp'. induction Hp' as [|z l Hz _ IH]; [done|]. cbn [fmap list_fmap forallb]. unfold jint at 1. cbn [well_formed]. by rewrite FormatInt_valid. }
    assert (W2 : forallb (well_formed d) (JStr <$> c) = true).
    { clear -Hc. induction c as [|x l IH]; [done|]. cbn [fmap list_fmap forallb well_formed] in *. apply andb_true_iff in Hc as [-> Hc]. auto. }
    destruct (String.eqb k ""), (String.eqb s ""); cbn [app well_formed forallb fst snd]; rewrite W1, W2, U1, U2, ?U3, ?U4; reflexivity.
Qed.

(** ** Admission *)

Section Admission.
Context {PU : PgUuid} {MO : MapOrder}.

Lemma queue_command_nodes now id nodeID kind payload t a t' :
  queue_command now id nodeID kind payload t = Ok (a, t') -> c_nodes t' = c_nodes t.
Proof.
  unfold queue_command. destruct (canonical_uuid nodeID); [|done].
  destruct (insert_command _ _ _ _ _ t) eqn:E; [|done]. intros [= _ <-]. apply insert_command_ok in E as [f ->]. done.
Qed.
Lemma queueDeviceResync_nodes now nodeID : keeps (on_tables (same c_nodes)) (queueDeviceResync now nodeID).
Proof.
  apply keeps_bind; [apply _| |intros rows; apply keeps_for_each; [apply _|]].
  - apply keeps_pool; [apply _|]. unfold resync_rows. intros t a t'. destruct (canonical_uuid _); [|done]. by intros [= _ <-].
  - intros [[device d] s]. apply keeps_bind; [apply _|apply keeps_random_uuid; apply _|]. intros id.
    apply keeps_pool; [apply _|]. intros t a t'. apply queue_command_nodes.
Qed.

(** [Connect] on a hello: refused by the query, or registered after the UPDATE. *)
Lemma Connect_inr now conn mtls serial first h node h' :
  Connect now conn mtls serial first h = (Ok (inr node), h') ->
  exists env hello caps, greet mtls serial first = inr (env, hello, caps) /\ he_NodeID hello = node
    /\ exists k n, canonical_uuid node = Ok k /\ c_nodes (cp (hb_pg h)) !! k = Some n /\ certified serial n = true.
Proof.
  unfold Connect. destruct (greet mtls serial first) as [?|[[env hello] caps]]; [done|]. intros H.
  exists env, hello, caps. split; [done|]. revert H. unfold bind at 1, try at 1.
  destruct (on (pool _) h) as [found h0] eqn:E0. apply on_cases in E0 as (s0 & E0 & ->).
  apply pool_select_ok in E0 as [_ Hf]. destruct found as [[|c found]|e]; [done| |done]. intros H.
  assert (Hn : he_NodeID hello = node).
  { revert H. unfold bind, try, register. destruct (on (pool _) _) as [x1 h1]. destruct (on (queueDeviceResync _ _) _) as [x2 h2].
    by intros [= <- _]. }
  split; [done|]. subst node. specialize (Hf _ eq_refl). unfold select_serial in Hf.
  destruct (canonical_uuid (he_NodeID hello)) as [k|]; [|done].
  change (part h) with (hb_pg h) in Hf. destruct (c_nodes (cp (hb_pg h)) !! k) as [n|] eqn:En; [|done].
  exists k, n. split_and!; [done|done|]. by destruct (certified serial n).
Qed.

Lemma greet_hello serial messageID sent hello text :
  serial <> "" -> writeReply messageID sent "hello" "" (encode_Hello hello) = Some text ->
  valid_utf8 messageID = true -> hello_text_ok hello = true -> he_NodeID hello <> "" ->
  (he_RealityPublicKey hello = "" /\ he_RealityShortID hello = "")
    \/ validRealityHello (he_RealityPublicKey hello) (he_RealityShortID hello) = true ->
  greet "verified" serial (Some text)
  = inr (mkEnvelope Version messageID "" "hello" sent (Some (encode_Hello hello)), hello, JArr (JStr <$> he_Capabilities hello)).
Proof.
  intros Hs Ht Hm Hok Hid Hr. destruct (hello_reads_back hello Hok) as [Hd Hw].
  unfold greet. apply String.eqb_neq in Hs, Hid. rewrite Hs. cbn [String.eqb orb negb].
  rewrite (writeReply_reads_back _ _ _ _ _ _ Ht) by (first [exact Hw | rewrite Hm; reflexivity]).
  cbn [env_Type env_Data mbind option_bind]. rewrite Hd, Hid.
  replace (negb (String.eqb "hello" "hello")) with false by reflexivity.
  destruct Hr as [[-> ->] | ->]; [reflexivity|]. by rewrite andb_false_r.
Qed.

Lemma Connect_run now conn serial first env hello caps h k n ids t c s :
  greet "verified" serial first = inr (env, hello, caps) -> hb_pg h = mkPg t [] false ids ->
  canonical_uuid (he_NodeID hello) = Ok k -> c_nodes t !! k = Some n -> certified serial n = true -> serial = String c s ->
  pg_text (he_AgentVersion hello) && in_int32 (env_Version env) && jsonb_text caps
    && pg_text (he_RealityPublicKey hello) && pg_text (he_RealityShortID hello) = true ->
  exists h', Connect now conn "verified" serial first h = (Ok (inr (he_NodeID hello)), h')
    /\ c_nodes (cp (hb_pg h')) !! k = Some (set_agent now (env_Version env) hello caps n).
Proof.
  intros Hg Hpg Hk Hn Hc Hs Htext. unfold Connect. rewrite Hg. unfold bind at 1, try at 1, on at 1, select, select_serial.
  cbn [part hub_pg]. rewrite Hpg. unfold pool at 1. cbn [next_outcome outcomes head default cp]. rewrite Hk, Hn, Hc, Hs.
  cbn [result_map]. unfold bind at 1, try at 1, on at 1, pool at 1. cbn [part with_part hub_pg hb_pg next_outcome advance with_cp outcomes head default cp tail aborted uuids].
  unfold announce. rewrite Hk, Htext. cbn [next_outcome outcomes head default].
  unfold bind at 1, register. unfold bind, try.
  match goal with |- context [on (queueDeviceResync now (he_NodeID hello)) ?h2] =>
    pose proof (keeps_on (on_tables (same c_nodes)) (queueDeviceResync now (he_NodeID hello)) (queueDeviceResync_nodes _ _) h2) as Hq;
    destruct (on (queueDeviceResync _ _) h2) as [x h3] end.
  eexists. split; [reflexivity|]. unfold on_part, on_tables, same in Hq. cbn [part hub_pg snd hb_pg] in Hq. rewrite Hq.
  cbn [hb_pg cp with_cp c_nodes with_nodes]. by rewrite lookup_alter, decide_True, Hn by done.
Qed.
End Admission.

(** C12 - A connection is admitted only over verified mutual TLS, with a hello in its
    first message, and only when the serial of its certificate is the current or
    the next one of the node it names: nobody speaks for a node without one of
    that node's certificates. *)
Theorem only_certified_nodes_connect {PU : PgUuid} {MO : MapOrder} now conn mtls serial first h node h' :
  Connect now conn mtls serial first h = (Ok (inr node), h') ->
  mtls = "verified" /\ serial <> ""
  /\ (exists raw env data, first = Some raw /\ Parse raw ≫= decode_Envelope = Some env /\ env_Type env = "hello"
        /\ env_Data env ≫= decode_Hello = Some data /\ he_NodeID data.1 = node)
  /\ exists k n, canonical_uuid node = Ok k /\ c_nodes (cp (hb_pg h)) !! k = Some n
       /\ (nd_certificate_serial n = Some serial \/ nd_next_serial n = Some serial).
Proof.
  intros (env & hello & caps & Hg & Hid & k & n & Hk & Hn & Hc)%Connect_inr. unfold greet in Hg.
  destruct (String.eqb_spec mtls "verified") as [->|]; [|done]. destruct (String.eqb_spec serial "") as [|Hs]; [done|].
  cbn [negb orb] in Hg. destruct first as [raw|]; [|done].
  destruct (Parse raw ≫= decode_Envelope) as [e|] eqn:Ee; [|done].
  destruct (String.eqb_spec (env_Type e) "hello") as [Ht|]; [|done]. cbn [negb] in Hg.
  destruct (env_Data e ≫= decode_Hello) as [[hl cp]|] eqn:Ed; [|done].
  destruct (String.eqb (he_NodeID hl) ""); [done|]. destruct (_ && _); [done|]. injection Hg as <- <- <-.
  split_and!; [done|done|by exists raw, e, (hl, cp)|]. exists k, n. split_and!; [done|done|].
  unfold certified in Hc. apply orb_true_iff in Hc as [?%bool_decide_eq_true|?%bool_decide_eq_true]; auto.
Qed.

(** The hello that a node writes is admitted when its certificate is known and the
    database answers: the node is healthy from then on, with the capabilities, the
    version and the Reality parameters it announced. *)
Theorem hello_is_admitted {PU : PgUuid} {MO : MapOrder} now conn serial messageID sent hello text online closed
    t ids k n :
  writeReply messageID sent "hello" "" (encode_Hello hello) = Some text -> valid_utf8 messageID = true ->
  hello_text_ok hello = true -> he_NodeID hello <> "" ->
  (he_RealityPublicKey hello = "" /\ he_RealityShortID hello = "")
    \/ validRealityHello (he_RealityPublicKey hello) (he_RealityShortID hello) = true ->
  pg_text (he_AgentVersion hello) && forallb pg_text (he_Capabilities hello)
    && pg_text (he_RealityPublicKey hello) && pg_text (he_RealityShortID hello) = true ->
  pg_uuid (he_NodeID hello) = Some k -> c_nodes t !! k = Some n -> serial <> "" ->
  nd_certificate_serial n = Some serial \/ nd_next_serial n = Some serial ->
  exists h', Connect now conn "verified" serial (Some text) (mkHub (mkPg t [] false ids) online closed)
      = (Ok (inr (he_NodeID hello)), h')
    /\ exists n', c_nodes (cp (hb_pg h')) !! k = Some n' /\ rt_status (nd_route n') = "healthy"
       /\ rt_capabilities (nd_route n') = JArr (JStr <$> he_Capabilities hello)
       /\ nd_agent n' = mkAgentRow (ag_public_key (nd_agent n)) (he_AgentVersion hello) Version
            (null_if_empty (he_RealityPublicKey hello)) (null_if_empty (he_RealityShortID hello)) (Some now).
Proof.
  intros Ht Hm Hok Hid Hr Hpt Hk Hn Hs Hc. pose proof (greet_hello _ _ _ _ _ Hs Ht Hm Hok Hid Hr) as Hg.
  destruct serial as [|c s]; [done|].
  destruct (Connect_run now conn (String c s) (Some text) _ hello _ (mkHub (mkPg t [] false ids) online closed) k n ids t c s Hg)
    as (h' & Hrun & Hrow); [done|unfold canonical_uuid; by rewrite Hk|done| |done| |].
  - unfold certified. apply orb_true_iff. rewrite !bool_decide_eq_true. exact Hc.
  - apply andb_true_iff in Hpt as [[[-> Hcaps]%andb_true_iff ->]%andb_true_iff ->].
    assert (Hj : jsonb_text (JArr (JStr <$> he_Capabilities hello)) = true).
    { cbn [jsonb_text]. clear -Hcaps. induction (he_Capabilities hello) as [|x l IH]; [done|].
      cbn [fmap list_fmap forallb jsonb_text] in *. apply andb_true_iff in Hcaps as [-> Hl]. auto. }
    by rewrite Hj.
  - exists h'. split; [done|]. eexists. split; [done|]. done.
Qed.

(** ** What the steps of the hub leave alone *)

(** A row without a certificate, present or prepared. *)
Definition locked_row (n : node_row) : Prop :=
  nd_certificate_serial n = None /\ nd_certificate_not_after n = None /\ nd_next_serial n = None /\ nd_next_not_after n = None.
Definition harmless (f : node_row -> node_row) : Prop := forall n, locked_row n -> locked_row (f n).

Section NodesAlone.
Context {PU : PgUuid} {RO : RowOrder}.

Lemma usage_nodes now nodeID data : keeps (on_tables (same c_nodes)) (usage now nodeID data).
Proof.
  unfold usage. destruct (decode_usage data) as [events|]; [|apply keeps_fail; apply _].
  apply keeps_bind; [apply _| |intros _; apply keeps_ret; apply _].
  apply keeps_in_transaction, keeps_for_each; [apply _..|]. intros e. unfold take_event.
  apply keeps_bind; [apply _| |].
  - apply keeps_stmt; [apply _|]. unfold record_usage. intros t a t'.
    destruct (canonical_uuid nodeID) as [k|]; [|done]. destruct (canonical_uuid (pu_DeviceID e)) as [dev|]; [|done].
    destruct (_ || _); [done|]. destruct (existsb _ _); [by intros [= _ <-]|].
    destruct (c_nodes t !! k), (c_devices t !! dev); try done. by intros [= _ <-].
  - intros []; [|apply keeps_ret; apply _]. apply keeps_bind; [apply _| |intros _].
    + apply keeps_stmt; [apply _|]. unfold charge. intros t a t'. destruct (canonical_uuid _) as [dev|]; [|done].
      destruct (c_devices t !! dev) as [d|]; [|by intros [= _ <-]]. destruct (c_subscriptions t !! cd_user d); [|by intros [= _ <-]].
      destruct (bigint _); [|done]. by intros [= _ <-].
    + apply keeps_bind; [apply _|apply keeps_random_uuid; apply _|intros id].
      apply keeps_bind; [apply _| |intros ?; apply keeps_ret; apply _]. apply keeps_try, keeps_stmt; [apply _|].
      intros t a t' [-> | [f ->]]%kick_exhausted_ok; done.
Qed.

Lemma deliver_nodes now clock now' nodeID : keeps (on_part (on_tables (same c_nodes))) (deliver now clock now' nodeID).
Proof.
  unfold deliver. apply keeps_bind; [apply _| |intros rows].
  { apply keeps_on, keeps_pool; [apply _|]. unfold due_commands. intros t a t'. destruct (canonical_uuid _); [|done]. by intros [= _ <-]. }
  apply keeps_bind; [apply _| |intros _].
  - apply keeps_for_each; [apply _|]. intros c. unfold deliver_one. apply keeps_bind; [apply _| |intros _].
    + intros l. unfold write. by destruct (default true _).
    + apply keeps_bind; [apply _| |intros ?; apply keeps_ret; apply _].
      apply keeps_try, keeps_on, keeps_pool; [apply _|]. intros t a t'. unfold mark_sent. by intros [= _ <-].
  - apply keeps_bind; [apply _| |intros ?; apply keeps_ret; apply _].
    apply keeps_try, keeps_on, keeps_pool; [apply _|]. unfold expire_commands. intros t a t'. destruct (canonical_uuid _); [|done]. by intros [= _ <-].
Qed.
End NodesAlone.

Section Frame.
Context {PU : PgUuid} {LC : LoadColumn} {MO : MapOrder} {RO : RowOrder} {XC : X509} {XI : X509Issuing}.
Context (R : relation ctables) `{!PreOrder R} (Hnodes : forall t t', c_nodes t' = c_nodes t -> R t t').

(** The rows that the connection of [nodeID] may change in any harmless way. *)
Definition may_change (nodeID : string) : Prop :=
  forall k f t, canonical_uuid nodeID = Ok k -> harmless f -> R t (with_nodes (alter f k) t).

Lemma keeps_nodes {A} (m : prog pg A) : keeps (on_tables (same c_nodes)) m -> keeps (on_tables R) m.
Proof. intros H s. apply Hnodes. exact (H s). Qed.

Lemma record_heartbeat_keeps now status load1 rtt nodeID t a t' :
  may_change nodeID -> record_heartbeat now status load1 rtt nodeID t = Ok (a, t') -> R t t'.
Proof.
  intros Hc. unfold record_heartbeat. destruct (canonical_uuid nodeID) as [k|] eqn:Ek; [|done].
  destruct (least_one load1) as [load|]; [|done]. destruct (in_int32 rtt); [|done].
  destruct (c_nodes t !! k) as [n|] eqn:En; [|intros [= _ <-]; reflexivity]. case_bool_decide; [|done]. intros [= _ <-].
  etransitivity; [apply (Hc k (set_vitals now status load rtt)); [done|by intros []]|]. apply Hnodes. cbn [c_nodes with_nodes].
  apply map_eq. intros i. destruct (decide (i = k)) as [->|]; [by rewrite lookup_insert, lookup_alter, !decide_True, En by done|].
  by rewrite lookup_insert_ne, lookup_alter_ne by done.
Qed.

Lemma acknowledge_keeps now nodeID kind replyTo data :
  may_change nodeID -> keeps (on_tables R) (acknowledge now nodeID kind replyTo data).
Proof.
  intros Hc. unfold acknowledge.
  assert (Hp : forall f : ctables -> result (unit * ctables), (forall t a t', f t = Ok (a, t') -> R t t') ->
    keeps (on_tables R) (try (pool f))) by (intros f Hf; apply keeps_try, keeps_pool; [apply _|done]).
  apply keeps_bind; [apply _| |intros _; apply keeps_if; [|apply keeps_ret; apply _]].
  - apply Hp. unfold set_answer, with_command. intros t a t'. destruct (canonical_uuid nodeID), (canonical_uuid replyTo); try done.
    intros [= _ <-]. by apply Hnodes.
  - apply keeps_bind; [apply _| |intros _; apply keeps_bind; [apply _| |intros _; apply keeps_bind; [apply _| |intros _; apply keeps_ret; apply _]]];
      apply Hp; unfold feed_applied, certificate_rotated, device_provisioned, with_command; intros t a t';
      destruct (canonical_uuid nodeID) as [k|] eqn:Ek, (canonical_uuid replyTo); try done;
      destruct (answered_command _ _ _ t) as [c|]; try (intros [= _ <-]; reflexivity).
    + intros [= _ <-]. apply (Hc k); [done|]. by intros n (H1 & H2 & H3 & H4).
    + intros [= _ <-]. apply (Hc k); [done|]. by intros n (H1 & H2 & H3 & H4).
    + destruct (json_text _ _) as [text|]; [|intros [= _ <-]; reflexivity].
      destruct (canonical_uuid text); [|done]. intros [= _ <-]. by apply Hnodes.
Qed.

Lemma receive_keeps now nodeID raw : may_change nodeID -> keeps (on_tables R) (receive now nodeID raw).
Proof.
  intros Hc. unfold receive. destruct (Parse raw ≫= decode_Envelope) as [env|]; [|apply keeps_ret; apply _].
  destruct (String.eqb (env_Type env) "heartbeat").
  { destruct (decode_heartbeat _) as [data|]; [|apply keeps_ret; apply _].
    apply keeps_bind; [apply _| |intros _; apply keeps_ret; apply _]. apply keeps_try, keeps_pool; [apply _|].
    intros t a t'. by apply record_heartbeat_keeps. }
  destruct (_ || _); [apply keeps_bind; [apply _|by apply acknowledge_keeps|intros _; apply keeps_ret; apply _]|].
  destruct (String.eqb _ "usage.batch"); [|apply keeps_ret; apply _].
  apply keeps_bind; [apply _|apply keeps_try, keeps_nodes, usage_nodes|intros ?; apply keeps_ret; apply _].
Qed.

Lemma Connect_keeps now conn mtls serial first h r h' :
  (forall node, r = Ok (inr node) -> may_change node) ->
  Connect now conn mtls serial first h = (r, h') -> R (cp (hb_pg h)) (cp (hb_pg h')).
Proof.
  intros Hc. unfold Connect. destruct (greet mtls serial first) as [?|[[env hello] caps]]; [intros [= _ <-]; reflexivity|].
  unfold bind at 1, try at 1. destruct (on (pool _) h) as [found h0] eqn:E0. apply on_cases in E0 as (s0 & E0 & ->).
  apply pool_select_ok in E0 as [E0 _]. change (cp (part h)) with (cp (hb_pg h)) in E0. rewrite <- E0.
  destruct found as [[|c found]|e]; [intros [= _ <-]; reflexivity| |intros [= _ <-]; reflexivity].
  unfold bind at 1, try at 1. destruct (on (pool _) _) as [x1 h1] eqn:E1. apply on_cases in E1 as (s1 & E1 & ->).
  unfold bind, register, try. cbn [with_part hub_pg hb_pg].
  destruct (on (queueDeviceResync now (he_NodeID hello)) _) as [x2 h2] eqn:E2. apply on_cases in E2 as (s2 & E2 & ->).
  intros [= <- <-]. specialize (Hc _ eq_refl). cbn [part hub_pg hb_pg] in *. transitivity (cp s1).
  - assert (Ha : forall t a t', announce now (env_Version env) hello caps t = Ok (a, t') -> R t t').
    { unfold announce. intros t a t'. destruct (canonical_uuid (he_NodeID hello)) as [k|] eqn:Ek; [|done].
      destruct (_ && _); [|done]. intros [= _ <-]. apply (Hc k); [done|]. by intros n. }
    pose proof (keeps_pool R _ Ha s0) as Hs. unfold on_tables in Hs. cbn [with_part hub_pg hb_pg part] in E1. by rewrite E1 in Hs.
  - apply Hnodes. pose proof (queueDeviceResync_nodes now (he_NodeID hello) s1) as Hq. unfold on_tables, same in Hq. by rewrite E2 in Hq.
Qed.

Lemma leave_keeps now conn node h r h' :
  may_change node -> leave now conn node h = (r, h') -> R (cp (hb_pg h)) (cp (hb_pg h')).
Proof.
  intros Hc. unfold leave, bind at 1, bind, try. destruct (on (pool _) _) as [x h2] eqn:E. apply on_cases in E as (s2 & E & ->).
  intros [= _ <-]. cbn [part hub_pg hb_pg] in *.
  assert (Ha : forall t a t', go_offline now node t = Ok (a, t') -> R t t').
  { unfold go_offline. intros t a t'. destruct (canonical_uuid node) as [k|] eqn:Ek; [|done]. intros [= _ <-]. apply (Hc k); [done|].
    intros n Hn. destruct (silent now n); [|done]. exact Hn. }
  pose proof (keeps_pool R _ Ha (hb_pg h)) as Hs. unfold on_tables in Hs. by rewrite E in Hs.
Qed.

(** A step of the hub keeps what its node may change, and what the worker keeps. *)
Lemma gate_step_keeps who g g' :
  gate_step who g g' -> (forall node, who = Some node -> may_change node) ->
  (forall issuer draws now clock, keeps (on_tables R) (rotateCertificates issuer draws now clock)) ->
  R (gt_tables g) (gt_tables g').
Proof.
  intros H Hc Hrot. unfold gt_tables. destruct H as [now conn mtls serial first h live past node h' Hnew H
    |now conn mtls serial first h live past r h' H|now conn node raw h live past r h' Hin H
    |now clock now' conn node writes h live past r l Hin H|now conn node h live past r h' Hin H
    |issuer draws now clock h live past r h' H]; cbn [gt_hub].
  - eapply Connect_keeps; [|exact H]. intros ? [= <-]. auto.
  - eapply Connect_keeps; [|exact H]. done.
  - pose proof (receive_keeps now node raw (Hc _ eq_refl) (hb_pg h)) as Hk. apply on_cases in H as (s & H & ->).
    unfold on_tables in Hk. cbn [part hub_pg] in H. by rewrite H in Hk.
  - apply Hnodes. pose proof (deliver_nodes now clock now' node (mkLink (hb_pg h) [] writes)) as Hk. by rewrite H in Hk.
  - eapply leave_keeps; [|exact H]. auto.
  - pose proof (Hrot issuer draws now clock (hb_pg h)) as Hk. apply on_cases in H as (s & H & ->).
    unfold on_tables in Hk. cbn [part hub_pg] in H. by rewrite H in Hk.
Qed.
End Frame.

(** ** Certificates in rotation *)

Lemma certified_spec serial n :
  certified serial n = true <-> nd_certificate_serial n = Some serial \/ nd_next_serial n = Some serial.
Proof. unfold certified. by rewrite orb_true_iff, !bool_decide_eq_true. Qed.

Section Rotation.
Context {PU : PgUuid} {LC : LoadColumn} {MO : MapOrder} {RO : RowOrder} {XC : X509} {XI : X509Issuing}.

Lemma prepare_rotation_ok now id node serial notAfter payload t a t' :
  prepare_rotation now id node serial notAfter payload t = Ok (a, t') ->
  exists k, canonical_uuid node = Ok k /\
    match c_nodes t !! k with
    | None => t' = t
    | Some n => exists p, payload = Some p /\ existsb (fun c => String.eqb (cm_id c) id) (c_commands t) = false
        /\ t' = with_commands (fun l => l ++ [mkCommandRow id k "certificate.rotate" p "pending" 0 now
                    (TimeAdd now (24 * hour)) None None now])
                  (with_nodes (insert k (mkNodeRow (nd_certificate_serial n) (nd_certificate_not_after n) (Some serial)
                    (Some notAfter) (nd_compliance_version n) (nd_compliance_fetched_at n) (nd_route n) (nd_agent n))) t)
    end.
Proof.
  unfold prepare_rotation. destruct (canonical_uuid node) as [k|]; [|done]. intros H. exists k. split; [done|]. revert H.
  destruct (c_nodes t !! k) as [n|] eqn:En; [|by intros [= _ <-]]. unfold insert_command. cbn [c_nodes with_nodes c_commands].
  rewrite lookup_insert, decide_True by done. destruct payload as [p|]; [|done].
  destruct (existsb _ _) eqn:Ex; [done|]. cbn [result_map]. intros [= _ <-]. eauto.
Qed.

(** The keys of the table are uuids in their canonical spelling. *)
Definition uuid_keys (t : ctables) : Prop := forall j, is_Some (c_nodes t !! j) -> pg_uuid j = Some j.
Definition stuck (k : string) (t : ctables) : Prop :=
  (exists n, c_nodes t !! k = Some n /\ locked_row n) /\ uuid_keys t.

Lemma stuck_nodes k t t' : c_nodes t' = c_nodes t -> preserves (stuck k) t t'.
Proof. intros H [H1 H2]. unfold stuck, uuid_keys. by rewrite H. Qed.
Lemma stuck_may_change k nodeID : may_change (preserves (stuck k)) nodeID.
Proof.
  intros k' f t _ Hf [(n & Hn & Hl) Hu]. split; cbn [c_nodes with_nodes].
  - destruct (decide (k = k')) as [->|Hne]; [|rewrite lookup_alter_ne by done; eauto].
    exists (f n). rewrite lookup_alter, decide_True, Hn by done. split; [done|by apply Hf].
  - intros j. cbn [c_nodes with_nodes]. rewrite lookup_alter_is_Some. apply Hu.
Qed.
Lemma rotate_one_stuck k i draws clock j key :
  j <> k -> pg_uuid j = Some j -> keeps (on_tables (preserves (stuck k))) (rotate_one i draws clock (j, key)).
Proof.
  intros Hne Hj. unfold rotate_one. apply keeps_if; [apply keeps_ret; apply _|].
  destruct (Issue _ _ _ _ _) as [[pem tm]|e]; [|apply keeps_fail; apply _].
  apply keeps_bind; [apply _|apply keeps_random_uuid; apply _|intros id]. apply keeps_pool; [apply _|].
  intros t a t' (k' & Hk' & H)%prepare_rotation_ok [(n & Hn & Hl) Hu].
  assert (k' = j) as -> by (unfold canonical_uuid in Hk'; rewrite Hj in Hk'; congruence).
  destruct (c_nodes t !! j) as [m|] eqn:Ej; [|subst; split; eauto].
  destruct H as (p & _ & _ & ->). split.
  - exists n. cbn [c_nodes with_commands with_nodes]. by rewrite lookup_insert_ne by done.
  - intros x. cbn [c_nodes with_commands with_nodes]. rewrite lookup_insert_is_Some. intros [<-|[_ Hx]]; auto.
Qed.
Lemma rotateCertificates_stuck k issuer draws now clock :
  keeps (on_tables (preserves (stuck k))) (rotateCertificates issuer draws now clock).
Proof.
  unfold rotateCertificates. destruct issuer as [i|]; [|apply keeps_ret; apply _]. intros s. unfold on_tables. intros Hst. unfold bind.
  destruct (pool (select (expiring_nodes now)) s) as [rows s1] eqn:E. apply pool_select_ok in E as [Es Hr].
  destruct rows as [rows|]; [|cbn [snd]; by rewrite Es]. specialize (Hr _ eq_refl). injection Hr as <-.
  rewrite <- Es in Hst. apply (keeps_for_each_elem (on_tables (preserves (stuck k)))); [|exact Hst].
  intros [j key] Hin. rewrite Es in Hst. destruct Hst as [(n & Hn & H1 & H2 & H3 & H4) Hu].
  apply list_elem_of_omap in Hin as ([j' m] & Hj%elem_of_range & Hf).
  destruct (_ && _) eqn:Eb; [|done]. injection Hf as -> _. apply rotate_one_stuck.
  - intros ->. rewrite Hn in Hj. injection Hj as <-. by rewrite H2 in Eb.
  - apply Hu. eauto.
Qed.
Lemma run_stuck k g g' : rtc steps g g' -> stuck k (gt_tables g) -> stuck k (gt_tables g').
Proof.
  induction 1 as [|x y z [who Hs] _ IH]; [done|]. intros Hst. apply IH. revert Hst.
  apply (gate_step_keeps (preserves (stuck k)) (stuck_nodes k) _ _ _ Hs); [intros; apply stuck_may_change|].
  intros. apply rotateCertificates_stuck.
Qed.
Lemma stuck_refused k now conn mtls serial first h node h' :
  stuck k (cp (hb_pg h)) -> canonical_uuid node = Ok k ->
  Connect now conn mtls serial first h <> (Ok (inr node), h').
Proof.
  intros [(n & Hn & H1 & _ & H3 & _) _] Hk (env & hello & caps & _ & _ & k' & n' & Hk' & Hn' & Hc)%Connect_inr.
  assert (k' = k) as -> by congruence. assert (n' = n) as -> by congruence.
  apply certified_spec in Hc as [Hc|Hc]; congruence.
Qed.
End Rotation.

(** *** Acknowledgements of a rotation *)

Lemma pool_calm {A} (f : ctables -> result (A * ctables)) t ab ids :
  pool f (mkPg t [] ab ids)
  = match f t with Ok (a, t') => (Ok a, mkPg t' [] ab ids) | Err e => (Err e, mkPg t [] ab ids) end.
Proof. unfold pool. cbn. by destruct (f t) as [[a t']|e]. Qed.

Lemma answered_is_Some kind node id t :
  is_Some (answered_command kind node id t)
  <-> exists c, c ∈ c_commands t /\ cm_id c = id /\ cm_node c = node /\ cm_type c = kind.
Proof.
  unfold answered_command. rewrite fmap_is_Some. split.
  - intros [[i c] E]. apply list_find_Some in E as (Hi & Hc & _). exists c. split; [by eapply list_elem_of_lookup_2|done].
  - intros (c & Hin & Hc). destruct (list_find _ _) eqn:E; [eauto|]. apply list_find_None in E.
    rewrite Forall_forall in E. by destruct (E c Hin).
Qed.

(** The row after a rotation was acknowledged. *)
Record rotated (n n' : node_row) : Prop := {
  rd_serial : nd_certificate_serial n' = nd_next_serial n;
  rd_not_after : nd_certificate_not_after n' = nd_next_not_after n;
  rd_next : nd_next_serial n' = None;
  rd_next_not_after : nd_next_not_after n' = None }.

Definition rotation_pending (k id : string) (t : ctables) : Prop := is_Some (answered_command "certificate.rotate" k id t).

Section Acked.
Context {PU : PgUuid} {LC : LoadColumn}.

Lemma feed_applied_serials now nodeID k id cid t n :
  canonical_uuid nodeID = Ok k -> canonical_uuid id = Ok cid -> c_nodes t !! k = Some n -> rotation_pending k cid t ->
  exists t' n', feed_applied now nodeID id t = Ok (tt, t') /\ c_nodes t' !! k = Some n'
    /\ nd_next_serial n' = nd_next_serial n /\ nd_next_not_after n' = nd_next_not_after n /\ rotation_pending k cid t'
    /\ (forall j, is_Some (c_nodes t' !! j) <-> is_Some (c_nodes t !! j)).
Proof.
  intros Hk Hc Hn Hp. unfold feed_applied, with_command. rewrite Hk, Hc.
  destruct (answered_command "compliance.feed" k cid t) as [c|]; eexists _, _; (split; [reflexivity|]); [|done].
  cbn [c_nodes with_nodes]. rewrite lookup_alter, decide_True, Hn by done.
  split_and!; [done|done|done|done|]. intros j. by rewrite lookup_alter_is_Some.
Qed.

Lemma acknowledge_rotation now nodeID k id cid data t ab ids n :
  canonical_uuid nodeID = Ok k -> canonical_uuid id = Ok cid -> ack_OK (decode_ack data) = true ->
  rotation_pending k cid t -> c_nodes t !! k = Some n ->
  exists t' n', acknowledge now nodeID "ack" id data (mkPg t [] ab ids) = (Ok tt, mkPg t' [] ab ids)
    /\ c_nodes t' !! k = Some n' /\ rotated n n' /\ rotation_pending k cid t'
    /\ (forall j, is_Some (c_nodes t' !! j) <-> is_Some (c_nodes t !! j)).
Proof.
  intros Hk Hc Hok Hp Hn. unfold acknowledge. rewrite Hok. cbn [negb].
  replace (String.eqb "ack" "nack" || false) with false by reflexivity.
  replace (String.eqb "acked" "acked") with true by reflexivity.
  set (t1 := with_commands (fmap (fun c => if String.eqb (cm_id c) cid && String.eqb (cm_node c) k
                                           then answer "acked" (ack_Message (decode_ack data)) now c else c)) t).
  assert (Hp1 : rotation_pending k cid t1).
  { apply answered_is_Some in Hp as (c & Hin & H1 & H2 & H3). apply answered_is_Some. eexists. split.
    - apply list_elem_of_fmap_2. exact Hin.
    - by destruct (_ && _). }
  unfold bind at 1, try at 1. rewrite pool_calm. unfold set_answer, with_command at 1. rewrite Hk, Hc. fold t1.
  (* the feed *)
  destruct (feed_applied_serials now nodeID k id cid t1 n Hk Hc Hn Hp1) as (t2 & n2 & Ef & Hn2 & Es & Ea & Hp2 & Hd2).
  unfold bind at 1, try at 1. rewrite pool_calm, Ef.
  (* the certificate *)
  unfold bind at 1, try at 1. rewrite pool_calm. unfold certificate_rotated, with_command at 1. rewrite Hk, Hc.
  destruct Hp2 as [c2 Hc2]. rewrite Hc2.
  set (t3 := with_nodes _ t2).
  assert (Hn3 : exists n3, c_nodes t3 !! k = Some n3 /\ rotated n n3).
  { unfold t3. cbn [c_nodes with_nodes]. rewrite lookup_alter, decide_True, Hn2 by done. eexists. split; [reflexivity|]. by split. }
  assert (Hd3 : forall j, is_Some (c_nodes t3 !! j) <-> is_Some (c_nodes t !! j)).
  { intros j. unfold t3. cbn [c_nodes with_nodes]. by rewrite lookup_alter_is_Some. }
  assert (Hp3 : rotation_pending k cid t3) by (exists c2; exact Hc2).
  destruct Hn3 as (n3 & Hn3 & Hrot).
  (* the device *)
  unfold bind, try. rewrite pool_calm. unfold device_provisioned, with_command. rewrite Hk, Hc.
  destruct (answered_command "device.upsert" k cid t3) as [c|]; [|by exists t3, n3].
  destruct (json_text _ _) as [text|]; [|by exists t3, n3]. destruct (canonical_uuid text) as [dev|]; [|by exists t3, n3].
  eexists _, n3. split; [reflexivity|]. done.
Qed.

(** The acknowledgement that a node writes, as the hub reads it. *)
Lemma ack_reads_back a :
  forallb valid_utf8 [ack_Code a; ack_Message a; ack_AppliedAt a] = true ->
  decode_ack (Some (encode_Ack a)) = a /\ well_formed (pred max_depth) (encode_Ack a) = true.
Proof.
  destruct a as [ok c m p]. cbn [forallb ack_Code ack_Message ack_AppliedAt]. rewrite !andb_true_iff. intros (U1 & U2 & U3 & _).
  unfold encode_Ack, omit. cbn [ack_OK ack_Code ack_Message ack_AppliedAt]. split.
  - destruct (String.eqb_spec c "") as [->|], (String.eqb_spec m "") as [->|], (String.eqb_spec p "") as [->|]; reflexivity.
  - destruct max_depth_SSS as [d ->]. cbn [pred].
    destruct (String.eqb c ""), (String.eqb m ""), (String.eqb p ""); cbn [app well_formed forallb fst snd]; rewrite ?U1, ?U2, ?U3; reflexivity.
Qed.
Lemma receive_ack now nodeID messageID sent id a text s :
  writeReply messageID sent "ack" id (encode_Ack a) = Some text -> valid_utf8 messageID && valid_utf8 id = true ->
  forallb valid_utf8 [ack_Code a; ack_Message a; ack_AppliedAt a] = true ->
  receive now nodeID text s = (acknowledge now nodeID "ack" id (Some (encode_Ack a)) ;;; ret None) s.
Proof.
  intros Ht [U1 U2]%andb_true_iff Ha. destruct (ack_reads_back a Ha) as [_ Hw]. unfold receive.
  rewrite (writeReply_reads_back _ _ _ _ _ _ Ht) by (first [exact Hw | rewrite U1, U2; reflexivity]). reflexivity.
Qed.
Lemma receive_rotation_ack now nodeID k messageID sent id a text t ab ids n :
  writeReply messageID sent "ack" id (encode_Ack a) = Some text -> valid_utf8 messageID && valid_utf8 id = true ->
  forallb valid_utf8 [ack_Code a; ack_Message a; ack_AppliedAt a] = true -> ack_OK a = true ->
  canonical_uuid nodeID = Ok k -> pg_uuid id = Some id -> rotation_pending k id t -> c_nodes t !! k = Some n ->
  exists t' n', receive now nodeID text (mkPg t [] ab ids) = (Ok None, mkPg t' [] ab ids)
    /\ c_nodes t' !! k = Some n' /\ rotated n n' /\ rotation_pending k id t'
    /\ (forall j, is_Some (c_nodes t' !! j) <-> is_Some (c_nodes t !! j)).
Proof.
  intros Ht Hu Ha Hok Hk Hid Hp Hn. destruct (ack_reads_back a Ha) as [Hd _].
  destruct (acknowledge_rotation now nodeID k id id (Some (encode_Ack a)) t ab ids n Hk) as (t' & n' & Hrun & H);
    [unfold canonical_uuid; by rewrite Hid|by rewrite Hd|done|done|].
  exists t', n'. split; [|done]. rewrite (receive_ack _ _ _ _ _ _ _ _ Ht Hu Ha). unfold bind. by rewrite Hrun.
Qed.
End Acked.

(** *** The worker and the hub together *)

Section Handover.
Context {PU : PgUuid} {XC : X509} {XI : X509Issuing}.

Lemma rotate_one_run i draws clock k key t id ids n s1 :
  pg_uuid k = Some k -> c_nodes t !! k = Some n -> String.length key = PublicKeySize ->
  rotate_one i draws clock (k, key) (mkPg t [] false (id :: ids)) = (Ok tt, s1) ->
  exists pem tm payload n1 c t1, s1 = mkPg t1 [] false ids /\ Issue i (draws k) k key (clock k) = Ok (pem, tm)
    /\ encode_CertificateRotate pem (ni_certificatePEM i) (tm_NotAfter tm) = Some payload
    /\ c ∈ c_commands t1 /\ cm_id c = id /\ cm_node c = k /\ cm_type c = "certificate.rotate" /\ cm_payload c = payload
    /\ c_nodes t1 !! k = Some n1 /\ nd_certificate_serial n1 = nd_certificate_serial n
    /\ nd_next_serial n1 = Some (FormatBig (tm_SerialNumber tm)).
Proof.
  intros Hk Hn Hlen. unfold rotate_one. rewrite Hlen, Nat.eqb_refl. cbn [negb].
  destruct (Issue i (draws k) k key (clock k)) as [[pem tm]|e]; [|done]. unfold bind, random_uuid. cbn [uuids head default tail cp outcomes aborted].
  rewrite pool_calm. destruct (prepare_rotation _ _ _ _ _ _ t) as [[[] t1]|e] eqn:E; [|done]. intros [= <-].
  apply prepare_rotation_ok in E as (k' & Hk' & H). unfold canonical_uuid in Hk'. rewrite Hk in Hk'. injection Hk' as <-.
  rewrite Hn in H. destruct H as (p & Hp & _ & ->). exists pem, tm, p. do 3 eexists.
  split; [reflexivity|]. split; [reflexivity|]. split; [exact Hp|]. cbn [c_commands c_nodes with_commands with_nodes].
  split; [apply elem_of_app; right; by apply list_elem_of_singleton|]. do 4 (split; [reflexivity|]).
  rewrite lookup_insert, decide_True by done. by split_and!.
Qed.
End Handover.

(** *** Runs between a rotation and its acknowledgement *)

Definition serials (k : string) (t : ctables) : option (option string * option string) :=
  (fun n => (nd_certificate_serial n, nd_next_serial n)) <$> c_nodes t !! k.
Definition admits (k : string) (t : ctables) (allowed : string -> Prop) : Prop :=
  exists n, c_nodes t !! k = Some n /\ forall serial, certified serial n = true <-> allowed serial.

(** A positive acknowledgement of a rotation command of the node [k]. *)
Definition confirms {PU : PgUuid} (k raw : string) (t : ctables) : Prop :=
  exists env cid, Parse raw ≫= decode_Envelope = Some env /\ env_Type env = "ack"
    /\ ack_OK (decode_ack (env_Data env)) = true /\ canonical_uuid (env_ReplyTo env) = Ok cid /\ rotation_pending k cid t.

Section Steady.
Context {PU : PgUuid} {LC : LoadColumn} {MO : MapOrder} {RO : RowOrder} {XC : X509} {XI : X509Issuing}.
Context (k : string).

(** The two steps that move the certificates of the node [k] on. *)
Inductive moves_on : gate -> gate -> Prop :=
| moves_confirmed now conn node raw h live past r h' :
    canonical_uuid node = Ok k -> confirms k raw (cp (hb_pg h)) -> (conn, node) ∈ live -> on (receive now node raw) h = (r, h') ->
    moves_on (mkGate h live past) (mkGate h' live past)
| moves_rotated issuer draws now clock row rows h live past r h' :
    expiring_nodes now (cp (hb_pg h)) = Ok rows -> row ∈ rows -> canonical_uuid row.1 = Ok k ->
    on (rotateCertificates issuer draws now clock) h = (r, h') ->
    moves_on (mkGate h live past) (mkGate h' live past).
(** Any other step. *)
Definition steady (g g' : gate) : Prop := steps g g' /\ ~ moves_on g g'.

(** What such steps keep: the two serials, and that the commands are there. *)
Definition kept (t t' : ctables) : Prop :=
  serials k t' = serials k t /\ forall id, rotation_pending k id t -> rotation_pending k id t'.
#[local] Instance kept_preorder : PreOrder kept.
Proof. split; [done|]. intros t1 t2 t3 [A1 A2] [B1 B2]. split; [congruence|auto]. Qed.

Lemma kept_same t t' : c_nodes t' = c_nodes t -> c_commands t' = c_commands t -> kept t t'.
Proof. intros H1 H2. unfold kept, serials, rotation_pending, answered_command. by rewrite H1, H2. Qed.
Lemma kept_nodes t f j :
  (forall n, nd_certificate_serial (f n) = nd_certificate_serial n /\ nd_next_serial (f n) = nd_next_serial n) ->
  kept t (with_nodes (alter f j) t).
Proof.
  intros Hf. split; [|done]. unfold serials. cbn [c_nodes with_nodes]. rewrite lookup_alter. case_decide as E; [|done]. subst j.
  destruct (c_nodes t !! k) as [n|]; [|done]. cbn. by destruct (Hf n) as [-> ->].
Qed.
Lemma kept_insert t n n' j :
  c_nodes t !! j = Some n -> nd_certificate_serial n' = nd_certificate_serial n -> nd_next_serial n' = nd_next_serial n ->
  kept t (with_nodes (insert j n') t).
Proof.
  intros Hn H1 H2. split; [|done]. unfold serials. cbn [c_nodes with_nodes]. rewrite lookup_insert. case_decide as E; [|done].
  subst j. rewrite Hn. cbn. by rewrite H1, H2.
Qed.
Lemma kept_append t new : kept t (with_commands (fun l => l ++ new) t).
Proof.
  split; [done|]. intros id (c & Hc & Hrest)%answered_is_Some. apply answered_is_Some. exists c. split; [|done].
  cbn. rewrite elem_of_app. by left.
Qed.
Lemma kept_fmap t g :
  (forall c, cm_id (g c) = cm_id c /\ cm_node (g c) = cm_node c /\ cm_type (g c) = cm_type c) -> kept t (with_commands (fmap g) t).
Proof.
  intros Hg. split; [done|]. intros id (c & Hc & H1 & H2 & H3)%answered_is_Some. apply answered_is_Some. exists (g c).
  destruct (Hg c) as (-> & -> & ->). split; [|done]. cbn. by apply list_elem_of_fmap_2.
Qed.
Lemma insert_command_kept now id node kind payload t t' : insert_command now id node kind payload t = Ok t' -> kept t t'.
Proof.
  unfold insert_command. destruct payload; [|done]. destruct (c_nodes t !! node); [|done]. destruct (existsb _ _); [done|].
  intros [= <-]. apply kept_append.
Qed.
Lemma queue_command_kept now id nodeID kind payload t a t' : queue_command now id nodeID kind payload t = Ok (a, t') -> kept t t'.
Proof.
  unfold queue_command. destruct (canonical_uuid nodeID); [|done].
  destruct (insert_command _ _ _ _ _ t) eqn:E; [|done]. intros [= _ <-]. by eapply insert_command_kept.
Qed.

Lemma usage_kept now nodeID data : keeps (on_tables kept) (usage now nodeID data).
Proof.
  unfold usage. destruct (decode_usage data) as [events|]; [|apply keeps_fail; apply _].
  apply keeps_bind; [apply _| |intros _; apply keeps_ret; apply _].
  apply keeps_in_transaction, keeps_for_each; [apply _..|]. intros e. unfold take_event.
  apply keeps_bind; [apply _| |].
  - apply keeps_stmt; [apply _|]. unfold record_usage. intros t a t'.
    destruct (canonical_uuid nodeID) as [n|]; [|done]. destruct (canonical_uuid (pu_DeviceID e)) as [dev|]; [|done].
    destruct (_ || _); [done|]. destruct (existsb _ _); [by intros [= _ <-]|].
    destruct (c_nodes t !! n), (c_devices t !! dev); try done. intros [= _ <-]. by apply kept_same.
  - intros []; [|apply keeps_ret; apply _]. apply keeps_bind; [apply _| |intros _].
    + apply keeps_stmt; [apply _|]. unfold charge. intros t a t'. destruct (canonical_uuid _) as [dev|]; [|done].
      destruct (c_devices t !! dev) as [d|]; [|by intros [= _ <-]]. destruct (c_subscriptions t !! cd_user d); [|by intros [= _ <-]].
      destruct (bigint _); [|done]. intros [= _ <-]. by apply kept_same.
    + apply keeps_bind; [apply _|apply keeps_random_uuid; apply _|intros id].
      apply keeps_bind; [apply _| |intros ?; apply keeps_ret; apply _]. apply keeps_try, keeps_stmt; [apply _|].
      intros t a t'. unfold kick_exhausted. destruct (canonical_uuid _) as [dev|]; [|done].
      destruct (c_devices t !! dev); [|by intros [= _ <-]]. destruct (c_assignments t !! dev); [|by intros [= _ <-]].
      destruct (c_subscriptions t !! _); [|by intros [= _ <-]]. destruct (_ && _); [|by intros [= _ <-]].
      destruct (insert_command _ _ _ _ _ t) eqn:E; [|done]. intros [= _ <-]. by eapply insert_command_kept.
Qed.
Lemma deliver_kept now clock now' nodeID : keeps (on_part (on_tables kept)) (deliver now clock now' nodeID).
Proof.
  unfold deliver. apply keeps_bind; [apply _| |intros rows].
  { apply keeps_on, keeps_pool; [apply _|]. unfold due_commands. intros t a t'. destruct (canonical_uuid _); [|done]. by intros [= _ <-]. }
  apply keeps_bind; [apply _| |intros _].
  - apply keeps_for_each; [apply _|]. intros c. unfold deliver_one. apply keeps_bind; [apply _| |intros _].
    + intros l. unfold write. by destruct (default true _).
    + apply keeps_bind; [apply _| |intros ?; apply keeps_ret; apply _].
      apply keeps_try, keeps_on, keeps_pool; [apply _|]. intros t a t'. unfold mark_sent. intros [= _ <-].
      apply kept_fmap. intros c'. by destruct (String.eqb _ _).
  - apply keeps_bind; [apply _| |intros ?; apply keeps_ret; apply _].
    apply keeps_try, keeps_on, keeps_pool; [apply _|]. unfold expire_commands. intros t a t'. destruct (canonical_uuid _); [|done].
    intros [= _ <-]. apply kept_fmap. intros c. unfold expire_row. by destruct (_ && _).
Qed.
Lemma resync_kept now nodeID : keeps (on_tables kept) (queueDeviceResync now nodeID).
Proof.
  apply keeps_bind; [apply _| |intros rows; apply keeps_for_each; [apply _|]].
  - apply keeps_pool; [apply _|]. unfold resync_rows. intros t a t'. destruct (canonical_uuid _); [|done]. by intros [= _ <-].
  - intros [[device d] s]. apply keeps_bind; [apply _|apply keeps_random_uuid; apply _|]. intros id.
    apply keeps_pool; [apply _|]. intros t a t'. apply queue_command_kept.
Qed.
Lemma Connect_kept now conn mtls serial first : keeps (on_part (on_tables kept)) (Connect now conn mtls serial first).
Proof.
  unfold Connect. destruct (greet mtls serial first) as [?|[[env hello] caps]]; [apply keeps_ret; apply _|].
  apply keeps_bind; [apply _| |intros found].
  { apply keeps_try, keeps_on, keeps_pool; [apply _|]. by intros t a t' [_ ->]%select_ok. }
  destruct found as [[|c found]|e]; [apply keeps_ret; apply _| |apply keeps_ret; apply _].
  apply keeps_bind; [apply _| |intros _; apply keeps_bind; [apply _|done|intros _;
    apply keeps_bind; [apply _|apply keeps_try, keeps_on, resync_kept|intros _; apply keeps_ret; apply _]]].
  apply keeps_try, keeps_on, keeps_pool; [apply _|]. unfold announce. intros t a t'. destruct (canonical_uuid _) as [j|]; [|done].
  destruct (_ && _); [|done]. intros [= _ <-]. by apply kept_nodes.
Qed.
Lemma leave_kept now conn node : keeps (on_part (on_tables kept)) (leave now conn node).
Proof.
  unfold leave. apply keeps_bind; [apply _|done|intros _]. apply keeps_bind; [apply _| |intros _; apply keeps_ret; apply _].
  apply keeps_try, keeps_on, keeps_pool; [apply _|]. unfold go_offline. intros t a t'. destruct (canonical_uuid _) as [j|]; [|done].
  intros [= _ <-]. apply kept_nodes. intros n. by destruct (silent now n).
Qed.

(** A message that does not confirm a rotation. *)
Lemma acknowledge_kept now nodeID kind replyTo data s :
  (forall cid, canonical_uuid nodeID = Ok k -> canonical_uuid replyTo = Ok cid -> kind = "ack" -> ack_OK (decode_ack data) = true ->
     ~ rotation_pending k cid (cp s)) -> kind = "ack" \/ kind = "nack" ->
  kept (cp s) (cp (acknowledge now nodeID kind replyTo data s).2).
Proof.
  intros Hno Hkind. unfold acknowledge. set (status := if String.eqb kind "nack" || negb (ack_OK (decode_ack data)) then "nacked" else "acked"). unfold bind at 1, try at 1.
  destruct (pool (set_answer now status _ nodeID replyTo) s) as [x1 s1] eqn:E1.
  assert (H1 : kept (cp s) (cp s1) /\ forall kd j id, is_Some (answered_command kd j id (cp s1)) -> is_Some (answered_command kd j id (cp s))).
  { apply pool_inv in E1 as [Es|(a & Hf)]; [rewrite Es; split; [reflexivity|done]|]. unfold set_answer, with_command in Hf.
    destruct (canonical_uuid nodeID), (canonical_uuid replyTo); try done. injection Hf as _ <-. split.
    - apply kept_fmap. intros c. by destruct (_ && _).
    - intros kd j id (c & Hc & Hrest)%answered_is_Some. apply answered_is_Some. cbn in Hc.
      apply list_elem_of_fmap in Hc as (c0 & -> & Hc0). exists c0. split; [done|]. by destruct (_ && _). }
  destruct H1 as [H1 H1']. destruct (String.eqb status "acked") eqn:Est; [|exact H1].
  unfold bind at 1, try at 1. destruct (pool (feed_applied now nodeID replyTo) s1) as [x2 s2] eqn:E2.
  assert (H2 : kept (cp s1) (cp s2) /\ c_commands (cp s2) = c_commands (cp s1)).
  { apply pool_inv in E2 as [Es|(a & Hf)]; [rewrite Es; split; [reflexivity|done]|]. unfold feed_applied, with_command in Hf.
    destruct (canonical_uuid nodeID), (canonical_uuid replyTo); try done.
    destruct (answered_command _ _ _ _); injection Hf as _ <-; [|done]. split; [by apply kept_nodes|done]. }
  destruct H2 as [H2 H2c]. unfold bind at 1, try at 1. destruct (pool (certificate_rotated nodeID replyTo) s2) as [x3 s3] eqn:E3.
  assert (H3 : kept (cp s2) (cp s3)).
  { apply pool_inv in E3 as [Es|(a & Hf)]; [rewrite Es; reflexivity|]. unfold certificate_rotated, with_command in Hf.
    destruct (canonical_uuid nodeID) as [j|] eqn:Ej, (canonical_uuid replyTo) as [cid|] eqn:Ec; try done.
    destruct (answered_command _ _ _ _) as [c|] eqn:Ea; injection Hf as _ <-; [|done].
    destruct (decide (j = k)) as [->|Hne].
    - exfalso. unfold status in Est. destruct Hkind as [->| ->]; [|done]. cbn [orb] in Est.
      destruct (ack_OK (decode_ack data)) eqn:Eok; [|done]. apply (Hno cid); try done. apply H1'.
      unfold answered_command in *. rewrite H2c in Ea. rewrite Ea. eauto.
    - split; [|done]. unfold serials. cbn [c_nodes with_nodes]. by rewrite lookup_alter_ne. }
  unfold bind, try. destruct (pool (device_provisioned now nodeID replyTo) s3) as [x4 s4] eqn:E4. cbn [snd].
  assert (H4 : kept (cp s3) (cp s4)).
  { apply pool_inv in E4 as [Es|(a & Hf)]; [rewrite Es; reflexivity|]. unfold device_provisioned, with_command in Hf.
    destruct (canonical_uuid nodeID), (canonical_uuid replyTo); try done. destruct (answered_command _ _ _ _); [|by injection Hf as _ <-].
    destruct (json_text _ _) as [text|]; [|by injection Hf as _ <-]. destruct (canonical_uuid text); [|done].
    injection Hf as _ <-. by apply kept_same. }
  by etransitivity; [exact H1|etransitivity; [exact H2|etransitivity; [exact H3|exact H4]]].
Qed.
Lemma receive_kept now nodeID raw s :
  (canonical_uuid nodeID = Ok k -> ~ confirms k raw (cp s)) -> kept (cp s) (cp (receive now nodeID raw s).2).
Proof.
  intros Hno. unfold receive. destruct (Parse raw ≫= decode_Envelope) as [env|] eqn:Eenv; [|reflexivity].
  destruct (String.eqb (env_Type env) "heartbeat").
  { destruct (decode_heartbeat _) as [data|]; [|reflexivity].
    assert (H : keeps (on_tables kept) (try (pool (record_heartbeat now (if String.eqb (vi_Status data) "" then "healthy" else vi_Status data)
      (vi_Load1 data) (vi_ControllerRTT data) nodeID)) ;;; ret (None : option (string * json)))); [|exact (H s)].
    apply keeps_bind; [apply _| |intros _; apply keeps_ret; apply _]. apply keeps_try, keeps_pool; [apply _|].
    intros t a t'. unfold record_heartbeat. destruct (canonical_uuid nodeID) as [j|]; [|done].
    destruct (least_one _); [|done]. destruct (in_int32 _); [|done]. destruct (c_nodes t !! j) as [n|] eqn:En; [|by intros [= _ <-]].
    case_bool_decide; [|done]. intros [= _ <-]. by eapply kept_insert. }
  destruct (_ || _) eqn:Eack.
  { assert (Hkind : env_Type env = "ack" \/ env_Type env = "nack") by (by rewrite orb_true_iff, !String.eqb_eq in Eack).
    unfold bind. pose proof (acknowledge_kept now nodeID (env_Type env) (env_ReplyTo env) (env_Data env) s) as H.
    destruct (acknowledge _ _ _ _ _ s) as [[[]|e] s1]; cbn [ret fail snd] in *; apply H; try done;
      intros cid Hk Hc Ht Hok Hp; apply (Hno Hk); by exists env, cid. }
  destruct (String.eqb _ "usage.batch"); [|reflexivity].
  assert (H : keeps (on_tables kept) (let* ids := try (usage now nodeID (env_Data env)) in
    ret (match ids with Ok ids => Some (env_MessageID env, JObj [("eventIds", JArr (JStr <$> ids))]) | Err _ => None end))); [|exact (H s)].
  apply keeps_bind; [apply _|apply keeps_try, usage_kept|intros ?; apply keeps_ret; apply _].
Qed.

Lemma rotateCertificates_kept issuer draws now clock s :
  (forall rows row, expiring_nodes now (cp s) = Ok rows -> row ∈ rows -> canonical_uuid row.1 <> Ok k) ->
  kept (cp s) (cp (rotateCertificates issuer draws now clock s).2).
Proof.
  intros Hno. unfold rotateCertificates. destruct issuer as [i|]; [|reflexivity]. unfold bind.
  destruct (pool (select (expiring_nodes now)) s) as [rows s1] eqn:E. apply pool_select_ok in E as [Es Hr].
  destruct rows as [rows|]; [|cbn [snd]; by rewrite Es]. specialize (Hr _ eq_refl). rewrite <- Es.
  change (on_tables kept s1 (for_each (rotate_one i draws clock) rows s1).2).
  apply (keeps_for_each_elem (on_tables kept)). intros [j key] Hin. specialize (Hno _ _ Hr Hin). cbn [fst] in Hno.
  unfold rotate_one. apply keeps_if; [apply keeps_ret; apply _|]. destruct (Issue _ _ _ _ _) as [[pem tm]|e]; [|apply keeps_fail; apply _].
  apply keeps_bind; [apply _|apply keeps_random_uuid; apply _|intros id]. apply keeps_pool; [apply _|].
  intros t a t' (k' & Hk' & H)%prepare_rotation_ok. destruct (c_nodes t !! k') as [n|] eqn:En; [|by subst].
  destruct H as (p & _ & _ & ->). etransitivity; [|apply kept_append]. split; [|done]. unfold serials. cbn [c_nodes with_nodes].
  rewrite lookup_insert_ne; [done|]. intros ->. done.
Qed.

Lemma steady_kept g g' : steady g g' -> kept (gt_tables g) (gt_tables g').
Proof.
  intros [[who H] Hno]. unfold gt_tables. destruct H as [now conn mtls serial first h live past node h' Hnew H
    |now conn mtls serial first h live past r h' H|now conn node raw h live past r h' Hin H
    |now clock now' conn node writes h live past r l Hin H|now conn node h live past r h' Hin H
    |issuer draws now clock h live past r h' H]; cbn [gt_hub].
  - pose proof (Connect_kept now conn mtls serial first h) as Hk. by rewrite H in Hk.
  - pose proof (Connect_kept now conn mtls serial first h) as Hk. by rewrite H in Hk.
  - pose proof (receive_kept now node raw (hb_pg h)) as Hk. pose proof H as (s & Hs & ->)%on_cases. cbn [part hub_pg] in Hs.
    rewrite Hs in Hk. apply Hk. intros Hnode Hc. apply Hno. by eapply moves_confirmed.
  - pose proof (deliver_kept now clock now' node (mkLink (hb_pg h) [] writes)) as Hk. by rewrite H in Hk.
  - pose proof (leave_kept now conn node h) as Hk. by rewrite H in Hk.
  - pose proof (rotateCertificates_kept issuer draws now clock (hb_pg h)) as Hk. pose proof H as (s & Hs & ->)%on_cases.
    cbn [part hub_pg] in Hs. rewrite Hs in Hk. apply Hk. intros rows row Hr Hrow Hj. apply Hno. by eapply moves_rotated.
Qed.
Lemma steady_runs_kept g g' : rtc steady g g' -> kept (gt_tables g) (gt_tables g').
Proof. induction 1 as [|x y z Hs _ IH]; [reflexivity|]. etransitivity; [by apply steady_kept|done]. Qed.

Lemma serials_admit t old new : serials k t = Some (old, new) -> admits k t (fun serial => old = Some serial \/ new = Some serial).
Proof.
  unfold serials. intros (n & Hn & [= -> ->])%fmap_Some. exists n. split; [done|]. intros serial. apply certified_spec.
Qed.

(** The acknowledgement, whatever fails in it: the serials stay, or the next one
    becomes the only one. *)
Lemma acknowledge_serials now nodeID replyTo data s old new :
  serials k (cp s) = Some (old, new) ->
  let t' := cp (acknowledge now nodeID "ack" replyTo data s).2 in
  serials k t' = Some (old, new) \/ serials k t' = Some (new, None).
Proof.
  intros Hs. unfold acknowledge. cbv zeta.
  assert (Hpool : forall (f : ctables -> result (unit * ctables)) s0 (P : option (option string * option string) -> Prop), (forall t t' a, P (serials k t) -> f t = Ok (a, t') -> P (serials k t')) ->
    P (serials k (cp s0)) -> P (serials k (cp (try (pool f) s0).2))).
  { intros f s0 P HP H0. unfold try. destruct (pool f s0) as [r s1] eqn:E. cbn [snd]. apply pool_inv in E as [->|[a E]]; [done|by eapply HP]. }
  assert (Hbind : forall (m : prog pg (result unit)) (rest : prog pg unit) s0,
    (exists r, (m s0).1 = Ok r) -> cp (bind m (fun _ => rest) s0).2 = cp (rest (m s0).2).2).
  { intros m rest s0 [r Hr]. unfold bind. destruct (m s0) as [x s1]. cbn in Hr. by rewrite Hr. }
  assert (Htry : forall (f : ctables -> result (unit * ctables)) s0, exists r, (try (pool f) s0).1 = Ok r).
  { intros f s0. unfold try. destruct (pool f s0). by eexists. }
  assert (Hset : forall st msg s0, serials k (cp (try (pool (set_answer now st msg nodeID replyTo)) s0).2) = serials k (cp s0)).
  { intros st msg s0. apply (Hpool _ _ (fun x => x = serials k (cp s0))); [|done]. intros t t' a <-. unfold set_answer, with_command.
    destruct (canonical_uuid nodeID), (canonical_uuid replyTo); try done. by intros [= _ <-]. }
  rewrite Hbind by apply Htry. destruct (String.eqb _ "acked"); [|left; cbn [ret snd]; by rewrite Hset].
  rewrite !Hbind by apply Htry. cbn [ret snd]. set (s1 := (try (pool (set_answer _ _ _ _ _)) s).2).
  assert (H1 : serials k (cp s1) = Some (old, new)) by (unfold s1; by rewrite Hset). clearbody s1.
  apply (Hpool (device_provisioned now nodeID replyTo) _ (fun x => x = Some (old, new) \/ x = Some (new, None))).
  { intros t t' a Ht Hf. enough (serials k t' = serials k t) as -> by done. unfold device_provisioned, with_command in Hf.
    destruct (canonical_uuid nodeID), (canonical_uuid replyTo); try done. destruct (answered_command _ _ _ _); [|by injection Hf as _ <-].
    destruct (json_text _ _) as [text|]; [|by injection Hf as _ <-]. destruct (canonical_uuid text); [|done]. by injection Hf as _ <-. }
  set (s2 := (try (pool (feed_applied now nodeID replyTo)) s1).2).
  assert (H2 : serials k (cp s2) = Some (old, new)).
  { apply (Hpool (feed_applied now nodeID replyTo) s1 (fun x => x = Some (old, new))); [|done]. intros t t' a Ht Hf. unfold feed_applied, with_command in Hf.
    destruct (canonical_uuid nodeID) as [j|], (canonical_uuid replyTo); try done.
    destruct (answered_command _ _ _ _); injection Hf as _ <-; [|done]. rewrite <- Ht. by apply kept_nodes. }
  clearbody s2. unfold try. destruct (pool (certificate_rotated nodeID replyTo) s2) as [r3 s3] eqn:E3. cbn [snd].
  apply pool_inv in E3 as [->|[a Hf]]; [by left|]. unfold certificate_rotated, with_command in Hf.
  destruct (canonical_uuid nodeID) as [j|], (canonical_uuid replyTo); try done.
  destruct (answered_command _ _ _ _); injection Hf as _ <-; [|by left]. unfold serials in *. cbn [c_nodes with_nodes].
  apply fmap_Some in H2 as (n & Hn & [= -> ->]). rewrite lookup_alter. case_decide as Hj; [subst j|left]; rewrite Hn; [by right|done].
Qed.
End Steady.


(** A second positive acknowledgement of the same rotation, such as the answer of
    a node to a redelivered command, takes the new certificate away as well: no
    run of the hub and the rotation worker admits the node again, whatever
    certificate it shows. *)
Theorem duplicate_ack_locks_out {PU : PgUuid} {LC : LoadColumn} {MO : MapOrder} {RO : RowOrder} {XC : X509} {XI : X509Issuing}
    nodeID k id t ids n m1 sent1 a1 text1 now1 m2 sent2 a2 text2 now2 :
  canonical_uuid nodeID = Ok k -> pg_uuid id = Some id -> uuid_keys t -> rotation_pending k id t -> c_nodes t !! k = Some n ->
  writeReply m1 sent1 "ack" id (encode_Ack a1) = Some text1 -> writeReply m2 sent2 "ack" id (encode_Ack a2) = Some text2 ->
  valid_utf8 m1 && valid_utf8 id = true -> valid_utf8 m2 && valid_utf8 id = true ->
  forallb valid_utf8 [ack_Code a1; ack_Message a1; ack_AppliedAt a1] = true ->
  forallb valid_utf8 [ack_Code a2; ack_Message a2; ack_AppliedAt a2] = true ->
  ack_OK a1 = true -> ack_OK a2 = true ->
  exists s2 s3, receive now1 nodeID text1 (mkPg t [] false ids) = (Ok None, s2) /\ receive now2 nodeID text2 s2 = (Ok None, s3)
    /\ forall g g' now conn mtls serial first node h', gt_tables g = cp s3 -> rtc steps g g' -> canonical_uuid node = Ok k ->
         Connect now conn mtls serial first (gt_hub g') <> (Ok (inr node), h').
Proof.
  intros Hk Hid Huu Hp Hn Ht1 Ht2 Hu1 Hu2 Ha1 Ha2 Hok1 Hok2.
  destruct (receive_rotation_ack now1 nodeID k m1 sent1 id a1 text1 t false ids n Ht1 Hu1 Ha1 Hok1 Hk Hid Hp Hn) as (t2 & n2 & Hr2 & Hn2 & R2 & Hp2 & Hd2).
  destruct (receive_rotation_ack now2 nodeID k m2 sent2 id a2 text2 t2 false ids n2 Ht2 Hu2 Ha2 Hok2 Hk Hid Hp2 Hn2) as (t3 & n3 & Hr3 & Hn3 & R3 & _ & Hd3).
  exists (mkPg t2 [] false ids), (mkPg t3 [] false ids). split_and!; [done|done|].
  intros g g' now conn mtls serial first node h' Hg Hrun Hnode. apply (stuck_refused k); [|done].
  apply (run_stuck k _ _ Hrun). rewrite Hg. cbn [cp]. split.
  - exists n3. split; [done|]. destruct R2 as [_ _ R23 R24], R3 as [R31 R32 R33 R34]. split_and!; congruence.
  - intros j Hj. apply Huu, Hd2, Hd3. exact Hj.
Qed.

(** ** Departures *)

(** A step of another node, a refusal or the worker. *)
Definition others {PU : PgUuid} {LC : LoadColumn} {MO : MapOrder} {RO : RowOrder} {XC : X509} {XI : X509Issuing}
    (k : string) (g g' : gate) : Prop :=
  exists who, gate_step who g g' /\ forall node, who = Some node -> canonical_uuid node <> Ok k.

(** What decides whether devices are sent to a node. *)
Definition standing (k : string) (t : ctables) : option (route_row * option time) :=
  (fun n => (nd_route n, nd_compliance_fetched_at n)) <$> c_nodes t !! k.

Section Departure.
Context {PU : PgUuid} {LC : LoadColumn} {MO : MapOrder} {RO : RowOrder} {XC : X509} {XI : X509Issuing}.

Lemma rotateCertificates_standing k issuer draws now clock :
  keeps (on_tables (same (standing k))) (rotateCertificates issuer draws now clock).
Proof.
  unfold rotateCertificates. destruct issuer as [i|]; [|apply keeps_ret; apply _].
  apply keeps_bind; [apply _| |intros rows; apply keeps_for_each; [apply _|]].
  - apply keeps_pool; [apply _|]. by intros t a t' [_ ->]%select_ok.
  - intros [j key]. unfold rotate_one. apply keeps_if; [apply keeps_ret; apply _|].
    destruct (Issue _ _ _ _ _) as [[pem tm]|e]; [|apply keeps_fail; apply _].
    apply keeps_bind; [apply _|apply keeps_random_uuid; apply _|intros id]. apply keeps_pool; [apply _|].
    intros t a t' (k' & _ & H)%prepare_rotation_ok. destruct (c_nodes t !! k') as [m|] eqn:E; [|by rewrite H].
    destruct H as (p & _ & _ & ->). unfold same, standing. cbn [c_nodes with_commands with_nodes].
    destruct (decide (k = k')) as [->|Hne]; [by rewrite lookup_insert, decide_True, E by done|by rewrite lookup_insert_ne by done].
Qed.
Lemma others_standing k g g' : others k g g' -> same (standing k) (gt_tables g) (gt_tables g').
Proof.
  intros (who & Hs & Hwho). apply (gate_step_keeps (same (standing k)) (fun t t' H => f_equal _ (f_equal (lookup k) H)) _ _ _ Hs).
  - intros node -> k' f t Hk' _. unfold same, standing. cbn [c_nodes with_nodes].
    rewrite lookup_alter_ne; [done|]. intros ->. by eapply Hwho.
  - intros. apply rotateCertificates_standing.
Qed.
Lemma leave_recent now conn nodeID k h r h' n at_ :
  canonical_uuid nodeID = Ok k -> c_nodes (cp (hb_pg h)) !! k = Some n -> ag_heartbeat (nd_agent n) = Some at_ ->
  now <= at_ + 30 * second -> leave now conn nodeID h = (r, h') -> c_nodes (cp (hb_pg h')) !! k = Some n.
Proof.
  intros Hk Hn Hat Hnow. unfold leave, bind at 1, bind, try. destruct (on (pool _) _) as [x h2] eqn:E. apply on_cases in E as (s2 & E & ->).
  intros [= _ <-]. cbn [with_part part hub_pg hb_pg] in *. revert E. unfold pool, go_offline. rewrite Hk.
  assert (Hs : c_nodes (with_nodes (alter (fun n => if silent now n then set_offline n else n) k) (cp (hb_pg h))) !! k = Some n).
  { cbn [c_nodes with_nodes]. rewrite lookup_alter, decide_True, Hn by done. cbn [fmap option_fmap option_map].
    unfold silent. rewrite Hat. by destruct (Z.ltb_spec at_ (now - 30 * second)); [lia|]. }
  destruct (next_outcome _); intros [= _ <-]; cbn [cp with_cp advance]; done.
Qed.
End Departure.

(** A node whose connection ends within 30 seconds of its last heartbeat keeps its
    status, and nothing that the other nodes or the rotation worker do changes it:
    devices are sent to the node as before, although it is gone. *)
Theorem vanished_node_stays_routable {PU : PgUuid} {LC : LoadColumn} {MO : MapOrder} {RO : RowOrder} {XC : X509} {XI : X509Issuing}
    now conn nodeID k h live past r h' n at_ g :
  canonical_uuid nodeID = Ok k -> c_nodes (cp (hb_pg h)) !! k = Some n -> ag_heartbeat (nd_agent n) = Some at_ ->
  now <= at_ + 30 * second ->
  leave now conn nodeID h = (r, h') -> rtc (others k) (mkGate h' live past) g ->
  exists n', c_nodes (gt_tables g) !! k = Some n' /\ forall later, routable later n' = routable later n.
Proof.
  intros Hk Hn Hat Hnow Hleave Hrun. pose proof (leave_recent _ _ _ _ _ _ _ _ _ Hk Hn Hat Hnow Hleave) as Hn'.
  assert (Hst : standing k (gt_tables g) = standing k (cp (hb_pg h'))).
  { change (cp (hb_pg h')) with (gt_tables (mkGate h' live past)). induction Hrun as [|x y z Hxy _ IH]; [done|].
    rewrite IH. by apply others_standing. }
  unfold standing in Hst. rewrite Hn' in Hst. destruct (c_nodes (gt_tables g) !! k) as [n'|]; [|done].
  exists n'. split; [done|]. intros later. cbn in Hst. injection Hst as E1 E2. unfold routable. by rewrite E1, E2.
Qed.

(** ** Examples *)

Definition capped_load : LoadColumn := {| least_one z := Some (Z.min float_one z) |}.
Definition sample_hello : Hello :=
  mkHello "n1" "0.2.0" [1; 2] [CapabilityACK; CapabilityCertRotate; CapabilityCDNWebSocket] "" "".
Definition hello_text : string := default "" (writeReply "m1" (FromUnix 1786215600) "hello" "" (encode_Hello sample_hello)).
(** A node with a certificate, heard of a moment ago. *)
Definition certified_row : node_row :=
  mkNodeRow (Some "7") (Some (FromUnix 1786300000)) None None None (Some (FromUnix 1786210000)) sample_route
    (mkAgentRow toy_key "0.2.0" 2 None None (Some (FromUnix 1786215590))).
Definition gate_tables : ctables := with_nodes (fun _ => {["n1" := certified_row]}) sample_ctables.
Definition gate_pg : pg := mkPg gate_tables [] false ["c1"; "c2"; "c3"].
Definition sample_hub : hub := mkHub gate_pg ∅ [].
Definition arrive (conn : nat) (h : hub) : result (refusal + string) * hub :=
  @Connect toy_uuid_type sorted_order (FromUnix 1786215600) conn "verified" "7" (Some hello_text) h.
Definition sample_ack (code : string) : Ack := mkAck true code "" "2026-08-08T12:00:00Z".
Definition ack_text (code : string) : string :=
  default "" (writeReply "m2" (FromUnix 1786215601) "ack" "c1" (encode_Ack (sample_ack code))).

Lemma arrives conn h : (arrive conn h).1 = Ok (inr "n1") ->
  @Connect toy_uuid_type sorted_order (FromUnix 1786215600) conn "verified" "7" (Some hello_text) h = (Ok (inr "n1"), (arrive conn h).2).
Proof. fold (arrive conn h). destruct (arrive conn h). by cbn; intros ->. Qed.

Lemma hello_is_admitted_witness : exists h', arrive 1 sample_hub = (Ok (inr "n1"), h')
  /\ exists n', c_nodes (cp (hb_pg h')) !! "n1" = Some n' /\ rt_status (nd_route n') = "healthy".
Proof.
  destruct (@hello_is_admitted toy_uuid_type sorted_order (FromUnix 1786215600) 1 "7" "m1" (FromUnix 1786215600) sample_hello
    hello_text ∅ [] gate_tables ["c1"; "c2"; "c3"] "n1" certified_row) as (h' & Hrun & n' & Hn & Hs & _);
    [vm_compute; reflexivity|reflexivity|vm_compute; reflexivity|discriminate|left; split; reflexivity|vm_compute; reflexivity
    |reflexivity|reflexivity|discriminate|left; reflexivity|].
  exists h'. split; [exact Hrun|]. exists n'. split; [exact Hn|exact Hs].
Defined.

Lemma only_certified_nodes_connect_witness : exists k n, pg_uuid (PgUuid := toy_uuid_type) "n1" = Some k
  /\ c_nodes gate_tables !! k = Some n /\ (nd_certificate_serial n = Some "7" \/ nd_next_serial n = Some "7").
Proof.
  destruct (@only_certified_nodes_connect toy_uuid_type sorted_order (FromUnix 1786215600) 1 "verified" "7" (Some hello_text)
    sample_hub "n1" (arrive 1 sample_hub).2) as (_ & _ & _ & k & n & Hk & Hn & Hc).
  - apply (arrives 1 sample_hub). vm_compute. reflexivity.
  - exists k, n. split; [|split; [exact Hn|exact Hc]]. cbn in Hk. injection Hk as <-. reflexivity.
Defined.

(** Two connections of one node, the first of which ends after the second began. *)
Definition second_hub : hub := (arrive 2 (arrive 1 sample_hub).2).2.
Definition left_hub : hub := (@leave toy_uuid_type (FromUnix 1786215610) 1 "n1" second_hub).2.
Lemma latest_connection_wins_witness :
  hb_online left_hub !! "n1" = Some 2%nat <-> latest "n1" [(2%nat, "n1"); (1%nat, "n1")] = Some 2%nat /\ (2%nat, "n1") ∈ [(2%nat, "n1")].
Proof.
  destruct (@latest_connection_wins toy_uuid_type capped_load sorted_order created_order issuing_x509 toy_issuing gate_pg
    (mkGate left_hub [(2%nat, "n1")] [(2%nat, "n1"); (1%nat, "n1")])) as [H _].
  - eapply rtc_l; [exists (Some "n1"); eapply (step_admit _ 1); [by intros ?%not_elem_of_nil|apply (arrives 1 sample_hub); vm_compute; reflexivity]|].
    eapply rtc_l; [exists (Some "n1"); eapply (step_admit _ 2); [by intros [=]%list_elem_of_singleton|apply (arrives 2 (arrive 1 sample_hub).2); vm_compute; reflexivity]|].
    apply rtc_once. exists (Some "n1"). apply (step_leave (FromUnix 1786215610) 1 "n1" second_hub [(2%nat, "n1"); (1%nat, "n1")] _
      (@leave toy_uuid_type (FromUnix 1786215610) 1 "n1" second_hub).1); [right; left|apply surjective_pairing].
  - exact (H "n1" 2%nat).
Defined.

Definition rotating : result unit * pg :=
  @rotate_one issuing_x509 toy_issuing toy_uuid_type sample_issuer (fun _ => Ok 8) (fun _ => FromUnix 1786215600) ("n1", toy_key) gate_pg.
