(* ===== verification/Settings.v ===== *)
(** * The control plane before it serves

    src/internal/controlplane/config.go: the settings read from the environment;
    database.go: the migrations of the database; telegram_oidc.go: the key set of
    the login provider, reduced to the keys that tokens may be signed with.
    What a migration script does to the database is a parameter. *)

From S2P Require Import Prelude GoStrings Base64 Json JsonText Store Crypto Pg Vault Web.
From stdpp Require Import base gmap strings list sorting.
From Stdlib Require Import ZArith Lia.
Open Scope Z_scope.

(** ** The environment *)

(** [base64.RawURLEncoding.DecodeString], which returns the bytes of the groups of
    four characters before an error as well. *)
Fixpoint leading_sextets (s : string) : list Z :=
  match s with
  | "" => []
  | String c s' =>
      if is_newline c then leading_sextets s' else
      match dec_char c with Some d => d :: leading_sextets s' | None => [] end
  end.
Fixpoint whole_groups (ds : list Z) : string :=
  match ds with
  | a :: b :: c :: d :: ds' =>
      let v := a * 262144 + b * 4096 + c * 64 + d in
      String (byte_of (v / 65536)) (String (byte_of (v / 256 mod 256)) (String (byte_of (v mod 256)) (whole_groups ds')))
  | _ => ""
  end.
Definition DecodeString (s : string) : string * bool :=
  match Decode s with Some b => (b, true) | None => (whole_groups (leading_sextets s), false) end.

Fixpoint Repeat (s : string) (n : nat) : string :=
  match n with O => "" | S n => s +:+ Repeat s n end.

Record Config := mkConfig {
  cc_ListenAddress : string; cc_PublicURL : string; cc_ControlURL : string; cc_DatabaseURL : string; cc_RedisURL : string;
  cc_TelegramIssuer : string; cc_TelegramClientID : string; cc_TelegramSecret : string; cc_TelegramBotToken : string;
  cc_SessionSecret : string; cc_EncryptionKey : string; cc_HWIDKey : string;
  cc_QuotaPrivateKey : string; cc_CompliancePrivateKey : string; cc_ComplianceURL : string;
  cc_HysteriaObfsPassword : string; cc_NodeCACertFile : string; cc_NodeCAKeyFile : string;
  cc_DevAuth : bool; cc_DevTelegramSubject : string }.

Section Environment.
(** [os.Getenv]: "" for a variable that is not set. *)
Variable Getenv : string -> string.

Definition env (key fallback : string) : string :=
  let v := TrimSpace (Getenv key) in if String.eqb v "" then fallback else v.
(** [strconv.ParseBool] knows these spellings of true; all else counts as false. *)
Definition envBool (key : string) : bool :=
  bool_decide (Getenv key ∈ ["1"; "t"; "T"; "true"; "TRUE"; "True"]).
Definition decodeOptional (key : string) : string * bool :=
  if String.eqb (Getenv key) "" then ("", true) else DecodeString (Getenv key).
Definition secret (key : string) (size : nat) (development : bool) : result string :=
  let (decoded, ok) := decodeOptional key in
  if (String.length decoded =? size)%nat then Ok decoded else
  if development then Ok (stake size (Repeat (key +:+ "-") size)) else
  if negb ok then Err (LibErr "encoding/base64") else
  Err (Msg (key +:+ " must be base64url and exactly " +:+ FormatInt (Z.of_nat size) +:+ " bytes")).

Definition LoadConfig : result Config :=
  let dev := envBool "RISEVPN_DEV_AUTH" in
  match secret "SESSION_SECRET" 32 dev, secret "ENCRYPTION_KEY" 32 dev, secret "HWID_HMAC_KEY" 32 dev with
  | Err e, _, _ | Ok _, Err e, _ | Ok _, Ok _, Err e => Err e
  | Ok session, Ok encryption, Ok hwid =>
      if String.eqb (Getenv "DATABASE_URL") "" || String.eqb (Getenv "REDIS_URL") ""
      then Err (Msg "DATABASE_URL and REDIS_URL are required") else
      if negb dev && (String.eqb (Getenv "TELEGRAM_CLIENT_ID") "" || String.eqb (Getenv "TELEGRAM_CLIENT_SECRET") "")
      then Err (Msg "Telegram OIDC credentials are required") else
      Ok (mkConfig (env "RISEVPN_LISTEN" ":8080") (env "RISEVPN_PUBLIC_URL" "http://localhost:8080")
            (env "RISEVPN_CONTROL_URL" "wss://control.localhost/v2/nodes/connect") (Getenv "DATABASE_URL") (Getenv "REDIS_URL")
            (env "TELEGRAM_OIDC_ISSUER" "https://oauth.telegram.org") (Getenv "TELEGRAM_CLIENT_ID") (Getenv "TELEGRAM_CLIENT_SECRET")
            (Getenv "TELEGRAM_BOT_TOKEN") session encryption hwid
            (fst (decodeOptional "QUOTA_ED25519_PRIVATE_KEY")) (fst (decodeOptional "COMPLIANCE_ED25519_PRIVATE_KEY"))
            (env "COMPLIANCE_URL" "https://antifilter.download/list/domains.lst") (TrimSpace (Getenv "HYSTERIA_OBFS_PASSWORD"))
            (env "NODE_CA_CERT_FILE" "/run/secrets/node_ca.pem") (env "NODE_CA_KEY_FILE" "/run/secrets/node_ca.key")
            dev (env "RISEVPN_DEV_TELEGRAM_SUBJECT" "dev-owner"))
  end.

(** A text that does not decode leaves a number of bytes that is a multiple of
    three, so it is never taken for a key of 32 or 64 bytes. *)
Lemma whole_groups_length ds : exists n, String.length (whole_groups ds) = (3 * n)%nat.
Proof.
  assert (H : forall n (l : list Z), (length l <= n)%nat -> exists m, String.length (whole_groups l) = (3 * m)%nat).
  { intros n. induction n as [|n IH]; intros l Hl.
    - destruct l; [by exists 0%nat|simpl in Hl; lia].
    - destruct l as [|a [|b [|c [|d l]]]]; try (by exists 0%nat).
      destruct (IH l) as [m Hm]; [cbn [length] in Hl; lia|]. exists (S m). cbn [whole_groups String.length]. lia. }
  by apply (H (length ds)).
Qed.
Lemma decodeOptional_sized key size :
  (size mod 3 <> 0)%nat -> String.length (fst (decodeOptional key)) = size <->
  exists b, Decode (Getenv key) = Some b /\ String.length b = size /\ fst (decodeOptional key) = b.
Proof.
  intros Hsize. unfold decodeOptional. destruct (String.eqb_spec (Getenv key) "") as [->|].
  - split; [|by intros (b & [= <-] & H & _)]. cbn. intros <-. by destruct Hsize.
  - unfold DecodeString. destruct (Decode (Getenv key)) as [b|]; cbn [fst].
    + split; [intros H; by exists b|by intros (? & [= <-] & H & _)].
    + split; [|by intros (? & [=] & _)]. intros H. destruct (whole_groups_length (leading_sextets (Getenv key))) as [m Hm].
      destruct Hsize. rewrite <- H, Hm, Nat.mul_comm. apply Nat.Div0.mod_mul.
Qed.
Lemma length_Repeat k s : s <> "" -> (k <= String.length (Repeat s k))%nat.
Proof.
  intros Hs. induction k as [|k IH]; [cbn; lia|]. cbn [Repeat]. rewrite length_sapp. destruct s; [done|cbn [String.length]; lia].
Qed.
Lemma secret_ok key size dev b :
  (size mod 3 <> 0)%nat -> secret key size dev = Ok b ->
  String.length b = size /\ (Decode (Getenv key) = Some b \/ dev = true /\ b = stake size (Repeat (key +:+ "-") size)).
Proof.
  intros Hs. unfold secret. destruct (decodeOptional key) as [decoded ok] eqn:Ed.
  pose proof (decodeOptional_sized key size Hs) as Hd. rewrite Ed in Hd. cbn [fst] in Hd.
  destruct (Nat.eqb_spec (String.length decoded) size) as [Hl|].
  - intros [= <-]. split; [done|left]. apply Hd in Hl as (b & Hb & _ & ->). done.
  - destruct dev; [|by destruct (negb ok)]. intros [= <-]. split; [|by right].
    apply length_stake, length_Repeat. by destruct key.
Qed.
Lemma secret_ready key size : (exists b, Decode (Getenv key) = Some b /\ String.length b = size) -> (size mod 3 <> 0)%nat ->
  exists b, secret key size false = Ok b /\ Decode (Getenv key) = Some b.
Proof.
  intros (b & Hb & Hl) Hs. exists b. split; [|done]. unfold secret, decodeOptional.
  destruct (String.eqb_spec (Getenv key) "") as [E|].
  - rewrite E in Hb. injection Hb as <-. subst size. by destruct Hs.
  - unfold DecodeString. rewrite Hb. by rewrite (proj2 (Nat.eqb_eq _ _) Hl).
Qed.
End Environment.

(** In production the control plane starts exactly with three secrets of 32 bytes
    and the addresses and credentials it needs, and a signing key is used only
    when its text decodes to a whole key; the vault can be opened with what was
    loaded.  In development a missing secret is replaced by a constant that anyone
    can compute. *)
Theorem LoadConfig_spec (Getenv : string -> string) :
  (envBool Getenv "RISEVPN_DEV_AUTH" = false ->
     (exists c, LoadConfig Getenv = Ok c) <->
     (forall key, key ∈ ["SESSION_SECRET"; "ENCRYPTION_KEY"; "HWID_HMAC_KEY"] ->
        exists b, Decode (Getenv key) = Some b /\ String.length b = 32%nat)
     /\ (forall key, key ∈ ["DATABASE_URL"; "REDIS_URL"; "TELEGRAM_CLIENT_ID"; "TELEGRAM_CLIENT_SECRET"] -> Getenv key <> ""))
  /\ forall c, LoadConfig Getenv = Ok c ->
       NewVault (cc_EncryptionKey c) (cc_HWIDKey c) = Ok (mkVault (cc_EncryptionKey c) (cc_HWIDKey c))
       /\ (String.length (cc_QuotaPrivateKey c) = PrivateKeySize
             <-> exists b, Decode (Getenv "QUOTA_ED25519_PRIVATE_KEY") = Some b /\ String.length b = PrivateKeySize /\ cc_QuotaPrivateKey c = b)
       /\ (cc_DevAuth c = false -> Decode (Getenv "ENCRYPTION_KEY") = Some (cc_EncryptionKey c)
             /\ Decode (Getenv "SESSION_SECRET") = Some (cc_SessionSecret c) /\ Decode (Getenv "HWID_HMAC_KEY") = Some (cc_HWIDKey c))
       /\ (cc_DevAuth c = true -> Getenv "ENCRYPTION_KEY" = "" ->
             cc_EncryptionKey c = stake 32 (Repeat "ENCRYPTION_KEY-" 32)).
Proof.
  split.
  - intros Hdev. unfold LoadConfig. rewrite Hdev. split.
    + intros [c H]. destruct (secret _ "SESSION_SECRET" _ _) as [s1|] eqn:E1; [|done].
      destruct (secret _ "ENCRYPTION_KEY" _ _) as [s2|] eqn:E2; [|done]. destruct (secret _ "HWID_HMAC_KEY" _ _) as [s3|] eqn:E3; [|done].
      apply secret_ok in E1 as [L1 [E1|[? _]]], E2 as [L2 [E2|[? _]]], E3 as [L3 [E3|[? _]]]; try done.
      destruct (String.eqb_spec (Getenv "DATABASE_URL") ""); [done|]. destruct (String.eqb_spec (Getenv "REDIS_URL") ""); [done|].
      destruct (String.eqb_spec (Getenv "TELEGRAM_CLIENT_ID") ""); [done|]. destruct (String.eqb_spec (Getenv "TELEGRAM_CLIENT_SECRET") ""); [done|].
      split; intros key; rewrite !elem_of_cons, elem_of_nil; naive_solver.
    + intros [Hs He].
      destruct (secret_ready Getenv "SESSION_SECRET" 32) as (s1 & -> & _); [apply Hs; set_solver|done|].
      destruct (secret_ready Getenv "ENCRYPTION_KEY" 32) as (s2 & -> & _); [apply Hs; set_solver|done|].
      destruct (secret_ready Getenv "HWID_HMAC_KEY" 32) as (s3 & -> & _); [apply Hs; set_solver|done|].
      pose proof (He "DATABASE_URL" ltac:(set_solver)) as H1%String.eqb_neq. pose proof (He "REDIS_URL" ltac:(set_solver)) as H2%String.eqb_neq.
      pose proof (He "TELEGRAM_CLIENT_ID" ltac:(set_solver)) as H3%String.eqb_neq. pose proof (He "TELEGRAM_CLIENT_SECRET" ltac:(set_solver)) as H4%String.eqb_neq.
      rewrite H1, H2, H3, H4. eauto.
  - intros c. unfold LoadConfig. destruct (secret _ "SESSION_SECRET" _ _) as [s1|] eqn:E1; [|done].
    destruct (secret _ "ENCRYPTION_KEY" _ _) as [s2|] eqn:E2; [|done]. destruct (secret _ "HWID_HMAC_KEY" _ _) as [s3|] eqn:E3; [|done].
    destruct (_ || _); [done|]. destruct (_ && _); [done|]. intros [= <-].
    cbn [cc_EncryptionKey cc_HWIDKey cc_QuotaPrivateKey cc_DevAuth cc_SessionSecret].
    pose proof E2 as E2'. apply secret_ok in E1 as [L1 D1], E2 as [L2 D2], E3 as [L3 D3]; try done. split_and!.
    + unfold NewVault. by rewrite L2.
    + by apply decodeOptional_sized.
    + intros Hd. rewrite Hd in D1, D2, D3. naive_solver.
    + intros Hd Henv. destruct D2 as [D2|[_ D2]]; [|exact D2]. rewrite Henv in D2. injection D2 as <-. done.
Qed.

(** ** Migrations *)

Section Migrations.
(** [script sql d] is what PostgreSQL makes of the database [d] when it runs the
    text [sql] in a transaction, [None] when it refuses. *)
Context {D : Type} (script : string -> D -> option D).

(** The names in [schema_migrations], the rest of the database and the outcomes of
    the statements to come. *)
Record catalog := mkCatalog { mg_applied : list string; mg_data : D; mg_outcomes : list outcome }.

Definition next_answer (s : catalog) : outcome := default Done (head (mg_outcomes s)).
Definition advance_catalog (s : catalog) : catalog := mkCatalog (mg_applied s) (mg_data s) (tail (mg_outcomes s)).
(** A statement that only has to be answered. *)
Definition answered : prog catalog unit := fun s =>
  (match next_answer s with Done => Ok tt | _ => Err pg_fault end, advance_catalog s).

(** The two statements of the transaction. *)
Definition migration_body (name sql : string) : prog catalog D :=
  answered ;;;
  let* d := (fun s => match script sql (mg_data s) with Some d => (Ok d, s) | None => (Err (SqlErr SqlFault), s) end) in
  answered ;;;
  ret d.
Definition migration_commit (name : string) (d : D) : prog catalog unit := fun s =>
  let s1 := advance_catalog s in
  let s2 := mkCatalog (mg_applied s1 ++ [name]) d (mg_outcomes s1) in
  match next_answer s with
  | Done => (Ok tt, s2)
  | Lost => (Err pg_fault, s2)
  | Failed => (Err pg_fault, s1)
  end.
Definition migrate_one (file : string * string) : prog catalog unit :=
  let '(name, sql) := file in
  answered ;;;
  let* exists_ := (fun s => (Ok (bool_decide (name ∈ mg_applied s)), s)) in
  if (exists_ : bool) then ret tt else
  answered ;;;
  let* done := try (migration_body name sql) in
  match done with
  | Err e => fail (Msg ("migration " +:+ name +:+ ": " +:+ error_text e))
  | Ok d => migration_commit name d
  end.

Definition file_le (a b : string * string) : Prop := string_le a.1 b.1.
#[export] Instance file_le_dec a b : Decision (file_le a b).
Proof. unfold file_le. apply _. Defined.
(** [sort.Strings] on the names. *)
Definition migration_plan (files : list (string * string)) : list (string * string) := merge_sort file_le files.
Definition migrate (files : list (string * string)) : prog catalog unit :=
  answered ;;; for_each migrate_one (migration_plan files).

Definition run_scripts (files : list (string * string)) (d : D) : option D :=
  foldl (fun acc file => acc ≫= script file.2) (Some d) files.

Lemma run_scripts_snoc files file d :
  run_scripts (files ++ [file]) d = run_scripts files d ≫= script file.2.
Proof. unfold run_scripts. by rewrite foldl_app. Qed.

(** The database is what the first [k] scripts of the plan make of [d0]. *)
Definition migrated (plan : list (string * string)) (d0 : D) (k : nat) (s : catalog) : Prop :=
  mg_applied s = (take k plan).*1 /\ run_scripts (take k plan) d0 = Some (mg_data s).

(** Nothing was recorded. *)
Ltac stay k := intros [= <- <-]; exists k; split; [lia|split; [by split|done]].

Lemma migrate_one_step plan d0 k s file p rest :
  NoDup plan.*1 -> plan = p ++ file :: rest -> (length p <= k <= length plan)%nat -> migrated plan d0 k s ->
  exists k', (k <= k' <= length plan)%nat /\ migrated plan d0 k' (migrate_one file s).2
    /\ (is_ok (migrate_one file s).1 = true -> (S (length p) <= k')%nat).
Proof.
  intros Hnd Hplan Hk [Ha Hr]. destruct file as [name sql].
  assert (Hin : bool_decide (name ∈ mg_applied s) = negb (k =? length p)%nat).
  { rewrite Ha. destruct (Nat.eqb_spec k (length p)) as [->|Hne]; cbn [negb].
    - apply bool_decide_eq_false. rewrite Hplan, take_app_length, list_elem_of_fmap. intros ([n' sql'] & E & Hp). cbn in E. subst n'.
      rewrite Hplan, fmap_app, fmap_cons in Hnd. apply NoDup_app in Hnd as (_ & Hd & _). apply (Hd name).
      + by apply (list_elem_of_fmap_2 fst) in Hp.
      + left.
    - apply bool_decide_eq_true. apply (list_elem_of_fmap_2 fst _ (name, sql)). apply (list_elem_of_lookup_2 _ (length p)).
      rewrite lookup_take_lt by lia. rewrite Hplan. by apply list_lookup_middle. }
  destruct (migrate_one (name, sql) s) as [r s'] eqn:E. cbn [fst snd]. revert E.
  unfold migrate_one, bind at 1, answered at 1. destruct (next_answer s); cbn [fst snd];
    [|stay k..].
  unfold bind at 1. cbn [advance_catalog mg_applied]. rewrite Hin.
  destruct (Nat.eqb_spec k (length p)) as [Hkp|Hne]; cbn [negb].
  2: { intros [= <- <-]. exists k. split; [lia|]. split; [by split|]. intros _. lia. }
  unfold bind at 1, answered at 1. destruct (next_answer _); cbn [fst snd]; [|stay k..].
  unfold bind at 1, try, migration_body, bind at 1, answered at 1.
  destruct (next_answer _); cbn [fst snd]; [|stay k..].
  unfold bind at 1. cbn [advance_catalog mg_data]. destruct (script sql (mg_data s)) as [d|] eqn:Es; cbn [fst snd].
  2: { stay k. }
  unfold bind, answered. destruct (next_answer _); cbn [fst snd ret]; [|stay k..].
  assert (Hlt : (length p < length plan)%nat) by (rewrite Hplan, length_app; cbn [length]; lia).
  assert (Hnext : forall os, migrated plan d0 (S k) (mkCatalog (mg_applied s ++ [name]) d os)).
  { intros os. assert (Htake : take (S k) plan = take k plan ++ [(name, sql)]).
    { apply take_S_r. rewrite Hkp, Hplan. by apply list_lookup_middle. }
    split; cbn [mg_applied mg_data]; rewrite Htake; [by rewrite fmap_app, Ha|]. by rewrite run_scripts_snoc, Hr. }
  unfold migration_commit. cbn [advance_catalog mg_applied mg_outcomes].
  destruct (next_answer _); cbn [fst snd].
  - intros [= <- <-]. exists (S k). split; [lia|]. split; [apply Hnext|lia].
  - stay k.
  - intros [= <- <-]. exists (S k). split; [lia|]. split; [apply Hnext|done].
Qed.

Lemma migrate_loop plan d0 rest : forall p k s,
  NoDup plan.*1 -> plan = p ++ rest -> (length p <= k <= length plan)%nat -> migrated plan d0 k s ->
  exists k', (k <= k' <= length plan)%nat /\ migrated plan d0 k' (for_each migrate_one rest s).2
    /\ (is_ok (for_each migrate_one rest s).1 = true -> (length plan <= k')%nat).
Proof.
  induction rest as [|file rest IH]; intros p k s Hnd Hplan Hk Hm; cbn [for_each].
  - exists k. split; [lia|]. split; [done|]. intros _. rewrite Hplan, app_nil_r in *. lia.
  - destruct (migrate_one_step plan d0 k s file p rest Hnd Hplan Hk Hm) as (k1 & Hk1 & Hm1 & Hok1). unfold bind.
    destruct (migrate_one file s) as [[[]|e] s1]; cbn [fst snd] in *; [|by exists k1].
    destruct (IH (p ++ [file]) k1 s1 Hnd) as (k2 & Hk2 & Hm2 & Hok2); [by rewrite <- app_assoc| |done|].
    + rewrite length_app. cbn [length]. specialize (Hok1 eq_refl). lia.
    + exists k2. split; [lia|]. done.
Qed.

(** A start of the control plane, with the outcomes of its statements. *)
Definition start_up (files : list (string * string)) (s : catalog) (os : list outcome) : catalog :=
  (migrate files (mkCatalog (mg_applied s) (mg_data s) os)).2.

Lemma migrate_keeps files d0 k s :
  NoDup files.*1 -> (k <= length (migration_plan files))%nat -> migrated (migration_plan files) d0 k s ->
  exists k', (k <= k' <= length (migration_plan files))%nat /\ migrated (migration_plan files) d0 k' (migrate files s).2
    /\ (is_ok (migrate files s).1 = true -> k' = length (migration_plan files)).
Proof.
  intros Hnd Hk [Ha Hr]. assert (Hnd' : NoDup (migration_plan files).*1) by (unfold migration_plan; by rewrite merge_sort_Permutation).
  destruct (migrate files s) as [r s'] eqn:E. cbn [fst snd]. revert E.
  unfold migrate, bind, answered. destruct (next_answer s); cbn [fst snd]; [|stay k..]. intros E.
  destruct (migrate_loop (migration_plan files) d0 (migration_plan files) [] k (advance_catalog s) Hnd' eq_refl) as (k' & H1 & H2 & H3);
    [cbn [length]; lia|by split|].
  rewrite E in H2, H3. exists k'. split; [lia|]. split; [done|]. intros Hok. specialize (H3 Hok). cbn [fst snd] in *. lia.
Qed.
End Migrations.

(** C26 - However often the control plane starts and whatever fails, every migration is
    applied at most once and in the order of the names: the database is always
    what the first scripts of the plan make of the empty one, and after a start
    that succeeds it is what all of them make of it. *)
Theorem migrations_once_in_order {D} (script : string -> D -> option D) files d0 starts os :
  NoDup files.*1 ->
  let s := foldl (start_up script files) (mkCatalog [] d0 []) starts in
  let last := migrate script files (mkCatalog (mg_applied s) (mg_data s) os) in
  (exists k, mg_applied s = (take k (migration_plan files)).*1 /\ run_scripts script (take k (migration_plan files)) d0 = Some (mg_data s))
  /\ (is_ok last.1 = true -> mg_applied last.2 = (migration_plan files).*1
        /\ run_scripts script (migration_plan files) d0 = Some (mg_data last.2)).
Proof.
  intros Hnd s last.
  assert (Hs : exists k, (k <= length (migration_plan files))%nat /\ migrated script (migration_plan files) d0 k s).
  { subst s last. induction starts as [|o starts IH] using rev_ind; [exists 0%nat; split; [lia|done]|]. rewrite foldl_app. cbn [foldl].
    destruct IH as (k & Hk & Ha & Hr). unfold start_up at 1. set (s := foldl _ _ starts) in *.
    destruct (migrate_keeps script files d0 k (mkCatalog (mg_applied s) (mg_data s) o) Hnd Hk) as (k' & Hk' & Hm & _); [by split|].
    exists k'. split; [lia|done]. }
  destruct Hs as (k & Hk & Ha & Hr). split; [by exists k|].
  destruct (migrate_keeps script files d0 k (mkCatalog (mg_applied s) (mg_data s) os) Hnd Hk) as (k' & _ & [Ha' Hr'] & Hok); [by split|].
  intros H. specialize (Hok H). subst k'. rewrite take_ge in Ha', Hr' by lia. done.
Qed.

(** ** The key set of the login provider *)

Definition telegramJWKSPath : string := "/.well-known/jwks.json".

Record jwk_metadata := mkMetadata { jw_Algorithm : string; jw_KeyType : string }.
Definition decode_metadata (j : json) : option jwk_metadata :=
  dec_struct (fun m old =>
    a ← field "alg" dec_string m (jw_Algorithm old);
    k ← field "kty" dec_string m (jw_KeyType old);
    Some (mkMetadata a k)) j (mkMetadata "" "").
Definition rs256_key (key : json) : bool :=
  match decode_metadata key with
  | Some metadata => String.eqb (jw_Algorithm metadata) "RS256" && String.eqb (jw_KeyType metadata) "RSA"
  | None => false
  end.
(** A raw message for every element, [null] included. *)
Definition decode_keys (j : json) : option (list json) :=
  dec_struct (fun m old => field "keys" (fun v _ =>
    match v with JArr items => Some items | JNull => Some [] | _ => None end) m old) j [].

(** The text is the one of [json.Marshal] up to the spelling of escapes inside the
    keys, which are copied. *)
Definition filterTelegramJWKS (body : string) : result string :=
  match Parse body ≫= decode_keys with
  | None => Err (Msg "decode Telegram JWKS: encoding/json")
  | Some keys =>
      match filter (fun key => rs256_key key = true) keys with
      | [] => Err (Msg "Telegram JWKS contains no RS256 RSA keys")
      | allowed => Ok (print (JObj [("keys", JArr allowed)]))
      end
  end.

Record round_request := mkRoundRequest { rr_scheme : string; rr_host : string; rr_path : string }.
(** The body is what reading it gives: the bytes, or the error after them. *)
Record round_response := mkRoundResponse { rs_status : Z; rs_body : string; rs_broken : option error; rs_length : Z }.

Definition jwks_limit : Z := 2 ^ 20.
(** [base] is the transport below. *)
Definition RoundTrip (base : round_request -> result round_response) (request : round_request) : result round_response :=
  match base request with
  | Err e => Err e
  | Ok response =>
      if negb (String.eqb (rr_scheme request) "https") || negb (String.eqb (rr_host request) "oauth.telegram.org")
         || negb (String.eqb (rr_path request) telegramJWKSPath) || negb (rs_status response =? 200)
      then Ok response else
      if jwks_limit <? Z.of_nat (String.length (rs_body response)) then Err (Msg "Telegram JWKS exceeds 1 MiB") else
      match rs_broken response with
      | Some e => Err (Msg ("read Telegram JWKS: " +:+ error_text e))
      | None => result_map (fun filtered => mkRoundResponse (rs_status response) filtered None (Z.of_nat (String.length filtered)))
                  (filterTelegramJWKS (rs_body response))
      end
  end.

Definition jwks_request : round_request := mkRoundRequest "https" "oauth.telegram.org" telegramJWKSPath.

Lemma max_depth_SS : exists d, max_depth = S (S d).
Proof. exists (Z.to_nat 9998). unfold max_depth. by rewrite <- !Z2Nat.inj_succ by lia. Qed.
#[local] Opaque max_depth print.
Lemma forallb_filter {A} (p : A -> bool) (q : A -> Prop) `{!forall x, Decision (q x)} (l r : list A) :
  forallb p l = true -> filter q l = r -> forallb p r = true.
Proof.
  intros Hall <-. apply forallb_forall. intros x Hx%list_elem_of_In. apply list_elem_of_filter in Hx as [_ Hx%list_elem_of_In].
  by eapply forallb_forall in Hall.
Qed.

(** The provider's key set reaches the verifier with exactly its RS256 keys, in
    their order: no other key can verify a token, none of these is lost, a set
    without one is an error, and every other request passes unchanged. *)
Theorem only_rs256_keys base response :
  base jwks_request = Ok response -> rs_status response = 200 -> rs_broken response = None ->
  Z.of_nat (String.length (rs_body response)) <= jwks_limit ->
  (forall r, RoundTrip base jwks_request = Ok r ->
     exists keys, Parse (rs_body response) ≫= decode_keys = Some keys
       /\ rs_length r = Z.of_nat (String.length (rs_body r))
       /\ rs_body r = print (JObj [("keys", JArr (filter (fun key => rs256_key key = true) keys))])
       /\ (forallb (well_formed (pred (pred max_depth))) keys = true ->
             Parse (rs_body r) ≫= decode_keys = Some (filter (fun key => rs256_key key = true) keys))
       /\ filter (fun key => rs256_key key = true) keys <> [])
  /\ (forall keys, Parse (rs_body response) ≫= decode_keys = Some keys -> existsb rs256_key keys = true ->
        exists r, RoundTrip base jwks_request = Ok r)
  /\ forall q, (rr_scheme q, rr_host q, rr_path q) <> ("https", "oauth.telegram.org", telegramJWKSPath) -> RoundTrip base q = base q.
Proof.
  intros Hb Hs Hbr Hl. assert (Hrun : RoundTrip base jwks_request
    = result_map (fun filtered => mkRoundResponse 200 filtered None (Z.of_nat (String.length filtered))) (filterTelegramJWKS (rs_body response))).
  { unfold RoundTrip. rewrite Hb, Hs, Hbr. cbn [rr_scheme rr_host rr_path jwks_request]. rewrite !String.eqb_refl. cbn [negb orb Z.eqb Pos.eqb].
    by destruct (Z.ltb_spec jwks_limit (Z.of_nat (String.length (rs_body response)))); [lia|]. }
  split_and!.
  - rewrite Hrun. unfold filterTelegramJWKS. destruct (Parse _ ≫= decode_keys) as [keys|]; [|done]. intros r.
    destruct (filter _ keys) as [|key allowed] eqn:Ef; [done|]. intros [= <-]. exists keys. rewrite Ef. cbn [rs_body rs_length].
    split_and!; [done|done|done| |done]. intros Hw. destruct max_depth_SS as [d Hd].
    assert (Hp : well_formed max_depth (JObj [("keys", JArr (key :: allowed))]) = true); [|rewrite (Parse_print _ Hp); reflexivity]. rewrite Hd in Hw |- *. cbn [pred] in Hw.
    pose proof (forallb_filter (well_formed d) _ _ _ Hw Ef) as Hf. cbn [forallb] in Hf. cbn [well_formed forallb fst snd]. rewrite andb_true_r. cbn [andb]. exact Hf.
  - intros keys Hk Hex. rewrite Hrun. unfold filterTelegramJWKS. rewrite Hk.
    destruct (filter _ keys) as [|key allowed] eqn:Ef; [|eexists; reflexivity].
    apply existsb_exists in Hex as (key & Hin%list_elem_of_In & Hr). exfalso. apply (not_elem_of_nil key). rewrite <- Ef.
    by apply list_elem_of_filter.
  - intros [sc ho pa] Hq. cbn in Hq. unfold RoundTrip. destruct (base (mkRoundRequest sc ho pa)) as [resp|]; [|done]. cbn [rr_scheme rr_host rr_path].
    destruct (String.eqb_spec sc "https") as [->|]; [|reflexivity]. destruct (String.eqb_spec ho "oauth.telegram.org") as [->|]; [|reflexivity].
    destruct (String.eqb_spec pa telegramJWKSPath) as [->|]; [done|reflexivity].
Qed.

(** ** Examples *)

(** A first start that loses the answer to its first commit, and a second one that
    succeeds. *)
Definition append_script (sql : string) (d : list string) : option (list string) := Some (d ++ [sql]).
Definition two_files : list (string * string) := [("002_terms.sql", "b"); ("001_initial.sql", "a")].
Lemma migrations_once_in_order_witness :
  let s := foldl (start_up append_script two_files) (mkCatalog [] [] []) [[Done; Done; Done; Done; Done; Lost]] in
  let last := migrate append_script two_files (mkCatalog (mg_applied s) (mg_data s) []) in
  mg_applied s = ["001_initial.sql"] /\ mg_applied last.2 = ["001_initial.sql"; "002_terms.sql"] /\ mg_data last.2 = ["a"; "b"].
Proof.
  intros s last. split; [vm_compute; reflexivity|].
  destruct (migrations_once_in_order append_script two_files [] [[Done; Done; Done; Done; Done; Lost]] []) as [_ H].
  - apply (bool_decide_unpack _). vm_compute. exact I.
  - destruct H as [H1 H2]; [vm_compute; reflexivity|]. split; [exact H1|].
    apply (inj Some). fold s in H2. fold last in H2. rewrite <- H2. vm_compute. reflexivity.
Defined.
