(* ===== verification/Commands.v ===== *)
(** * The commands of the node agent

    src/cmd/risevpn-node/main.go: the command line, the start of the agent and the
    commands of the operator.  A command runs on the database that the
    configuration names; files, sockets, DNS and random bytes enter as the
    outcomes of reading them.  What a command prints is the JSON value (the
    indentation is not modelled) or the line. *)

From S2P Require Import Prelude GoStrings GoUrl Base64 Json Model Store Crypto Compliance Policy Protocol Enrollment Control Config Mfa Server Pg Hub.
From stdpp Require Import base gmap strings list.
From Stdlib Require Import ZArith Lia Ascii.
Open Scope Z_scope.

(** ** Package flag *)

Inductive flag_value := StringFlag (s : string) | IntFlag (z : Z).

Definition lower (c : ascii) : ascii := byte_of (Z.lor (byte_val c) 32).
Definition digit36 (c : ascii) : option Z :=
  match digit_val c with
  | Some d => Some d
  | None => let z := byte_val (lower c) in if (97 <=? z) && (z <=? 122) then Some (z - 87) else None
  end.
(** The digits in a base, with underscores between them. *)
Fixpoint base_digits (base : Z) (s : string) (acc : Z) : option Z :=
  match s with
  | "" => Some acc
  | String c s' =>
      if Ascii.eqb c "_" then base_digits base s' acc else
      match digit36 c with
      | Some d => if d <? base then base_digits base s' (acc * base + d) else None
      | None => None
      end
  end.
(** [underscoreOK]: underscores separate digits; [last] is '0' after a digit, '_'
    after an underscore, '!' after another character and '^' at the start. *)
Fixpoint underscores_ok (hexadecimal : bool) (last : ascii) (s : string) : bool :=
  match s with
  | "" => negb (Ascii.eqb last "_")
  | String c s' =>
      let digit := match digit36 c with Some d => (d <? 10) || hexadecimal && (d <? 16) | None => false end in
      if digit then underscores_ok hexadecimal "0" s'
      else if Ascii.eqb c "_" then Ascii.eqb last "0" && underscores_ok hexadecimal "_" s'
      else negb (Ascii.eqb last "_") && underscores_ok hexadecimal "!" s'
  end.
(** The base that the prefix of a text names, and the text after it. *)
Definition split_base (s : string) : Z * string :=
  match s with
  | String "0" (String p rest as tail) =>
      let p := lower p in
      if (3 <=? String.length s)%nat && Ascii.eqb p "b" then (2, rest)
      else if (3 <=? String.length s)%nat && Ascii.eqb p "o" then (8, rest)
      else if (3 <=? String.length s)%nat && Ascii.eqb p "x" then (16, rest)
      else (8, tail)
  | String "0" "" => (8, "")
  | _ => (10, s)
  end.
Definition underscoreOK (s : string) : bool :=
  match s with
  | String "0" (String p rest) =>
      let p := lower p in
      if Ascii.eqb p "b" || Ascii.eqb p "o" || Ascii.eqb p "x" then underscores_ok (Ascii.eqb p "x") "0" rest
      else underscores_ok false "^" s
  | _ => underscores_ok false "^" s
  end.
(** [strconv.ParseInt(s, 0, 64)]; [None] is any error. *)
Definition ParseInt0 (s : string) : option Z :=
  let (negative, digits) := match s with
    | String "-" s' => (true, s') | String "+" s' => (false, s') | _ => (false, s) end in
  if String.eqb digits "" then None else
  let (base, body) := split_base digits in
  z ← base_digits base body 0;
  if contains_byte digits "_" && negb (underscoreOK digits) then None else
  let z := if (negative : bool) then - z else z in
  if in_int64 z then Some z else None.

(** The name and the value of a flag written as [name=value]. *)
Definition split_flag (name : string) : string * option string :=
  match name with
  | "" => ("", None)
  | String c rest =>
      match IndexByte rest "=" with
      | Some i => (String c (stake i rest), Some (sdrop (S i) rest))
      | None => (name, None)
      end
  end.
Definition set_flag (name value : string) (flags : gmap string flag_value) : result (gmap string flag_value) :=
  match flags !! name with
  | Some (StringFlag _) => Ok (<[name := StringFlag value]> flags)
  | Some (IntFlag _) => match ParseInt0 value with
                        | Some z => Ok (<[name := IntFlag z]> flags)
                        | None => Err (LibErr "flag")
                        end
  | None => Err (Msg (if String.eqb name "help" || String.eqb name "h" then "flag: help requested"
                      else "flag provided but not defined: -" +:+ name))
  end.
(** The name of a flag without its dashes, if the argument is one; [None] ends the
    flags. *)
Definition flag_name (arg : string) : option (result string) :=
  match arg with
  | String "-" (String "-" "") | String "-" "" => None
  | String "-" (String "-" name) | String "-" name =>
      Some (match name with
            | String "-" _ | String "=" _ => Err (Msg ("bad flag syntax: " +:+ arg))
            | _ => Ok name
            end)
  | _ => None
  end.
(** [flags.Parse]: the flags before the first other argument. *)
Fixpoint parse_flags (args : list string) (flags : gmap string flag_value) : result (gmap string flag_value) :=
  match args with
  | [] => Ok flags
  | arg :: args' =>
      match flag_name arg with
      | None => Ok flags
      | Some (Err e) => Err e
      | Some (Ok name) =>
          match split_flag name with
          | (name, Some value) =>
              match set_flag name value flags with Ok flags => parse_flags args' flags | Err e => Err e end
          | (name, None) =>
              match flags !! name, args' with
              | None, _ => set_flag name "" flags
              | _, value :: args'' =>
                  match set_flag name value flags with Ok flags => parse_flags args'' flags | Err e => Err e end
              | _, [] => Err (Msg ("flag needs an argument: -" +:+ name))
              end
          end
      end
  end.
Definition string_flag (name : string) (flags : gmap string flag_value) : string :=
  match flags !! name with Some (StringFlag s) => s | _ => "" end.
Definition int_flag (name : string) (flags : gmap string flag_value) : Z :=
  match flags !! name with Some (IntFlag z) => z | _ => 0 end.

(** ** The host of a command *)

Section Host.
Context {MO : MapOrder} `{UpperTables}.
(** The outcomes of reading a configuration file and of opening the database at a
    path; [version] is set when the program is built. *)
Variables (read_file : string -> result (string * option error)) (open_store : string -> result unit) (version : string).

Definition default_config : string := "/etc/risevpn/node.conf".
(** The configuration path of a command. *)
Definition commonFlags (args : list string) : result string :=
  result_map (string_flag "config") (parse_flags args {["config" := StringFlag default_config]}).

Definition openConfigured (path : string) : result Config :=
  match Load (read_file path) with
  | Err e => Err e
  | Ok cfg => match open_store (DatabasePath cfg) with Ok _ => Ok cfg | Err e => Err e end
  end.
Definition configured (args : list string) : result Config :=
  match commonFlags args with Ok path => openConfigured path | Err e => Err e end.

Definition effectiveVersion (cfg : Config) : string :=
  if negb (String.eqb version "dev") then version else AgentVersion cfg.

(** *** serve *)

(** What [serve] has set up when it waits: the configuration, the bundle of the
    node, whether the enrollment endpoint is open and whether Xray is managed. *)
Record started := mkStarted { sv_config : Config; sv_bundle : string; sv_enrollment : bool; sv_xray : bool }.

Definition wrap_error {A} (prefix : string) (r : result A) : result A :=
  match r with Ok a => Ok a | Err e => Err (Msg (prefix +:+ error_text e)) end.
Definition reality_states (cfg : Config) : gmap string string :=
  {["reality_public_key" := RealityPublicKey cfg; "reality_short_id" := RealityShortID cfg; "xray_transport" := XrayTransport cfg]}.

(** [internal] and [enrollment] are the outcomes of opening the two listeners. *)
Definition serve (args : list string) (identity : result (string * string)) (uuid token : result string)
    (now now' check1 check2 : time) (internal enrollment : result unit) : prog sqlite started :=
  let* cfg := lift (configured args) in
  let* bundle := Ensure (Domain cfg) (effectiveVersion cfg) identity uuid token now now' in
  let* _ := try (Check check1 check2) in
  lift (wrap_error "internal API: " internal) ;;;
  let* found := GetEnrollment in
  let unclaimed := match found with Some e => match en_ClaimedAt e with None => true | Some _ => false end | None => false end in
  (if (unclaimed : bool) then lift (wrap_error "enrollment API: " enrollment) else ret tt) ;;;
  let reality := negb (String.eqb (RealityPublicKey cfg) "") && negb (String.eqb (RealityShortID cfg) "") in
  (if (reality : bool) then SetStates (range (reality_states cfg)) else ret tt) ;;;
  ret (mkStarted cfg bundle unclaimed reality).

(** *** Commands of the operator *)

Inductive output := Printed (value : json) | Line (text : string).

Definition encode_Alert (a : Alert) : option json :=
  at_ ← jtime (al_CreatedAt a);
  Some (JObj [("code", JStr (al_Code a)); ("severity", JStr (al_Severity a)); ("message", JStr (al_Message a));
              ("createdAt", at_); ("active", JBool (al_Active a))]).
(** A slice without elements is [nil]. *)
Definition alerts_json (l : list Alert) : option json :=
  match l with [] => Some JNull | _ => JArr <$> mapM encode_Alert l end.
(** The command prints what the handler of the same name reports. *)
Definition statusCommand (args : list string) : prog sqlite output :=
  let* _ := lift (configured args) in
  let* r := Server.status in
  match alerts_json (st_alerts r) with
  | None => fail (LibErr "encoding/json")
  | Some alerts => ret (Printed (JObj [("alerts", alerts); ("claimed", JBool (st_claimed r)); ("nodeId", JStr (st_nodeID r))]))
  end.

(** The outcomes that [doctor] asks for: of [os.Stat], [net.LookupHost] and the
    status of a request with the given address and secret. *)
Record probes := mkProbes {
  pb_stat : string -> option error; pb_lookup : string -> result (list string); pb_online : string -> string -> result Z }.
Definition check_text (o : option error) : string := match o with Some e => error_text e | None => "ok" end.
Definition dns_text (r : result (list string)) : string :=
  match r with Err e => error_text e | Ok [] => "<nil>" | Ok addresses => String.concat "," addresses end.
Definition doctor (pb : probes) (args : list string) : result output :=
  match configured args with
  | Err e => Err e
  | Ok cfg =>
      Ok (Printed (JObj [("config", JStr "ok"); ("database", JStr "ok"); ("dns", JStr (dns_text (pb_lookup pb (Domain cfg))));
        ("hysteriaStats", JStr (match pb_online pb (trim_slashes (TrafficStatsURL cfg) +:+ "/online") (TrafficStatsSecret cfg) with
                                | Ok code => "HTTP " +:+ FormatInt code
                                | Err e => error_text e
                                end));
        ("tlsCertificate", JStr (check_text (pb_stat pb (TLSCertFile cfg)))); ("tlsKey", JStr (check_text (pb_stat pb (TLSKeyFile cfg))))]))
  end.

(** [enrollment show] and [enrollment reenroll]. *)
Definition enrollmentCommand (args : list string) (identity : result (string * string)) (uuid token : result string)
    (now : time) : prog sqlite output :=
  match args with
  | [] => fail (Msg "usage: risevpn-node enrollment <show|reenroll> --config PATH")
  | action :: args' =>
      let* cfg := lift (configured args') in
      let* bundle :=
        (if String.eqb action "show" then Current (Domain cfg) (effectiveVersion cfg) now
         else if String.eqb action "reenroll" then Reenroll (Domain cfg) (effectiveVersion cfg) identity uuid token now
         else fail (Msg "unknown enrollment action")) in
      ret (Line bundle)
  end.

Definition issue_flags : gmap string flag_value :=
  {["config" := StringFlag default_config; "plan" := StringFlag "TRIAL"; "days" := IntFlag 30]}.
(** The device that [device issue] stores. *)
Definition issued_device (deviceID credential plan : string) (policy : PlanPolicy) (days : Z) (now : time) : Device :=
  let days := if String.eqb plan Trial then 3 else days in
  mkDevice deviceID (Hash credential) plan true
    (TimeAdd now (mul64 (mul64 days 24) hour)) (TimeAdd now (30 * 24 * hour))
    (pp_QuotaBytes policy) 0 (pp_QuotaBytes policy) (TimeAdd now (30 * 24 * hour)) 0 0 false zero_time.
Definition deviceCommand (args : list string) (credential deviceID : result string) (now : time) : prog sqlite output :=
  match args with
  | "issue" :: args' =>
      let* flags := lift (parse_flags args' issue_flags) in
      let* cfg := lift (openConfigured (string_flag "config" flags)) in
      let plan := ToUpper (string_flag "plan" flags) in
      match Model.Policy plan with
      | None => fail (Msg "unknown plan")
      | Some planPolicy =>
          let* credential := lift credential in
          let* deviceID := lift deviceID in
          UpsertDevice (issued_device deviceID credential plan planPolicy (int_flag "days" flags) now) ;;;
          ret (Printed (JObj [("credential", JStr credential); ("deviceId", JStr deviceID); ("plan", JStr plan)]))
      end
  | _ => fail (Msg "usage: risevpn-node device issue --plan PLAN [--days N] --config PATH")
  end.
End Host.

(** *** Files *)

(** The files that were written, and the outcomes of the writes to come. *)
Record disk := mkDisk { dk_files : gmap string string; dk_writes : list bool }.
Definition WriteFile (path content : string) : prog disk unit := fun d =>
  if default true (head (dk_writes d)) then (Ok tt, mkDisk (<[path := content]> (dk_files d)) (tail (dk_writes d)))
  else (Err (LibErr "os"), mkDisk (dk_files d) (tail (dk_writes d))).
Definition line_end : string := String (byte_of 10) "".
(** [keys] are the bytes of the private and the public key that were drawn. *)
Definition realityKeypair (args : list string) (keys : result (string * string)) : prog disk unit :=
  let* flags := lift (parse_flags args {["private-file" := StringFlag ""; "public-file" := StringFlag ""]}) in
  let privatePath := string_flag "private-file" flags in
  let publicPath := string_flag "public-file" flags in
  if String.eqb privatePath "" || String.eqb publicPath "" then fail (Msg "private-file and public-file are required") else
  let* keys := lift keys in
  WriteFile privatePath (Encode keys.1 +:+ line_end) ;;;
  WriteFile publicPath (Encode keys.2 +:+ line_end).

(** *** The command line *)

Inductive command := CServe | CStatus | CDoctor | CEnrollment | CDevice | CVersion | CRealityKeypair.
Definition usageError : error :=
  Msg "usage: risevpn-node <serve|status|doctor|enrollment|device|version|reality-keypair> [options]".
(** The command that [run] takes, and its arguments. *)
Definition run (args : list string) : result (command * list string) :=
  match args with
  | "serve" :: args' => Ok (CServe, args')
  | "status" :: args' => Ok (CStatus, args')
  | "doctor" :: args' => Ok (CDoctor, args')
  | "enrollment" :: args' => Ok (CEnrollment, args')
  | "device" :: args' => Ok (CDevice, args')
  | "version" :: args' => Ok (CVersion, args')
  | "reality-keypair" :: args' => Ok (CRealityKeypair, args')
  | _ => Err usageError
  end.

(** ** Properties *)

Section Issue.
Context `{UpperTables}.

(** The times of a device lose their fraction of a second in the database. *)
Definition stored_time (t : time) : time := FromUnix (Unix t).
Lemma scan_issued d : in_int64 (UsedBytes d) = true -> OverrideExpires d = zero_time -> Active d = true ->
  scanDevice (upsert_row d None)
  = Ok (mkDevice (ID d) (CredentialHash d) (Plan d) true (stored_time (SubscriptionEnds d)) (stored_time (PeriodEnds d))
          (QuotaBytes d) (UsedBytes d) (LeaseBytes d) (stored_time (LeaseExpires d)) 0 0 false (FromUnix 0)).
Proof. intros Hu _ Ha. unfold scanDevice, upsert_row. cbn [dr_used_bytes]. rewrite Hu, Ha. reflexivity. Qed.

Lemma policy_quota plan p : Model.Policy plan = Some p -> 0 < pp_QuotaBytes p.
Proof.
  unfold Model.Policy. repeat (destruct (String.eqb _ _); [intros [= <-]; cbn; lia|]). done.
Qed.
Lemma issued_admitted deviceID credential plan p days now later :
  Model.Policy plan = Some p ->
  let d := issued_device deviceID credential plan p days now in
  (exists q, admitted (mkDevice (ID d) (CredentialHash d) (Plan d) true (stored_time (SubscriptionEnds d)) (stored_time (PeriodEnds d))
     (QuotaBytes d) (UsedBytes d) (LeaseBytes d) (stored_time (LeaseExpires d)) 0 0 false (FromUnix 0)) later q)
  <-> later < stored_time (SubscriptionEnds d) /\ later < stored_time (LeaseExpires d).
Proof.
  intros Hp d. pose proof (policy_quota _ _ Hp) as Hq.
  assert (Hex : forall q x, QuotaBytes x = pp_QuotaBytes p -> UsedBytes x = 0 -> ~ exhausted x q).
  { intros q x E1 E2. unfold exhausted, effective_quota. rewrite E1, E2. destruct (pp_QuotaBytes p <=? 0) eqn:E; lia. }
  split.
  - intros [q [_ H1 H2 _ H4]]. cbn in H1. split; [exact H1|].
    destruct H4 as [H4|[H4 _]]; [by apply Hex|cbn in H4; lia|exact H4].
  - intros [H1 H2]. exists p. split; [done|exact H1|exact Hp|intros _; by apply Hex|]. intros _. right. cbn. split; [exact H2|lia].
Qed.
End Issue.

(** A device that the operator issues is known by its credential at once, and is
    admitted exactly until its subscription or its lease of thirty days ends,
    whichever is first - also when it was issued for more days. *)
Theorem issued_device_admitted {UT : UpperTables} read_file open_store args credential deviceID now t out s' later :
  credential <> "" -> db_ok t -> t_devices t !! deviceID = None ->
  deviceCommand read_file open_store ("issue" :: args) (Ok credential) (Ok deviceID) now (mkSqlite t []) = (Ok out, s') ->
  exists flags plan p dec, parse_flags args issue_flags = Ok flags /\ plan = ToUpper (string_flag "plan" flags)
    /\ Model.Policy plan = Some p
    /\ out = Printed (JObj [("credential", JStr credential); ("deviceId", JStr deviceID); ("plan", JStr plan)])
    /\ Authenticate credential later s' = (Ok dec, s')
    /\ let ends := TimeAdd now (mul64 (mul64 (if String.eqb plan Trial then 3 else int_flag "days" flags) 24) hour) in
       (ad_OK dec = true <-> later < stored_time ends /\ later < stored_time (TimeAdd now (30 * 24 * hour))).
Proof.
  intros Hc Hok Hnew. unfold deviceCommand, bind, lift.
  destruct (parse_flags args issue_flags) as [flags|]; [|done]. destruct (openConfigured _ _ _); [|done].
  set (plan := ToUpper _). destruct (Model.Policy plan) as [p|] eqn:Ep; [|done].
  set (d := issued_device deviceID credential plan p (int_flag "days" flags) now).
  destruct (UpsertDevice d (mkSqlite t [])) as [[[]|e] s1] eqn:E; [|done]. intros [= <- <-].
  pose proof (UpsertDevice_preserves d eq_refl (mkSqlite t [])) as Hk. unfold on_db in Hk. rewrite E in Hk. specialize (Hk Hok).
  unfold UpsertDevice in E. rewrite exec_ok in E. destruct (hash_taken _ _ _); [done|]. injection E as <-.
  cbn [ID d issued_device] in Hnew |- *. pose proof (scan_issued d eq_refl eq_refl eq_refl) as Hscan.
  eexists flags, plan, p, _. split_and!; [done|done|done|done| |].
  - eapply (Authenticate_known credential later _ (upsert_row d None) deviceID); [exact Hc|exact Hk| |reflexivity|exact Hscan].
    cbn [fst snd db t_devices with_devices]. change (ID d) with deviceID. by rewrite Hnew, lookup_insert_eq.
  - cbv zeta. rewrite decide_device_admits. apply (issued_admitted deviceID credential plan p (int_flag "days" flags) now later Ep).
Qed.

(** ** The start of the agent *)

Definition reality_keys : list string := ["reality_public_key"; "reality_short_id"; "xray_transport"].
Definition reality_view (t : tables) : list (option string) := (fun k => t_state t !! k) <$> reality_keys.

Lemma SetStates_view {MO : MapOrder} (states : gmap string string) :
  (forall k, k ∈ reality_keys -> states !! k = None) -> keeps (on_db (same reality_view)) (SetStates (range states)).
Proof.
  intros Hn s. destruct (SetStates (range states) s) as [r s'] eqn:E.
  apply SetStates_cases in E as [(e & _ & E)|[_ E]]; unfold on_db, same; cbn [snd]; rewrite E; [done|].
  unfold reality_view. apply list_fmap_ext. intros i k Hk%list_elem_of_lookup_2. cbn [t_state with_state].
  rewrite lookup_union, Hn by done. apply (left_id None _).
Qed.
Lemma ensureIdentity_view {MO : MapOrder} identity uuid : keeps (on_db (same reality_view)) (ensureIdentity identity uuid).
Proof.
  do 3 (apply keeps_bind; [apply _|apply keeps_query, _|intros ?]).
  apply keeps_if; [apply keeps_if; [apply keeps_ret|apply keeps_fail]; apply _|].
  do 2 (apply keeps_bind; [apply _|apply keeps_lift, _|intros ?]). apply SetStates_view.
  intros k Hk. rewrite !lookup_insert_ne, lookup_singleton_ne; [done|..]; set_solver.
Qed.
Lemma bundle_view domain version token expires : keeps (on_db (same reality_view)) (bundle domain version token expires).
Proof.
  assert (Hr : forall k m, keeps (on_db (same reality_view)) (require_state k m)).
  { intros k m. apply keeps_bind; [apply _|apply keeps_try, keeps_query, _|].
    intros [[v|]|e]; [apply keeps_ret|apply keeps_fail..]; apply _. }
  do 2 (apply keeps_bind; [apply _|apply Hr|intros ?]). destruct (encode_Bundle _); [apply keeps_ret|apply keeps_fail]; apply _.
Qed.
Lemma Reenroll_view {MO : MapOrder} domain version identity uuid token now :
  keeps (on_db (same reality_view)) (Reenroll domain version identity uuid token now).
Proof.
  apply keeps_bind; [apply _|apply ensureIdentity_view|intros _].
  apply keeps_bind; [apply _|apply keeps_lift, _|intros tok].
  apply keeps_bind; [apply _|by apply keeps_update; [apply _|]|intros _; apply bundle_view].
Qed.
Lemma Ensure_view {MO : MapOrder} domain version identity uuid token now now' :
  keeps (on_db (same reality_view)) (Ensure domain version identity uuid token now now').
Proof.
  apply keeps_bind; [apply _|apply ensureIdentity_view|intros _].
  apply keeps_bind; [apply _|apply keeps_query, _|intros [e|]]; [|apply Reenroll_view].
  destruct (en_ClaimedAt e); [apply keeps_ret, _|]. apply keeps_if; [apply Reenroll_view|apply bundle_view].
Qed.
Lemma Check_view now1 now2 : keeps (on_db (same reality_view)) (Check now1 now2).
Proof.
  apply keeps_bind; [apply _|apply keeps_query, _|intros [f|]].
  - apply keeps_if; by apply keeps_update; [apply _|].
  - by apply keeps_update; [apply _|].
Qed.

Lemma hello_ok version t :
  let text k := default "" (t_state t !! k) in
  hello version (mkSqlite t [])
  = (Ok (mkHello (text "node_id") version [1; 2]
       ([CapabilityACK; CapabilityQuotaLease; CapabilitySessionKick; CapabilityPolicyOverride; CapabilityCertRotate; CapabilityAtomicUpdate]
        ++ (if String.eqb (text "xray_transport") "ws-tls" then [CapabilityCDNWebSocket]
            else if negb (String.eqb (text "reality_public_key") "") && negb (String.eqb (text "reality_short_id") "")
            then [CapabilityTCPFallback] else []))
       (text "reality_public_key") (text "reality_short_id")), mkSqlite t []).
Proof.
  assert (Hs : forall k, stateText k (mkSqlite t []) = (Ok (default "" (t_state t !! k)), mkSqlite t [])).
  { intros k. unfold stateText, bind, try, on, State. cbn [part part_self with_part]. rewrite query_ok. by destruct (t_state t !! k). }
  intros text. unfold hello, bind. rewrite !Hs. fold (text "node_id") (text "reality_public_key") (text "reality_short_id") (text "xray_transport").
  destruct (String.eqb (text "xray_transport") "ws-tls"); [done|]. by destruct (_ && _).
Qed.

(** The agent that has started tells the controller how clients reach it: with
    Reality parameters in its configuration, these and the transport; without, it
    repeats whatever an earlier start has left in the database, although Xray is
    not managed then. *)
Theorem serve_announces {MO : MapOrder} read_file open_store version args identity uuid token now now' c1 c2 internal enrollment
    s st s' v :
  serve read_file open_store version args identity uuid token now now' c1 c2 internal enrollment s = (Ok st, s') ->
  exists h, hello v (mkSqlite (db s') []) = (Ok h, mkSqlite (db s') [])
    /\ (sv_xray st = true -> he_RealityPublicKey h = RealityPublicKey (sv_config st) /\ he_RealityShortID h = RealityShortID (sv_config st)
          /\ (CapabilityCDNWebSocket ∈ he_Capabilities h <-> XrayTransport (sv_config st) = "ws-tls")
          /\ (CapabilityTCPFallback ∈ he_Capabilities h <-> XrayTransport (sv_config st) <> "ws-tls"))
    /\ (sv_xray st = false -> forall h0, hello v (mkSqlite (db s) []) = (Ok h0, mkSqlite (db s) []) ->
          he_RealityPublicKey h = he_RealityPublicKey h0 /\ he_RealityShortID h = he_RealityShortID h0
          /\ he_Capabilities h = he_Capabilities h0).
Proof.
  intros H. assert (Hcase : exists s1, same reality_view (db s) (db s1) /\
    if sv_xray st then negb (String.eqb (RealityPublicKey (sv_config st)) "") && negb (String.eqb (RealityShortID (sv_config st)) "") = true
        /\ db s' = with_state (fun m => reality_states (sv_config st) ∪ m) (db s1)
    else db s' = db s1).
  { revert H. unfold serve, bind, lift, try. destruct (configured _ _ _) as [cfg|]; [|done].
    pose proof (Ensure_view (Domain cfg) (effectiveVersion version cfg) identity uuid token now now' s) as H1.
    destruct (Ensure _ _ _ _ _ _ _ s) as [[b|] s1]; [|done]. unfold on_db in H1. cbn [snd] in H1.
    pose proof (Check_view c1 c2 s1) as H2. destruct (Check c1 c2 s1) as [x s2]. unfold on_db in H2. cbn [snd] in H2.
    destruct (wrap_error "internal API: " internal); [|done].
    destruct (GetEnrollment s2) as [[e|] s3] eqn:E3; [|done].
    assert (Hs3 : same reality_view (db s) (db s3)).
    { etransitivity; [exact H1|]. etransitivity; [exact H2|]. apply exec_cases in E3 as [[? E3]|E3]; [done|]. by injection E3 as _ <-. }
    set (unclaimed := match e with Some _ => _ | None => _ end).
    destruct (if unclaimed then _ else _) as [[[]|] s4] eqn:E4; [|done].
    assert (s4 = s3) as -> by (destruct unclaimed; [destruct (wrap_error _ enrollment); [by injection E4|done]|by injection E4]).
    destruct (negb _ && negb _) eqn:Er.
    - destruct (SetStates _ s3) as [[[]|] s5] eqn:E5; [|done]. intros [= <- <-]. exists s3. split; [done|]. cbn [sv_xray sv_config].
      apply SetStates_cases in E5 as [(e5 & ? & _)|[_ E5]]; done.
    - intros [= <- <-]. by exists s3. }
  destruct Hcase as (s1 & Hview & Hcase). eexists. split; [apply hello_ok|]. cbn [he_RealityPublicKey he_RealityShortID he_Capabilities].
  assert (Hv : forall k, k ∈ reality_keys -> t_state (db s1) !! k = t_state (db s) !! k).
  { intros k Hk. unfold same, reality_view, reality_keys in Hview. cbn in Hview. injection Hview as E1 E2 E3.
    unfold reality_keys in Hk. rewrite !elem_of_cons, elem_of_nil in Hk. destruct Hk as [->|[->|[->|[]]]]; done. }
  split; intros Hx; rewrite Hx in Hcase.
  - destruct Hcase as [Hne ->]. cbn [t_state with_state].
    assert (Hl : forall k x, reality_states (sv_config st) !! k = Some x -> (reality_states (sv_config st) ∪ t_state (db s1)) !! k = Some x).
    { intros k x Hk. by apply lookup_union_Some_l. }
    rewrite (Hl "reality_public_key" _ ltac:(reflexivity)), (Hl "reality_short_id" _ ltac:(reflexivity)), (Hl "xray_transport" _ ltac:(reflexivity)).
    cbn [from_option id]. rewrite Hne. split_and!; [done|done|..]; destruct (String.eqb_spec (XrayTransport (sv_config st)) "ws-tls"); set_solver.
  - rewrite Hcase. intros h0. rewrite hello_ok. intros [= <-]. cbn [he_RealityPublicKey he_RealityShortID he_Capabilities].
    rewrite !Hv by (unfold reality_keys; set_solver). done.
Qed.

(** ** Keys of the Reality transport *)

Lemma Decode_Encode_newline s : Decode (Encode s +:+ line_end) = Some s.
Proof.
  assert (H : forall a, sextets (a +:+ line_end) = sextets a).
  { induction a as [|c a IH]; [reflexivity|]. cbn [String.append sextets]. by rewrite IH. }
  unfold Decode. rewrite H. apply Decode_Encode.
Qed.

(** The two files hold the two keys, and the public key is one that the hub
    accepts with any short id of an even number of up to 16 hexadecimal digits. *)
Theorem keypair_files args private public d d' :
  realityKeypair args (Ok (private, public)) d = (Ok tt, d') -> String.length public = 32%nat ->
  exists privatePath publicPath, dk_files d' !! publicPath = Some (Encode public +:+ line_end)
    /\ (privatePath <> publicPath -> dk_files d' !! privatePath = Some (Encode private +:+ line_end))
    /\ Decode (Encode public +:+ line_end) = Some public
    /\ forall shortID, (0 < String.length shortID <= 16)%nat -> (String.length shortID mod 2 = 0)%nat ->
         forallb is_hex (String.list_ascii_of_string shortID) = true -> validRealityHello (Encode public) shortID = true.
Proof.
  unfold realityKeypair, bind, lift. destruct (parse_flags _ _) as [flags|]; [|done].
  set (priv := string_flag "private-file" flags). set (pub := string_flag "public-file" flags).
  destruct (_ || _); [done|]. cbn [fst snd]. unfold WriteFile.
  destruct (default true (head (dk_writes d))); [|done]. cbn [dk_files dk_writes].
  destruct (default true _); [|done]. intros [= <-] Hlen. exists priv, pub. cbn [dk_files]. split_and!.
  - by rewrite lookup_insert_eq.
  - intros Hne. by rewrite lookup_insert_ne, lookup_insert_eq by done.
  - apply Decode_Encode_newline.
  - intros shortID [H1 H2] H3 H4. unfold validRealityHello. rewrite Decode_Encode, Hlen, H3. cbn [negb Nat.eqb].
    rewrite (proj2 (Nat.eqb_neq _ _)) by lia. rewrite (proj2 (Nat.ltb_ge _ _)) by lia. exact H4.
Qed.

(** ** Examples *)

Definition sample_conf : string :=
  "domain=node.example" +:+ line_end +:+ "masquerade_url=https://example.org" +:+ line_end +:+ "traffic_stats_secret=s" +:+ line_end.
Definition ascii_upper : UpperTables := {| upper_nonascii s := s |}.
Definition issue_sample : result output * sqlite :=
  @deviceCommand ascii_upper (fun _ => Ok (sample_conf, None)) (fun _ => Ok tt) ["issue"; "--plan=plus"; "-days"; "0x3c"]
    (Ok "credential") (Ok "device-1") (FromUnix 1000000) (mkSqlite empty_tables []).

(** A device that was issued for sixty days is refused after thirty. *)
Lemma issued_device_admitted_witness : exists dec,
  Authenticate "credential" (FromUnix (1000000 + 31 * 86400)) issue_sample.2 = (Ok dec, issue_sample.2) /\ ad_OK dec = false.
Proof.
  assert (E : issue_sample = (Ok (Printed (JObj [("credential", JStr "credential"); ("deviceId", JStr "device-1"); ("plan", JStr "PLUS")])),
    issue_sample.2)) by (vm_compute; reflexivity).
  destruct (@issued_device_admitted ascii_upper (fun _ => Ok (sample_conf, None)) (fun _ => Ok tt) ["--plan=plus"; "-days"; "0x3c"]
    "credential" "device-1" (FromUnix 1000000) empty_tables
    (Printed (JObj [("credential", JStr "credential"); ("deviceId", JStr "device-1"); ("plan", JStr "PLUS")])) issue_sample.2 (FromUnix (1000000 + 31 * 86400)))
    as (flags & plan & p & dec & Hf & _ & _ & _ & Hrun & Hok); [discriminate|apply db_ok_empty|reflexivity|exact E|].
  exists dec. split; [exact Hrun|]. destruct (ad_OK dec); [|reflexivity]. exfalso.
  destruct (proj1 Hok eq_refl) as [_ Hlt]. vm_compute in Hlt. discriminate Hlt.
Defined.
