(* ===== verification/Dial.v ===== *)
(** * The node's side of a connection

    src/internal/control/client.go: [tlsConfig], [write] and the opening part of
    [connect], from the stored identity to the hello on the wire.  What the
    packages crypto/tls and crypto/x509 do with PEM texts is a parameter beside
    those of [Enrollment] and [Pki]. *)

From S2P Require Import Prelude GoStrings Base64 Json JsonText Model Store Crypto Compliance Policy Protocol Enrollment Control Config Pki Gate.
From stdpp Require Import base gmap strings list.
From Stdlib Require Import ZArith Lia.
Open Scope Z_scope.

(** [x509.MarshalPKCS8PrivateKey], whether [tls.X509KeyPair] accepts a certificate
    and a key, and whether [AppendCertsFromPEM] finds a certificate. *)
Class TlsKit := {
  marshal_pkcs8 : string -> option string;
  key_pair : string -> string -> bool;
  appends_certs : string -> bool }.

(** A pair is accepted when the first block of the chain is a certificate for the
    public key of the private key; an Ed25519 key can be marshalled. *)
Class TlsLaws {XC : X509} {XI : X509Issuing} {TK : TlsKit} {ED : Ed25519} : Prop := {
  marshal_ed25519 : forall priv, String.length priv = PrivateKeySize -> is_Some (marshal_pkcs8 priv);
  key_pair_matches : forall chain der c priv pkcs8,
    pem_decode chain = Some ("CERTIFICATE", der) -> parse_certificate der = Some c ->
    cert_public_key c = Some (ed_public priv) -> marshal_pkcs8 priv = Some pkcs8 ->
    key_pair chain (pem_encode "PRIVATE KEY" pkcs8) = true }.

Section Dial.
Context {XC : X509} {XI : X509Issuing} {TK : TlsKit}.

(** The certificate chain, the key and the authority that is added to the system's
    roots; the minimal version is TLS 1.3. *)
Record tls_config := mkTlsConfig { tc_certificate : string; tc_key : string; tc_root : string }.

Definition tlsConfig : prog sqlite tls_config :=
  let* privateEncoded := require_state "node_private_key" "node private key is missing" in
  match Decode privateEncoded with
  | None => fail (Msg "invalid node private key")
  | Some privateRaw =>
      if negb (String.length privateRaw =? PrivateKeySize)%nat then fail (Msg "invalid node private key") else
      match marshal_pkcs8 privateRaw with
      | None => fail (LibErr "crypto/x509")
      | Some pkcs8 =>
          let* certificatePEM := require_state "node_certificate" "node certificate is missing" in
          let key := pem_encode "PRIVATE KEY" pkcs8 in
          if negb (key_pair certificatePEM key) then fail (LibErr "crypto/tls") else
          let* controllerCA := require_state "controller_ca" "controller CA is missing" in
          if negb (appends_certs controllerCA) then fail (Msg "invalid controller CA") else
          ret (mkTlsConfig certificatePEM key controllerCA)
      end
  end.

(** The message that [write] puts on the wire. *)
Definition write (messageID : string) (now : time) (messageType : string) (data : json) : option string :=
  writeReply messageID now messageType "" data.

(** [connect] up to its loop: the address and the configuration that are dialled
    and the first message; [dial] is the outcome of the dial. *)
Definition connect_open (dial : string -> tls_config -> result unit) (version messageID : string) (now : time)
    : prog sqlite (string * tls_config * string) :=
  let* address := controller_address in
  let* tls := tlsConfig in
  lift (dial address tls) ;;;
  let* h := hello version in
  match write messageID now "hello" (encode_Hello h) with
  | None => fail (LibErr "encoding/json")
  | Some text => ret (address, tls, text)
  end.

Lemma tlsConfig_ok t priv pkcs8 certificate ca :
  t_state t !! "node_private_key" = Some (Encode priv) -> String.length priv = PrivateKeySize -> marshal_pkcs8 priv = Some pkcs8 ->
  t_state t !! "node_certificate" = Some certificate -> key_pair certificate (pem_encode "PRIVATE KEY" pkcs8) = true ->
  t_state t !! "controller_ca" = Some ca ->
  tlsConfig (mkSqlite t []) = (if appends_certs ca then Ok (mkTlsConfig certificate (pem_encode "PRIVATE KEY" pkcs8) ca)
                               else Err (Msg "invalid controller CA"), mkSqlite t []).
Proof.
  intros Hp Hl Hm Hc Hk Ha. unfold tlsConfig, bind. rewrite (require_state_ok _ _ _ _ Hp), Decode_Encode, Hl, Nat.eqb_refl, Hm. cbn [negb].
  rewrite (require_state_ok _ _ _ _ Hc), Hk. cbn [negb]. rewrite (require_state_ok _ _ _ _ Ha). by destruct (appends_certs ca).
Qed.

(** What [handle_rotate] has stored when it succeeds. *)
Lemma handle_rotate_ok {MO : MapOrder} rotation now t s' priv {ED : Ed25519} :
  t_state t !! "node_public_key" = Some (Encode (ed_public priv)) ->
  handle_rotate rotation now (mkSqlite t []) = (Ok tt, s') ->
  exists kind der c t', s' = mkSqlite t' [] /\ pem_decode (cert_CertificatePEM rotation) = Some (kind, der)
    /\ parse_certificate der = Some c /\ cert_public_key c = Some (ed_public priv)
    /\ t_state t' !! "node_certificate" = Some (cert_CertificatePEM rotation)
    /\ t_state t' !! "controller_ca" = (if String.eqb (cert_ControllerCA rotation) "" then t_state t !! "controller_ca"
                                        else Some (cert_ControllerCA rotation))
    /\ t_state t' !! "node_private_key" = t_state t !! "node_private_key".
Proof.
  intros Hpub. unfold handle_rotate. destruct (pem_decode _) as [[kind der]|] eqn:Ep; [|done].
  destruct (parse_certificate der) as [c|] eqn:Ec; [|done]. unfold bind, try, on. cbn [part part_self with_part].
  unfold State. rewrite query_ok, Hpub, Decode_Encode. destruct (cert_public_key c) as [k|] eqn:Ek; [|done].
  destruct (String.eqb_spec k (ed_public priv)) as [->|]; [|done]. cbn [negb]. destruct (After _ _); [|done]. cbn [negb].
  rewrite SetStates_ok. intros [= <-]. do 4 eexists. split; [reflexivity|]. split; [done|]. split; [done|]. split; [done|].
  cbn [t_state with_state]. destruct (String.eqb (cert_ControllerCA rotation) ""); cbn [negb]; rewrite !lookup_union.
  - rewrite lookup_singleton_eq, !lookup_singleton_ne by done. destruct (t_state t !! "node_certificate"), (t_state t !! "controller_ca"), (t_state t !! "node_private_key"); done.
  - rewrite lookup_insert_eq, !lookup_insert_ne, lookup_singleton_eq, lookup_singleton_ne by done.
    destruct (t_state t !! "node_certificate"), (t_state t !! "controller_ca"), (t_state t !! "node_private_key"); done.
Qed.
End Dial.

(** A rotation that a node has accepted works for the node: its next connection is
    dialled with the new certificate, its own key and, if the command had one, the
    new authority, provided that the text is a certificate and the authority can
    be read; an authority that can not be read is stored all the same, and from
    then on every connection fails. *)
Theorem rotated_certificate_used {XC : X509} {XI : X509Issuing} {TK : TlsKit} {ED : Ed25519} {MO : MapOrder}
    (TL : TlsLaws) rotation now t s' priv ca :
  t_state t !! "node_private_key" = Some (Encode priv) -> t_state t !! "node_public_key" = Some (Encode (ed_public priv)) ->
  String.length priv = PrivateKeySize -> t_state t !! "controller_ca" = Some ca -> appends_certs ca = true ->
  handle_rotate rotation now (mkSqlite t []) = (Ok tt, s') ->
  forall der, pem_decode (cert_CertificatePEM rotation) = Some ("CERTIFICATE", der) ->
  let root := if String.eqb (cert_ControllerCA rotation) "" then ca else cert_ControllerCA rotation in
  (appends_certs root = true -> exists key, tlsConfig s' = (Ok (mkTlsConfig (cert_CertificatePEM rotation) key root), s'))
  /\ (appends_certs root = false -> tlsConfig s' = (Err (Msg "invalid controller CA"), s')).
Proof.
  intros Hpriv Hpub Hlen Hca Happ Hrot der Hpem root.
  destruct (handle_rotate_ok _ _ _ _ _ Hpub Hrot) as (kind & der' & c & t' & -> & Hp & Hc & Hk & H1 & H2 & H3).
  rewrite Hpem in Hp. injection Hp as <- <-. destruct (marshal_ed25519 priv Hlen) as [pkcs8 Hm].
  assert (Hroot : t_state t' !! "controller_ca" = Some root) by (rewrite H2; subst root; by destruct (String.eqb _ "")).
  rewrite Hpriv in H3. pose proof (tlsConfig_ok t' priv pkcs8 _ root H3 Hlen Hm H1 (key_pair_matches _ _ _ _ _ Hpem Hc Hk Hm) Hroot) as Hrun.
  split; intros Ha; rewrite Ha in Hrun; [eexists|]; exact Hrun.
Qed.

(** An instance: the key is its own encoding, and a pair is accepted when the
    certificate of the chain is for the public key of the private key. *)
Definition toy_tls `{Ed25519} : TlsKit := {|
  marshal_pkcs8 priv := Some priv;
  key_pair chain key :=
    match @pem_decode issuing_x509 chain, @pem_decode issuing_x509 key with
    | Some ("CERTIFICATE", der), Some ("PRIVATE KEY", priv) =>
        match @parse_certificate issuing_x509 der with
        | Some c => bool_decide (@cert_public_key issuing_x509 c = Some (ed_public priv))
        | None => false
        end
    | _, _ => false
    end;
  appends_certs text := match @pem_decode issuing_x509 text with Some ("CERTIFICATE", _) => true | _ => false end |}.
Lemma toy_tls_laws `{ED : Ed25519} : @TlsLaws issuing_x509 toy_issuing toy_tls ED.
Proof.
  split; [intros priv _; by eexists|]. intros chain der c priv pkcs8 Hd Hc Hk [= <-]. cbn [key_pair toy_tls].
  rewrite Hd, (@pem_decode_encode _ _ toy_issuing_laws), Hc. by rewrite bool_decide_eq_true_2.
Qed.
