(* ===== verification/Schema.v ===== *)
(** * Opening the database of a node

    src/internal/store/store.go: [Open], [migrate] and [columnExists] over the file
    as SQLite keeps it, tables with columns that may be added later, and how the
    rows of a file that an earlier release has written read as rows of [Store].
    A column is found by its name, so the order of the columns is left out. *)

From S2P Require Import Prelude GoStrings Model Store.
From stdpp Require Import base gmap strings list fin_maps.
From Stdlib Require Import ZArith Lia.
Open Scope Z_scope.

(** ** The file *)

Inductive value := VNull | VInt (z : Z) | VText (s : string).
Record column := mkColumn { cl_type : string; cl_key : string; cl_not_null : bool; cl_default : option Z }.
Record table := mkTable { tb_columns : gmap string column; tb_rows : list (gmap string value) }.
Notation file := (gmap string table).

(** The file, and which of the statements to come fail. *)
Record disk := mkDisk { dk_file : file; dk_faults : list bool }.

Definition statement {A} (f : file -> result A * file) : prog disk A := fun d =>
  let fs := tail (dk_faults d) in
  match head (dk_faults d) with
  | Some true => (Err (SqlErr SqlFault), mkDisk (dk_file d) fs)
  | _ => let (r, f') := f (dk_file d) in (r, mkDisk f' fs)
  end.

(** PRAGMA journal_mode and PRAGMA foreign_keys leave the content alone. *)
Definition pragma : prog disk unit := statement (fun f => (Ok tt, f)).

(** CREATE TABLE IF NOT EXISTS *)
Definition create_table (name : string) (columns : gmap string column) : prog disk unit :=
  statement (fun f => (Ok tt, match f !! name with Some _ => f | None => <[name := mkTable columns []]> f end)).

Definition column_default (c : column) : value := match cl_default c with Some z => VInt z | None => VNull end.

(** ALTER TABLE ADD COLUMN: every row gets the default; the column must be new and
    may not be NOT NULL without a default. *)
Definition add_column (name col : string) (c : column) : prog disk unit :=
  statement (fun f =>
    match f !! name with
    | None => (Err (SqlErr SqlFault), f)
    | Some t =>
        if bool_decide (is_Some (tb_columns t !! col)) then (Err (SqlErr SqlFault), f) else
        if cl_not_null c && match cl_default c with None => true | Some _ => false end then (Err (SqlErr SqlFault), f) else
        (Ok tt, <[name := mkTable (<[col := c]> (tb_columns t)) (insert col (column_default c) <$> tb_rows t)]> f)
    end).

(** PRAGMA table_info has no rows for a table that does not exist. *)
Definition columnExists (name col : string) : prog disk bool :=
  statement (fun f => (Ok (match f !! name with
                           | Some t => bool_decide (is_Some (tb_columns t !! col)) | None => false end), f)).

(** ** The migration *)

Definition text : column := mkColumn "TEXT" "" true None.
Definition text_key : column := mkColumn "TEXT" "PRIMARY KEY" false None.
Definition text_unique : column := mkColumn "TEXT" "UNIQUE" true None.
Definition integer : column := mkColumn "INTEGER" "" true None.
Definition integer_zero : column := mkColumn "INTEGER" "" true (Some 0).
Definition integer_null : column := mkColumn "INTEGER" "" false None.
Definition integer_key : column := mkColumn "INTEGER" "PRIMARY KEY AUTOINCREMENT" false None.
Definition single_row : column := mkColumn "INTEGER" "PRIMARY KEY CHECK (id = 1)" false None.

Definition schema : list (string * gmap string column) :=
  [("state", list_to_map [("key", text_key); ("value", text)]);
   ("enrollment", list_to_map [("id", single_row); ("token", text); ("token_hash", text); ("expires_at", integer); ("claimed_at", integer_null)]);
   ("devices", list_to_map [("device_id", text_key); ("credential_hash", text_unique); ("plan", text); ("active", integer);
      ("subscription_ends", integer); ("period_ends", integer); ("quota_bytes", integer); ("used_bytes", integer_zero);
      ("lease_bytes", integer_zero); ("lease_expires", integer_zero)]);
   ("usage_events", list_to_map [("id", integer_key); ("device_id", text); ("tx_bytes", integer); ("rx_bytes", integer);
      ("recorded_at", integer); ("sent_at", integer_null)]);
   ("alerts", list_to_map [("code", text_key); ("severity", text); ("message", text); ("created_at", integer); ("active", integer)]);
   ("compliance", list_to_map [("id", single_row); ("version", text); ("updated_at", integer); ("expires_at", integer);
      ("rules_json", text); ("signature", text)])].

Definition override_columns : gmap string column :=
  list_to_map [("override_up_bps", integer_zero); ("override_down_bps", integer_zero);
               ("override_p2p", integer_zero); ("override_expires", integer_zero)].

Definition wrapped {A} (m : prog disk A) : prog disk A := fun d =>
  let (r, d') := m d in (wrap_error "database migration" r, d').

Definition ensure_column (name col : string) (c : column) : prog disk unit :=
  let* exists_ := columnExists name col in
  if (exists_ : bool) then ret tt else add_column name col c.

(** [order] is the order in which the range over the map visits the columns. *)
Definition migrate (order : list (string * column)) : prog disk unit :=
  wrapped pragma ;;; wrapped pragma ;;;
  for_each (fun nc => wrapped (create_table nc.1 nc.2)) schema ;;;
  ensure_column "usage_events" "sent_at" integer_null ;;;
  for_each (fun nc => ensure_column "devices" nc.1 nc.2) order.

(** The outcomes of [os.MkdirAll], [sql.Open] and [os.Chmod] are given. *)
Definition Open (mkdir opened chmod : result unit) (order : list (string * column)) : prog disk unit :=
  lift mkdir ;;; lift opened ;;; migrate order ;;; lift chmod.

(** A row of devices as [scanDevice] reads its columns. *)
Definition int_of (v : option value) : option Z := match v with Some (VInt z) => Some z | _ => None end.
Definition text_of (v : option value) : option string := match v with Some (VText s) => Some s | _ => None end.
Definition scan_row (r : gmap string value) : option device_row :=
  id ← text_of (r !! "device_id"); hash ← text_of (r !! "credential_hash"); plan ← text_of (r !! "plan");
  active ← int_of (r !! "active"); subscription ← int_of (r !! "subscription_ends"); period ← int_of (r !! "period_ends");
  quota ← int_of (r !! "quota_bytes"); used ← int_of (r !! "used_bytes"); lease ← int_of (r !! "lease_bytes");
  lease_expires ← int_of (r !! "lease_expires"); up ← int_of (r !! "override_up_bps"); down ← int_of (r !! "override_down_bps");
  p2p ← int_of (r !! "override_p2p"); expires ← int_of (r !! "override_expires");
  Some (mkDeviceRow id hash plan active subscription period quota used lease lease_expires up down p2p expires).

(** ** What the migration makes of a file *)

Definition well_formed (f : file) : Prop :=
  forall name t, f !! name = Some t -> Forall (fun r => dom r = dom (tb_columns t)) (tb_rows t).

Definition additions (name : string) : gmap string column :=
  if String.eqb name "usage_events" then {["sent_at" := integer_null]}
  else if String.eqb name "devices" then override_columns else ∅.
Definition created : file := (fun columns => mkTable columns []) <$> list_to_map schema.
Definition completed (name : string) (t : table) : table :=
  mkTable (tb_columns t ∪ additions name) ((fun r => r ∪ (column_default <$> additions name)) <$> tb_rows t).
Definition final (f : file) : file := map_imap (fun name t => Some (completed name t)) (f ∪ created).

(** *** Running the statements *)

Lemma keeps_statement {A} (R : relation file) (f : file -> result A * file) :
  Reflexive R -> (forall x, R x (f x).2) -> keeps (fun d d' => R (dk_file d) (dk_file d')) (statement f).
Proof.
  intros HR Hf d. unfold statement. destruct (head (dk_faults d)) as [[]|]; simpl; try apply HR;
    specialize (Hf (dk_file d)); destruct (f (dk_file d)); exact Hf.
Qed.

(** A run without faults is a function of the file. *)
Lemma statement_run {A} (f : file -> result A * file) x : statement f (mkDisk x []) = ((f x).1, mkDisk (f x).2 []).
Proof. unfold statement. simpl. by destruct (f x). Qed.

(** [upgrading]: the file stays well-formed and completes to the same file. *)
Definition upgrading : relation file := fun f f' => well_formed f -> well_formed f' /\ final f' = final f.
#[export] Instance upgrading_preorder : PreOrder upgrading.
Proof.
  split; [by intros f H|]. intros f1 f2 f3 H1 H2 Hf. destruct (H1 Hf) as [Hf2 E2]. destruct (H2 Hf2) as [Hf3 E3].
  split; [done|congruence].
Qed.
Definition on_file (R : relation file) : relation disk := fun d d' => R (dk_file d) (dk_file d').
#[export] Instance on_file_preorder R `{!PreOrder R} : PreOrder (on_file R).
Proof. split; [intros d; unfold on_file; reflexivity|intros x y z; unfold on_file; by etransitivity]. Qed.

Lemma final_lookup f name : final f !! name = completed name <$> (f ∪ created) !! name.
Proof. unfold final. rewrite map_lookup_imap. by destruct ((f ∪ created) !! name). Qed.

(** Only what is at [name] has changed. *)
Lemma final_insert f name t :
  completed name <$> (f ∪ created) !! name = Some (completed name t) -> final (<[name := t]> f) = final f.
Proof.
  intros H. apply map_eq. intros k. rewrite !final_lookup. destruct (decide (k = name)) as [->|Hk].
  - rewrite H, lookup_union, lookup_insert_eq. by destruct (created !! name).
  - by rewrite !lookup_union, lookup_insert_ne.
Qed.

Lemma schema_NoDup : NoDup schema.*1.
Proof. apply (bool_decide_unpack _). by vm_compute. Qed.

Lemma create_upgrading name columns d : (name, columns) ∈ schema -> on_file upgrading d (create_table name columns d).2.
Proof.
  intros Hin. apply (keeps_statement upgrading); [apply _|]. intros f Hf. simpl. destruct (f !! name) as [t|] eqn:E; [done|].
  assert (Hc : created !! name = Some (mkTable columns [])).
  { unfold created. rewrite lookup_fmap, fmap_Some. exists columns. split; [|done]. by apply elem_of_list_to_map_1; [apply schema_NoDup|]. }
  split.
  - intros k t Hk. apply lookup_insert_Some in Hk as [[_ <-]|[_ Hk]]; [constructor|by eapply Hf].
  - apply final_insert. by rewrite lookup_union, E, Hc.
Qed.

Lemma dom_insert_column (r : gmap string value) t col v c :
  dom r = dom (tb_columns t) -> dom (<[col := v]> r) = dom (<[col := c]> (tb_columns t)).
Proof. intros H. by rewrite !dom_insert_L, H. Qed.

(** An entry that the defaults would supply may as well be there. *)
Lemma insert_union_default {A} (m d : gmap string A) k v :
  m !! k = None -> d !! k = Some v -> <[k := v]> m ∪ d = m ∪ d.
Proof.
  intros Hm Hd. apply map_eq. intros j. rewrite !lookup_union. destruct (decide (j = k)) as [->|Hj].
  - by rewrite lookup_insert_eq, Hm, Hd.
  - by rewrite lookup_insert_ne.
Qed.
Lemma union_Some_l_total (t : table) o : union (Some t) o = Some t.
Proof. by destruct o. Qed.

Lemma add_upgrading name col c d : additions name !! col = Some c -> on_file upgrading d (add_column name col c d).2.
Proof.
  intros Ha. apply (keeps_statement upgrading); [apply _|]. intros f Hf. destruct (f !! name) as [t|] eqn:E; [|done].
  case_bool_decide as Hcol; [done|]. apply eq_None_not_Some in Hcol. destruct (cl_not_null c && _); [done|]. cbn [snd].
  pose proof (Hf _ _ E) as Hrows. split.
  - intros k t' Hk. apply lookup_insert_Some in Hk as [[_ <-]|[_ Hk]]; [|by eapply Hf].
    cbn [tb_rows tb_columns]. apply Forall_fmap. eapply Forall_impl; [exact Hrows|]. intros r Hr. by apply dom_insert_column.
  - apply final_insert. rewrite lookup_union, E. rewrite (union_Some_l_total t). cbn [fmap option_fmap option_map]. f_equal.
    unfold completed. cbn [tb_columns tb_rows]. f_equal.
    + by rewrite (insert_union_default _ _ _ _ Hcol Ha).
    + rewrite <- list_fmap_compose. apply list_fmap_ext. intros i r Hr. simpl.
      assert (Hn : r !! col = None).
      { apply not_elem_of_dom. rewrite Forall_lookup in Hrows. rewrite (Hrows _ _ Hr). by apply not_elem_of_dom. }
      symmetry. apply (insert_union_default _ _ _ _ Hn). by rewrite lookup_fmap, Ha.
Qed.

(** *** The migration and its interruptions *)

Lemma created_schema name t : created !! name = Some t -> exists columns, (name, columns) ∈ schema.
Proof.
  unfold created. rewrite lookup_fmap, fmap_Some. intros (columns & H & _). exists columns. by apply elem_of_list_to_map_2.
Qed.

Lemma keeps_wrapped {A} (R : relation disk) (m : prog disk A) : keeps R m -> keeps R (wrapped m).
Proof. intros H d. specialize (H d). unfold wrapped. by destruct (m d). Qed.
Lemma keeps_pragma R `{!PreOrder R} : keeps (on_file R) pragma.
Proof. apply (keeps_statement R); [apply _|]. intros f. simpl. reflexivity. Qed.
Lemma keeps_columnExists R `{!PreOrder R} name col : keeps (on_file R) (columnExists name col).
Proof. apply (keeps_statement R); [apply _|]. intros f. simpl. reflexivity. Qed.
Lemma wrapped_ok {A} (m : prog disk A) d a d' : wrapped m d = (Ok a, d') -> m d = (Ok a, d').
Proof. unfold wrapped. destruct (m d) as [[]]; [by intros [= <- <-]|done]. Qed.

(** The parts of [migrate], for a relation that creating a table of the schema and
    adding a column of the plan respect. *)
Section Parts.
Context (R : relation file) `{!PreOrder R} (order : list (string * column)).
Hypothesis Hcreate : forall name columns, (name, columns) ∈ schema -> keeps (on_file R) (create_table name columns).
Hypothesis Hadd : forall name col c, additions name !! col = Some c -> keeps (on_file R) (add_column name col c).
Hypothesis Horder : order ≡ₚ map_to_list override_columns.

Lemma order_additions col c : (col, c) ∈ order -> additions "devices" !! col = Some c.
Proof. rewrite Horder. by intros ?%elem_of_map_to_list. Qed.
Lemma keeps_ensure name col c : additions name !! col = Some c -> keeps (on_file R) (ensure_column name col c).
Proof.
  intros H. unfold ensure_column. apply keeps_bind; [apply _|by apply keeps_columnExists|]. intros []; [apply keeps_ret, _|by apply Hadd].
Qed.
Lemma keeps_creates : keeps (on_file R) (for_each (fun nc => wrapped (create_table nc.1 nc.2)) schema).
Proof. apply keeps_for_each_elem; [apply _|]. intros [n c] H. by apply keeps_wrapped, Hcreate. Qed.
Lemma keeps_overrides : keeps (on_file R) (for_each (fun nc => ensure_column "devices" nc.1 nc.2) order).
Proof. apply keeps_for_each_elem; [apply _|]. intros [n c] H. by apply keeps_ensure, order_additions. Qed.
Lemma keeps_migrate : keeps (on_file R) (migrate order).
Proof.
  unfold migrate. do 2 (apply keeps_bind; [apply _|by apply keeps_wrapped, keeps_pragma|intros _]).
  apply keeps_bind; [apply _|apply keeps_creates|intros _].
  apply keeps_bind; [apply _|by apply keeps_ensure|intros _]. apply keeps_overrides.
Qed.
End Parts.

(** Tables and columns stay. *)
Definition has_column (f : file) (name col : string) : Prop := exists t, f !! name = Some t /\ is_Some (tb_columns t !! col).
Definition growing : relation file := fun f f' =>
  (forall name, is_Some (f !! name) -> is_Some (f' !! name)) /\ forall name col, has_column f name col -> has_column f' name col.
#[export] Instance growing_preorder : PreOrder growing.
Proof. split; [by intros f|]. intros f1 f2 f3 [] []. split; auto. Qed.
Lemma create_growing name columns : keeps (on_file growing) (create_table name columns).
Proof.
  apply (keeps_statement growing); [apply _|]. intros f. simpl. destruct (f !! name) eqn:E; [done|]. split.
  - intros k Hk. destruct (decide (k = name)) as [->|]; [by rewrite lookup_insert_eq|by rewrite lookup_insert_ne].
  - intros k col (t & Hk & Ht). exists t. rewrite lookup_insert_ne by congruence. done.
Qed.
Lemma add_growing name col c : keeps (on_file growing) (add_column name col c).
Proof.
  apply (keeps_statement growing); [apply _|]. intros f. destruct (f !! name) as [t|] eqn:E; [|done].
  case_bool_decide; [done|]. destruct (cl_not_null c && _); [done|]. cbn [snd]. split.
  - intros k Hk. destruct (decide (k = name)) as [->|]; [by rewrite lookup_insert_eq|by rewrite lookup_insert_ne].
  - intros k col' (t' & Hk & Ht). destruct (decide (k = name)) as [->|]; [|exists t'; by rewrite lookup_insert_ne].
    rewrite E in Hk. injection Hk as <-. eexists. rewrite lookup_insert_eq. split; [done|]. cbn [tb_columns].
    destruct (decide (col' = col)) as [->|]; [by rewrite lookup_insert_eq|by rewrite lookup_insert_ne].
Qed.

Lemma create_done name columns d d' : create_table name columns d = (Ok tt, d') -> is_Some (dk_file d' !! name).
Proof.
  unfold create_table, statement. destruct (head (dk_faults d)) as [[]|]; [done|..]; intros [= <-]; cbn [dk_file];
    (destruct (dk_file d !! name) eqn:E; [by rewrite E|apply lookup_insert_is_Some; by left]).
Qed.
Lemma ensure_done name col c d d' : ensure_column name col c d = (Ok tt, d') -> has_column (dk_file d') name col.
Proof.
  unfold ensure_column, bind, columnExists, statement.
  destruct (head (dk_faults d)) as [[]|]; [done|..]; destruct (dk_file d !! name) as [t|] eqn:E; try case_bool_decide as Hc;
    try (intros [= <-]; exists t; done);
    unfold add_column, statement; cbn [dk_faults dk_file]; destruct (head (tail (dk_faults d))) as [[]|]; try done; rewrite E; try done;
    (case_bool_decide; [done|]); (destruct (cl_not_null c && _); [done|]); intros [= <-]; eexists; cbn [dk_file];
    (split; [by rewrite lookup_insert_eq|cbn [tb_columns]; by rewrite lookup_insert_eq]).
Qed.

(** Every table and every column of the plan is there. *)
Definition complete (f : file) : Prop :=
  (forall name columns, (name, columns) ∈ schema -> is_Some (f !! name))
  /\ forall name col c, additions name !! col = Some c -> has_column f name col.

Lemma union_absorb {A} (m d : gmap string A) : (forall k, is_Some (d !! k) -> is_Some (m !! k)) -> m ∪ d = m.
Proof.
  intros H. apply map_eq. intros k. rewrite lookup_union. specialize (H k). destruct (m !! k) as [v|], (d !! k) as [v'|]; try done.
  destruct H; by eauto.
Qed.

Lemma final_complete f : well_formed f -> complete f -> final f = f.
Proof.
  intros Hf [Ht Hc]. apply map_eq. intros name. rewrite final_lookup, lookup_union. destruct (f !! name) as [t|] eqn:E.
  - rewrite union_Some_l_total. simpl. f_equal. destruct t as [columns rows]. unfold completed. cbn [tb_columns tb_rows].
    assert (Hk : forall k, is_Some (additions name !! k) -> is_Some (columns !! k)).
    { intros k [c Hk]. destruct (Hc _ _ _ Hk) as (t & Et & Hi). rewrite E in Et. by injection Et as <-. }
    f_equal; [by apply union_absorb|]. rewrite <- (list_fmap_id rows) at 2. apply list_fmap_ext. intros i r Hr.
    unfold id. apply union_absorb. intros k Hi. pose proof (Hf _ _ E) as Hrows. rewrite Forall_lookup in Hrows.
    cbn beta in Hrows. apply elem_of_dom. rewrite (Hrows _ _ Hr). apply elem_of_dom, Hk. rewrite lookup_fmap in Hi. by apply fmap_is_Some in Hi.
  - destruct (created !! name) as [t|] eqn:E'; [|done]. apply created_schema in E' as [columns Hs].
    specialize (Ht _ _ Hs). rewrite E in Ht. by apply is_Some_None in Ht.
Qed.

Lemma additions_cases name col c :
  additions name !! col = Some c ->
  name = "usage_events" /\ col = "sent_at" /\ c = integer_null \/ name = "devices" /\ override_columns !! col = Some c.
Proof.
  unfold additions. destruct (String.eqb_spec name "usage_events") as [->|].
  - intros [<- <-]%lookup_singleton_Some. auto.
  - destruct (String.eqb_spec name "devices") as [->|]; [auto|]. by rewrite lookup_empty.
Qed.

Lemma creates_done d d' name columns :
  for_each (fun nc => wrapped (create_table nc.1 nc.2)) schema d = (Ok tt, d') -> (name, columns) ∈ schema -> is_Some (dk_file d' !! name).
Proof.
  intros E H. destruct (for_each_done (on_file growing) (fun nc => wrapped (create_table nc.1 nc.2)) schema d d' (name, columns)) as (w1 & w2 & Hw & HR);
    [|exact E|exact H|].
  - intros [n c] _. apply keeps_wrapped, create_growing.
  - apply wrapped_ok, create_done in Hw. by apply HR.
Qed.

Lemma migrate_complete order d d' :
  order ≡ₚ map_to_list override_columns -> migrate order d = (Ok tt, d') -> complete (dk_file d').
Proof.
  intros Ho. unfold migrate, bind. destruct (wrapped pragma d) as [[[]|] d1]; [|done]. destruct (wrapped pragma d1) as [[[]|] d2]; [|done].
  destruct (for_each _ schema d2) as [[[]|] d3] eqn:E3; [|done]. destruct (ensure_column _ _ _ d3) as [[[]|] d4] eqn:E4; [|done]. intros E5.
  pose proof (keeps_ensure growing (fun n c k _ => add_growing n c k) "usage_events" "sent_at" integer_null eq_refl d3) as G4. rewrite E4 in G4.
  pose proof (keeps_overrides growing order (fun n c k _ => add_growing n c k) Ho d4) as G5. rewrite E5 in G5. cbn [snd] in *. split.
  - intros name columns H. eapply G5, G4, creates_done; [exact E3|exact H].
  - intros name col c [(-> & -> & ->)|[-> H]]%additions_cases; [by eapply G5, ensure_done|].
    destruct (for_each_done (on_file growing) (fun nc => ensure_column "devices" nc.1 nc.2) order d4 d' (col, c)) as (w1 & w2 & Hw & HR);
      [|exact E5|rewrite Ho; by apply elem_of_map_to_list|].
    { intros [n k] Hin. apply keeps_ensure; [apply _|intros; apply add_growing|]. by apply (order_additions order Ho). }
    apply HR. by eapply ensure_done.
Qed.

(** Without failures the migration comes to its end. *)
Lemma create_run name columns f : exists f', create_table name columns (mkDisk f []) = (Ok tt, mkDisk f' []).
Proof. unfold create_table. rewrite statement_run. by eexists. Qed.
Lemma ensure_run name col c f :
  additions name !! col = Some c -> is_Some (f !! name) -> exists f', ensure_column name col c (mkDisk f []) = (Ok tt, mkDisk f' []).
Proof.
  intros Ha [t Ht]. unfold ensure_column, bind, columnExists. rewrite statement_run. cbn [fst snd]. rewrite Ht.
  case_bool_decide as Hc; [by eexists|]. unfold add_column. rewrite statement_run, Ht. rewrite bool_decide_eq_false_2 by done.
  replace (cl_not_null c && _) with false; [by eexists|].
  apply additions_cases in Ha as [(_ & _ & ->)|[_ H]]; [done|]. apply elem_of_list_to_map_2 in H.
  repeat (apply elem_of_cons in H as [[= _ ->]|H]; [done|]). by apply elem_of_nil in H.
Qed.
Lemma migrate_total order f :
  order ≡ₚ map_to_list override_columns -> exists f', migrate order (mkDisk f []) = (Ok tt, mkDisk f' []).
Proof.
  intros Ho. pose (calm := fun d : disk => dk_faults d = []).
  destruct (for_each_total calm (fun nc => wrapped (create_table nc.1 nc.2)) schema) with (w := mkDisk f []) as ([f3 l3] & E3 & H3); [|done|].
  { intros [n c] [g l] _ Hl. unfold calm in Hl. cbn in Hl. subst l. destruct (create_run n c g) as [g' Hg]. exists (mkDisk g' []).
    unfold wrapped. cbn [fst snd]. by rewrite Hg. }
  unfold calm in H3. cbn in H3. subst l3. unfold migrate, bind. unfold wrapped at 1, pragma at 1. rewrite statement_run. cbn [fst snd wrap_error].
  unfold wrapped at 1, pragma at 1. rewrite statement_run. cbn [fst snd wrap_error]. rewrite E3.
  pose proof (fun name columns => creates_done _ _ name columns E3) as Htables. cbn [dk_file] in Htables.
  destruct (ensure_run "usage_events" "sent_at" integer_null f3 eq_refl) as [f4 E4]; [eapply Htables; by right; right; right; left|].
  rewrite E4. pose proof (keeps_ensure growing (fun n c k _ => add_growing n c k) "usage_events" "sent_at" integer_null eq_refl (mkDisk f3 [])) as G4. rewrite E4 in G4.
  destruct (for_each_total (fun d => calm d /\ is_Some (dk_file d !! "devices")) (fun nc => ensure_column "devices" nc.1 nc.2) order)
    with (w := mkDisk f4 []) as ([f5 l5] & E5 & H5 & _).
  - intros [n c] [g l] Hin [Hl Hg]. unfold calm in Hl. cbn in Hl. subst l. apply (order_additions order Ho) in Hin.
    destruct (ensure_run "devices" n c g Hin Hg) as [g' Eg]. exists (mkDisk g' []). split; [done|]. split; [done|].
    apply ensure_done in Eg as (t & Ht & _). by exists t.
  - split; [done|]. apply G4. eapply Htables. by right; right; left.
  - unfold calm in H5. cbn in H5. subst l5. by exists f5.
Qed.

(** Starts of the agent that were cut short: the order of the range and the
    failures of each. *)
Definition starts (runs : list (list (string * column) * list bool)) (f : file) : file :=
  foldl (fun f run => dk_file (migrate run.1 (mkDisk f run.2)).2) f runs.

Lemma starts_upgrading runs f :
  Forall (fun run => run.1 ≡ₚ map_to_list override_columns) runs -> upgrading f (starts runs f).
Proof.
  revert f. induction runs as [|[order fs] runs IH]; intros f; [done|]. intros [Ho Hr]%Forall_cons. simpl. etransitivity; [|by apply IH].
  apply (keeps_migrate upgrading order (fun n c H d => create_upgrading n c d H) (fun n c k H d => add_upgrading n c k d H) Ho (mkDisk f fs)).
Qed.

(** Whatever earlier release has written the file, and however often the migration
    was cut short by failures on the way and in whatever order it added the
    columns, a start that succeeds leaves the same file: every table and column of
    the schema, and every old row with its values and the defaults of the new
    columns; without further failures the start succeeds. *)
Theorem migration_completes runs order fs f r d :
  well_formed f -> Forall (fun run => run.1 ≡ₚ map_to_list override_columns) runs -> order ≡ₚ map_to_list override_columns ->
  migrate order (mkDisk (starts runs f) fs) = (r, d) ->
  (r = Ok tt -> dk_file d = final f) /\ (fs = [] -> r = Ok tt).
Proof.
  intros Hf Hruns Ho Hrun. split.
  - intros ->. destruct (starts_upgrading runs f Hruns Hf) as [Hs Es].
    pose proof (keeps_migrate upgrading order (fun n c H d => create_upgrading n c d H) (fun n c k H d => add_upgrading n c k d H) Ho
      (mkDisk (starts runs f) fs)) as Hu. rewrite Hrun in Hu. destruct (Hu Hs) as [Hd Ed]. cbn [snd dk_file] in Hd, Ed.
    rewrite <- Es, <- Ed. symmetry. apply final_complete; [done|]. by eapply migrate_complete.
  - intros ->. destruct (migrate_total order (starts runs f) Ho) as [f' E]. rewrite E in Hrun. by injection Hrun as <- _.
Qed.

(** A device that a release without overrides has stored reads as before, with no
    override. *)
Theorem old_devices_read f t r id hash plan active subscription period quota used lease lease_expires :
  f !! "devices" = Some t -> r ∈ tb_rows t ->
  r = list_to_map [("device_id", VText id); ("credential_hash", VText hash); ("plan", VText plan); ("active", VInt active);
        ("subscription_ends", VInt subscription); ("period_ends", VInt period); ("quota_bytes", VInt quota);
        ("used_bytes", VInt used); ("lease_bytes", VInt lease); ("lease_expires", VInt lease_expires)] ->
  exists t' r', final f !! "devices" = Some t' /\ r' ∈ tb_rows t'
    /\ scan_row r' = Some (mkDeviceRow id hash plan active subscription period quota used lease lease_expires 0 0 0 0).
Proof.
  intros Ht Hr ->. eexists _, _. rewrite final_lookup, lookup_union, Ht, union_Some_l_total. split; [reflexivity|]. split.
  - cbn [completed tb_rows]. apply list_elem_of_fmap. eexists. split; [reflexivity|exact Hr].
  - reflexivity.
Qed.

(** A file of the first release, and a start that fails after the second column. *)
Definition first_devices : table :=
  mkTable (list_to_map [("device_id", text_key); ("credential_hash", text_unique); ("plan", text); ("active", integer);
      ("subscription_ends", integer); ("period_ends", integer); ("quota_bytes", integer); ("used_bytes", integer_zero);
      ("lease_bytes", integer_zero); ("lease_expires", integer_zero)])
    [list_to_map [("device_id", VText "d1"); ("credential_hash", VText "h1"); ("plan", VText "LITE"); ("active", VInt 1);
      ("subscription_ends", VInt 100); ("period_ends", VInt 100); ("quota_bytes", VInt 50); ("used_bytes", VInt 7);
      ("lease_bytes", VInt 0); ("lease_expires", VInt 0)]].
Definition first_file : file := {["devices" := first_devices]}.
Definition range_order : list (string * column) := map_to_list override_columns.

Example interrupted_start :
  is_ok (migrate range_order (mkDisk first_file (replicate 13 false ++ [true]))).1 = false
  /\ (migrate range_order (mkDisk (dk_file (migrate range_order (mkDisk first_file (replicate 13 false ++ [true]))).2) [])).1 = Ok tt
  /\ (t ← final first_file !! "devices"; r ← head (tb_rows t); scan_row r)
     = Some (mkDeviceRow "d1" "h1" "LITE" 1 100 100 50 7 0 0 0 0 0 0).
Proof. by vm_compute. Qed.

Lemma migration_completes_witness : well_formed first_file
  /\ dk_file (migrate range_order (mkDisk (starts [(range_order, replicate 13 false ++ [true])] first_file) [])).2 = final first_file.
Proof.
  assert (Hw : well_formed first_file).
  { unfold first_file. intros name t [<- <-]%lookup_singleton_Some. apply Forall_singleton. apply (bool_decide_unpack _). by vm_compute. }
  split; [exact Hw|].
  destruct (migrate range_order (mkDisk (starts [(range_order, replicate 13 false ++ [true])] first_file) [])) as [r d] eqn:E.
  assert (Hr : Forall (fun run => run.1 ≡ₚ map_to_list override_columns) [(range_order, replicate 13 false ++ [true])]).
  { apply Forall_singleton. exact (Permutation_refl range_order). }
  destruct (migration_completes _ range_order [] first_file r d Hw Hr (Permutation_refl range_order) E) as [H1 H2].
  exact (H1 (H2 eq_refl)).
Defined.
