(* ===== verification/App.v ===== *)
(** * The control plane as an application

    src/internal/controlplane/app.go: the construction of the application
    ([NewApp], with [OpenDatabase] of database.go), readiness, request identifiers,
    the embedded pages ([frontend]) and the list of a user's devices ([devices]).
    What is outside the program (files, the network, the pool of connections) is
    given by outcomes. *)

From S2P Require Import Prelude GoStrings Json JsonText Model Store GoUrl Pg Vault Web Session Enrollment Pki Settings Admin.
From stdpp Require Import base gmap strings list sorting.
From Stdlib Require Import ZArith Lia.
Open Scope Z_scope.

(** ** Start-up *)

(** Parsing the address, making the pool and the first ping have outcomes; the
    pool that an error leaves behind is closed. *)
Definition OpenDatabase {D} (script : string -> D -> option D) (parsed pooled pinged : result unit)
    (files : list (string * string)) : prog (catalog (D := D)) unit :=
  lift parsed ;;; lift pooled ;;; lift pinged ;;; Settings.migrate script files.

Inductive resource := Database | Cache.
#[export] Instance resource_eq_dec : EqDecision resource.
Proof. solve_decision. Defined.

(** The database and the connections that are open. *)
Record boot := mkBoot { bt_pg : pg; bt_open : list resource }.
Definition acquire (r : resource) : prog boot unit := fun b => (Ok tt, mkBoot (bt_pg b) (r :: bt_open b)).
Definition release (r : resource) : prog boot unit := fun b =>
  (Ok tt, mkBoot (bt_pg b) (filter (fun r' => r' <> r) (bt_open b))).
Definition on_pg {A} (m : prog pg A) : prog boot A := fun b =>
  let (r, s) := m (bt_pg b) in (r, mkBoot s (bt_open b)).

(** What [NewApp] finds outside: the database, the address of the cache and its
    answer, the files of the authority, the discovery of the login provider. *)
Record outside := mkOutside {
  ou_database : result unit; ou_redis_url : result unit; ou_ping : result unit;
  ou_ca_cert : result string; ou_ca_key : result string; ou_discovery : result unit }.

Section Start.
Context {XC : X509} {XI : X509Issuing} {PU : PgUuid} {PS : PgServer}.

(** [a.oauth] and [a.verifier] are set together; [ap_Login] is the redirect
    address. *)
Record App := mkApp { ap_config : Config; ap_vault : Vault; ap_issuer : option NodeIssuer; ap_Login : option string }.

Definition redirect_url (config : Config) : string := trim_slashes (cc_PublicURL config) +:+ "/auth/telegram/callback".

(** [closing e]: the error path that closes what is open and returns [e]. *)
Definition closing {A} (e : error) : prog boot A := release Database ;;; release Cache ;;; fail e.

Definition NewApp (o : outside) (config : Config) : prog boot App :=
  lift (ou_database o) ;;;
  acquire Database ;;;
  match ou_redis_url o with
  | Err e => release Database ;;; fail e
  | Ok _ =>
      acquire Cache ;;;
      match ou_ping o with
      | Err e => closing e
      | Ok _ =>
          match NewVault (cc_EncryptionKey config) (cc_HWIDKey config) with
          | Err e => closing e
          | Ok vault =>
              let issuer := match LoadNodeIssuer (ou_ca_cert o) (ou_ca_key o) with Ok i => Some i | Err _ => None end in
              let* login :=
                (if cc_DevAuth config then ret None else
                 match ou_discovery o with
                 | Err e => fail (Wrap "telegram oidc discovery" e)
                 | Ok _ => ret (Some (redirect_url config))
                 end) in
              (if cc_DevAuth config then on_pg (ensureDevOwner (cc_DevTelegramSubject config)) else ret tt) ;;;
              ret (mkApp config vault issuer login)
          end
      end
  end.
End Start.

(** ** Probes and pages *)

Definition health : reply := NoContent.
(** The two pings, the second only after the first has succeeded. *)
Definition ready (db redis : result unit) : reply :=
  if negb (is_ok db) || negb (is_ok redis) then problem 503 "not-ready" else NoContent.

(** The identifier of a request: its own, or a fresh one. *)
Definition requestID (header fresh : string) : string := if String.eqb header "" then fresh else header.

(** A page: its content and the content type that is set, if any. *)
Inductive page := Page (content : string) (kind : option string) | NotBuilt | NotFound.

(** [assets] is the embedded file system: the content of a file, if there is one. *)
Definition content_type (path : string) : option string :=
  if HasSuffix path ".js" then Some "text/javascript" else if HasSuffix path ".css" then Some "text/css" else None.
Definition page_path (path : string) : string :=
  let path := TrimPrefix path "/" in
  if String.eqb path "" || negb (Contains path ".") then "index.html" else path.
Definition frontend (assets : string -> option string) (path : string) : page :=
  if HasPrefix path "/api/" then NotFound else
  let path := page_path path in
  match match assets path with Some data => Some data | None => assets "index.html" end with
  | None => NotBuilt
  | Some data => Page data (content_type path)
  end.

(** ** The devices of a user *)

Section Listing.
Context {PU : PgUuid}.

Definition slot_le (a b : string * cdevice_row) : Prop := cd_slot a.2 <= cd_slot b.2.
#[export] Instance slot_le_dec a b : Decision (slot_le a b).
Proof. unfold slot_le. apply _. Defined.
#[export] Instance slot_le_total : Total slot_le.
Proof. intros a b. unfold slot_le. lia. Qed.
#[export] Instance slot_le_trans : Transitive slot_le.
Proof. intros a b c. unfold slot_le. lia. Qed.

Definition own_devices (user : string) (t : ctables) : gmap string cdevice_row :=
  filter (fun kv => cd_user kv.2 = user) (c_devices t).
(** ORDER BY slot, which is unique for a user. *)
Definition device_listing (userID : string) (t : ctables) : result (list (string * cdevice_row)) :=
  match canonical_uuid userID with
  | Err e => Err e
  | Ok user => Ok (merge_sort slot_le (map_to_list (own_devices user t)))
  end.

(** A pointer to a time: null, or its text if it can be written. *)
Definition time_or_null (t : option time) : option json := match t with None => Some JNull | Some t => jtime t end.
Definition device_item (kv : string * cdevice_row) : option json :=
  let '(id, d) := kv in
  bound ← time_or_null (cd_last_bound d); seen ← time_or_null (cd_last_seen d); revoked ← time_or_null (cd_revoked_at d);
  Some (JObj [("bound", JBool (match cd_hwid d with Some _ => true | None => false end)); ("id", JStr id); ("lastBoundAt", bound);
              ("lastSeenAt", seen); ("name", JStr (cd_name d)); ("revokedAt", revoked); ("slot", jint (cd_slot d))]).

(** [delivered]: how many rows arrive before the connection breaks, if it does;
    [rows.Next] then ends the loop and nobody asks for [rows.Err]. *)
Definition devices (s : session) (delivered : option nat) : prog pg reply :=
  let* rows := try (pool (select (device_listing (ss_UserID s)))) in
  ret (match rows with
       | Err _ => problem 500 "db"
       | Ok rows =>
           let rows := match delivered with Some n => take n rows | None => rows end in
           jsonResponse 200 (items ← mapM device_item rows; Some (JObj [("items", JArr items)]))
       end).
End Listing.

(** ** Theorems *)

(** A database that has been opened has every migration. *)
Theorem opened_database_is_migrated {D} (script : string -> D -> option D) parsed pooled pinged files d0 k s s' :
  NoDup files.*1 -> (k <= length (migration_plan files))%nat -> migrated script (migration_plan files) d0 k s ->
  OpenDatabase script parsed pooled pinged files s = (Ok tt, s') ->
  mg_applied s' = (migration_plan files).*1 /\ run_scripts script (migration_plan files) d0 = Some (mg_data s').
Proof.
  intros Hnd Hk Hm. unfold OpenDatabase, bind, lift. destruct parsed; [|done]. destruct pooled; [|done]. destruct pinged; [|done]. intros E.
  destruct (migrate_keeps script files d0 k s Hnd Hk Hm) as (k' & _ & [Ha Hr] & Hok). rewrite E in Ha, Hr, Hok.
  specialize (Hok eq_refl). subst k'. rewrite take_ge in Ha, Hr by lia. done.
Qed.

(** An application that starts has both connections open, a usable vault and, unless
    development logins are enabled, a login provider that was found.  A start that
    fails has closed what it opened, except when the discovery of the provider or
    the owner of a development installation fails: then both stay open. *)
Theorem NewApp_outcome {XC : X509} {XI : X509Issuing} {PU : PgUuid} {PS : PgServer} o config s r b :
  NewApp o config (mkBoot s []) = (r, b) ->
  match r with
  | Ok a => bt_open b = [Cache; Database] /\ NewVault (cc_EncryptionKey config) (cc_HWIDKey config) = Ok (ap_vault a)
            /\ ap_Login a = (if cc_DevAuth config then None else Some (redirect_url config))
            /\ (cc_DevAuth config = false -> ou_discovery o = Ok tt /\ bt_pg b = s)
  | Err e => (bt_open b = [] /\ bt_pg b = s)
             \/ (bt_open b = [Cache; Database]
                 /\ if cc_DevAuth config then (ensureDevOwner (cc_DevTelegramSubject config) s).1 = Err e
                    else exists e', ou_discovery o = Err e' /\ e = Wrap "telegram oidc discovery" e')
  end.
Proof.
  unfold NewApp, bind, lift, closing, bind, release, acquire, fail, ret. destruct (ou_database o) as [[]|]; [|intros [= <- <-]; by left].
  destruct (ou_redis_url o) as [[]|]; [|intros [= <- <-]; by left]. destruct (ou_ping o) as [[]|]; [|intros [= <- <-]; by left].
  destruct (NewVault _ _) as [v|] eqn:Ev; [|intros [= <- <-]; by left]. destruct (cc_DevAuth config) eqn:Ed.
  - unfold on_pg. cbn [bt_pg]. destruct (ensureDevOwner _ s) as [[[]|e] s'] eqn:Eo; intros [= <- <-]; cbn [bt_open fst].
    + done.
    + right. done.
  - destruct (ou_discovery o) as [[]|e] eqn:Edi; intros [= <- <-]; cbn [bt_open bt_pg]; [done|]. right. eauto.
Qed.

(** No path of the interface shows a page; every other path shows the file of its
    name, or the start page where there is none, once the pages are built. *)
Theorem frontend_spec assets path :
  match frontend assets path with
  | NotFound => HasPrefix path "/api/" = true
  | NotBuilt => assets "index.html" = None
  | Page data kind => HasPrefix path "/api/" = false /\ kind = content_type (page_path path)
      /\ (assets (page_path path) = Some data \/ assets (page_path path) = None /\ assets "index.html" = Some data)
  end.
Proof.
  unfold frontend. destruct (HasPrefix path "/api/"); [done|]. destruct (assets (page_path path)) as [d|] eqn:E; [auto|].
  destruct (assets "index.html") as [d|] eqn:Ei; auto.
Qed.

(** The page that is served for a script that does not exist. *)
Example missing_script :
  frontend (fun name => if String.eqb name "index.html" then Some "<html>" else None) "/assets/old.js" = Page "<html>" (Some "text/javascript").
Proof. reflexivity. Qed.

(** A user is shown each of their devices once, in the order of the slots, and
    nothing of anybody else: the answer depends on the devices of the user alone.
    A connection that breaks while the rows arrive shortens the list without a
    trace. *)
Theorem devices_are_own {PU : PgUuid} s user delivered t ab ids :
  canonical_uuid (ss_UserID s) = Ok user ->
  exists rows, rows ≡ₚ map_to_list (own_devices user t) /\ StronglySorted slot_le rows
    /\ devices s delivered (mkPg t [] ab ids)
       = (Ok (jsonResponse 200 (items ← mapM device_item (match delivered with Some n => take n rows | None => rows end);
                                Some (JObj [("items", JArr items)]))), mkPg t [] ab ids)
    /\ (forall t' ab' ids', own_devices user t' = own_devices user t ->
          (devices s delivered (mkPg t' [] ab' ids')).1 = (devices s delivered (mkPg t [] ab ids)).1).
Proof.
  intros Hu. exists (merge_sort slot_le (map_to_list (own_devices user t))).
  split; [apply merge_sort_Permutation|]. split; [apply StronglySorted_merge_sort; apply _|].
  assert (Hrun : forall t0 ab0 ids0, devices s delivered (mkPg t0 [] ab0 ids0)
    = (Ok (jsonResponse 200 (items ← mapM device_item (match delivered with Some n => take n (merge_sort slot_le (map_to_list (own_devices user t0)))
             | None => merge_sort slot_le (map_to_list (own_devices user t0)) end); Some (JObj [("items", JArr items)]))), mkPg t0 [] ab0 ids0)).
  { intros t0 ab0 ids0. unfold devices, bind, try, pool, select, device_listing. cbn. by rewrite Hu. }
  split; [apply Hrun|]. intros t' ab' ids' Ht. by rewrite !Hrun, Ht.
Qed.
